(* ===== verification/_CoqProject ===== *)
-Q . S2P
Prelude.v
Externals.v
Cryptography.v
NetUrl.v
W3cDid.v
Tx.v
Chain.v
Toy.v
ChainFacts.v
MemStore.v
MemStoreFacts.v
Validator.v
StoreProps.v
Ipfs.v
IpfsFacts.v
IpfsProps.v
IpfsBlocks.v
MemPool.v
ValidatorFacts.v
IpfsGenesis.v
IpfsValidator.v
IpfsDemo.v
CatchUp.v
Register.v
RegisterDemo.v
ConsensusState.v
Consensus.v
ConsensusFacts.v
ConsensusProps.v
ConsensusVotes.v
ConsensusNet.v
ConsensusBlock.v
ConsensusLive.v
ConsensusRound.v
ConsensusStall.v
ConsensusDemo.v
ConsensusLiveDemo.v
Stream.v
StreamProps.v
Identity.v
IdentityProps.v
IdentityDemo.v
Comm.v
CommClient.v
CommProps.v
Keys.v
CommDemo.v
Text.v
Config.v
DidHandler.v
DidProps.v
Resolver.v
DidDemo.v
Os.v
IpfsOpen.v
GenGen.v
GenesisRun.v
GenProps.v
GenDemo.v
Beacon.v
Node.v
NodeProps.v
NodeDemo.v
Api.v
ApiProps.v
ServedNode.v
ApiDemo.v
Cli.v
CliProps.v
Serve.v
CliDemo.v
