(* ===== verification/Prelude.v ===== *)
(** * didem: verification of the DID register node (root file)

    didem is a peer-to-peer register of decentralised identifiers.  Nodes agree
    on blocks of transactions that add, change and revoke DID documents and the
    nodes themselves; beside that a node sends and receives messages between
    identities.  This library models the node's own Go code as functions of an
    explicit state and proves what makes its parts correct.

    ** Parts of the program and where they are modelled

    - [Prelude]: byte sequences, machine integers, Go errors, the state-passing
      monad [GoM] (a Go body that returns or panics, keeping the state reached),
      weakest preconditions, the rules [preserves] and [err_keeps], maps that may
      be nil, the order of a range over a map, little-endian words.
    - [Externals]: the libraries the program calls, as the class [Lib] and one
      class of documented laws per library.  [NetUrl]: the part of net/url that
      DID URLs use.
    - [Cryptography] (pkg/cryptography), [W3cDid] (pkg/did/w3cdid), [Tx]
      (pkg/tx): keys and signatures, DID documents and URLs, transactions.
    - [Chain] (pkg/storage: chain.go, bloom.go, genesis.go, storage.go): blocks,
      Merkle sets, bloom filters and the interface [Store]; [ChainFacts] states
      the contract [ContentStore] that clients of a store rely on, and proves
      [NewTxSet], [NewBlock] and the walk over a set against it.
    - [MemStore], [MemStoreFacts], [StoreProps] (pkg/storage/memstore.go): the
      in-memory store, an instance of [Store] and of the contract.
    - [Ipfs], [IpfsFacts], [IpfsProps], [IpfsBlocks], [IpfsGenesis],
      [IpfsValidator] (internal/storage/ipfs.go, internal/coinflip): the
      persistent store over pebble and IPFS.
    - [Validator], [ValidatorFacts], [CatchUp] (pkg/storage/validator.go):
      validation of transactions and blocks, and catching up with a tip, over any
      [Store].
    - [Register]: an abstract register of DIDs and nodes, which the persistent
      store refines, and the agreement of the two stores on the nodes, which the
      consensus engine takes its proposers and keys from.
    - [MemPool] (pkg/did/consensus/mempool.go): the pool of transactions on
      container/heap.
    - [ConsensusState], [Consensus] (pkg/did/consensus): the state of a node and
      every handler; [ConsensusFacts], [ConsensusProps], [ConsensusVotes],
      [ConsensusNet], [ConsensusBlock]: the theorems on them; [ConsensusLive],
      [ConsensusRound]: a node and a network that commit; [ConsensusStall]: the
      message that keeps them from it.
    - [Stream], [StreamProps] (internal/stream): messages with a length prefix on
      a network stream, with bufio and bytes.Buffer written out.
    - [Identity], [IdentityProps] (pkg/did, internal/did/fileStore.go): public and
      private identities and the identity file.
    - [Comm], [CommClient], [CommProps] (internal/comm, pkg/comm): the mail
      protocol, server and client.  [Keys]: making keys and identities.
    - [DidHandler], [DidProps] (internal/did/handler.go): asking for the tip,
      catching up and starting the consensus engine.
    - [Resolver] (pkg/did/resolver): resolving DIDs through DNS.
    - [Text]: strings, bytes, path, hex, base64 and big-endian words of the Go
      distribution, as far as the files below use them.  [Config]
      (internal/config): the settings of a node and the genesis in them.
      [Os], [IpfsOpen]: files by path, and opening the persistent store.
    - [GenGen], [GenesisRun], [GenProps] (scripts/gengen): the program that makes
      the genesis of a network, and a network that starts from what it prints.
    - [Beacon] (internal/node/drand.go), [Node], [NodeProps] (internal/node): the
      randomness source, and how a node is put together.
    - [Api], [ApiProps], [ServedNode] (internal/api, the daemon of internal/cli):
      the service of the mail command, whose [Send] is a step relation over its
      goroutines, and the service on the nodes that [NewNode] makes.
    - [Cli], [CliProps] (internal/cli): the commands.  [Serve] (internal/api,
      internal/cli, cmd): the server around the calls of the service, the client,
      the tree of commands and the program's entry.
    - [Toy] and the files that end in [Demo]: a concrete instance of all the
      parameters, on which every theorem with hypotheses is evaluated.

    ** How the model relates to the code

    A struct is a record with the fields of the source, a method is a definition
    of the same name (with a prefix where several types have it) in [GoM] over
    the record, in the order of the source, early returns and errors included.
    An index out of range, a nil dereference, a failed type assertion and a
    division by zero are panics.  Integers are [Z] with their wrap-around where
    it can happen ([u64], [u32]).  A mutex is the atomicity of the operation it
    guards; goroutines are events of a step relation ([handle] in [Consensus],
    with the sleep of [startRound] as a point where others run; a handler is one
    event, also where it checks before it locks), or bodies run in
    an arbitrary order.  A slice that aliases a buffer is a reference into it
    ([Stream]).  Where goroutines share a slice and one of them does not
    lock ([Api]), a read and a write of it are two steps.  Go's range over a map
    visits it in an order that is a parameter ([RangeOrder]).  The memory of
    stores is explicit, since scratch stores are copies or share a batch.

    ** What the theorems show

    - Consensus: a node moves its tip only with more than f prevotes and
      precommits of distinct peers, each received and verified with the key
      registered for its sender ([authentic]); counted votes are current; a
      conflict exposes the peers that voted for both blocks.  These hold in every
      run, with others running during the sleep of [startRound], up to votes for
      no block; that no such vote is counted is shown of the runs in which no vote
      is handled during the sleep ([calm]).  Further: one vote per round; what one
      node sends the others accept; a message that does not verify with the
      registered key changes nothing; proposers agree.  And progress: any number of followers that find the proposed block valid and
      hear each other and the block message all commit it ([round_commits]); the
      proposer, though, never sends that message ([block_never_announced]).
    - Pool and blocks: the pool refines a bag from which the oldest is taken;
      blocks are made of the oldest transactions; sets give back exactly the
      transactions they were built from.
    - Stores: the persistent store refines the register, and stores that show the
      same nodes, one persistent and one in memory, stay in agreement; accepting a block, genesis as a whole or
      not at all, isolation of scratch stores.
    - Validation: what an accepted registration and block guarantee.
    - Streams, identities, mail, joining: messages that fit are delivered
      unchanged, in a slice that shows them until the next call; identities survive in their file; hellos carry a verifiable
      signature; asking for a tip gives the tip.
    - Setting up: what the generator prints is a configuration with which nodes
      apply the genesis and hear each other; a node that was made has its host,
      beacon and handlers; the beacon ticks at every tenth round.
    - Mail from the prompt: the parts of the input are the attachments of the
      message; in every interleaving a call of [Send] responds and reports one
      error for each recipient.
    - Defects: theorems of the kind error state what the code does where it does
      not do what it means to; PROJECT.json lists them as findings.

    ** Bounds and fuel

    The Merkle walk has one unit of fuel for the root and one for each child of a
    stored set, and is proved to end within it; [NewTxSet] reduces at most as many
    levels as it has nodes; container/heap sifts at most the length of the slice;
    bufio's writer loops at most twice ([bufio_Write_frame]); the resolver makes at most seven calls
    ([Resolve_ends]); a run of [Send] has at most six steps for each recipient and
    one more ([send_responds]); [ApplyFromTip] needs one more than the height of the
    tip where heights grow ([ApplyFromTip_ends]).  The loops of [did_Start] and the
    resolver may go on for ever: their fuel is an argument, and [None] is no result.

    ** Not modelled, and why

    gRPC, cobra, viper, libp2p, drand, pebble, IPFS, DNS and the cryptographic
    primitives are parameters with their documented laws.  Left out are logging
    and tracing, which change no state of the program ([SetTracer], the tracer's
    hooks; of [watchEvents] what is logged is modelled); methods that only return a
    field; the generated protobuf code; empty files and aliases of library types
    (jwk.go, pgp.go, rsa.go); and the test plan (tests/plans), which does not
    compile.  Torn reads of a slice that two goroutines write are not in the model
    of [Send]: a read sees one of the values written.  In [round_commits] the
    messages of a phase arrive before those of the next; what happens to votes
    that come early or late is in the theorems on single nodes.  The workers of
    [ipfs_DIDHistory] take their turns one after the other. *)

From Stdlib Require Export Strings.Byte ZArith Lia.
From stdpp Require Export base gmap strings list fin_maps sorting numbers.


(** ** Byte sequences

    A Go [[]byte] is a list of bytes; a Go [string] is the byte string
    [String.string].  The conversions [[]byte(s)] and [string(b)] are those of
    the Standard Library. *)

Notation bytes := (list Byte.byte).

#[export] Instance byte_eq_dec : EqDecision Byte.byte.
Proof. intros x y. exact (Byte.byte_eq_dec x y). Defined.

#[export] Instance byte_countable : Countable Byte.byte.
Proof. exact (inj_countable Byte.to_N Byte.of_N Byte.of_to_N). Defined.

Definition bytes_of_string : string -> bytes := String.list_byte_of_string.
Definition string_of_bytes : bytes -> string := String.string_of_list_byte.

Lemma bytes_of_string_inj : Inj (=) (=) bytes_of_string.
Proof.
  intros s1 s2 H. unfold bytes_of_string in H.
  rewrite <- (String.string_of_list_byte_of_string s1), H.
  apply String.string_of_list_byte_of_string.
Qed.

Lemma string_of_bytes_of_string s : string_of_bytes (bytes_of_string s) = s.
Proof. apply String.string_of_list_byte_of_string. Qed.

Lemma bytes_of_string_of_bytes b : bytes_of_string (string_of_bytes b) = b.
Proof. apply String.list_byte_of_string_of_list_byte. Qed.

(** ** Machine integers *)

Definition u64 (z : Z) : Z := z mod 2 ^ 64.
Definition u32 (z : Z) : Z := z mod 2 ^ 32.

Lemma u64_small z : (0 <= z < 2 ^ 64)%Z -> u64 z = z.
Proof. apply Z.mod_small. Qed.

Lemma u32_small z : (0 <= z < 2 ^ 32)%Z -> u32 z = z.
Proof. apply Z.mod_small. Qed.

Lemma u64_range z : (0 <= u64 z < 2 ^ 64)%Z.
Proof. apply Z.mod_pos_bound. lia. Qed.

Lemma u32_range z : (0 <= u32 z < 2 ^ 32)%Z.
Proof. apply Z.mod_pos_bound. lia. Qed.

(** [binary.LittleEndian.PutUint32] and [Uint32], which panics on a slice of
    less than 4 bytes. *)
Definition byte_of (z : Z) : Byte.byte := from_option id x00 (Byte.of_N (Z.to_N (z mod 256))).

Definition PutUint32 (v : Z) : bytes :=
  [byte_of v; byte_of (Z.shiftr v 8); byte_of (Z.shiftr v 16); byte_of (Z.shiftr v 24)].

Definition z_of_byte (b : Byte.byte) : Z := Z.of_N (Byte.to_N b).

Definition Uint32 (b : bytes) : option Z :=
  match b with
  | b0 :: b1 :: b2 :: b3 :: _ =>
      Some (Z.lor (z_of_byte b0) (Z.lor (Z.shiftl (z_of_byte b1) 8)
             (Z.lor (Z.shiftl (z_of_byte b2) 16) (Z.shiftl (z_of_byte b3) 24))))
  | _ => None
  end.

Lemma z_of_byte_of z : z_of_byte (byte_of z) = (z mod 256)%Z.
Proof.
  unfold z_of_byte, byte_of. pose proof (Z.mod_pos_bound z 256 ltac:(lia)).
  destruct (Byte.of_N (Z.to_N (z mod 256))) as [b|] eqn:Hb; simpl.
  - apply Byte.to_of_N in Hb. lia.
  - apply Byte.of_N_None_iff in Hb. lia.
Qed.

(** Bit [n] of the byte of [v] that starts at bit [k]. *)
Lemma byte_bit v k n :
  (0 <= k)%Z -> (0 <= n)%Z ->
  Z.testbit (Z.shiftl (Z.shiftr v k mod 2 ^ 8) k) n
  = bool_decide (k <= n < k + 8)%Z && Z.testbit v n.
Proof.
  intros Hk Hn. rewrite Z.shiftl_spec by lia. destruct (decide (k <= n)%Z).
  - destruct (decide (n < k + 8)%Z).
    + rewrite Z.mod_pow2_bits_low, Z.shiftr_spec, bool_decide_true by lia. cbn [andb].
      by replace (n - k + k)%Z with n by lia.
    + by rewrite Z.mod_pow2_bits_high, bool_decide_false by lia.
  - by rewrite Z.testbit_neg_r, bool_decide_false by lia.
Qed.

Lemma Uint32_PutUint32 v rest : Uint32 (PutUint32 v ++ rest) = Some (u32 v).
Proof.
  unfold PutUint32, u32. cbn [app Uint32]. rewrite !z_of_byte_of. f_equal.
  change 256%Z with (2 ^ 8)%Z.
  replace (v mod 2 ^ 8)%Z with (Z.shiftl (Z.shiftr v 0 mod 2 ^ 8) 0)
    by (by rewrite Z.shiftr_0_r, Z.shiftl_0_r).
  apply Z.bits_inj'. intros n Hn. rewrite !Z.lor_spec, !byte_bit by lia.
  destruct (decide (n < 32)%Z).
  - rewrite Z.mod_pow2_bits_low by lia.
    repeat case_bool_decide; try lia; by rewrite ?orb_false_r.
  - rewrite Z.mod_pow2_bits_high by lia. by repeat case_bool_decide; try lia.
Qed.

(** ** Go errors

    [errors.New] at package level makes a sentinel that code compares with
    [==]; [errors.New] inside a function makes a value nobody compares with;
    [errors.Wrap] of github.com/pkg/errors keeps the cause, and is [nil] on a
    [nil] cause. *)

Inductive error :=
| Sentinel (name : string)
| errorsNew (msg : string)
| errorsWrap (cause : error) (msg : string).

#[export] Instance error_eq_dec : EqDecision error.
Proof. solve_decision. Defined.

(** [errors.Wrap(err, msg)] *)
Definition Wrap (err : option error) (msg : string) : option error :=
  match err with Some e => Some (errorsWrap e msg) | None => None end.

(** [errors.Is(err, target)] for a sentinel target *)
Fixpoint errors_Is (e target : error) : bool :=
  bool_decide (e = target) ||
  match e with errorsWrap c _ => errors_Is c target | _ => false end.

(** The value of a Go function that returns [(T, error)]. *)
Inductive result (A : Type) :=
| Ok (a : A)
| Err (e : error).
Arguments Ok {A} _.
Arguments Err {A} _.

#[export] Instance result_ret : MRet result := fun _ a => Ok a.
#[export] Instance result_bind : MBind result := fun _ _ k r =>
  match r with Ok a => k a | Err e => Err e end.

Definition is_ok {A} (r : result A) : bool :=
  match r with Ok _ => true | Err _ => false end.

(** [x, err := r; if err != nil { return errors.Wrap(err, msg) }] *)
Definition wrap {A} (msg : string) (r : result A) : result A :=
  match r with Ok a => Ok a | Err e => Err (errorsWrap e msg) end.

Definition ok_opt {A} (r : result A) : option A :=
  match r with Ok a => Some a | Err _ => None end.

(** ** Go computations: explicit state passing, with panics

    [GoM S A] is a Go function body that reads and writes the state [S] and
    either returns an [A] or panics; the state reached is kept in both cases,
    which is what [recover] and [defer] see. *)

Inductive exit (A : Type) :=
| Ret (a : A)
| Panic.
Arguments Ret {A} _.
Arguments Panic {A}.

Definition GoM (S A : Type) : Type := S -> exit A * S.

#[export] Instance GoM_ret {S} : MRet (GoM S) := fun _ a s => (Ret a, s).
#[export] Instance GoM_bind {S} : MBind (GoM S) := fun _ _ k m s =>
  match m s with
  | (Ret a, s') => k a s'
  | (Panic, s') => (Panic, s')
  end.

Definition gpanic {S A} : GoM S A := fun s => (Panic, s).
Definition gget {S} : GoM S S := fun s => (Ret s, s).
Definition ggets {S A} (f : S -> A) : GoM S A := fun s => (Ret (f s), s).
Definition gmodify {S} (f : S -> S) : GoM S unit := fun s => (Ret tt, f s).
Definition gput {S} (x : S) : GoM S unit := fun _ => (Ret tt, x).

(** Dereferencing a pointer, or asserting a dynamic type. *)
Definition gsome {S A} (o : option A) : GoM S A :=
  match o with Some a => mret a | None => gpanic end.

Definition gwhen {S} (b : bool) (m : GoM S unit) : GoM S unit :=
  if b then m else mret tt.

(** [defer f()]: run the deferred body on return and on panic. *)
Definition gdefer {S A} (m : GoM S A) (d : GoM S unit) : GoM S A := fun s =>
  let (r, s') := m s in
  match d s' with
  | (Ret _, s'') => (r, s'')
  | (Panic, s'') => (Panic, s'')
  end.

(** [defer func() { if r := recover(); r != nil { ... } }()] *)
Definition grecover {S A} (m : GoM S A) (h : A) : GoM S A := fun s =>
  match m s with
  | (Ret a, s') => (Ret a, s')
  | (Panic, s') => (Ret h, s')
  end.

(** A body that works on a part of the state. *)
Definition gzoom {S T A} (get : S -> T) (set : T -> S -> S) (m : GoM T A) : GoM S A :=
  fun s => let (r, t) := m (get s) in (r, set t s).

(** [x, err := m; if err != nil { return err }; k x], for bodies that return a
    [result], and the same for bodies that return only an [error]. *)
Definition gtry {S A B} (m : GoM S (result A)) (k : A -> GoM S (result B)) :
  GoM S (result B) :=
  r ← m; match r with Ok a => k a | Err e => mret (Err e) end.

Definition gtry_e {S A} (m : GoM S (result A)) (k : A -> GoM S (option error)) :
  GoM S (option error) :=
  r ← m; match r with Ok a => k a | Err e => mret (Some e) end.

Definition gcheck {S A} (m : GoM S (option error)) (k : GoM S (result A)) :
  GoM S (result A) :=
  r ← m; match r with None => k | Some e => mret (Err e) end.

Definition gcheck_e {S} (m : GoM S (option error)) (k : GoM S (option error)) :
  GoM S (option error) :=
  r ← m; match r with None => k | Some e => mret (Some e) end.

Definition gwrap {S A} (msg : string) (m : GoM S (result A)) : GoM S (result A) :=
  r ← m; mret (wrap msg r).

Definition gwrap_e {S} (msg : string) (m : GoM S (option error)) : GoM S (option error) :=
  r ← m; mret (Wrap r msg).

(** [for _, x := range l { body }] where the body may stop the loop with an error *)
Fixpoint gfor_e {S A} (l : list A) (body : A -> GoM S (option error)) :
  GoM S (option error) :=
  match l with
  | [] => mret None
  | x :: l => gcheck_e (body x) (gfor_e l body)
  end.

(** The same loop when it builds a value. *)
Fixpoint gfold {S A B} (l : list A) (acc : B) (body : B -> A -> GoM S (result B)) :
  GoM S (result B) :=
  match l with
  | [] => mret (Ok acc)
  | x :: l => gtry (body acc x) (fun acc => gfold l acc body)
  end.

(** ** Weakest preconditions

    [wp m Q s]: from [s], [m] returns and [Q] holds.  [wlp] admits a panic. *)

Definition wp {S A} (m : GoM S A) (Q : A -> S -> Prop) (s : S) : Prop :=
  match m s with (Ret a, s') => Q a s' | (Panic, _) => False end.

Definition wlp {S A} (m : GoM S A) (Q : A -> S -> Prop) (s : S) : Prop :=
  match m s with (Ret a, s') => Q a s' | (Panic, _) => True end.

(** [I] survives [m], on a return and on a panic. *)
Definition preserves {S A} (I : S -> Prop) (m : GoM S A) : Prop :=
  forall s, I s -> I (m s).2.

Section wp_rules.
Context {S : Type}.
Implicit Types s : S.

Lemma wlp_bind {A B} (m : GoM S A) (k : A -> GoM S B) Q s :
  wlp (m ≫= k) Q s <-> wlp m (fun a => wlp (k a) Q) s.
Proof. unfold wlp, mbind, GoM_bind. by destruct (m s) as [[] ?]. Qed.

Lemma wp_bind {A B} (m : GoM S A) (k : A -> GoM S B) Q s :
  wp (m ≫= k) Q s <-> wp m (fun a => wp (k a) Q) s.
Proof. unfold wp, mbind, GoM_bind. by destruct (m s) as [[] ?]. Qed.

Lemma wp_mono {A} (m : GoM S A) (Q Q' : A -> S -> Prop) s :
  wp m Q s -> (forall a s', Q a s' -> Q' a s') -> wp m Q' s.
Proof. unfold wp. destruct (m s) as [[] ?]; auto. Qed.

Lemma wlp_mono {A} (m : GoM S A) (Q Q' : A -> S -> Prop) s :
  wlp m Q s -> (forall a s', Q a s' -> Q' a s') -> wlp m Q' s.
Proof. unfold wlp. destruct (m s) as [[] ?]; auto. Qed.

Lemma wp_wlp {A} (m : GoM S A) Q s : wp m Q s -> wlp m Q s.
Proof. unfold wp, wlp. by destruct (m s) as [[] ?]. Qed.

Lemma wp_ret_inv {A} (m : GoM S A) Q s :
  wp m Q s <-> exists a s', m s = (Ret a, s') /\ Q a s'.
Proof.
  unfold wp. destruct (m s) as [[a|] s'].
  - split; [eauto|]. intros (?&?&?&?). by simplify_eq.
  - split; [done|]. intros (?&?&?&?). by simplify_eq.
Qed.

(** A run, from its result. *)
Lemma run_fst {A} (m : GoM S A) r s : (m s).1 = r -> m s = (r, (m s).2).
Proof. destruct (m s). by intros <-. Qed.

Lemma wp_try {A B} (m : GoM S (result A)) (k : A -> GoM S (result B)) Q s :
  wp (gtry m k) Q s <->
  wp m (fun r s' => match r with Ok a => wp (k a) Q s' | Err e => Q (Err e) s' end) s.
Proof.
  unfold gtry. rewrite wp_bind. unfold wp at 1 3.
  destruct (m s) as [[[]|] ?]; done.
Qed.

Lemma wp_ret {A} (a : A) (Q : A -> S -> Prop) s : wp (mret a) Q s <-> Q a s.
Proof. done. Qed.

Lemma wlp_ret {A} (a : A) (Q : A -> S -> Prop) s : Q a s -> wlp (mret a) Q s.
Proof. done. Qed.

Lemma wlp_gets {A} (f : S -> A) (Q : A -> S -> Prop) s : Q (f s) s -> wlp (ggets f) Q s.
Proof. done. Qed.

Lemma wlp_get (Q : S -> S -> Prop) s : Q s s -> wlp gget Q s.
Proof. done. Qed.

Lemma wlp_modify (f : S -> S) (Q : unit -> S -> Prop) s : Q tt (f s) -> wlp (gmodify f) Q s.
Proof. done. Qed.

Lemma wlp_some {A} (o : option A) (Q : A -> S -> Prop) s :
  (forall a, o = Some a -> Q a s) -> wlp (gsome o) Q s.
Proof. destruct o; [|done]. intros HQ. by apply HQ. Qed.

(** A deferred body that returns. *)
Lemma wlp_defer {A} (m : GoM S A) (f : S -> S) (Q : A -> S -> Prop) s :
  wlp m (fun a s' => Q a (f s')) s -> wlp (gdefer m (gmodify f)) Q s.
Proof. unfold wlp, gdefer. by destruct (m s) as [[]]. Qed.

Lemma wp_gets {A} (f : S -> A) (Q : A -> S -> Prop) s : Q (f s) s -> wp (ggets f) Q s.
Proof. done. Qed.

Lemma wp_get (Q : S -> S -> Prop) s : Q s s -> wp gget Q s.
Proof. done. Qed.

Lemma wp_modify (f : S -> S) (Q : unit -> S -> Prop) s : Q tt (f s) -> wp (gmodify f) Q s.
Proof. done. Qed.

Lemma wp_some {A} (o : option A) a (Q : A -> S -> Prop) s : o = Some a -> Q a s -> wp (gsome o) Q s.
Proof. by intros ->. Qed.

Lemma wp_mret {A} (a : A) (Q : A -> S -> Prop) s : Q a s -> wp (mret a) Q s.
Proof. done. Qed.

Lemma wp_defer {A} (m : GoM S A) (f : S -> S) (Q : A -> S -> Prop) s :
  wp m (fun a s' => Q a (f s')) s -> wp (gdefer m (gmodify f)) Q s.
Proof. unfold wp, gdefer. by destruct (m s) as [[]]. Qed.

(** A body that returned went through its calls. *)
Lemma bind_inv {A B} (m : GoM S A) (k : A -> GoM S B) b s s' :
  (m ≫= k) s = (Ret b, s') -> exists a s1, m s = (Ret a, s1) /\ k a s1 = (Ret b, s').
Proof. unfold mbind, GoM_bind. destruct (m s) as [[a|] s1]; [by eauto|done]. Qed.

Lemma check_e_inv (m k : GoM S (option error)) s s' :
  gcheck_e m k s = (Ret None, s') -> exists s1, m s = (Ret None, s1) /\ k s1 = (Ret None, s').
Proof. intros ([e|]&s1&Hm&Hk)%bind_inv; [done|eauto]. Qed.

Lemma wrap_e_inv msg (m : GoM S (option error)) s s' :
  gwrap_e msg m s = (Ret None, s') -> m s = (Ret None, s').
Proof. intros ([e|]&s1&Hm&Hk)%bind_inv; [done|]. by injection Hk as <-. Qed.

Lemma try_e_inv {A} (m : GoM S (result A)) (k : A -> GoM S (option error)) s s' :
  gtry_e m k s = (Ret None, s') -> exists a s1, m s = (Ret (Ok a), s1) /\ k a s1 = (Ret None, s').
Proof. intros ([a|e]&s1&Hm&Hk)%bind_inv; [eauto|done]. Qed.

Lemma wrap_inv {A} msg (m : GoM S (result A)) a s s' :
  gwrap msg m s = (Ret (Ok a), s') -> m s = (Ret (Ok a), s').
Proof. intros ([x|e]&s1&Hm&Hk)%bind_inv; [|done]. by injection Hk as <- <-. Qed.

Lemma try_inv {A B} (m : GoM S (result A)) (k : A -> GoM S (result B)) b s s' :
  gtry m k s = (Ret (Ok b), s') -> exists a s1, m s = (Ret (Ok a), s1) /\ k a s1 = (Ret (Ok b), s').
Proof. intros ([a|e]&s1&Hm&Hk)%bind_inv; [eauto|done]. Qed.

Lemma check_inv {A} (m : GoM S (option error)) (k : GoM S (result A)) b s s' :
  gcheck m k s = (Ret (Ok b), s') -> exists s1, m s = (Ret None, s1) /\ k s1 = (Ret (Ok b), s').
Proof. intros ([e|]&s1&Hm&Hk)%bind_inv; [done|eauto]. Qed.

Lemma preserves_ret {A} (I : S -> Prop) (a : A) : preserves I (mret a).
Proof. by intros s. Qed.

Lemma preserves_panic {A} (I : S -> Prop) : preserves (A := A) I gpanic.
Proof. by intros s. Qed.

Lemma preserves_some {A} (I : S -> Prop) (o : option A) : preserves I (gsome o).
Proof. intros s Hs. by destruct o. Qed.

Lemma preserves_gets {A} (I : S -> Prop) (f : S -> A) : preserves I (ggets f).
Proof. by intros s. Qed.

Lemma preserves_get (I : S -> Prop) : preserves I gget.
Proof. by intros s. Qed.

Lemma preserves_modify (I : S -> Prop) (f : S -> S) :
  (forall s, I s -> I (f s)) -> preserves I (gmodify f).
Proof. by intros H s ?; apply H. Qed.

Lemma preserves_bind {A B} (I : S -> Prop) (m : GoM S A) (k : A -> GoM S B) :
  preserves I m -> (forall a, preserves I (k a)) -> preserves I (m ≫= k).
Proof.
  intros Hm Hk s Hs. specialize (Hm s Hs). unfold mbind, GoM_bind.
  destruct (m s) as [[a|] s']; [by apply Hk|done].
Qed.

Lemma preserves_when (I : S -> Prop) b (m : GoM S unit) :
  preserves I m -> preserves I (gwhen b m).
Proof. destruct b; [done|]. intros _. apply preserves_ret. Qed.

Lemma preserves_wrap_e (I : S -> Prop) msg (m : GoM S (option error)) :
  preserves I m -> preserves I (gwrap_e msg m).
Proof. intros. apply preserves_bind; [done|]. intros. apply preserves_ret. Qed.

Lemma preserves_wrap {A} (I : S -> Prop) msg (m : GoM S (result A)) :
  preserves I m -> preserves I (gwrap msg m).
Proof. intros. apply preserves_bind; [done|]. intros. apply preserves_ret. Qed.

Lemma preserves_check_e (I : S -> Prop) (m k : GoM S (option error)) :
  preserves I m -> preserves I k -> preserves I (gcheck_e m k).
Proof.
  intros. apply preserves_bind; [done|].
  intros [e|]; [apply preserves_ret|done].
Qed.

Lemma preserves_try {A B} (I : S -> Prop) (m : GoM S (result A))
    (k : A -> GoM S (result B)) :
  preserves I m -> (forall a, preserves I (k a)) -> preserves I (gtry m k).
Proof.
  intros. apply preserves_bind; [done|].
  intros [a|e]; [done|apply preserves_ret].
Qed.

Lemma preserves_try_e {A} (I : S -> Prop) (m : GoM S (result A))
    (k : A -> GoM S (option error)) :
  preserves I m -> (forall a, preserves I (k a)) -> preserves I (gtry_e m k).
Proof.
  intros. apply preserves_bind; [done|].
  intros [a|e]; [done|apply preserves_ret].
Qed.

Lemma preserves_for_e {A} (I : S -> Prop) (l : list A) body :
  (forall x, preserves I (body x)) -> preserves I (gfor_e l body).
Proof.
  intros H. induction l; simpl; [apply preserves_ret|].
  by apply preserves_check_e.
Qed.

(** A loop that ends without error went through every element: what the body
    establishes, from a state of the invariant, holds of each. *)
Lemma gfor_e_ok {A} (I : S -> Prop) (P : A -> Prop) (l : list A) body s s' :
  (forall x, preserves I (body x)) ->
  (forall x s s', I s -> body x s = (Ret None, s') -> P x) ->
  I s -> gfor_e l body s = (Ret None, s') -> Forall P l /\ I s'.
Proof.
  intros HI HP. revert s. induction l as [|x l IH]; simpl; intros s Hs Hr.
  { injection Hr as <-. by split. }
  unfold gcheck_e, mbind, GoM_bind in Hr. pose proof (HI x s Hs) as Hs1.
  destruct (body x s) as [[[e|]|] s1] eqn:Hb; try done.
  destruct (IH s1 Hs1 Hr) as [HF Hs']. split; [|done]. constructor; [exact (HP x s s1 Hs Hb)|done].
Qed.

Lemma preserves_fold {A B} (I : S -> Prop) (l : list A) (acc : B) body :
  (forall acc x, preserves I (body acc x)) -> preserves I (gfold l acc body).
Proof.
  intros H. revert acc. induction l; simpl; intros acc; [apply preserves_ret|].
  apply preserves_try; [apply H|]. intros; apply IHl.
Qed.

Lemma preserves_defer {A} (I : S -> Prop) (m : GoM S A) d :
  preserves I m -> preserves I d -> preserves I (gdefer m d).
Proof.
  intros Hm Hd s Hs. unfold gdefer. specialize (Hm s Hs). destruct (m s) as [r s1].
  specialize (Hd s1 Hm). by destruct (d s1) as [[] s2].
Qed.

Lemma preserves_zoom {T A} (I : S -> Prop) (get : S -> T) set (m : GoM T A) :
  (forall s, I s -> I (set (m (get s)).2 s)) -> preserves I (gzoom get set m).
Proof. intros H s Hs. specialize (H s Hs). unfold gzoom. by destruct (m (get s)). Qed.

(** [I] survives [m] unless [m] returns without error. *)
Definition err_keeps (I : S -> Prop) (m : GoM S (option error)) : Prop :=
  forall r s s', I s -> m s = (r, s') -> r <> Ret None -> I s'.

Lemma err_keeps_preserves (I : S -> Prop) m : preserves I m -> err_keeps I m.
Proof. intros Hm r s s' Hs Hr _. specialize (Hm s Hs). by rewrite Hr in Hm. Qed.

Lemma err_keeps_bind {A} (I : S -> Prop) (m : GoM S A) (k : A -> GoM S (option error)) :
  preserves I m -> (forall a, err_keeps I (k a)) -> err_keeps I (m ≫= k).
Proof.
  intros Hm Hk r s s' Hs. unfold mbind, GoM_bind. specialize (Hm s Hs).
  destruct (m s) as [[a|] s1]; [by apply Hk|by intros [= <- <-]].
Qed.

Lemma err_keeps_check_e (I : S -> Prop) (m k : GoM S (option error)) :
  preserves I m -> err_keeps I k -> err_keeps I (gcheck_e m k).
Proof.
  intros Hm Hk. apply err_keeps_bind; [done|].
  intros [e|]; [apply err_keeps_preserves, preserves_ret|done].
Qed.

Lemma err_keeps_try_e {A} (I : S -> Prop) (m : GoM S (result A)) (k : A -> GoM S (option error)) :
  preserves I m -> (forall a, err_keeps I (k a)) -> err_keeps I (gtry_e m k).
Proof.
  intros Hm Hk. apply err_keeps_bind; [done|].
  intros [a|e]; [done|apply err_keeps_preserves, preserves_ret].
Qed.

Lemma err_keeps_wrap_e (I : S -> Prop) msg (m : GoM S (option error)) :
  err_keeps I m -> err_keeps I (gwrap_e msg m).
Proof.
  intros Hm r s s' Hs. unfold gwrap_e, mbind, GoM_bind.
  destruct (m s) as [[[e|]|] s1] eqn:Hr; intros [= <- <-] Hne; [by eapply Hm|done|by eapply Hm].
Qed.
End wp_rules.

Create HintDb go discriminated.
#[export] Hint Resolve preserves_ret preserves_panic preserves_some preserves_gets
  preserves_get preserves_bind preserves_when preserves_wrap_e preserves_wrap
  preserves_check_e preserves_try preserves_try_e preserves_for_e preserves_fold : go.

(** ** Iteration over a Go map

    [for k, v := range m] visits the entries in an order the runtime picks: the
    order is a parameter, known only to be a permutation of the entries. *)

Class RangeOrder := {
  range_order : forall {A : Type}, list A -> list A;
  range_order_perm : forall {A : Type} (l : list A), range_order l ≡ₚ l
}.

Definition map_range `{RangeOrder, Countable K} {V} (m : gmap K V) : list (K * V) :=
  range_order (map_to_list m).

Lemma map_range_perm `{RangeOrder, Countable K} {V} (m : gmap K V) :
  map_range m ≡ₚ map_to_list m.
Proof. apply range_order_perm. Qed.

Lemma elem_of_map_range `{RangeOrder, Countable K} {V} (m : gmap K V) k v :
  (k, v) ∈ map_range m <-> m !! k = Some v.
Proof. rewrite map_range_perm. apply elem_of_map_to_list. Qed.

Lemma map_range_nodup_fst `{RangeOrder, Countable K} {V} (m : gmap K V) :
  NoDup (map_range m).*1.
Proof. rewrite map_range_perm. apply NoDup_fst_map_to_list. Qed.

Lemma elem_of_map_range_fst `{RangeOrder, Countable K} {V} (m : gmap K V) k :
  k ∈ (map_range m).*1 <-> k ∈ dom m.
Proof.
  rewrite elem_of_dom, list_elem_of_fmap. split.
  - intros ([k' v]&->&Hk%elem_of_map_range). by eexists.
  - intros [v Hv%elem_of_map_range]. by exists (k, v).
Qed.

Definition range_asc : RangeOrder :=
  {| range_order _ l := l; range_order_perm _ l := Permutation_refl l |}.

Definition range_desc : RangeOrder :=
  {| range_order _ l := reverse l; range_order_perm _ l := reverse_Permutation l |}.

(** ** Go maps that may be [nil]

    Reading a [nil] map finds nothing, its length is 0, writing to it panics. *)

Notation gomap K V := (option (gmap K V)).

Section gomap.
Context `{Countable K} {V : Type}.

Definition gm_make : gomap K V := Some ∅.
Definition gm_get (k : K) (m : gomap K V) : option V := m ≫= lookup k.
Definition gm_len (m : gomap K V) : nat := from_option size 0 m.
Definition gm_set (k : K) (v : V) (m : gomap K V) : option (gomap K V) :=
  match m with Some m => Some (Some (<[k := v]> m)) | None => None end.
End gomap.

(** ** Shared list lemmas *)

(** [l[i] = x] for an index in range is stdpp's [<[i := x]> l]; a swap. *)
Definition list_swap {A} (i j : nat) (l : list A) : list A :=
  match l !! i, l !! j with
  | Some x, Some y => <[j := x]> (<[i := y]> l)
  | _, _ => l
  end.

Lemma list_swap_length {A} i j (l : list A) : length (list_swap i j l) = length l.
Proof. unfold list_swap. repeat case_match; by rewrite ?length_insert. Qed.

Lemma list_swap_lookup {A} i j (l : list A) k :
  i < length l -> j < length l ->
  list_swap i j l !! k =
    if decide (k = j) then l !! i else if decide (k = i) then l !! j else l !! k.
Proof.
  intros Hi Hj. unfold list_swap.
  destruct (lookup_lt_is_Some_2 l i Hi) as [x Hx].
  destruct (lookup_lt_is_Some_2 l j Hj) as [y Hy].
  rewrite Hx, Hy. repeat case_decide; subst.
  - by rewrite list_lookup_insert_eq by (rewrite length_insert; lia).
  - rewrite list_lookup_insert_ne by done. by rewrite list_lookup_insert_eq by lia.
  - by rewrite !list_lookup_insert_ne by done.
Qed.

Lemma list_swap_perm {A} i j (l : list A) : list_swap i j l ≡ₚ l.
Proof.
  unfold list_swap.
  destruct (l !! i) as [x|] eqn:Hx; [|done].
  destruct (l !! j) as [y|] eqn:Hy; [|done].
  destruct (decide (i = j)) as [->|Hij].
  { rewrite Hx in Hy. injection Hy as <-. by rewrite !list_insert_id by (rewrite ?list_insert_id; done). }
  apply Permutation_inj. split; [by rewrite !length_insert|].
  exists (fun k => if decide (k = j) then i else if decide (k = i) then j else k).
  split; [intros ??; repeat case_decide; congruence|].
  intros k. apply lookup_lt_Some in Hx as Hi. apply lookup_lt_Some in Hy as Hj.
  repeat case_decide; subst.
  - by rewrite list_lookup_insert_eq by (rewrite length_insert; lia).
  - rewrite list_lookup_insert_ne by done. by rewrite list_lookup_insert_eq by lia.
  - by rewrite !list_lookup_insert_ne by done.
Qed.

(** Induction two elements at a time. *)
Lemma list_ind2 {A} (P : list A -> Prop) :
  P [] -> (forall x, P [x]) -> (forall x y l, P l -> P (x :: y :: l)) -> forall l, P l.
Proof.
  intros H0 H1 H2. assert (forall l, P l /\ forall x, P (x :: l)) as Hl.
  { induction l as [|y l [IH1 IH2]]; split; auto. }
  intros l. apply Hl.
Qed.

Lemma list_to_set_size `{Countable A} (l : list A) :
  size (list_to_set l : gset A) <= length l.
Proof.
  induction l as [|x l IH]; simpl; [done|].
  destruct (decide (x ∈ (list_to_set l : gset A))).
  - replace ({[x]} ∪ list_to_set l : gset A) with (list_to_set l : gset A) by set_solver. lia.
  - rewrite size_union by set_solver. rewrite size_singleton. lia.
Qed.

Lemma filter_all {A} (P : A -> Prop) `{!forall x, Decision (P x)} (l : list A) :
  (forall x, x ∈ l -> P x) -> filter P l = l.
Proof.
  induction l as [|x l IH]; intros Hl; [done|].
  rewrite filter_cons_True by (apply Hl; by left). f_equal. apply IH. intros y Hy. apply Hl. by right.
Qed.

Lemma pair_fst {A B} (p : A * B) a : p.1 = a -> p = (a, p.2).
Proof. by destruct p; intros <-. Qed.

(** ** Tactics *)

(** Run a computation under [wlp] up to the next call or branch. *)
Ltac wlp_run :=
  repeat first
    [ rewrite wlp_bind
    | lazymatch goal with
      | |- wlp (ggets _) _ _ => apply wlp_gets
      | |- wlp gget _ _ => apply wlp_get
      | |- wlp (gmodify _) _ _ => apply wlp_modify
      | |- wlp (gsome _) _ _ => apply wlp_some; intros ? ?
      | |- wlp (mret _) _ _ => apply wlp_ret
      end ].

(** The same under [wp]; a dereference stops it. *)
Ltac wp_run :=
  repeat first
    [ rewrite wp_bind
    | lazymatch goal with
      | |- wp (ggets _) _ _ => apply wp_gets
      | |- wp gget _ _ => apply wp_get
      | |- wp (gmodify _) _ _ => apply wp_modify
      | |- wp (mret _) _ _ => apply wp_mret
      end ].

(** Unfold the computation monad and reduce. *)
Ltac go_unfold :=
  unfold gtry, gtry_e, gcheck, gcheck_e, gwrap, gwrap_e, gwhen, gsome, gget, ggets,
    gmodify, gput, gpanic, mret, mbind, GoM_ret, GoM_bind in *.

(** Case on every match of the goal, closing the impossible branches. *)
Ltac go_cases := repeat (case_match; simplify_eq/=); try done.

(** Both sides of an equality evaluate to the same value. *)
Ltac by_vm := match goal with |- _ = ?b => vm_cast_no_check (@eq_refl _ b) end.

(** Walk through a computation that never writes what the invariant [fun s => f s = k]
    reads; [leaf] closes the calls it does not open. *)
Ltac preserves_step leaf :=
  lazymatch goal with
    | |- preserves _ (mret _) => apply preserves_ret
    | |- preserves _ (gsome _) => apply preserves_some
    | |- preserves _ (ggets _) => apply preserves_gets
    | |- preserves _ gget => apply preserves_get
    | |- preserves _ gpanic => apply preserves_panic
    | |- preserves _ (gmodify _) => apply preserves_modify; first [intros ? <-; reflexivity | by intros ? ?]
    | |- preserves _ (gzoom _ _ _) => apply preserves_zoom; first [intros ? <-; reflexivity | by intros ? ?]
    | |- preserves _ (gtry _ _) => apply preserves_try
    | |- preserves _ (gtry_e _ _) => apply preserves_try_e
    | |- preserves _ (gcheck_e _ _) => apply preserves_check_e
    | |- preserves _ (gwrap _ _) => apply preserves_wrap
    | |- preserves _ (gwrap_e _ _) => apply preserves_wrap_e
    | |- preserves _ (gfold _ _ _) => apply preserves_fold
    | |- preserves _ (gdefer _ _) => apply preserves_defer
    | |- preserves _ (gwhen _ _) => apply preserves_when
    | |- preserves _ (mbind _ _) => apply preserves_bind
    | |- preserves _ _ => first [leaf | case_match]
    | |- forall _, _ => intro
    end.
Ltac preserves_walk leaf := repeat preserves_step leaf.
