(* ===== verification/Externals.v ===== *)
(** * Third-party libraries the program calls

    Code that is not in the repository is a parameter: the class [Lib] holds
    the types and functions of go-cid, go-multihash, go-multibase, libp2p's
    peer identifiers, kyber's BLS12-381 pairing, go-ethereum's secp256k1,
    the bloom filter package and the cryptographic primitives of the Go
    distribution.  What the program relies on is stated in one small class of
    documented laws per library, so that a theorem assumes only what it uses. *)

From S2P Require Import Prelude.

Class Lib := {
  (** github.com/ipfs/go-cid *)
  Cid : Type;
  Cid_eq_dec :: EqDecision Cid;
  Cid_countable :: Countable Cid;
  cid_Undef : Cid;
  cid_String : Cid -> string;
  cid_Bytes : Cid -> bytes;
  cid_Decode : string -> result Cid;
  cid_ParseCid : Cid -> result Cid;
  cid_ParseString : string -> result Cid;
  cid_Cast : bytes -> result Cid;
  cid_NewCidV1 : Z -> bytes -> Cid;

  (** github.com/multiformats/go-multihash *)
  multihash_Sum : bytes -> Z -> result bytes;

  (** github.com/multiformats/go-multibase *)
  multibase_Encode : Z -> bytes -> result string;
  multibase_Decode : string -> result (Z * bytes);

  (** github.com/libp2p/go-libp2p-core/peer *)
  PeerID : Type;
  PeerID_eq_dec :: EqDecision PeerID;
  PeerID_countable :: Countable PeerID;
  peer_String : PeerID -> string;
  peer_MarshalBinary : PeerID -> result bytes;

  (** github.com/drand/kyber, kyber-bls12381, kyber/sign/bls *)
  Point : Type;
  Scalar : Type;
  point_UnmarshalBinary : bytes -> result Point;
  point_MarshalBinary : Point -> result bytes;
  point_MulBase : Scalar -> Point;
  scalar_UnmarshalBinary : bytes -> result Scalar;
  scalar_MarshalBinary : Scalar -> result bytes;
  scalar_Equal : Scalar -> Scalar -> bool;
  scheme_Sign : Scalar -> bytes -> result bytes;
  scheme_Verify : Point -> bytes -> bytes -> option error;
  scheme_AggregateSignatures : list bytes -> result bytes;
  scheme_AggregatePublicKeys : list Point -> Point;

  (** crypto/ed25519 and crypto/sha512: the primitives behind the length check *)
  ed25519_verify_raw : bytes -> bytes -> bytes -> bool;
  sha512_Sum512 : bytes -> bytes;

  (** github.com/ethereum/go-ethereum/crypto *)
  EcdsaPub : Type;
  EcdsaPriv : Type;
  eth_UnmarshalPubkey : bytes -> result EcdsaPub;
  eth_FromECDSAPub : EcdsaPub -> bytes;
  eth_FromECDSA : EcdsaPriv -> bytes;
  eth_Sign : bytes -> EcdsaPriv -> result bytes;
  eth_VerifySignature : bytes -> bytes -> bytes -> bool;
  ecdsa_PublicKey : EcdsaPriv -> EcdsaPub;

  (** gopkg.in/square/go-jose.v2 *)
  JWK : Type;

  (** github.com/bits-and-blooms/bloom/v3 *)
  Bloom : Type;
  bloom_NewWithEstimates : Z -> Bloom;
  bloom_Add : bytes -> Bloom -> Bloom;
  bloom_Test : bytes -> Bloom -> bool;
  bloom_GobEncode : Bloom -> result bytes;
  bloom_GobDecode : bytes -> Bloom -> result Bloom
}.

(** The multihash and CID codes the program names. *)
Definition SHA3_256 : Z := 0x16.
Definition SHA3_384 : Z := 0x15.
Definition SHA2_256 : Z := 0x12.
Definition cid_Raw : Z := 0x55.
Definition Base58BTC : Z := 122.
Definition Base64 : Z := 109.

Class CidLaws `{Lib} : Prop := {
  cid_String_inj :: Inj (=) (=) cid_String;
  cid_Bytes_inj :: Inj (=) (=) cid_Bytes;
  cid_String_nonempty : forall c, cid_String c <> ""%string;
  cid_Decode_String : forall c, c <> cid_Undef -> cid_Decode (cid_String c) = Ok c;
  cid_ParseCid_id : forall c, cid_ParseCid c = Ok c;
  cid_ParseString_String : forall c, c <> cid_Undef -> cid_ParseString (cid_String c) = Ok c;
  cid_Cast_Bytes : forall c, c <> cid_Undef -> cid_Cast (cid_Bytes c) = Ok c;
  (** the text form of a CID is not a binary CID *)
  cid_Cast_text : forall c, is_ok (cid_Cast (bytes_of_string (cid_String c))) = false;
  cid_NewCidV1_defined : forall codec h, cid_NewCidV1 codec h <> cid_Undef
}.

(** Collision freedom of the content address [NewCidV1(codec, Sum(d, h))]. *)
Class HashLaws `{Lib} : Prop := {
  multihash_Sum_ok : forall h d, is_ok (multihash_Sum d h) = true;
  content_address_inj : forall codec h d1 d2 m1 m2,
    multihash_Sum d1 h = Ok m1 -> multihash_Sum d2 h = Ok m2 ->
    cid_NewCidV1 codec m1 = cid_NewCidV1 codec m2 -> d1 = d2
}.

Class MultibaseLaws `{Lib} : Prop := {
  multibase_Decode_Encode : forall e b s,
    multibase_Encode e b = Ok s -> multibase_Decode s = Ok (e, b)
}.

Class PeerLaws `{Lib} : Prop := {
  peer_String_inj :: Inj (=) (=) peer_String
}.

(** A signature made with a key verifies under its public key. *)
Class BlsLaws `{Lib} : Prop := {
  scheme_Verify_Sign : forall sk msg sig,
    scheme_Sign sk msg = Ok sig -> scheme_Verify (point_MulBase sk) msg sig = None;
  point_Unmarshal_Marshal : forall p b,
    point_MarshalBinary p = Ok b -> point_UnmarshalBinary b = Ok p
}.

(** An element added to a bloom filter tests positive, in the filter and in
    its decoded encoding. *)
Class BloomLaws `{Lib} : Prop := {
  bloom_Test_Add : forall x b, bloom_Test x (bloom_Add x b) = true;
  bloom_Test_mono : forall x y b, bloom_Test x b = true -> bloom_Test x (bloom_Add y b) = true;
  bloom_Decode_Encode : forall b d b0, bloom_GobEncode b = Ok d -> bloom_GobDecode d b0 = Ok b
}.

(** go-ethereum verifies only 32-byte digests, and SHA-512 gives 64 bytes. *)
Class EthLaws `{Lib} : Prop := {
  eth_VerifySignature_len : forall pk msg sig,
    eth_VerifySignature pk msg sig = true -> length msg = 32;
  sha512_len : forall d, length (sha512_Sum512 d) = 64
}.
