(* ===== verification/Cryptography.v ===== *)
(** * pkg/cryptography: keys, signatures and verification methods

    The BLS12-381, secp256k1 and Ed25519 wrappers, the multibase codec of
    public keys and the verification methods of a DID document.  The curve
    arithmetic itself is a parameter ([Externals.Lib]). *)

From S2P Require Import Prelude Externals.

Module Cryptography.
Section Cryptography.
Context `{Lib}.

(** ** cryptography.go *)

Definition VerificationMethodType := string.
Definition Bls12381G2Key2020 : VerificationMethodType := "Bls12381G2Key2020".
Definition EcdsaSecp256k1VerificationKey2019 : VerificationMethodType :=
  "EcdsaSecp256k1VerificationKey2019".
Definition Ed25519VerificationKey2018 : VerificationMethodType :=
  "Ed25519VerificationKey2018".

Record VerificationMethod := {
  vm_ID : string;
  vm_Type : VerificationMethodType;
  vm_Controller : string;
  vm_PublicKeyJwk : option JWK;
  vm_PublicKeyMultibase : string
}.

(** ** multibase.go *)

Definition decodeMultibase (mb : string) : result bytes :=
  match multibase_Decode mb with Ok (_, d) => Ok d | Err e => Err e end.

(** The dynamic types of a [crypto.PublicKey] the program tells apart. *)
Inductive PublicKey :=
| PkEd25519 (k : bytes)
| PkBls12381 (k : Point)
| PkSecp256k1 (k : EcdsaPub)
| PkOther.

Definition EncodeMultibase (pk : PublicKey) : result string :=
  match pk with
  | PkEd25519 t => multibase_Encode Base58BTC t
  | PkBls12381 t => b ← point_MarshalBinary t; multibase_Encode Base58BTC b
  | _ => Err (errorsNew "unsupported pk type")
  end.

(** ** bls12381.go *)

Record Bls12381PrivateKey := { bls_sk : Scalar }.
Record Bls12381PublicKey := { bls_Point : Point }.

Definition NewBls12391PrivateKeyFromBytes (b : bytes) : result Bls12381PrivateKey :=
  sk ← scalar_UnmarshalBinary b; Ok {| bls_sk := sk |}.

Definition bls_PrivateBytes (k : Bls12381PrivateKey) : result bytes :=
  scalar_MarshalBinary (bls_sk k).

Definition bls_Sign (k : Bls12381PrivateKey) (digest : bytes) : result bytes :=
  scheme_Sign (bls_sk k) digest.

Definition bls_Public (k : Bls12381PrivateKey) : Bls12381PublicKey :=
  {| bls_Point := point_MulBase (bls_sk k) |}.

Definition bls_Equal (k o : Bls12381PrivateKey) : bool :=
  scalar_Equal (bls_sk k) (bls_sk o).

Definition NewBls12381PublicKey (d : bytes) : result Bls12381PublicKey :=
  p ← point_UnmarshalBinary d; Ok {| bls_Point := p |}.

Definition bls_Bytes (k : Bls12381PublicKey) : result bytes :=
  point_MarshalBinary (bls_Point k).

Definition bls_Verify (k : Bls12381PublicKey) (signature msg : bytes) : result bool :=
  match scheme_Verify (bls_Point k) msg signature with
  | Some err => Err err
  | None => Ok true
  end.

Definition ValidateBls12381 {S} (vm : VerificationMethod) (signature msg : bytes) :
  GoM S (result bool) :=
  mret (
    pkbytes ← wrap "decoding multibase" (decodeMultibase (vm_PublicKeyMultibase vm));
    pk ← point_UnmarshalBinary pkbytes;
    bls_Verify {| bls_Point := pk |} signature msg).

Definition AggregateBls12381Signatures (sigs : list bytes) : result bytes :=
  scheme_AggregateSignatures sigs.

Definition AggregateBls12381PublicKeys (pk : list Bls12381PublicKey) : Point :=
  scheme_AggregatePublicKeys (map bls_Point pk).

(** ** ecdsa.go *)

(** [dig := msg; if len(dig) > 128 { h := sha512.Sum512(msg); dig = h[:] }] *)
Definition secp_digest (msg : bytes) : bytes :=
  if decide (128 < length msg) then sha512_Sum512 msg else msg.

Definition secp_Sign (k : EcdsaPriv) (digest : bytes) : result bytes :=
  eth_Sign (secp_digest digest) k.

Definition secp_PrivateBytes (k : EcdsaPriv) : result bytes := Ok (eth_FromECDSA k).

Definition secp_Public (k : EcdsaPriv) : PublicKey := PkSecp256k1 (ecdsa_PublicKey k).

Definition NewSecp256k1PublicKey (d : bytes) : result EcdsaPub :=
  wrap "unmarshalling ecdsa pub key" (eth_UnmarshalPubkey d).

Definition secp_Bytes (p : EcdsaPub) : result bytes := Ok (eth_FromECDSAPub p).

Definition secp_Verify (p : EcdsaPub) (sig msg : bytes) : result bool :=
  Ok (eth_VerifySignature (eth_FromECDSAPub p) msg sig).

Definition ValidateEcdsaSecp256k1 {S} (vm : VerificationMethod) (signature msg : bytes) :
  GoM S (result bool) :=
  mret (
    pkbytes ← wrap "decoding multibase" (decodeMultibase (vm_PublicKeyMultibase vm));
    pub ← wrap "unmarshalling public key" (NewSecp256k1PublicKey pkbytes);
    secp_Verify pub signature (secp_digest msg)).

(** ** ed25519.go *)

Definition PublicKeySize : nat := 32.

(** [ed25519.Verify] panics on a key of another length than [PublicKeySize]. *)
Definition ed25519_Verify {S} (pk msg sig : bytes) : GoM S bool :=
  if decide (length pk = PublicKeySize) then mret (ed25519_verify_raw pk msg sig)
  else gpanic.

Definition ValidateEd25519 {S} (vm : VerificationMethod) (sig msg : bytes) :
  GoM S (result bool) :=
  match wrap "decoding multibase" (decodeMultibase (vm_PublicKeyMultibase vm)) with
  | Err e => mret (Err e)
  | Ok pkbytes => ok ← ed25519_Verify pkbytes msg sig; mret (Ok ok)
  end.
End Cryptography.

Section CryptographyFacts.
Context `{Lib}.

(** A BLS signature validates under the verification method that carries the
    signer's public key. *)
Lemma ValidateBls12381_sign `{!BlsLaws, !MultibaseLaws} {S} (s : S) k vm msg sig mb :
  EncodeMultibase (PkBls12381 (bls_Point (bls_Public k))) = Ok mb ->
  vm_PublicKeyMultibase vm = mb ->
  bls_Sign k msg = Ok sig ->
  ValidateBls12381 vm sig msg s = (Ret (Ok true), s).
Proof.
  intros Henc Hvm Hsig. unfold ValidateBls12381, decodeMultibase. rewrite Hvm.
  unfold EncodeMultibase in Henc.
  destruct (point_MarshalBinary _) as [b|] eqn:Hb; [|done]. simpl in Henc.
  rewrite (multibase_Decode_Encode _ _ _ Henc). unfold mret, GoM_ret. simpl.
  rewrite (point_Unmarshal_Marshal _ _ Hb). simpl. unfold bls_Verify. simpl.
  by rewrite (scheme_Verify_Sign _ _ _ Hsig).
Qed.

(** secp256k1 verification accepts only messages of exactly 32 bytes. *)
Lemma ValidateEcdsaSecp256k1_len `{!EthLaws} {S} (s : S) vm sig msg :
  (ValidateEcdsaSecp256k1 vm sig msg s).1 = Ret (Ok true) -> length msg = 32.
Proof.
  unfold ValidateEcdsaSecp256k1, mret, GoM_ret. simpl.
  destruct (wrap "decoding multibase" _) as [pkbytes|]; simpl; [|done].
  destruct (wrap "unmarshalling public key" _) as [pub|]; simpl; [|done].
  unfold secp_Verify. intros [= Hv]. apply eth_VerifySignature_len in Hv.
  unfold secp_digest in Hv. case_decide; [|done].
  rewrite sha512_len in Hv. lia.
Qed.

(** Ed25519 verification of a key of the wrong length panics. *)
Lemma ValidateEd25519_bad_key {S} (s : S) vm sig msg pk :
  decodeMultibase (vm_PublicKeyMultibase vm) = Ok pk -> length pk <> PublicKeySize ->
  ValidateEd25519 vm sig msg s = (Panic, s).
Proof.
  intros Hd Hl. unfold ValidateEd25519. rewrite Hd. simpl.
  unfold ed25519_Verify. by rewrite decide_False.
Qed.
End CryptographyFacts.
End Cryptography.
