(* ===== verification/NetUrl.v ===== *)
(** * net/url.Parse, as far as the program uses it

    [w3cdid.URL] reads the opaque part, the raw query and the fragment of a
    parsed URL, and dereferences the result without looking at the error.
    Host, user and path values are never read: only the errors their parsing
    raises are kept. *)

From S2P Require Import Prelude.
From Stdlib Require Import Strings.Ascii.

Module NetUrl.
Local Open Scope char_scope.

Notation chars := (list ascii).

Definition explode : string -> chars := String.list_ascii_of_string.
Definition implode : chars -> string := String.string_of_list_ascii.

Lemma implode_explode s : implode (explode s) = s.
Proof. apply String.string_of_list_ascii_of_string. Qed.

Lemma explode_implode l : explode (implode l) = l.
Proof. apply String.list_ascii_of_string_of_list_ascii. Qed.

Lemma explode_app s t : explode (s +:+ t) = explode s ++ explode t.
Proof. induction s as [|c s IH]; simpl; [done|]. unfold explode in *. cbn. by rewrite IH. Qed.

Definition code (c : ascii) : N := N_of_ascii c.
Definition between (lo hi c : ascii) : bool := (code lo <=? code c)%N && (code c <=? code hi)%N.
Definition is_alpha (c : ascii) : bool := between "a" "z" c || between "A" "Z" c.
Definition is_digit (c : ascii) : bool := between "0" "9" c.
Definition one_of (l : string) (c : ascii) : bool := bool_decide (c ∈ explode l).

(** [strings.Cut(s, sep)] for a one-byte separator: the part before the first
    separator, and the part after it if there is one. *)
Fixpoint cut (sep : ascii) (s : chars) : chars * option chars :=
  match s with
  | [] => ([], None)
  | c :: s =>
      if bool_decide (c = sep) then ([], Some s)
      else let (a, b) := cut sep s in (c :: a, b)
  end.

(** Around the last separator: [strings.LastIndex]. *)
Definition cut_last (sep : ascii) (s : chars) : option (chars * chars) :=
  match cut sep (reverse s) with
  | (_, None) => None
  | (after, Some before) => Some (reverse before, reverse after)
  end.

Definition default_chars (o : option chars) : chars := from_option id [] o.

(** [stringContainsCTLByte] *)
Definition is_ctl (c : ascii) : bool := (code c <? 32)%N || (code c =? 127)%N.

Definition is_scheme_char (c : ascii) : bool := is_alpha c || is_digit c || one_of "+-." c.

(** [getScheme]: [None] is the error "missing protocol scheme". *)
Fixpoint getScheme_from (i : nat) (acc : chars) (raw s : chars) : option (chars * chars) :=
  match s with
  | [] => Some ([], raw)
  | c :: s =>
      if is_alpha c then getScheme_from (S i) (c :: acc) raw s
      else if is_digit c || one_of "+-." c then
        if bool_decide (i = 0) then Some ([], raw) else getScheme_from (S i) (c :: acc) raw s
      else if bool_decide (c = ":") then
        if bool_decide (i = 0) then None else Some (reverse acc, s)
      else Some ([], raw)
  end.
Definition getScheme (raw : chars) : option (chars * chars) := getScheme_from 0 [] raw raw.

Inductive encoding := encodePath | encodeHost | encodeZone | encodeUserPassword | encodeFragment.

Definition hex_val (c : ascii) : option N :=
  if is_digit c then Some (code c - 48)%N
  else if between "a" "f" c then Some (code c - 87)%N
  else if between "A" "F" c then Some (code c - 55)%N
  else None.

(** [shouldEscape(c, mode)] for the two host modes. *)
Definition shouldEscape_host (c : ascii) : bool :=
  negb (is_alpha c || is_digit c ||
        one_of "!$&'()*+,;=:[]<>" c || (code c =? 34)%N || one_of "-_.~" c).

(** [unescape(s, mode)]: [None] is an escape or host error. *)
Fixpoint unescape (mode : encoding) (s : chars) : option chars :=
  match s with
  | [] => Some []
  | "%" :: h1 :: h2 :: rest =>
      match hex_val h1, hex_val h2 with
      | Some v1, Some v2 =>
          let v := ascii_of_N (16 * v1 + v2) in
          let is25 := bool_decide (h1 = "2" /\ h2 = "5") in
          let bad := match mode with
            | encodeHost => (v1 <? 8)%N && negb is25
            | encodeZone => negb is25 && negb (bool_decide (v = " ")) && shouldEscape_host v
            | _ => false
            end in
          if bad then None else (fun r => v :: r) <$> unescape mode rest
      | _, _ => None
      end
  | c :: rest =>
      if bool_decide (c = "%") then None
      else
        let bad := match mode with
          | encodeHost | encodeZone => (code c <? 128)%N && shouldEscape_host c
          | _ => false
          end in
        if bad then None else (fun r => c :: r) <$> unescape mode rest
  end.

(** [validOptionalPort] *)
Definition validOptionalPort (p : chars) : bool :=
  match p with
  | [] => true
  | c :: p => bool_decide (c = ":") && forallb is_digit p
  end.

(** Position of the first "%25" in a host literal, as the part before it and
    the rest. *)
Fixpoint cut_zone (s : chars) : option (chars * chars) :=
  match s with
  | [] => None
  | c :: s' =>
      if bool_decide (take 3 s = ["%"; "2"; "5"]) then Some ([], s)
      else match cut_zone s' with Some (a, b) => Some (c :: a, b) | None => None end
  end.

Definition parseHost (host : chars) : option chars :=
  match host with
  | "[" :: _ =>
      match cut_last "]" host with
      | None => None
      | Some (inner, port) =>
          if negb (validOptionalPort port) then None
          else match cut_zone inner with
            | Some (h1, h2) =>
                a ← unescape encodeHost h1;
                b ← unescape encodeZone h2;
                c ← unescape encodeHost ("]" :: port);
                Some (a ++ b ++ c)
            | None => unescape encodeHost host
            end
      end
  | _ =>
      match cut_last ":" host with
      | Some (_, port) =>
          if validOptionalPort (":" :: port) then unescape encodeHost host else None
      | None => unescape encodeHost host
      end
  end.

(** [validUserinfo] *)
Definition validUserinfo (s : chars) : bool :=
  forallb (fun c => is_alpha c || is_digit c || one_of "-._:~!$&'()*+,;=%@" c) s.

Definition parseAuthority (authority : chars) : option unit :=
  match cut_last "@" authority with
  | None => _ ← parseHost authority; Some tt
  | Some (userinfo, host) =>
      _ ← parseHost host;
      if negb (validUserinfo userinfo) then None
      else
        let (username, password) := cut ":" userinfo in
        _ ← unescape encodeUserPassword username;
        _ ← unescape encodeUserPassword (default_chars password);
        Some tt
  end.

Record URL := { Opaque : chars; RawQuery : chars; Fragment : chars }.

Definition count_char (x : ascii) (s : chars) : nat :=
  length (filter (fun c => c = x) s).

(** [if strings.HasSuffix(rest, "?") && strings.Count(rest, "?") == 1 { ... }
    else { rest, url.RawQuery, _ = strings.Cut(rest, "?") }] *)
Definition split_query (rest : chars) : chars * chars :=
  if bool_decide (list.last rest = Some "?") && bool_decide (count_char "?" rest = 1)
  then (take (length rest - 1) rest, [])
  else let (a, q) := cut "?" rest in (a, default_chars q).

(** [parse(u, false)] *)
Definition parse (raw : chars) : option URL :=
  if existsb is_ctl raw then None
  else if bool_decide (raw = ["*"]) then Some {| Opaque := []; RawQuery := []; Fragment := [] |}
  else
    '(scheme, rest) ← getScheme raw;
    let (rest, q) := split_query rest in
    let has_scheme := negb (bool_decide (scheme = [])) in
    let rooted := bool_decide (head rest = Some "/") in
    if negb rooted && has_scheme then
      Some {| Opaque := rest; RawQuery := q; Fragment := [] |}
    else if negb rooted && bool_decide (":" ∈ (cut "/" rest).1) then None
    else
      let two := bool_decide (take 2 rest = ["/"; "/"]) in
      let three := bool_decide (take 3 rest = ["/"; "/"; "/"]) in
      path ← (if (has_scheme || negb three) && two then
                let (authority, p) := cut "/" (drop 2 rest) in
                _ ← parseAuthority authority;
                Some (match p with Some p => "/" :: p | None => [] end)
              else Some rest);
      _ ← unescape encodePath path;
      Some {| Opaque := []; RawQuery := q; Fragment := [] |}.

(** [url.Parse(rawURL)]; [None] is the [nil] URL returned with an error. *)
Definition Parse (rawURL : string) : option URL :=
  let (u, frag) := cut "#" (explode rawURL) in
  url ← parse u;
  match default_chars frag with
  | [] => Some url
  | frag =>
      f ← unescape encodeFragment frag;
      Some {| Opaque := Opaque url; RawQuery := RawQuery url; Fragment := f |}
  end.
End NetUrl.
