(* ===== verification/W3cDid.v ===== *)
(** * pkg/did/w3cdid: DID URLs, DID documents, their validity and signatures *)

From S2P Require Import Prelude Externals NetUrl Cryptography.
From Stdlib Require Import Strings.Ascii.

Module W3cDid.
Import Cryptography.

Section W3cDid.
Context `{Lib}.

(** ** document.go *)

Record Service := {
  svc_ID : string;
  svc_Type : string;
  svc_ServiceEndpoint : string
}.

Record Document := {
  doc_Context : list string;
  doc_ID : string;
  doc_AlsoKnownAs : list string;
  doc_Controller : list string;
  doc_VerificationMethod : list VerificationMethod;
  doc_Authentication : list VerificationMethod;
  doc_AssertionMethod : list VerificationMethod;
  doc_KeyAgreement : list VerificationMethod;
  doc_CapabilityInvocation : list VerificationMethod;
  doc_CapabilityDelegation : list VerificationMethod;
  doc_Service : list Service
}.

(** The zero value of the struct. *)
Definition empty_Document : Document := {|
  doc_Context := []; doc_ID := ""; doc_AlsoKnownAs := []; doc_Controller := [];
  doc_VerificationMethod := []; doc_Authentication := []; doc_AssertionMethod := [];
  doc_KeyAgreement := []; doc_CapabilityInvocation := []; doc_CapabilityDelegation := [];
  doc_Service := []
|}.

(** ** url.go

    The error of [url.Parse] is dropped, so a URL that does not parse makes
    [uri.Opaque] a nil dereference. *)

Definition Scheme (u : string) : string := "did".

(** [strings.SplitN(s, ":", 2)] as its head and its optional second part *)
Definition splitN2 (s : NetUrl.chars) : string * option string :=
  let (a, b) := NetUrl.cut ":"%char s in (NetUrl.implode a, NetUrl.implode <$> b).

Definition Method {S} (u : string) : GoM S string :=
  uri ← gsome (NetUrl.Parse u);
  mret (splitN2 (NetUrl.Opaque uri)).1.

Definition Id {S} (u : string) : GoM S string :=
  uri ← gsome (NetUrl.Parse u);
  mret (from_option id ""%string (splitN2 (NetUrl.Opaque uri)).2).

Definition Query {S} (u : string) : GoM S string :=
  uri ← gsome (NetUrl.Parse u);
  mret (NetUrl.implode (NetUrl.RawQuery uri)).

Definition Fragment {S} (u : string) : GoM S string :=
  uri ← gsome (NetUrl.Parse u);
  mret (NetUrl.implode (NetUrl.Fragment uri)).

(** ** validation.go *)

Definition ErrInvalid : error := Sentinel "did invalid".

(** [u.Id() == "" || u.Method() == ""] *)
Definition url_incomplete {S} (u : string) : GoM S bool :=
  i ← Id u;
  if bool_decide (i = ""%string) then mret true
  else m ← Method u; mret (bool_decide (m = ""%string)).

Definition vm_check {S} (v : VerificationMethod) : GoM S (option error) :=
  if bool_decide (vm_Type v = ""%string) then mret (Some ErrInvalid)
  else
    b1 ← url_incomplete (vm_ID v);
    if b1 : bool then mret (Some ErrInvalid)
    else
      b2 ← url_incomplete (vm_Controller v);
      if b2 : bool then mret (Some ErrInvalid) else mret None.

Definition svc_check {S} (s : Service) : GoM S (option error) :=
  if bool_decide (svc_ID s = ""%string) || bool_decide (svc_Type s = ""%string)
     || bool_decide (svc_ServiceEndpoint s = ""%string)
  then mret (Some ErrInvalid) else mret None.

(** The verification methods of all six relations, in the order they are
    appended. *)
Definition all_methods (d : Document) : list VerificationMethod :=
  doc_VerificationMethod d ++ doc_Authentication d ++ doc_AssertionMethod d ++
  doc_KeyAgreement d ++ doc_CapabilityInvocation d ++ doc_CapabilityDelegation d.

Definition IsValid {S} (d : Document) : GoM S (option error) :=
  if bool_decide (doc_ID d = ""%string) then mret (Some ErrInvalid)
  else
    b ← url_incomplete (doc_ID d);
    if b : bool then mret (Some ErrInvalid)
    else
      gcheck_e (gfor_e (all_methods d) vm_check) (
      gfor_e (doc_Service d) svc_check).

(** ** crypto.go *)

Definition ErrNoValidSignatures : error := Sentinel "no valid signatures".

(** The table [validators] *)
Definition validators {S} (t : VerificationMethodType) :
  option (VerificationMethod -> bytes -> bytes -> GoM S (result bool)) :=
  if bool_decide (t = Ed25519VerificationKey2018) then Some ValidateEd25519
  else if bool_decide (t = Bls12381G2Key2020) then Some ValidateBls12381
  else if bool_decide (t = EcdsaSecp256k1VerificationKey2019) then Some ValidateEcdsaSecp256k1
  else None.

Fixpoint signed_loop {S} (vms : list VerificationMethod) (signature msg : bytes) :
  GoM S (option error) :=
  match vms with
  | [] => mret (Some ErrNoValidSignatures)
  | vm :: vms =>
      match validators (vm_Type vm) with
      | None => signed_loop vms signature msg
      | Some validator =>
          r ← validator vm signature msg;
          match r with
          | Err _ => signed_loop vms signature msg
          | Ok true => mret None
          | Ok false => signed_loop vms signature msg
          end
      end
  end.

Definition Signed {S} (d : Document) (signature msg : bytes) : GoM S (option error) :=
  match doc_VerificationMethod d with
  | [] => mret (Some (errorsNew "no verification method specified"))
  | vms => signed_loop vms signature msg
  end.
End W3cDid.
End W3cDid.
