(* ===== verification/Tx.v ===== *)
(** * pkg/tx: transactions, and the msgpack codec they are stored with *)

From S2P Require Import Prelude Externals Cryptography W3cDid.

Module Tx.
Import W3cDid.

(** ** Constants of transaction.go.  The types are Go integers of 8 bits: a
    decoded transaction can carry any value. *)

Definition Version1 : Z := 1.
Definition TxType_DID : Z := 1.
Definition TxType_VC : Z := 2.
Definition TxType_Node : Z := 3.
Definition TxActionAdd : Z := 1.
Definition TxActionUpdate : Z := 2.
Definition TxActionRevoke : Z := 3.

(** node.go *)
Record Node := { node_Id : string; node_Did : string; node_Key : bytes }.

Section Tx.
Context `{Lib}.

(** did.go: the document is a pointer. *)
Record DID := { did_Document : option Document }.

(** The dynamic values of the field [Data interface{}]: [nil], a [*DID], a
    [*Node], the undecoded [*msgpack.RawMessage], or the [map[string]interface{}]
    that decoding into an empty interface makes, given by its encoding. *)
Inductive TxData :=
| DataNil
| DataDID (d : DID)
| DataNode (n : Node)
| DataRaw (b : bytes)
| DataMap (b : bytes).

Record Tx := {
  tx_Version : Z;
  tx_Ts : Z;
  tx_From : string;
  tx_Type : Z;
  tx_Action : Z;
  tx_Data : TxData;
  tx_Signature : bytes
}.

Definition tx_set_Data (d : TxData) (t : Tx) : Tx := {|
  tx_Version := tx_Version t; tx_Ts := tx_Ts t; tx_From := tx_From t;
  tx_Type := tx_Type t; tx_Action := tx_Action t; tx_Data := d;
  tx_Signature := tx_Signature t
|}.

Definition tx_set_Signature (s : bytes) (t : Tx) : Tx := {|
  tx_Version := tx_Version t; tx_Ts := tx_Ts t; tx_From := tx_From t;
  tx_Type := tx_Type t; tx_Action := tx_Action t; tx_Data := tx_Data t;
  tx_Signature := s
|}.

(** [&tx.Tx{}] *)
Definition empty_Tx : Tx := {|
  tx_Version := 0; tx_Ts := 0; tx_From := ""; tx_Type := 0; tx_Action := 0;
  tx_Data := DataNil; tx_Signature := []
|}.

(** [t.Data.( *tx.DID)] and [t.Data.( *tx.Node)]: [None] is the panic of a
    failed type assertion. *)
Definition as_DID (d : TxData) : option DID :=
  match d with DataDID d => Some d | _ => None end.
Definition as_Node (d : TxData) : option Node :=
  match d with DataNode n => Some n | _ => None end.

(** github.com/vmihailenco/msgpack on a transaction.  Decoding writes into an
    existing value, whose [Data] holds a pointer of the wanted dynamic type. *)
Class TxCodec := {
  msgpack_Marshal_Tx : Tx -> result bytes;
  msgpack_Unmarshal_Tx : bytes -> Tx -> result Tx
}.

(** Two data values of the same dynamic type. *)
Definition same_kind (d1 d2 : TxData) : bool :=
  match d1, d2 with
  | DataDID _, DataDID _ | DataNode _, DataNode _ | DataRaw _, DataRaw _ => true
  | _, _ => false
  end.

Class TxCodecLaws `{TxCodec} : Prop := {
  msgpack_Tx_total : forall t, is_ok (msgpack_Marshal_Tx t) = true;
  msgpack_Tx_roundtrip : forall t b t0,
    msgpack_Marshal_Tx t = Ok b -> same_kind (tx_Data t0) (tx_Data t) = true ->
    msgpack_Unmarshal_Tx b t0 = Ok t;
  (** decoded into a raw message, every other field is as it was encoded *)
  msgpack_Tx_raw : forall t b t0 r0,
    msgpack_Marshal_Tx t = Ok b -> tx_Data t0 = DataRaw r0 -> tx_Data t <> DataNil ->
    exists r, msgpack_Unmarshal_Tx b t0 = Ok (tx_set_Data (DataRaw r) t)
}.

Definition Marshal `{TxCodec} (t : Tx) : result bytes :=
  wrap "mashaling tx" (msgpack_Marshal_Tx t).

(** [t.Unmarshal(b)]: a first pass to learn the type, a second one into a value
    of that type. *)
Definition Unmarshal `{TxCodec} (b : bytes) (t : Tx) : result Tx :=
  t ← msgpack_Unmarshal_Tx b (tx_set_Data (DataRaw []) t);
  t ← (if bool_decide (tx_Type t = TxType_DID) then
         Ok (tx_set_Data (DataDID {| did_Document := None |}) t)
       else if bool_decide (tx_Type t = TxType_VC) then Ok t
       else if bool_decide (tx_Type t = TxType_Node) then
         Ok (tx_set_Data (DataNode {| node_Id := ""; node_Did := ""; node_Key := [] |}) t)
       else Err (errorsNew "unknown tx data type"));
  msgpack_Unmarshal_Tx b t.

(** The transactions whose data has the dynamic type their type field says. *)
Definition tx_typed (t : Tx) : bool :=
  match tx_Data t with
  | DataDID _ => bool_decide (tx_Type t = TxType_DID)
  | DataNode _ => bool_decide (tx_Type t = TxType_Node)
  | DataRaw _ => bool_decide (tx_Type t = TxType_VC)
  | DataNil | DataMap _ => false
  end.

(** [b] decodes to [t]: into a value with data of the same dynamic type, and
    but for the data into a raw message. *)
Definition decodes_to `{TxCodec} (b : bytes) (t : Tx) : Prop :=
  (forall t0, same_kind (tx_Data t0) (tx_Data t) = true -> msgpack_Unmarshal_Tx b t0 = Ok t) /\
  (forall t0 r0, tx_Data t0 = DataRaw r0 -> tx_Data t <> DataNil ->
     exists r, msgpack_Unmarshal_Tx b t0 = Ok (tx_set_Data (DataRaw r) t)).
End Tx.

Section TxFacts.
Context `{Lib} `{!TxCodec} `{!TxCodecLaws}.

Lemma tx_set_Data_same t : tx_set_Data (tx_Data t) t = t.
Proof. by destruct t. Qed.

Lemma Marshal_total t : exists b, Marshal t = Ok b /\ msgpack_Marshal_Tx t = Ok b.
Proof.
  pose proof (msgpack_Tx_total t) as Hok. unfold Marshal.
  destruct (msgpack_Marshal_Tx t); [eauto|done].
Qed.

Lemma Marshal_decodes t b : msgpack_Marshal_Tx t = Ok b -> decodes_to b t.
Proof.
  intros Hb. split; intros t0; [by apply msgpack_Tx_roundtrip|].
  intros r0 Ht0 Hn. by eapply msgpack_Tx_raw.
Qed.

(** Both passes of [Unmarshal], on anything that decodes to a well-typed
    transaction. *)
Lemma Unmarshal_decodes t b t0 : tx_typed t = true -> decodes_to b t -> Unmarshal b t0 = Ok t.
Proof.
  intros Ht [Hkind Hraw]. unfold Unmarshal.
  destruct (Hraw (tx_set_Data (DataRaw []) t0) []) as [r ->].
  { done. }
  { intros Hn. unfold tx_typed in Ht. by rewrite Hn in Ht. }
  simpl. unfold tx_typed in Ht.
  destruct (tx_Data t) eqn:Hd; try done;
    apply bool_decide_eq_true in Ht; rewrite Ht; simpl; apply Hkind; done.
Qed.

(** Encoding and decoding a well-typed transaction gives it back. *)
Lemma Unmarshal_Marshal t b t0 :
  tx_typed t = true -> msgpack_Marshal_Tx t = Ok b -> Unmarshal b t0 = Ok t.
Proof. intros Ht Hb. by apply Unmarshal_decodes, Marshal_decodes. Qed.

(** A decoded transaction has one of the three known types. *)
Lemma Unmarshal_known_type b t0 t1 t :
  msgpack_Unmarshal_Tx b (tx_set_Data (DataRaw []) t0) = Ok t1 ->
  Unmarshal b t0 = Ok t ->
  tx_Type t1 = TxType_DID \/ tx_Type t1 = TxType_VC \/ tx_Type t1 = TxType_Node.
Proof.
  intros Hraw. unfold Unmarshal. rewrite Hraw. simpl.
  repeat case_bool_decide; simpl; auto. done.
Qed.
End TxFacts.
End Tx.
