(* ===== verification/Chain.v ===== *)
(** * pkg/storage: blocks, Merkle sets of transactions, bloom filters, and the
      [Store] interface

    chain.go, bloom.go, genesis.go, errors.go, storage.go and metadata.go.  The
    interface [Store] is the class [Store W H]: [H] is the Go value (a pointer),
    [W] the memory it points into; [MemStore] and [Ipfs] are its instances. *)

From S2P Require Import Prelude Externals W3cDid Tx.

Module Chain.
Import W3cDid Tx.

(** ** errors.go *)

Definition ErrNotFound : error := Sentinel "not found".
Definition ErrDIDAlreadyExists : error := Sentinel "DID already exists".
Definition ErrDIDInvalid : error := Sentinel "DID is invalid".
Definition ErrDIDInvalidSignature : error := Sentinel "tx signature not signed by key in DID".
Definition ErrOpNotSupported : error := Sentinel "operation not supported on tx type".
Definition ErrTxVersionNotSupported : error := Sentinel "tx version not supported".
Definition ErrTxMissingTimestamp : error := Sentinel "tx missing timestamp".
Definition ErrTxMissingFrom : error := Sentinel "tx missing from did".
Definition ErrTxUnsupportedType : error := Sentinel "unsupported tx type".
Definition ErrTxMissingData : error := Sentinel "tx missing data".

(** ** chain.go: constants and data *)

Definition MaxBlockTxCount : nat := 1000.
Definition MaxSetSize : nat := 100.
Definition Version : Z := 1.

Definition BlockStateUnvalidated : Z := 0.
Definition BlockStateValidated : Z := 1.
Definition BlockStateAccepted : Z := 2.

Section Data.
Context `{Lib}.

Definition BlockID := Cid.
Definition TxID := Cid.

Record Block := {
  blk_Version : Z;
  blk_ID : Cid;
  blk_Parent : Cid;
  blk_Height : Z;
  blk_CreatedAt : Z;
  blk_Proposer : string;
  blk_Signature : bytes;
  blk_Nonce : bytes;
  blk_Bloom : bytes;
  blk_TxRoot : Cid
}.

Definition blk_set_ID (id : Cid) (b : Block) : Block := {|
  blk_Version := blk_Version b; blk_ID := id; blk_Parent := blk_Parent b;
  blk_Height := blk_Height b; blk_CreatedAt := blk_CreatedAt b;
  blk_Proposer := blk_Proposer b; blk_Signature := blk_Signature b;
  blk_Nonce := blk_Nonce b; blk_Bloom := blk_Bloom b; blk_TxRoot := blk_TxRoot b
|}.

Record TxSet := {
  ts_Children : list Cid;
  ts_Tx : option Cid;
  ts_cid : Cid
}.

Definition ts_set_cid (c : Cid) (s : TxSet) : TxSet :=
  {| ts_Children := ts_Children s; ts_Tx := ts_Tx s; ts_cid := c |}.

(** No identifier in the set is the undefined one, which is encoded as no
    bytes and not decoded again. *)
Definition ts_defined (s : TxSet) : Prop :=
  Forall (fun c => c <> cid_Undef) (ts_Children s) /\ ts_Tx s <> Some cid_Undef.

(** genesis.go *)
Record GenesisInfo := {
  gen_ChainID : string;
  gen_Block : Block;
  gen_Txs : list Tx
}.

(** msgpack on the stored objects *)
Class ChainCodec := {
  msgpack_Marshal_Block : Block -> result bytes;
  msgpack_Unmarshal_Block : bytes -> result Block;
  msgpack_Marshal_TxSet : TxSet -> result bytes;
  msgpack_Unmarshal_TxSet : bytes -> result TxSet;
  msgpack_Unmarshal_Document : bytes -> result Document
}.

(** The unexported field [cid] of a set is not encoded.  A decoded block keeps
    at least its height and its transaction root.  [cid.UnmarshalBinary] refuses
    the undefined identifier, so neither is promised of an object with one.  Keys a struct does not have
    are skipped, and a [Document] shares none with a transaction. *)
Class ChainCodecLaws `{!TxCodec} `{!ChainCodec} : Prop := {
  msgpack_TxSet_total : forall s, is_ok (msgpack_Marshal_TxSet s) = true;
  msgpack_TxSet_cid : forall s c,
    msgpack_Marshal_TxSet (ts_set_cid c s) = msgpack_Marshal_TxSet s;
  msgpack_TxSet_roundtrip : forall s d, ts_defined s ->
    msgpack_Marshal_TxSet s = Ok d -> msgpack_Unmarshal_TxSet d = Ok (ts_set_cid cid_Undef s);
  msgpack_Block_total : forall b, is_ok (msgpack_Marshal_Block b) = true;
  msgpack_Block_roundtrip : forall b d, blk_TxRoot b <> cid_Undef -> msgpack_Marshal_Block b = Ok d ->
    exists b', msgpack_Unmarshal_Block d = Ok b' /\
      blk_TxRoot b' = blk_TxRoot b /\ blk_Height b' = blk_Height b;
  msgpack_Document_of_Tx : forall t d,
    msgpack_Marshal_Tx t = Ok d -> msgpack_Unmarshal_Document d = Ok empty_Document
}.

(** ** bloom.go *)

Definition MakeBloom (tx : list Cid) : result bytes :=
  bloom_GobEncode
    (foldl (fun b t => bloom_Add (cid_Bytes t) b)
       (bloom_NewWithEstimates (Z.of_nat MaxBlockTxCount)) tx).

Definition BloomContains (b : bytes) (tx : Cid) : result bool :=
  bl ← bloom_GobDecode b (bloom_NewWithEstimates (Z.of_nat MaxBlockTxCount));
  Ok (bloom_Test (cid_Bytes tx) bl).

(** ** cidList: [sort.Sort] with [Less] as [bytes.Compare(a, b) == -1] *)

(** [bytes.Compare(a, b) <= 0] *)
Fixpoint bytes_leb (a b : bytes) : bool :=
  match a, b with
  | [], _ => true
  | _ :: _, [] => false
  | x :: a, y :: b =>
      (Byte.to_N x <? Byte.to_N y)%N ||
      ((Byte.to_N x =? Byte.to_N y)%N && bytes_leb a b)
  end.

Definition cid_le (a b : Cid) : Prop := bytes_leb (cid_Bytes a) (cid_Bytes b) = true.

#[export] Instance cid_le_dec : RelDecision cid_le.
Proof. intros a b. unfold cid_le. apply _. Defined.

(** [sort.Strings]: Go orders strings by their bytes. *)
Definition string_le (a b : string) : Prop :=
  bytes_leb (bytes_of_string a) (bytes_of_string b) = true.

#[export] Instance string_le_dec : RelDecision string_le.
Proof. intros a b. unfold string_le. apply _. Defined.

Definition sort_strings (l : list string) : list string := merge_sort string_le l.

Definition sort_cids (l : list Cid) : list Cid := merge_sort cid_le l.
End Data.

(** ** The interfaces of storage.go and metadata.go *)

Class Store `{Lib} (W H : Type) := {
  PutTx : H -> Tx -> GoM W (result Cid);
  GetTx : H -> TxID -> GoM W (result Tx);
  PutBlock : H -> Block -> GoM W (result Cid);
  GetBlock : H -> BlockID -> GoM W (result Block);
  AllTx : H -> Block -> GoM W (result (gmap Cid Tx));
  PutSet : H -> TxSet -> GoM W (result Cid);
  GetSet : H -> Cid -> GoM W (result TxSet);
  GetTxBlock : H -> TxID -> GoM W (result Block);
  MarkBlock : H -> BlockID -> Z -> GoM W (option error);
  UpdateLastApplied : H -> BlockID -> GoM W (option error);
  GetLastApplied : H -> GoM W (result (option Block));
  Stop : H -> GoM W (option error);
  (* MetadataProvider *)
  LookupDID : H -> string -> GoM W (result (option Document));
  (* [None]: the call never returns *)
  DIDHistory : H -> string -> GoM W (option (result (list Tx)));
  Claims : H -> string -> GoM W (result (list Tx));
  Nodes : H -> GoM W (result (list string));
  Node_ : H -> string -> GoM W (result (option Node));
  HasGenesisApplied : H -> GoM W bool;
  ApplyGenesis : H -> GenesisInfo -> GoM W (option error);
  ApplyTx : H -> TxID -> Tx -> GoM W (option error);
  StartTest : H -> GoM W (result H);
  CompleteTest : H -> GoM W (option error)
}.

(** ** chain.go: Merkle sets *)

Section MerkleSet.
Context `{L : Lib} {W H : Type} `{!Store W H}.

(** One leaf per transaction: [ttx := &TxSet{Tx: &cid}], stored. *)
Definition put_leaf (s : H) (t : Cid) : GoM W (result TxSet) :=
  let ttx := {| ts_Children := []; ts_Tx := Some t; ts_cid := cid_Undef |} in
  gtry (gwrap "storing root txset" (PutSet s ttx)) (fun c =>
  mret (Ok (ts_set_cid c ttx))).

Fixpoint put_leaves (s : H) (txs : list Cid) : GoM W (result (list TxSet)) :=
  match txs with
  | [] => mret (Ok [])
  | t :: txs =>
      gtry (put_leaf s t) (fun n =>
      gtry (put_leaves s txs) (fun ns => mret (Ok (n :: ns))))
  end.

(** [if len(nodes)%2 == 1 { nodes = append(nodes, nodes[len(nodes)-1]) }] *)
Definition pad_nodes (nodes : list TxSet) : list TxSet :=
  if Nat.odd (length nodes) then nodes ++ option_list (list.last nodes) else nodes.

(** [for i := 0; i < len(nodes); i += 2]: the index [i+1] of an odd slice would
    be out of range. *)
Fixpoint put_parents (s : H) (nodes : list TxSet) : GoM W (result (list TxSet)) :=
  match nodes with
  | [] => mret (Ok [])
  | [_] => gpanic
  | a :: b :: nodes =>
      let n := {| ts_Children := [ts_cid a; ts_cid b]; ts_Tx := None; ts_cid := cid_Undef |} in
      gtry (gwrap "storing root txset" (PutSet s n)) (fun c =>
      gtry (put_parents s nodes) (fun ps => mret (Ok (ts_set_cid c n :: ps))))
  end.

(** [for len(nodes) > 1 { ... }; return nodes[0], nil].  Each level has at most
    half the nodes of the one below, so [length nodes] rounds are enough. *)
Fixpoint reduce_nodes (fuel : nat) (s : H) (nodes : list TxSet) : GoM W (result TxSet) :=
  match nodes with
  | [] => gpanic
  | [n] => mret (Ok n)
  | _ =>
      match fuel with
      | 0 => gpanic
      | S fuel => gtry (put_parents s (pad_nodes nodes)) (reduce_nodes fuel s)
      end
  end.

Definition NewTxSet (s : H) (txs : list Cid) : GoM W (result TxSet) :=
  let txs := sort_cids txs in
  if decide (MaxBlockTxCount < length txs) then mret (Err (errorsNew "too many tx for set"))
  else
    gtry (put_leaves s txs) (fun nodes => reduce_nodes (length nodes) s nodes).

(** [NewBlock]; the clock and the random nonce are inputs. *)
Definition NewBlock (s : H) (now : Z) (rand_nonce : result bytes) (parent : BlockID)
    (txs : list Cid) : GoM W (result Block) :=
  gtry (if bool_decide (parent = cid_Undef) then mret (Ok 0%Z)
        else gtry (gwrap "getting parent" (GetBlock s parent)) (fun pb =>
             mret (Ok (u64 (blk_Height pb + 1))))) (fun height =>
  gtry (mret (wrap "making nonce" rand_nonce)) (fun nonce =>
  gtry (mret (wrap "creating bloom" (MakeBloom txs))) (fun bloom =>
  gtry (gwrap "making tx set" (NewTxSet s txs)) (fun rCid =>
  mret (Ok {|
    blk_Version := Version; blk_ID := cid_Undef; blk_Parent := parent;
    blk_Height := height; blk_CreatedAt := now; blk_Proposer := "";
    blk_Signature := []; blk_Nonce := nonce; blk_Bloom := bloom;
    blk_TxRoot := ts_cid rCid
  |}))))).
End MerkleSet.

(** ** Walking a Merkle set: the loop shared by [MemStore.allTxCids] and
    [IPFSStorage.AllTx]

    [None] means that the fuel ran out before the queue was empty. *)

Section Walk.
Context `{Lib}.
Context (getset : Cid -> result TxSet) (gettx : Cid -> result Tx).

Fixpoint walk (fuel : nat) (visited : gset Cid) (queue : list Cid) (txSeen : gmap Cid Tx) :
  option (result (gmap Cid Tx)) :=
  match queue with
  | [] => Some (Ok txSeen)
  | setCid :: queue =>
      match fuel with
      | 0 => None
      | S fuel =>
          if decide (setCid ∈ visited) then walk fuel visited queue txSeen
          else
            let visited := {[setCid]} ∪ visited in
            match wrap "getting root trie" (getset setCid) with
            | Err e => Some (Err e)
            | Ok set =>
                match ts_Tx set with
                | None => walk fuel visited (queue ++ ts_Children set) txSeen
                | Some txid =>
                    match wrap "getting root tx" (gettx txid) with
                    | Err e => Some (Err e)
                    | Ok t =>
                        let txSeen := <[txid := t]> txSeen in
                        if decide (MaxBlockTxCount < size txSeen)
                        then Some (Err (errorsNew "block containers too many tx"))
                        else walk fuel visited (queue ++ ts_Children set) txSeen
                    end
                end
            end
      end
  end.

(** What the loop computes from a root, whatever fuel it is given. *)
Definition walks_to (root : Cid) (r : result (gmap Cid Tx)) : Prop :=
  exists fuel, walk fuel ∅ [root] ∅ = Some r.
End Walk.
End Chain.
