(* ===== verification/Toy.v ===== *)
(** * A concrete instance of the third-party libraries

    The theorems assume documented laws of libraries the repository does not
    contain.  This file shows that the laws can hold together, with executable
    functions: an identity hash, a signature that is the key followed by the
    message, and a self-delimiting byte codec in place of msgpack.  Theorems are
    evaluated on it; no theorem depends on it. *)

From S2P Require Import Prelude Externals Cryptography W3cDid Tx Chain.
From Stdlib Require Import Strings.Ascii.

Module Toy.
Import Cryptography W3cDid Tx Chain.

#[local] Obligation Tactic := idtac.

(** ** A self-delimiting byte codec *)

Class Ser (A : Type) := {
  ser : A -> bytes;
  deser : bytes -> option (A * bytes);
  deser_ser : forall a rest, deser (ser a ++ rest) = Some (a, rest)
}.

(** Numbers in binary, the lowest digit first, the highest marked. *)
Fixpoint ser_pos (p : positive) : bytes :=
  match p with xH => [x02] | xO p => x00 :: ser_pos p | xI p => x01 :: ser_pos p end.
Fixpoint deser_pos (b : bytes) : option (positive * bytes) :=
  match b with
  | x02 :: b => Some (xH, b)
  | x00 :: b => match deser_pos b with Some (p, r) => Some (xO p, r) | None => None end
  | x01 :: b => match deser_pos b with Some (p, r) => Some (xI p, r) | None => None end
  | _ => None
  end.

Lemma deser_ser_pos p rest : deser_pos (ser_pos p ++ rest) = Some (p, rest).
Proof. induction p as [p IH|p IH|]; simpl; [by rewrite IH..|done]. Qed.

Definition ser_Z (z : Z) : bytes :=
  match z with Z0 => [x00] | Zpos p => x01 :: ser_pos p | Zneg p => x02 :: ser_pos p end.
Definition deser_Z (b : bytes) : option (Z * bytes) :=
  match b with
  | x00 :: b => Some (0%Z, b)
  | x01 :: b => match deser_pos b with Some (p, r) => Some (Zpos p, r) | None => None end
  | x02 :: b => match deser_pos b with Some (p, r) => Some (Zneg p, r) | None => None end
  | _ => None
  end.

Lemma deser_ser_Z z rest : deser_Z (ser_Z z ++ rest) = Some (z, rest).
Proof. destruct z; simpl; [done|by rewrite deser_ser_pos..]. Qed.

#[export] Instance Ser_Z : Ser Z :=
  {| ser := ser_Z; deser := deser_Z; deser_ser := deser_ser_Z |}.

Definition ser_nat (n : nat) : bytes := ser_Z (Z.of_nat n).
Definition deser_nat (b : bytes) : option (nat * bytes) :=
  match deser_Z b with Some (z, r) => Some (Z.to_nat z, r) | None => None end.

Lemma deser_ser_nat n rest : deser_nat (ser_nat n ++ rest) = Some (n, rest).
Proof. unfold deser_nat, ser_nat. by rewrite deser_ser_Z, Nat2Z.id. Qed.

#[export] Instance Ser_nat : Ser nat :=
  {| ser := ser_nat; deser := deser_nat; deser_ser := deser_ser_nat |}.

#[export] Program Instance Ser_byte : Ser Byte.byte := {|
  ser b := [b];
  deser b := match b with x :: b => Some (x, b) | [] => None end
|}.
Next Obligation. by intros. Qed.

#[export] Program Instance Ser_prod {A B} `{Ser A, Ser B} : Ser (A * B) := {|
  ser p := ser p.1 ++ ser p.2;
  deser b := '(x, b) ← deser b; '(y, b) ← deser b; Some (x, y, b)
|}.
Next Obligation. intros ???? [x y] rest. simpl. rewrite <- app_assoc, deser_ser. simpl. by rewrite deser_ser. Qed.

Definition ser_option {A} `{Ser A} (o : option A) : bytes :=
  match o with None => [x00] | Some a => x01 :: ser a end.
Definition deser_option {A} `{Ser A} (b : bytes) : option (option A * bytes) :=
  match b with
  | x00 :: b => Some (None, b)
  | x01 :: b => '(a, b) ← deser b; Some (Some a, b)
  | _ => None
  end.

Lemma deser_ser_option {A} `{Ser A} (o : option A) rest :
  deser_option (ser_option o ++ rest) = Some (o, rest).
Proof. destruct o; simpl; [|done]. by rewrite deser_ser. Qed.

#[export] Instance Ser_option {A} `{Ser A} : Ser (option A) :=
  {| ser := ser_option; deser := deser_option; deser_ser := deser_ser_option |}.

Fixpoint ser_items {A} `{Ser A} (l : list A) : bytes :=
  match l with [] => [] | x :: l => ser x ++ ser_items l end.
Fixpoint deser_items {A} `{Ser A} (n : nat) (b : bytes) : option (list A * bytes) :=
  match n with
  | 0 => Some ([], b)
  | S n => '(x, b) ← deser b; '(l, b) ← deser_items n b; Some (x :: l, b)
  end.

Definition ser_list {A} `{Ser A} (l : list A) : bytes := ser_nat (length l) ++ ser_items l.
Definition deser_list {A} `{Ser A} (b : bytes) : option (list A * bytes) :=
  '(n, b) ← deser_nat b; deser_items n b.

Lemma deser_ser_items {A} `{Ser A} (l : list A) rest :
  deser_items (length l) (ser_items l ++ rest) = Some (l, rest).
Proof.
  induction l as [|x l IH]; simpl; [done|].
  rewrite <- app_assoc, deser_ser. simpl. by rewrite IH.
Qed.

Lemma deser_ser_list {A} `{Ser A} (l : list A) rest :
  deser_list (ser_list l ++ rest) = Some (l, rest).
Proof.
  unfold deser_list, ser_list.
  rewrite <- app_assoc, deser_ser_nat. simpl. apply deser_ser_items.
Qed.

#[export] Instance Ser_list {A} `{Ser A} : Ser (list A) :=
  {| ser := ser_list; deser := deser_list; deser_ser := deser_ser_list |}.

(** A type encoded through another one. *)
Definition Ser_iso {A B} (f : A -> B) (g : B -> A) (Hgf : forall a, g (f a) = a) `{Ser B} : Ser A.
Proof.
  refine {| ser a := ser (f a); deser b := '(x, b) ← deser b; Some (g x, b) |}.
  intros a rest. rewrite deser_ser. simpl. by rewrite Hgf.
Defined.

#[export] Instance Ser_string : Ser string :=
  Ser_iso bytes_of_string string_of_bytes string_of_bytes_of_string.

#[export] Program Instance Ser_unit : Ser unit := {| ser _ := []; deser b := Some (tt, b) |}.
Next Obligation. by intros [] rest. Qed.

(** Encoding of a whole value, and decoding with nothing left over. *)
Definition encode {A} `{Ser A} (a : A) : bytes := ser a.
Definition decode {A} `{Ser A} (b : bytes) : result A :=
  match deser b with
  | Some (a, []) => Ok a
  | _ => Err (errorsNew "decode")
  end.

#[global] Arguments encode : simpl never.
#[global] Arguments decode : simpl never.

Lemma decode_encode {A} `{Ser A} (a : A) : decode (encode a) = Ok a.
Proof. unfold decode, encode. rewrite <- (app_nil_r (ser a)), deser_ser. done. Qed.

(** ** The libraries *)

(** Two letters from [a] to [p] for a byte. *)
Definition letter (n : N) : Byte.byte := from_option id x61 (Byte.of_N (97 + n)).
Fixpoint to_text (b : bytes) : bytes :=
  match b with
  | [] => []
  | x :: b => letter (Byte.to_N x / 16) :: letter (Byte.to_N x mod 16) :: to_text b
  end.
Fixpoint of_text (b : bytes) : bytes :=
  match b with
  | x :: y :: b =>
      from_option id x00 (Byte.of_N ((Byte.to_N x - 97) * 16 + (Byte.to_N y - 97))) :: of_text b
  | _ => []
  end.

Lemma of_to_text b : of_text (to_text b) = b.
Proof. induction b as [|x b IH]; [done|]. cbn [to_text of_text]. rewrite IH. f_equal. by destruct x. Qed.

Lemma to_text_letters b x : x ∈ to_text b -> (97 <= Byte.to_N x)%N.
Proof.
  induction b as [|y b IH]; cbn [to_text]; [by intros ?%elem_of_nil|].
  rewrite !elem_of_cons. intros [->|[->|Hx]]; [..|by apply IH]; by destruct y.
Qed.

Definition toy_cid_String (c : option bytes) : string :=
  match c with None => "b" | Some b => "b1" +:+ string_of_bytes (to_text b) end.
Definition toy_cid_Bytes (c : option bytes) : bytes :=
  match c with None => [] | Some b => x01 :: b end.
Definition toy_cid_Decode (s : string) : result (option bytes) :=
  match s with
  | String "b"%char (String "1"%char s) => Ok (Some (of_text (bytes_of_string s)))
  | _ => Err (errorsNew "invalid cid")
  end.
Definition toy_cid_Cast (b : bytes) : result (option bytes) :=
  match b with x01 :: b => Ok (Some b) | _ => Err (errorsNew "invalid cid") end.

Definition toy_multibase_Encode (e : Z) (b : bytes) : result string :=
  if decide (e = Base58BTC) then Ok (String "z"%char (string_of_bytes b))
  else if decide (e = Base64) then Ok (String "m"%char (string_of_bytes b))
  else Err (errorsNew "unsupported encoding").
Definition toy_multibase_Decode (s : string) : result (Z * bytes) :=
  match s with
  | String "z"%char s => Ok (Base58BTC, bytes_of_string s)
  | String "m"%char s => Ok (Base64, bytes_of_string s)
  | _ => Err (errorsNew "unknown multibase")
  end.

Definition toy_point_Unmarshal (b : bytes) : result bytes :=
  match b with x50 :: b => Ok b | _ => Err (errorsNew "invalid point") end.

#[export] Instance ToyLib : Lib := {|
  Cid := option bytes;
  cid_Undef := None;
  cid_String := toy_cid_String;
  cid_Bytes := toy_cid_Bytes;
  cid_Decode := toy_cid_Decode;
  cid_ParseCid := Ok;
  cid_ParseString := toy_cid_Decode;
  cid_Cast := toy_cid_Cast;
  cid_NewCidV1 _ h := Some h;
  multihash_Sum d _ := Ok d;
  multibase_Encode := toy_multibase_Encode;
  multibase_Decode := toy_multibase_Decode;
  PeerID := string;
  peer_String s := s;
  peer_MarshalBinary s := Ok (bytes_of_string s);
  Point := bytes;
  Scalar := bytes;
  point_UnmarshalBinary := toy_point_Unmarshal;
  point_MarshalBinary b := Ok (x50 :: b);
  point_MulBase sk := sk;
  scalar_UnmarshalBinary := Ok;
  scalar_MarshalBinary := Ok;
  scalar_Equal a b := bool_decide (a = b);
  scheme_Sign sk msg := Ok (sk ++ msg);
  scheme_Verify p msg sig :=
    if decide (sig = p ++ msg) then None else Some (errorsNew "bls: invalid signature");
  scheme_AggregateSignatures l := Ok (concat l);
  scheme_AggregatePublicKeys l := concat l;
  ed25519_verify_raw pk msg sig := bool_decide (sig = pk ++ msg);
  sha512_Sum512 d := take 64 (d ++ replicate 64 x00);
  EcdsaPub := bytes;
  EcdsaPriv := bytes;
  eth_UnmarshalPubkey := Ok;
  eth_FromECDSAPub p := p;
  eth_FromECDSA p := p;
  eth_Sign d sk := Ok (sk ++ d);
  eth_VerifySignature pk msg sig := bool_decide (length msg = 32 /\ sig = pk ++ msg);
  ecdsa_PublicKey p := p;
  JWK := unit;
  Bloom := list bytes;
  bloom_NewWithEstimates _ := [];
  bloom_Add x b := x :: b;
  bloom_Test x b := bool_decide (x ∈ b);
  bloom_GobEncode b := Ok (encode b);
  bloom_GobDecode d _ := decode d
|}.

Lemma string_app_inj_l (s t u : string) : s +:+ t = s +:+ u -> t = u.
Proof. induction s; simpl; [done|]. intros [= ?]. auto. Qed.

Lemma string_of_bytes_inj b1 b2 : string_of_bytes b1 = string_of_bytes b2 -> b1 = b2.
Proof. intros Hs. rewrite <- (bytes_of_string_of_bytes b1), Hs. apply bytes_of_string_of_bytes. Qed.

#[export] Instance ToyCid : CidLaws.
Proof.
  split.
  - intros [b1|] [b2|]; simpl; try done. intros [= Hs]. f_equal.
    apply string_of_bytes_inj in Hs. by rewrite <- (of_to_text b1), Hs, of_to_text.
  - intros [b1|] [b2|]; simpl; congruence.
  - by intros [].
  - intros [b|] Hc; [|done].
    change (Ok (Some (of_text (bytes_of_string (string_of_bytes (to_text b))))) = Ok (Some b)).
    by rewrite bytes_of_string_of_bytes, of_to_text.
  - done.
  - intros [b|] Hc; [|done].
    change (Ok (Some (of_text (bytes_of_string (string_of_bytes (to_text b))))) = Ok (Some b)).
    by rewrite bytes_of_string_of_bytes, of_to_text.
  - by intros [b|] Hc.
  - by intros [b|].
  - done.
Qed.

#[export] Instance ToyHash : HashLaws.
Proof. split; [done|]. simpl. intros. congruence. Qed.

#[export] Instance ToyMultibase : MultibaseLaws.
Proof.
  split. intros e b s. simpl. unfold toy_multibase_Encode.
  repeat case_decide; intros [= <-]; simpl; by rewrite bytes_of_string_of_bytes; subst.
Qed.

#[export] Instance ToyPeer : PeerLaws.
Proof. split. by intros ??. Qed.

#[export] Instance ToyBls : BlsLaws.
Proof.
  split; simpl.
  - intros sk msg sig [= <-]. by rewrite decide_True.
  - by intros p b [= <-].
Qed.

#[export] Instance ToyBloom : BloomLaws.
Proof.
  split; simpl.
  - intros. case_bool_decide; [done|]. set_solver.
  - intros x y b Hb. apply bool_decide_eq_true in Hb. apply bool_decide_eq_true. set_solver.
  - intros b d b0 [= <-]. exact (decode_encode b).
Qed.

#[export] Instance ToyEth : EthLaws.
Proof.
  split.
  - intros pk msg sig Hv. apply bool_decide_eq_true in Hv. tauto.
  - intros d. change (length (take 64 (d ++ replicate 64 x00)) = 64). rewrite length_take, length_app, length_replicate. lia.
Qed.

(** ** The msgpack codecs *)

#[export] Instance Ser_VerificationMethod : Ser VerificationMethod.
Proof.
  refine (Ser_iso
    (fun v => (vm_ID v, (vm_Type v, (vm_Controller v, (vm_PublicKeyJwk v, vm_PublicKeyMultibase v)))) :
       string * (string * (string * (option unit * string))))
    (fun '(a, (b, (c, (d, e)))) => Build_VerificationMethod a b c d e) _).
  by intros [].
Defined.

#[export] Instance Ser_Service : Ser Service.
Proof.
  refine (Ser_iso (fun v => (svc_ID v, (svc_Type v, svc_ServiceEndpoint v)))
    (fun '(a, (b, c)) => Build_Service a b c) _).
  by intros [].
Defined.

#[export] Instance Ser_Document : Ser Document.
Proof.
  refine (Ser_iso
    (fun d => (doc_Context d, (doc_ID d, (doc_AlsoKnownAs d, (doc_Controller d,
      (doc_VerificationMethod d, (doc_Authentication d, (doc_AssertionMethod d,
      (doc_KeyAgreement d, (doc_CapabilityInvocation d, (doc_CapabilityDelegation d,
       doc_Service d)))))))))))
    (fun '(a, (b, (c, (d, (e, (f, (g, (h, (i, (j, k)))))))))) =>
       Build_Document a b c d e f g h i j k) _).
  by intros [].
Defined.

#[export] Instance Ser_Node : Ser Node.
Proof.
  refine (Ser_iso (fun v => (node_Id v, (node_Did v, node_Key v)))
    (fun '(a, (b, c)) => Build_Node a b c) _).
  by intros [].
Defined.

(** A payload is a [nil], a document, a node, raw bytes or a map. *)
Definition TxData_parts (d : TxData) : nat * (option Document * (option Node * option bytes)) :=
  match d with
  | DataNil => (0, (None, (None, None)))
  | DataDID d => (1, (did_Document d, (None, None)))
  | DataNode n => (2, (None, (Some n, None)))
  | DataRaw b => (3, (None, (None, Some b)))
  | DataMap b => (4, (None, (None, Some b)))
  end.
Definition parts_TxData (p : nat * (option Document * (option Node * option bytes))) : TxData :=
  match p with
  | (1, (d, _)) => DataDID {| did_Document := d |}
  | (2, (_, (Some n, _))) => DataNode n
  | (3, (_, (_, Some b))) => DataRaw b
  | (4, (_, (_, Some b))) => DataMap b
  | _ => DataNil
  end.

#[export] Instance Ser_TxData : Ser TxData.
Proof. refine (Ser_iso TxData_parts parts_TxData _). by intros [|[]| | |]. Defined.

#[export] Instance Ser_Tx : Ser Tx.
Proof.
  refine (Ser_iso
    (fun t => (tx_Version t, (tx_Ts t, (tx_From t, (tx_Type t, (tx_Action t,
      (tx_Data t, tx_Signature t)))))))
    (fun '(a, (b, (c, (d, (e, (f, g)))))) => Build_Tx a b c d e f g) _).
  by intros [].
Defined.

(** Decoding into a value of another kind of payload keeps the payload raw, or
    fails. *)
Definition toy_Unmarshal_Tx (b : bytes) (t0 : Tx) : result Tx :=
  match b with
  | x54 :: b =>
      t ← decode b;
      if same_kind (tx_Data t0) (tx_Data t) then Ok t
      else match tx_Data t0 with
           | DataRaw _ => Ok (tx_set_Data (DataRaw (encode (tx_Data t))) t)
           | DataNil => Ok t
           | _ => Err (errorsNew "decoding another type")
           end
  | _ => Err (errorsNew "not a tx")
  end.

(** A map is encoded as what it was decoded from. *)
Definition toy_payload (t : Tx) : Tx :=
  match tx_Data t with
  | DataMap b => tx_set_Data (match decode b with Ok d => d | Err _ => DataNil end) t
  | _ => t
  end.

#[export] Instance ToyTxCodec : TxCodec := {|
  msgpack_Marshal_Tx t := Ok (x54 :: encode (toy_payload t));
  msgpack_Unmarshal_Tx := toy_Unmarshal_Tx
|}.

#[export] Instance ToyTxCodecLaws : TxCodecLaws.
Proof.
  split; simpl.
  - done.
  - intros t b t0 [= <-] Hk. simpl. rewrite decode_encode. simpl. unfold toy_payload.
    destruct (tx_Data t) eqn:Hd; rewrite ?Hd, ?Hk; try done. by destruct (tx_Data t0).
  - intros t b t0 r0 [= <-] Hr Hn. simpl. rewrite decode_encode, Hr. simpl. unfold toy_payload.
    destruct (tx_Data t) as [| | |r|r] eqn:Hd; rewrite ?Hd; [done|by eexists..| |].
    + exists r. rewrite <- Hd. by rewrite tx_set_Data_same.
    + destruct (decode r) as [d|]; [|by eexists]. destruct d as [| | |r'|]; by eexists.
Qed.

Definition Block_parts (b : Block) :=
  (blk_Version b, (blk_ID b : option bytes, (blk_Parent b : option bytes, (blk_Height b, (blk_CreatedAt b,
  (blk_Proposer b, (blk_Signature b, (blk_Nonce b, (blk_Bloom b, blk_TxRoot b : option bytes))))))))).

#[export] Instance Ser_Block : Ser Block.
Proof.
  refine (Ser_iso Block_parts
    (fun '(a, (b, (c, (d, (e, (f, (g, (h, (i, j))))))))) => Build_Block a b c d e f g h i j) _).
  by intros [].
Defined.

Definition toy_Marshal_TxSet (s : TxSet) : result bytes :=
  Ok (encode ((ts_Children s, ts_Tx s) : list (option bytes) * option (option bytes))).
Definition toy_Unmarshal_TxSet (b : bytes) : result TxSet :=
  match decode (A := list (option bytes) * option (option bytes)) b with
  | Ok p => Ok {| ts_Children := p.1; ts_Tx := p.2; ts_cid := cid_Undef |}
  | Err e => Err e
  end.

#[export] Instance ToyChainCodec : ChainCodec := {|
  msgpack_Marshal_Block b := Ok (x42 :: encode b);
  msgpack_Unmarshal_Block b :=
    match b with x42 :: b => decode b | _ => Err (errorsNew "not a block") end;
  msgpack_Marshal_TxSet := toy_Marshal_TxSet;
  msgpack_Unmarshal_TxSet := toy_Unmarshal_TxSet;
  msgpack_Unmarshal_Document b :=
    match b with x54 :: _ => Ok empty_Document | _ => decode b end
|}.

#[export] Instance ToyChainCodecLaws : ChainCodecLaws.
Proof.
  split; simpl; try done.
  - intros s d _ [= <-]. unfold toy_Unmarshal_TxSet. by rewrite decode_encode.
  - intros b d _ [= <-]. exists b. by rewrite decode_encode.
  - by intros t d [= <-].
Qed.
End Toy.
