(* ===== verification/ChainFacts.v ===== *)
(** * Properties of the Merkle sets and bloom filters of pkg/storage

    The canonical order of [cidList], the termination of the walk over a set,
    what the walk finds, and that a set built by [NewTxSet] in a store that
    keeps its promises ([ContentStore]) holds exactly the transactions it was
    built from. *)

From S2P Require Import Prelude Externals W3cDid Tx Chain.

Module ChainFacts.
Import Tx Chain.

(** ** The order of [cidList] *)

Section Order.
Context `{Lib}.

Lemma bytes_leb_refl a : bytes_leb a a = true.
Proof. induction a as [|x a IH]; simpl; [done|]. rewrite N.eqb_refl, IH. by rewrite orb_true_r. Qed.

Lemma bytes_leb_total a b : bytes_leb a b = true \/ bytes_leb b a = true.
Proof.
  revert b. induction a as [|x a IH]; intros [|y b]; simpl; auto.
  destruct (N.lt_trichotomy (Byte.to_N x) (Byte.to_N y)) as [Hlt|[Heq|Hlt]].
  - left. apply orb_true_iff. left. by apply N.ltb_lt.
  - rewrite Heq, N.eqb_refl. destruct (IH b) as [->| ->]; [left|right];
      by rewrite orb_true_r.
  - right. apply orb_true_iff. left. by apply N.ltb_lt.
Qed.

Lemma bytes_leb_trans a b c :
  bytes_leb a b = true -> bytes_leb b c = true -> bytes_leb a c = true.
Proof.
  revert b c. induction a as [|x a IH]; intros [|y b] [|z c]; simpl; try done.
  rewrite !orb_true_iff, !andb_true_iff, !N.ltb_lt, !N.eqb_eq.
  intros [?|[??]] [?|[??]]; [left; lia..|]. right. split; [lia|]. by eapply IH.
Qed.

Lemma byte_to_N_inj x y : Byte.to_N x = Byte.to_N y -> x = y.
Proof. intros Hxy. apply (f_equal Byte.of_N) in Hxy. rewrite !Byte.of_to_N in Hxy. congruence. Qed.

Lemma bytes_leb_antisymm a b : bytes_leb a b = true -> bytes_leb b a = true -> a = b.
Proof.
  revert b. induction a as [|x a IH]; intros [|y b]; simpl; try done.
  rewrite !orb_true_iff, !andb_true_iff, !N.ltb_lt, !N.eqb_eq.
  intros [?|[??]] [?|[??]]; [lia..|].
  f_equal; [by apply byte_to_N_inj|by apply IH].
Qed.

#[export] Instance cid_le_total : Total cid_le.
Proof. intros a b. apply bytes_leb_total. Qed.

#[export] Instance cid_le_trans : Transitive cid_le.
Proof. intros a b c. apply bytes_leb_trans. Qed.

#[export] Instance cid_le_antisymm `{!CidLaws} : AntiSymm (=) cid_le.
Proof. intros a b Hab Hba. apply (inj cid_Bytes). by apply bytes_leb_antisymm. Qed.

Lemma sort_cids_perm l : sort_cids l ≡ₚ l.
Proof. apply merge_sort_Permutation. Qed.

Lemma sort_cids_sorted l : StronglySorted cid_le (sort_cids l).
Proof. apply StronglySorted_merge_sort; apply _. Qed.

(** Any sorting algorithm gives the result of [sort_cids]. *)
Lemma sort_cids_unique `{!CidLaws} l l' :
  StronglySorted cid_le l' -> l' ≡ₚ l -> l' = sort_cids l.
Proof.
  intros Hs Hp. apply (StronglySorted_unique cid_le); [done|apply sort_cids_sorted|].
  by rewrite sort_cids_perm.
Qed.

Lemma sort_cids_canonical `{!CidLaws} l1 l2 : l1 ≡ₚ l2 -> sort_cids l1 = sort_cids l2.
Proof.
  intros Hp. apply sort_cids_unique; [apply sort_cids_sorted|].
  by rewrite sort_cids_perm.
Qed.

#[export] Instance string_le_total : Total string_le.
Proof. intros a b. apply bytes_leb_total. Qed.

#[export] Instance string_le_trans : Transitive string_le.
Proof. intros a b c. apply bytes_leb_trans. Qed.

#[export] Instance string_le_antisymm : AntiSymm (=) string_le.
Proof. intros a b Hab Hba. apply bytes_of_string_inj. by apply bytes_leb_antisymm. Qed.

Lemma sort_strings_perm l : sort_strings l ≡ₚ l.
Proof. apply merge_sort_Permutation. Qed.

Lemma sort_strings_sorted l : StronglySorted string_le (sort_strings l).
Proof. apply StronglySorted_merge_sort; apply _. Qed.
End Order.

(** ** The bloom filter of a block has no false negatives *)

Section BloomFacts.
Context `{Lib} `{!BloomLaws}.

Lemma bloom_foldl_mono x l b :
  bloom_Test x b = true -> bloom_Test x (foldl (fun b t => bloom_Add (cid_Bytes t) b) b l) = true.
Proof. revert b. induction l; simpl; intros b Hb; [done|]. apply IHl. by apply bloom_Test_mono. Qed.

Lemma bloom_foldl_elem c l b :
  c ∈ l -> bloom_Test (cid_Bytes c) (foldl (fun b t => bloom_Add (cid_Bytes t) b) b l) = true.
Proof.
  intros Hc. revert b. induction Hc as [x l|x y l Hc IH]; intros b; simpl; [|apply IH].
  apply bloom_foldl_mono, bloom_Test_Add.
Qed.

Lemma MakeBloom_contains txs b c :
  MakeBloom txs = Ok b -> c ∈ txs -> BloomContains b c = Ok true.
Proof.
  intros Hb Hc. unfold BloomContains. rewrite (bloom_Decode_Encode _ _ _ Hb). simpl.
  by rewrite bloom_foldl_elem.
Qed.
End BloomFacts.

(** ** The walk over a set *)

Section WalkFacts.
Context `{Lib}.
Context (getset : Cid -> result TxSet) (gettx : Cid -> result Tx).
Notation walk := (walk getset gettx).

Lemma walk_mono fuel fuel' visited queue seen r :
  walk fuel visited queue seen = Some r -> fuel <= fuel' ->
  walk fuel' visited queue seen = Some r.
Proof.
  revert fuel' visited queue seen.
  induction fuel as [|fuel IH]; intros fuel' visited [|c queue] seen Hw Hle;
    destruct fuel'; simpl in *; try done; try lia.
  repeat case_match; try done; apply IH; (done || lia).
Qed.

(** The result does not depend on the fuel. *)
Lemma walks_to_det root r1 r2 :
  walks_to getset gettx root r1 -> walks_to getset gettx root r2 -> r1 = r2.
Proof.
  intros [f1 H1] [f2 H2].
  apply (walk_mono _ (f1 `max` f2)) in H1; [|lia].
  apply (walk_mono _ (f1 `max` f2)) in H2; [|lia]. congruence.
Qed.

(** The walk gives up before it has collected more than a block may hold. *)
Lemma walk_size fuel visited queue seen m :
  size seen <= MaxBlockTxCount -> walk fuel visited queue seen = Some (Ok m) ->
  size m <= MaxBlockTxCount.
Proof.
  revert visited queue seen.
  induction fuel as [|fuel IH]; intros visited [|c queue] seen Hsz; simpl; try done;
    try (by intros [= <-]).
  repeat case_match; intros Hw; simplify_eq; (eapply IH; [|exact Hw]); (done || lia).
Qed.

Definition kids (c : Cid) : nat :=
  match getset c with Ok s => length (ts_Children s) | Err _ => 0 end.

(** The children still to be pushed, of the sets of [D] not visited yet. *)
Definition pending (D visited : gset Cid) : nat :=
  sum_list (map kids (elements (D ∖ visited))).

Lemma pending_visit D visited c :
  c ∈ D -> c ∉ visited -> pending D visited = kids c + pending D ({[c]} ∪ visited).
Proof.
  intros HD Hv. unfold pending.
  assert (D ∖ visited = {[c]} ∪ (D ∖ ({[c]} ∪ visited))) as ->.
  { apply set_eq. intros x. destruct (decide (x = c)); set_solver. }
  by rewrite (Permutation_map kids (elements_union_singleton (D ∖ ({[c]} ∪ visited)) c ltac:(set_solver))).
Qed.

(** The walk ends: with the sets of a finite store [D], every set is expanded
    at most once, so the fuel [length queue + pending] is enough. *)
Lemma walk_terminates D fuel visited queue seen :
  (forall c, is_ok (getset c) = true -> c ∈ D) ->
  length queue + pending D visited <= fuel ->
  is_Some (walk fuel visited queue seen).
Proof.
  intros HD. revert visited queue seen.
  induction fuel as [|fuel IH]; intros visited [|c queue] seen Hf; simpl in *;
    try (by eexists); try lia.
  case_decide as Hv; [apply IH; lia|].
  destruct (getset c) as [s|e] eqn:Hs; simpl; [|by eexists].
  assert (kids c = length (ts_Children s)) as Hk by (unfold kids; by rewrite Hs).
  pose proof (pending_visit D visited c (HD c ltac:(by rewrite Hs)) Hv).
  repeat case_match; simplify_eq/=; try (by eexists); apply IH; rewrite length_app; lia.
Qed.

(** [holds c A]: the set stored at [c] is a Merkle tree over the transactions [A]. *)
Inductive holds : Cid -> gset Cid -> Prop :=
| holds_leaf c t s :
    getset c = Ok s -> ts_Children s = [] -> ts_Tx s = Some t -> holds c {[t]}
| holds_node c a b A B s :
    getset c = Ok s -> ts_Children s = [a; b] -> ts_Tx s = None ->
    holds a A -> holds b B -> holds c (A ∪ B).

(** The sets of [V] have their children in [V'] and their transactions in [m]. *)
Definition closed (V V' : gset Cid) (m : gmap Cid Tx) : Prop :=
  forall c s, c ∈ V -> getset c = Ok s ->
    (forall k, k ∈ ts_Children s -> k ∈ V') /\ (forall t, ts_Tx s = Some t -> is_Some (m !! t)).

Lemma holds_closed V m c A : closed V V m -> holds c A -> c ∈ V -> A ⊆ dom m.
Proof.
  intros Hcl. induction 1 as [c t s Hs Hk Ht|c a b A B s Hs Hk Ht _ IHa _ IHb]; intros Hc;
    destruct (Hcl _ _ Hc Hs) as [Hkids Htx].
  - apply singleton_subseteq_l, elem_of_dom. by apply Htx.
  - rewrite Hk in Hkids. apply union_least; [apply IHa|apply IHb]; apply Hkids; set_solver.
Qed.

(** The transactions collected so far are among those of the tree. *)
Definition collected (A : gset Cid) (m : gmap Cid Tx) : Prop :=
  forall t v, m !! t = Some v -> t ∈ A /\ gettx t = Ok v.

Lemma collected_insert A m t v :
  collected A m -> t ∈ A -> gettx t = Ok v -> collected A (<[t := v]> m).
Proof.
  intros Hm Ht Hv t' v'. destruct (decide (t = t')) as [->|].
  - rewrite lookup_insert_eq. intros [= <-]. auto.
  - rewrite lookup_insert_ne by done. apply Hm.
Qed.

Lemma collected_size A m : collected A m -> size m <= size A.
Proof.
  intros Hm. rewrite <- size_dom. apply subseteq_size.
  intros t [v Hv]%elem_of_dom. by eapply Hm.
Qed.

(** Visiting a set keeps what is closed, its children being queued. *)
Lemma closed_visit V Q m c s m' :
  closed V (V ∪ ({[c]} ∪ Q)) m -> getset c = Ok s -> m ⊆ m' ->
  (forall t, ts_Tx s = Some t -> is_Some (m' !! t)) ->
  closed ({[c]} ∪ V) ({[c]} ∪ V ∪ (Q ∪ list_to_set (ts_Children s))) m'.
Proof.
  intros Hcl Hs Hsub Htx x sx [->%elem_of_singleton|Hx]%elem_of_union Hsx.
  - rewrite Hs in Hsx. injection Hsx as <-. split; [set_solver|done].
  - destruct (Hcl _ _ Hx Hsx) as [Hk Ht]. split.
    + intros k Hk'. specialize (Hk k Hk'). set_solver.
    + intros t Ht'. destruct (Ht t Ht') as [v Hv]. exists v. by eapply lookup_weaken.
Qed.

Lemma walk_spec A fuel visited queue seen r :
  size A <= MaxBlockTxCount ->
  (forall t, t ∈ A -> is_ok (gettx t) = true) ->
  (forall c, c ∈ queue -> exists B, holds c B /\ B ⊆ A) ->
  collected A seen ->
  closed visited (visited ∪ list_to_set queue) seen ->
  walk fuel visited queue seen = Some r ->
  exists m V, r = Ok m /\ collected A m /\ closed V V m /\ visited ∪ list_to_set queue ⊆ V.
Proof.
  intros HA Htx. revert visited queue seen.
  induction fuel as [|fuel IH]; intros visited [|c queue] seen HQ Hseen Hcl Hw; simpl in *;
    try done;
    try (injection Hw as <-; rewrite union_empty_r_L in Hcl; exists seen, visited;
      split_and!; [done..|set_solver]).
  case_decide as Hv.
  - destruct (IH visited queue seen) as (m&V&?&?&?&?); [set_solver|done| |done|].
    { intros x sx Hx Hsx. destruct (Hcl x sx Hx Hsx) as [Hk Ht]. split; [|done].
      intros k Hk'. specialize (Hk k Hk'). set_solver. }
    exists m, V. split_and!; [done..|set_solver].
  - destruct (HQ c) as (B&HB&HBA); [set_solver|].
    assert (exists s, getset c = Ok s /\ (forall k, k ∈ ts_Children s -> exists B, holds k B /\ B ⊆ A)
      /\ (forall t, ts_Tx s = Some t -> t ∈ A)) as (s&Hs&Hkids&Hst).
    { inversion HB as [? t s Hs Hk Ht|? a b A1 A2 s Hs Hk Ht Ha Hb]; subst;
        exists s; split_and!; try done; rewrite ?Hk; try (intros k Hk'; set_solver). }
    rewrite Hs in Hw. simpl in Hw.
    assert (forall m', seen ⊆ m' -> collected A m' ->
      (forall t, ts_Tx s = Some t -> is_Some (m' !! t)) ->
      walk fuel ({[c]} ∪ visited) (queue ++ ts_Children s) m' = Some r ->
      exists m V, r = Ok m /\ collected A m /\ closed V V m /\ visited ∪ ({[c]} ∪ list_to_set queue) ⊆ V)
      as Hnext.
    { intros m' Hsub Hm' Ht' Hw'. destruct (IH ({[c]} ∪ visited) (queue ++ ts_Children s) m')
        as (m&V&?&?&?&HV); [set_solver|done| |done|].
      - rewrite list_to_set_app_L. by apply closed_visit with seen.
      - exists m, V. split_and!; [done..|]. rewrite list_to_set_app_L in HV. set_solver. }
    destruct (ts_Tx s) as [t|] eqn:Ht; [|apply (Hnext seen); (done || set_solver)].
    destruct (gettx t) as [v|] eqn:Hgt; simpl in Hw.
    2: { specialize (Htx t (Hst t eq_refl)). by rewrite Hgt in Htx. }
    assert (collected A (<[t := v]> seen)) as Hc' by (apply collected_insert; auto).
    case_decide as Hsz; [apply collected_size in Hc'; lia|].
    apply (Hnext (<[t := v]> seen)); try done.
    + apply map_subseteq_spec. intros t' v' Hv'. destruct (decide (t = t')) as [->|].
      * rewrite lookup_insert_eq. apply Hseen in Hv' as [_ Hv']. congruence.
      * by rewrite lookup_insert_ne.
    + intros t' [= <-]. rewrite lookup_insert_eq. by eexists.
Qed.

(** A walk from the root of a tree over [A] finds the transactions of [A]. *)
Lemma walks_to_holds A root r :
  size A <= MaxBlockTxCount -> (forall t, t ∈ A -> is_ok (gettx t) = true) ->
  holds root A -> walks_to getset gettx root r ->
  exists m, r = Ok m /\ dom m = A /\ (forall t v, m !! t = Some v -> gettx t = Ok v).
Proof.
  intros HA Htx Hroot [fuel Hw].
  destruct (walk_spec A fuel ∅ [root] ∅ r) as (m&V&->&Hm&Hcl&HV); try done.
  - intros c Hc. exists A. split; [|done]. by apply list_elem_of_singleton in Hc as ->.
  - exists m. split_and!; [done| |intros t v Htv; by apply Hm in Htv as [_ ?]].
    apply set_eq. intros t. split.
    + intros [v Hv]%elem_of_dom. by apply Hm in Hv as [? _].
    + intros Ht. eapply holds_closed; [done..|set_solver|done].
Qed.
End WalkFacts.

Lemma holds_mono `{Lib} (g g' : Cid -> result TxSet) c A :
  (forall c, is_ok (g c) = true -> g' c = g c) -> holds g c A -> holds g' c A.
Proof.
  intros Hg. assert (forall c s, g c = Ok s -> g' c = Ok s) as Hg'.
  { intros c' s Hs. rewrite Hg; [done|]. by rewrite Hs. }
  induction 1; [by eapply holds_leaf; eauto|by eapply holds_node; eauto].
Qed.

(** ** What [PutSet] keeps, [NewTxSet] keeps *)

Section NewTxSet_keeps.
Context `{L : Lib} {W H : Type} `{!Store W H}.
Context (I : W -> Prop) (h : H) (Hput : forall s, preserves I (PutSet h s)).

Lemma preserves_put_leaves txs : preserves I (put_leaves h txs).
Proof.
  induction txs as [|t txs IH]; simpl; [apply preserves_ret|].
  apply preserves_try; [|intros; apply preserves_try; [done|intros; apply preserves_ret]].
  apply preserves_try; [by apply preserves_wrap|intros; apply preserves_ret].
Qed.

Lemma preserves_put_parents nodes : preserves I (put_parents h nodes).
Proof.
  induction nodes as [|a|a b nodes IH] using list_ind2; simpl; [apply preserves_ret|apply preserves_panic|].
  apply preserves_try; [by apply preserves_wrap|intros].
  apply preserves_try; [done|intros; apply preserves_ret].
Qed.

Lemma preserves_reduce fuel nodes : preserves I (reduce_nodes fuel h nodes).
Proof.
  revert nodes. induction fuel as [|fuel IH]; intros [|a [|b nodes]]; simpl;
    try apply preserves_ret; try apply preserves_panic.
  apply preserves_try; [apply preserves_put_parents|done].
Qed.

Lemma preserves_NewTxSet txs : preserves I (NewTxSet h txs).
Proof.
  unfold NewTxSet. case_decide; [apply preserves_ret|].
  apply preserves_try; [apply preserves_put_leaves|intros; apply preserves_reduce].
Qed.
End NewTxSet_keeps.

(** ** What a store promises about the objects put into it

    The reads of a store are views of its memory, an object put is found again
    under its identifier, and nothing found before is lost. *)

Class ContentStore `{L : Lib} (W H : Type) `{!Store W H} := {
  store_wf : W -> H -> Prop;
  view_set : W -> H -> Cid -> result TxSet;
  view_tx : W -> H -> Cid -> result Tx;
  store_ext (w w' : W) (h : H) : Prop :=
    (forall c, is_ok (view_set w h c) = true -> view_set w' h c = view_set w h c) /\
    (forall c, is_ok (view_tx w h c) = true -> view_tx w' h c = view_tx w h c);
  GetSet_view : forall h c w, store_wf w h -> GetSet h c w = (Ret (view_set w h c), w);
  GetTx_view : forall h c w, store_wf w h -> GetTx h c w = (Ret (view_tx w h c), w);
  PutSet_view : forall h s w, store_wf w h ->
    exists r w', PutSet h s w = (Ret r, w') /\ store_wf w' h /\ store_ext w w' h /\
      (forall c, r = Ok c ->
         c <> cid_Undef /\ (ts_defined s -> view_set w' h c = Ok (ts_set_cid cid_Undef s)));
  PutTx_view : forall h t w, store_wf w h -> tx_typed t = true ->
    exists r w', PutTx h t w = (Ret r, w') /\ store_wf w' h /\ store_ext w w' h /\
      (forall c, r = Ok c -> view_tx w' h c = Ok t);
  view_tx_defined : forall h c w, store_wf w h -> is_ok (view_tx w h c) = true -> c <> cid_Undef;
  AllTx_view : forall h b w, store_wf w h ->
    exists r, AllTx h b w = (Ret r, w) /\
      walks_to (view_set w h) (view_tx w h) (blk_TxRoot b) r
}.

Section MerkleFacts.
Context `{L : Lib} {W H : Type} `{!Store W H} `{!ContentStore W H}.
Implicit Types (h : H) (w : W).

Lemma store_ext_refl w h : store_ext w w h.
Proof. by split. Qed.

Lemma store_ext_trans w1 w2 w3 h : store_ext w1 w2 h -> store_ext w2 w3 h -> store_ext w1 w3 h.
Proof.
  intros [Hs1 Ht1] [Hs2 Ht2]. split; intros c Hc.
  - rewrite Hs2; [by apply Hs1|]. by rewrite Hs1.
  - rewrite Ht2; [by apply Ht1|]. by rewrite Ht1.
Qed.

(** [n] is stored under its own identifier, and is a tree over [B]. *)
Definition node_ok w h (n : TxSet) (B : gset Cid) : Prop :=
  holds (view_set w h) (ts_cid n) B /\ view_set w h (ts_cid n) = Ok (ts_set_cid cid_Undef n) /\
  ts_cid n <> cid_Undef /\ ts_defined n.

Lemma node_ok_mono w w' h n B : store_ext w w' h -> node_ok w h n B -> node_ok w' h n B.
Proof.
  intros [Hs _] (Hh&Hv&?&?). split_and!; [by eapply holds_mono| |done..]. rewrite Hs; [done|]. by rewrite Hv.
Qed.

(** The nodes of a level are trees over the parts of [A]. *)
Definition level w h (nodes : list TxSet) (A : gset Cid) : Prop :=
  exists parts, Forall2 (node_ok w h) nodes parts /\ A = ⋃ parts.

Lemma level_mono w w' h nodes A : store_ext w w' h -> level w h nodes A -> level w' h nodes A.
Proof.
  intros Hext (parts&Hp&->). exists parts. split; [|done].
  eapply Forall2_impl; [|exact Hp]. intros n B. by apply node_ok_mono.
Qed.

Lemma level_cons w h n nodes A B :
  node_ok w h n B -> level w h nodes A -> level w h (n :: nodes) (B ∪ A).
Proof. intros Hn (parts&Hp&->). exists (B :: parts). split; [by constructor|done]. Qed.

Lemma level_cons_inv w h n nodes A :
  level w h (n :: nodes) A ->
  exists B A', node_ok w h n B /\ level w h nodes A' /\ A = B ∪ A'.
Proof.
  intros (parts&Hp&->). inversion Hp as [|? B ? parts' Hn Hps]; subst.
  exists B, (⋃ parts'). split_and!; [done|by exists parts'|done].
Qed.

(** Padding repeats the last node, which adds no transaction. *)
Lemma level_pad w h nodes A : level w h nodes A -> level w h (pad_nodes nodes) A.
Proof.
  unfold pad_nodes. destruct (Nat.odd _); [|done]. intros (parts&Hp&->).
  destruct nodes as [|n nodes _] using rev_ind; [by exists parts|].
  apply Forall2_app_inv_l in Hp as (p1&p2&Hp1&Hp2&->).
  inversion Hp2 as [|? B ? ? Hn Hnil]; subst. inversion Hnil; subst.
  rewrite last_snoc. exists ((p1 ++ [B]) ++ [B]). split.
  - apply Forall2_app; [apply Forall2_app; [done|]|]; (constructor; [done|constructor]).
  - rewrite !union_list_app_L. simpl. set_solver.
Qed.

Lemma pad_nodes_even nodes : Nat.even (length (pad_nodes nodes)) = true.
Proof.
  unfold pad_nodes. destruct (Nat.odd _) eqn:Ho.
  - destruct nodes as [|n nodes _] using rev_ind; [done|].
    rewrite last_snoc, length_app. simpl. rewrite Nat.add_1_r, Nat.even_succ. done.
  - unfold Nat.odd in Ho. by destruct (Nat.even _).
Qed.

Lemma pad_nodes_length nodes : length (pad_nodes nodes) <= S (length nodes).
Proof.
  unfold pad_nodes. destruct (Nat.odd _); [|lia]. rewrite length_app.
  destruct (list.last nodes); simpl; lia.
Qed.

(** The store takes every set. *)
Definition put_total h : Prop :=
  forall s w, store_wf w h -> exists c w', PutSet h s w = (Ret (Ok c), w').

(** What every step of the construction guarantees. *)
Definition built h w {A} (P : W -> A -> Prop) (r : result A) (w' : W) : Prop :=
  store_wf w' h /\ store_ext w w' h /\ (forall a, r = Ok a -> P w' a) /\
  (put_total h -> is_ok r = true).

Lemma built_err h w w1 w' {A B} (P : W -> A -> Prop) (Q : W -> B -> Prop) e :
  store_ext w w1 h -> built h w1 P (Err e) w' -> built h w Q (Err e) w'.
Proof.
  intros Hext (Hwf&Hext'&_&Htot). split_and!; [done|by eapply store_ext_trans|done|exact Htot].
Qed.

Lemma built_step h w w1 w' {A} (P : W -> A -> Prop) r :
  store_ext w w1 h -> built h w1 P r w' -> built h w P r w'.
Proof.
  intros Hext (Hwf&Hext'&HP&Htot). split_and!; [done|by eapply store_ext_trans|done..].
Qed.

Lemma PutSet_wp h msg s w :
  store_wf w h ->
  wp (gwrap msg (PutSet h s))
     (built h w (fun w' c => c <> cid_Undef /\ (ts_defined s -> view_set w' h c = Ok (ts_set_cid cid_Undef s)))) w.
Proof.
  intros Hwf. destruct (PutSet_view h s w Hwf) as (r&w'&Hput&Hwf'&Hext&Hview).
  unfold gwrap. rewrite wp_bind. unfold wp. rewrite Hput. simpl. split_and!; [done..| |].
  - intros c Hc. apply Hview. by destruct r; simplify_eq/=.
  - intros Htot. destruct (Htot s w Hwf) as (c&w2&Hput'). rewrite Hput in Hput'. by simplify_eq/=.
Qed.

Lemma put_leaf_wp h t w :
  t <> cid_Undef -> store_wf w h -> wp (put_leaf h t) (built h w (fun w' n => node_ok w' h n {[t]})) w.
Proof.
  intros Ht Hwf. unfold put_leaf. rewrite wp_try.
  eapply wp_mono; [by apply PutSet_wp|]. intros [c|e] w' Hb; [|by eapply built_err, Hb].
  destruct Hb as (?&?&Hc&?). split_and!; try done. intros n [= <-].
  assert (forall x, ts_defined {| ts_Children := []; ts_Tx := Some t; ts_cid := x |}) as Hd
    by (intros x; split; [constructor|by intros [= ->]]).
  destruct (Hc c eq_refl) as [Hu Hv]. specialize (Hv (Hd _)).
  split_and!; [|exact Hv|exact Hu|apply Hd]. simpl. eapply holds_leaf; [exact Hv|done..].
Qed.

Lemma put_leaves_wp h txs w :
  Forall (fun t => t <> cid_Undef) txs -> store_wf w h ->
  wp (put_leaves h txs) (built h w (fun w' ns =>
    length ns = length txs /\ level w' h ns (list_to_set txs))) w.
Proof.
  intros Hd. revert w. induction Hd as [|t txs Ht _ IH]; intros w Hwf; simpl.
  { split_and!; [done|apply store_ext_refl|intros ? [= <-]; split; [done|by exists []]|done]. }
  rewrite wp_try. eapply wp_mono; [by apply put_leaf_wp|].
  intros [n|e] w1 Hb; [|by eapply built_err, Hb]. destruct Hb as (Hwf1&Hext1&Hn&_).
  rewrite wp_try. eapply wp_mono; [by apply IH|].
  intros [ns|e] w2 Hb; [|eapply built_err; [done|exact Hb]]. eapply built_step; [done|].
  destruct Hb as (?&Hext2&Hns&?). split_and!; try done. intros ? [= <-].
  destruct (Hns ns eq_refl) as [Hlen Hlev]. split; [simpl; by rewrite Hlen|].
  simpl. apply level_cons; [|done]. eapply node_ok_mono; [exact Hext2|by apply Hn].
Qed.

Lemma put_parents_wp h nodes A w :
  Nat.even (length nodes) = true -> store_wf w h -> level w h nodes A ->
  wp (put_parents h nodes) (built h w (fun w' ps =>
    2 * length ps = length nodes /\ level w' h ps A)) w.
Proof.
  revert A w. induction nodes as [|x|a b nodes IH] using list_ind2; intros A w Hev Hwf Hlev; [|done|].
  { split_and!; [done|apply store_ext_refl|intros ? [= <-]; done|done]. }
  simpl. apply level_cons_inv in Hlev as (Ba&A'&Ha&Hlev&->).
  apply level_cons_inv in Hlev as (Bb&A''&Hb&Hlev&->).
  rewrite wp_try. eapply wp_mono; [by apply PutSet_wp|].
  intros [c|e] w1 Hw1; [|by eapply built_err, Hw1]. destruct Hw1 as (Hwf1&Hext1&Hc&_).
  assert (forall x, ts_defined {| ts_Children := [ts_cid a; ts_cid b]; ts_Tx := None; ts_cid := x |}) as Hd
    by (intros x; split; [|done]; repeat constructor; [apply Ha|apply Hb]).
  destruct (Hc c eq_refl) as [Hu Hv]. specialize (Hv (Hd _)). rewrite wp_try.
  eapply wp_mono; [apply (IH A''); [done..|by eapply level_mono]|].
  intros [ps|e] w2 Hw2; [|eapply built_err; [done|exact Hw2]]. eapply built_step; [done|].
  destruct Hw2 as (?&Hext2&Hps&?). split_and!; try done. intros ? [= <-].
  destruct (Hps ps eq_refl) as [Hlen Hlev']. split; [simpl; lia|].
  rewrite (assoc_L (∪)). apply level_cons; [|done]. eapply node_ok_mono; [exact Hext2|].
  split_and!; [|exact Hv|exact Hu|apply Hd]. simpl.
  eapply holds_node; [exact Hv|done|done|..]; (eapply holds_mono; [apply Hext1|]); [apply Ha|apply Hb].
Qed.

Lemma reduce_nodes_wp fuel h nodes A w :
  nodes <> [] -> length nodes <= S fuel -> store_wf w h -> level w h nodes A ->
  wp (reduce_nodes fuel h nodes) (built h w (fun w' root => node_ok w' h root A)) w.
Proof.
  revert nodes w. induction fuel as [|fuel IH]; intros nodes w Hne Hlen Hwf Hlev;
    destruct nodes as [|a [|b nodes]]; try done; try (simpl in Hlen; lia).
  1,2: split_and!; [done|apply store_ext_refl|intros ? [= <-]|done];
    apply level_cons_inv in Hlev as (B&A'&HB&(p&Hp&->)&->); inversion Hp; subst; simpl;
    by rewrite union_empty_r_L.
  change (wp (gtry (put_parents h (pad_nodes (a :: b :: nodes))) (reduce_nodes fuel h))
    (built h w (fun w' root => node_ok w' h root A)) w).
  rewrite wp_try. pose proof (pad_nodes_length (a :: b :: nodes)) as Hpl.
  eapply wp_mono; [apply put_parents_wp; [apply pad_nodes_even|done|by apply level_pad]|].
  intros [ps|e] w1 Hb; [|by eapply built_err, Hb]. destruct Hb as (Hwf1&Hext1&Hps&_).
  destruct (Hps ps eq_refl) as [Hl Hlev1].
  eapply wp_mono; [apply IH; [|simpl in *; lia|done..]|].
  - intros ->. simpl in Hl. unfold pad_nodes in Hl.
    destruct (Nat.odd _); rewrite ?length_app in Hl; simpl in Hl; lia.
  - intros r w2 Hw2. by eapply built_step.
Qed.

(** Building a set of at least one transaction returns, and the root it returns
    is a Merkle tree over exactly the given transactions. *)
Lemma NewTxSet_wp h txs w :
  txs <> [] -> length txs <= MaxBlockTxCount -> Forall (fun t => t <> cid_Undef) txs -> store_wf w h ->
  wp (NewTxSet h txs) (built h w (fun w' root => node_ok w' h root (list_to_set txs))) w.
Proof.
  intros Hne Hlen Hd Hwf. unfold NewTxSet.
  assert (length (sort_cids txs) = length txs) as Hsl by (by rewrite sort_cids_perm).
  rewrite decide_False by lia. rewrite wp_try.
  eapply wp_mono; [apply put_leaves_wp; [by rewrite sort_cids_perm|done]|].
  intros [ns|e] w1 Hb; [|by eapply built_err, Hb]. destruct Hb as (Hwf1&Hext1&Hns&_).
  destruct (Hns ns eq_refl) as [Hnl Hlev].
  assert (list_to_set (sort_cids txs) =@{gset Cid} list_to_set txs) as Hset.
  { apply list_to_set_perm_L, sort_cids_perm. }
  rewrite Hset in Hlev. eapply wp_mono; [apply reduce_nodes_wp; [|lia|done..]|].
  - intros ->. simpl in Hnl. destruct txs; [done|]. simpl in *. lia.
  - intros r w2 Hw2. by eapply built_step.
Qed.
End MerkleFacts.
End ChainFacts.
