(* ===== verification/MemStore.v ===== *)
(** * pkg/storage/memstore.go: the in-memory store

    [MemStore] is the struct; its methods are computations over it.  A Go
    program holds pointers to stores, so the instance of [Store] works on a
    heap of them: [StartTest] allocates a copy, and what is written to the copy
    is not seen in the original.  Locks are not modelled: each method runs
    alone. *)

From S2P Require Import Prelude Externals W3cDid Tx Chain ChainFacts.

Module MemStore.
Import W3cDid Tx Chain ChainFacts.

Section MemStore.
Context `{L : Lib} `{!TxCodec} `{!ChainCodec} `{!RangeOrder}.

(** An object is a byte slice, [nil] if its encoding failed. *)
Record MemStore := {
  objects : gmap Cid (option bytes);
  txbIndex : gmap Cid Cid;
  bState : gmap Cid Z;
  nodes : gmap string Cid;
  dids : gmap string Cid;
  claims : gmap string (list Cid);
  lastBlock : Cid;
  genesisApplied : bool
}.

Definition set_objects (x : gmap Cid (option bytes)) '(Build_MemStore a b c d e f g h) := Build_MemStore x b c d e f g h.
Definition set_txbIndex (x : gmap Cid Cid) '(Build_MemStore a b c d e f g h) := Build_MemStore a x c d e f g h.
Definition set_bState (x : gmap Cid Z) '(Build_MemStore a b c d e f g h) := Build_MemStore a b x d e f g h.
Definition set_nodes (x : gmap string Cid) '(Build_MemStore a b c d e f g h) := Build_MemStore a b c x e f g h.
Definition set_dids (x : gmap string Cid) '(Build_MemStore a b c d e f g h) := Build_MemStore a b c d x f g h.
Definition set_lastBlock (x : Cid) '(Build_MemStore a b c d e f g h) := Build_MemStore a b c d e f x h.
Definition set_genesisApplied (x : bool) '(Build_MemStore a b c d e f g h) := Build_MemStore a b c d e f g x.

Definition NewMemStore : MemStore := {|
  objects := ∅; txbIndex := ∅; bState := ∅; nodes := ∅; dids := ∅; claims := ∅;
  lastBlock := cid_Undef; genesisApplied := false
|}.

Notation M := (GoM MemStore).

(** The maps are copied entry by entry; [lastBlock] and [genesisApplied] are
    those of a new store. *)
Definition mem_copy (m : MemStore) : MemStore := {|
  objects := objects m; txbIndex := txbIndex m; bState := bState m; nodes := nodes m;
  dids := dids m; claims := claims m;
  lastBlock := lastBlock NewMemStore; genesisApplied := genesisApplied NewMemStore
|}.

Definition mem_CompleteTest : M (option error) := mret None.

Definition mem_UpdateLastApplied (id : BlockID) : M (option error) :=
  gmodify (set_lastBlock id);; mret None.

(** The address of an encoded object: the errors of the encoder and of the hash
    are dropped. *)
Definition obj_cid (d : option bytes) : Cid :=
  cid_NewCidV1 cid_Raw
    (from_option id [] (ok_opt (multihash_Sum (from_option id [] d) SHA3_256))).

Definition putObj (marshalled : result bytes) : M Cid :=
  let d := ok_opt marshalled in
  gmodify (fun m => set_objects (<[obj_cid d := d]> (objects m)) m);;
  mret (obj_cid d).

Definition getObj (m : MemStore) (id : Cid) : option bytes := mjoin (objects m !! id).

Definition mem_PutTx (t : Tx) : M (result Cid) :=
  c ← putObj (msgpack_Marshal_Tx t); mret (Ok c).

Definition read_tx (m : MemStore) (id : TxID) : result Tx :=
  match getObj m id with
  | None => Err ErrNotFound
  | Some d => wrap "unmarshalling " (Unmarshal d empty_Tx)
  end.

Definition mem_GetTx (id : TxID) : M (result Tx) := ggets (fun m => read_tx m id).

Definition mem_PutBlock (b : Block) : M (result Cid) :=
  c ← putObj (msgpack_Marshal_Block b); mret (Ok c).

Definition read_block (m : MemStore) (id : BlockID) : result Block :=
  match getObj m id with
  | None => Err ErrNotFound
  | Some d => wrap "unmarshalling " (msgpack_Unmarshal_Block d)
  end.

Definition mem_GetBlock (id : BlockID) : M (result Block) := ggets (fun m => read_block m id).

Definition mem_GetTxBlock (id : TxID) : M (result Block) :=
  m ← gget;
  match txbIndex m !! id with
  | None => mret (Err ErrNotFound)
  | Some blkId => mem_GetBlock blkId
  end.

Definition mem_PutSet (txt : TxSet) : M (result Cid) :=
  c ← putObj (msgpack_Marshal_TxSet txt); mret (Ok c).

Definition read_set (m : MemStore) (id : Cid) : result TxSet :=
  match getObj m id with
  | None => Err ErrNotFound
  | Some d => wrap "unmarshalling " (msgpack_Unmarshal_TxSet d)
  end.

Definition mem_GetSet (id : Cid) : M (result TxSet) := ggets (fun m => read_set m id).

(** One unit of fuel for the root and one for each child of a stored set. *)
Definition walk_fuel (m : MemStore) : nat :=
  S (pending (read_set m) (dom (objects m)) ∅).

Definition allTxCids (b : Block) : M (result (gmap Cid Tx)) :=
  m ← gget;
  gsome (walk (read_set m) (read_tx m) (walk_fuel m) ∅ [blk_TxRoot b] ∅).

Definition mem_AllTx (b : Block) : M (result (gmap Cid Tx)) := allTxCids b.

Definition mem_ApplyTx (id : TxID) (t : Tx) : M (option error) :=
  gtry_e (mret (wrap "parsing tx id" (cid_ParseCid id))) (fun cid =>
  if bool_decide (tx_Type t = TxType_DID) then
    d ← gsome (as_DID (tx_Data t));
    doc ← gsome (did_Document d);
    gmodify (fun m => set_dids (<[doc_ID doc := cid]> (dids m)) m);; mret None
  else if bool_decide (tx_Type t = TxType_VC) then mret None
  else if bool_decide (tx_Type t = TxType_Node) then
    n ← gsome (as_Node (tx_Data t));
    (if bool_decide (tx_Action t = TxActionAdd) then
       gmodify (fun m => set_nodes (<[node_Id n := cid]> (nodes m)) m)
     else if bool_decide (tx_Action t = TxActionRevoke) then
       gmodify (fun m => set_nodes (delete (node_Id n) (nodes m)) m)
     else mret tt);; mret None
  else mret None).

(** The body of the loop of [applyTxs]. *)
Definition apply_one (b : BlockID) (ct : Cid * Tx) : M (option error) :=
  gmodify (fun m => set_txbIndex (<[ct.1 := b]> (txbIndex m)) m);;
  gwrap_e "applying tx" (mem_ApplyTx ct.1 ct.2).

Definition applyTxs (b : BlockID) (txs : gmap Cid Tx) : M (option error) :=
  gfor_e (map_range txs) (apply_one b).

Definition indexBlockTx (b : BlockID) : M (option error) :=
  gtry_e (mem_GetBlock b) (fun block =>
  gtry_e (gwrap "getting block tx" (allTxCids block)) (fun txs =>
  applyTxs b txs)).

Definition mem_MarkBlock (b : BlockID) (s : Z) : M (option error) :=
  m ← gget;
  let c := from_option id 0%Z (bState m !! b) in
  gmodify (fun m => set_bState (<[b := s]> (bState m)) m);;
  if bool_decide (c = BlockStateValidated) && bool_decide (s = BlockStateAccepted)
  then indexBlockTx b else mret None.

Definition mem_GetLastApplied : M (result (option Block)) :=
  m ← gget;
  if bool_decide (lastBlock m = cid_Undef) then mret (Ok None)
  else gtry (mem_GetBlock (lastBlock m)) (fun b => mret (Ok (Some b))).

(** The transaction stored under the indexed identifier is decoded as a
    document. *)
Definition mem_LookupDID (did : string) : M (result (option Document)) :=
  m ← gget;
  match dids m !! did with
  | None => mret (Err ErrNotFound)
  | Some cid =>
      match getObj m cid with
      | None => mret (Err ErrNotFound)
      | Some d => mret (wrap "unmarshalling " (doc ← msgpack_Unmarshal_Document d; Ok (Some doc)))
      end
  end.

Definition mem_DIDHistory (did : string) : M (option (result (list Tx))) :=
  mret (Some (Err (errorsNew "not implemented"))).

(** Each claim is fetched and decoded, and none is appended to the result. *)
Definition mem_Claims (did : string) : M (result (list Tx)) :=
  m ← gget;
  match claims m !! did with
  | None | Some [] => mret (Err ErrNotFound)
  | Some cids =>
      gfold cids [] (fun txs cid =>
        match getObj m cid with
        | None => mret (Err ErrNotFound)
        | Some d =>
            gtry (mret (wrap "unmarshalling " (msgpack_Unmarshal_Tx d empty_Tx))) (fun _ =>
            mret (Ok txs))
        end)
  end.

Definition mem_Nodes : M (result (list string)) :=
  ggets (fun m => Ok (sort_strings (map_range (nodes m)).*1)).

Definition mem_Node (nid : string) : M (result (option Node)) :=
  m ← gget;
  match nodes m !! nid with
  | None => mret (Err ErrNotFound)
  | Some cid =>
      match getObj m cid with
      | None => mret (Err ErrNotFound)
      | Some d =>
          match wrap "unmarshalling" (Unmarshal d empty_Tx) with
          | Err e => mret (Err e)
          | Ok t => n ← gsome (as_Node (tx_Data t)); mret (Ok (Some n))
          end
      end
  end.

Definition mem_HasGenesisApplied : M bool := ggets genesisApplied.

(** The transactions by identifier, each stored. *)
Fixpoint put_genesis (l : list Tx) (txs : gmap Cid Tx) : M (gmap Cid Tx) :=
  match l with
  | [] => mret txs
  | t :: l =>
      c ← putObj (msgpack_Marshal_Tx t);
      put_genesis l (<[c := t]> txs)
  end.

Definition mem_ApplyGenesis (gen : GenesisInfo) : M (option error) :=
  gmodify (set_genesisApplied true);;
  txs ← put_genesis (gen_Txs gen) ∅;
  applyTxs cid_Undef txs.

Definition mem_Stop : M (option error) := mret None.

(** ** Pointers to stores *)

Notation MemHeap := (gmap nat MemStore).

(** A method call through the pointer [h]. *)
Definition on (h : nat) {A} (m : M A) : GoM MemHeap A := fun w =>
  match w !! h with
  | None => (Panic, w)
  | Some s => let (r, s') := m s in (r, <[h := s']> w)
  end.

Definition mem_StartTest (h : nat) : GoM MemHeap (result nat) := fun w =>
  match w !! h with
  | None => (Panic, w)
  | Some s =>
      let ms := fresh (dom w) in
      (Ret (Ok ms), <[ms := mem_copy s]> w)
  end.

#[export] Instance MemStore_Store : Store MemHeap nat := {|
  PutTx h t := on h (mem_PutTx t);
  GetTx h c := on h (mem_GetTx c);
  PutBlock h b := on h (mem_PutBlock b);
  GetBlock h c := on h (mem_GetBlock c);
  AllTx h b := on h (mem_AllTx b);
  PutSet h s := on h (mem_PutSet s);
  GetSet h c := on h (mem_GetSet c);
  GetTxBlock h c := on h (mem_GetTxBlock c);
  MarkBlock h b s := on h (mem_MarkBlock b s);
  UpdateLastApplied h b := on h (mem_UpdateLastApplied b);
  GetLastApplied h := on h mem_GetLastApplied;
  Stop h := on h mem_Stop;
  LookupDID h d := on h (mem_LookupDID d);
  DIDHistory h d := on h (mem_DIDHistory d);
  Claims h d := on h (mem_Claims d);
  Nodes h := on h mem_Nodes;
  Node_ h n := on h (mem_Node n);
  HasGenesisApplied h := on h mem_HasGenesisApplied;
  ApplyGenesis h g := on h (mem_ApplyGenesis g);
  ApplyTx h c t := on h (mem_ApplyTx c t);
  StartTest := mem_StartTest;
  CompleteTest h := on h mem_CompleteTest
|}.
End MemStore.
End MemStore.
