(* ===== verification/MemStoreFacts.v ===== *)
(** * Properties of the in-memory store

    Objects are content-addressed and found again; the store keeps the promises
    of [ContentStore]; the walk over a block's set always ends; what accepting
    a block writes to the indexes. *)

From S2P Require Import Prelude Externals W3cDid Tx Chain ChainFacts MemStore.

Module MemStoreFacts.
Import W3cDid Tx Chain ChainFacts MemStore.

Section Objects.
Context `{L : Lib} `{!TxCodec} `{!ChainCodec} `{!RangeOrder}.

(** Every object is stored under the address of its bytes. *)
Definition mem_wf (m : MemStore) : Prop :=
  forall c o, objects m !! c = Some o -> exists d, o = Some d /\ c = obj_cid (Some d).

Lemma NewMemStore_wf : mem_wf NewMemStore.
Proof. intros c o. unfold NewMemStore. simpl. by rewrite lookup_empty. Qed.

Lemma mem_copy_wf m : mem_wf m -> mem_wf (mem_copy m).
Proof. done. Qed.

Lemma obj_cid_inj `{!HashLaws} d1 d2 : obj_cid (Some d1) = obj_cid (Some d2) -> d1 = d2.
Proof.
  unfold obj_cid. simpl. pose proof (multihash_Sum_ok SHA3_256 d1) as Hok1.
  pose proof (multihash_Sum_ok SHA3_256 d2) as Hok2.
  destruct (multihash_Sum d1 _) as [m1|] eqn:E1; [|done].
  destruct (multihash_Sum d2 _) as [m2|] eqn:E2; [|done]. simpl.
  by apply content_address_inj with SHA3_256.
Qed.

(** [m'] has the objects of [m], and possibly more. *)
Definition mem_ext (m m' : MemStore) : Prop :=
  forall c d, getObj m c = Some d -> getObj m' c = Some d.

Lemma putObj_run r m :
  putObj r m = (Ret (obj_cid (ok_opt r)),
                set_objects (<[obj_cid (ok_opt r) := ok_opt r]> (objects m)) m).
Proof. done. Qed.

Lemma objects_set_objects x m : objects (set_objects x m) = x.
Proof. by destruct m. Qed.

Lemma putObj_spec `{!HashLaws} d m :
  mem_wf m ->
  let m' := (putObj (Ok d) m).2 in
  mem_wf m' /\ mem_ext m m' /\ getObj m' (obj_cid (Some d)) = Some d.
Proof.
  intros Hwf. rewrite putObj_run. simpl. unfold mem_wf, mem_ext, getObj.
  rewrite objects_set_objects. split_and!.
  - intros c o Ho. destruct (decide (obj_cid (Some d) = c)) as [<-|Hne].
    + rewrite lookup_insert_eq in Ho. exists d. by simplify_eq.
    + rewrite lookup_insert_ne in Ho by done. by apply Hwf.
  - intros c d' Hd. destruct (decide (obj_cid (Some d) = c)) as [<-|Hne].
    + rewrite lookup_insert_eq. simpl. destruct (objects m !! _) as [o|] eqn:Ho; [|done].
      destruct (Hwf _ _ Ho) as (d0&->&Hc%obj_cid_inj). simpl in Hd. congruence.
    + by rewrite lookup_insert_ne.
  - by rewrite lookup_insert_eq.
Qed.

(** The walk of [allTxCids] never runs out of fuel, so the method returns. *)
Lemma read_set_dom m c : is_ok (read_set m c) = true -> c ∈ dom (objects m).
Proof.
  unfold read_set, getObj. intros Hok. apply elem_of_dom.
  destruct (objects m !! c); [by eexists|done].
Qed.

Lemma allTxCids_run b m :
  exists r, allTxCids b m = (Ret r, m) /\
    walks_to (read_set m) (read_tx m) (blk_TxRoot b) r.
Proof.
  destruct (walk_terminates (read_set m) (read_tx m) (dom (objects m)) (walk_fuel m) ∅
    [blk_TxRoot b] ∅ (read_set_dom m)) as [r Hr].
  { unfold walk_fuel. simpl. lia. }
  exists r. split; [|by exists (walk_fuel m)].
  unfold allTxCids, mbind, GoM_bind, gget. by rewrite Hr.
Qed.
End Objects.

Section Content.
Context `{L : Lib} `{!TxCodec} `{!ChainCodec} `{!RangeOrder}.
Context `{!CidLaws} `{!HashLaws} `{!TxCodecLaws} `{!ChainCodecLaws}.

Lemma ext_read_set m m' : mem_ext m m' -> forall c, is_ok (read_set m c) = true -> read_set m' c = read_set m c.
Proof.
  intros Hext c. unfold read_set. destruct (getObj m c) as [d|] eqn:Hd; [|done].
  by rewrite (Hext c d Hd).
Qed.

Lemma ext_read_tx m m' : mem_ext m m' -> forall c, is_ok (read_tx m c) = true -> read_tx m' c = read_tx m c.
Proof.
  intros Hext c. unfold read_tx. destruct (getObj m c) as [d|] eqn:Hd; [|done].
  by rewrite (Hext c d Hd).
Qed.

Lemma mem_PutTx_spec t m :
  mem_wf m -> tx_typed t = true ->
  exists c m', mem_PutTx t m = (Ret (Ok c), m') /\ mem_wf m' /\ mem_ext m m' /\ read_tx m' c = Ok t.
Proof.
  intros Hwf Ht. destruct (Marshal_total t) as (d&_&Hd). unfold mem_PutTx. rewrite Hd.
  destruct (putObj_spec d m Hwf) as (Hwf'&Hext&Hget).
  exists (obj_cid (Some d)), (putObj (Ok d) m).2. split_and!; [done..|].
  unfold read_tx. rewrite Hget. by rewrite (Unmarshal_Marshal t d).
Qed.

Lemma mem_PutSet_spec s m :
  mem_wf m ->
  exists c m', mem_PutSet s m = (Ret (Ok c), m') /\ mem_wf m' /\ mem_ext m m' /\
    c <> cid_Undef /\ (ts_defined s -> read_set m' c = Ok (ts_set_cid cid_Undef s)).
Proof.
  intros Hwf. pose proof (msgpack_TxSet_total s) as Hok. unfold mem_PutSet.
  destruct (msgpack_Marshal_TxSet s) as [d|] eqn:Hd; [|done].
  destruct (putObj_spec d m Hwf) as (Hwf'&Hext&Hget).
  exists (obj_cid (Some d)), (putObj (Ok d) m).2. split_and!; [done..|apply cid_NewCidV1_defined|].
  intros Hs. unfold read_set. rewrite Hget. by rewrite (msgpack_TxSet_roundtrip s d).
Qed.

Lemma mem_PutBlock_spec b m :
  mem_wf m -> blk_TxRoot b <> cid_Undef ->
  exists c m', mem_PutBlock b m = (Ret (Ok c), m') /\ mem_wf m' /\ mem_ext m m' /\
    exists b', read_block m' c = Ok b' /\ blk_TxRoot b' = blk_TxRoot b /\ blk_Height b' = blk_Height b.
Proof.
  intros Hwf Hu. pose proof (msgpack_Block_total b) as Hok. unfold mem_PutBlock.
  destruct (msgpack_Marshal_Block b) as [d|] eqn:Hd; [|done].
  destruct (putObj_spec d m Hwf) as (Hwf'&Hext&Hget).
  exists (obj_cid (Some d)), (putObj (Ok d) m).2. split_and!; [done..|].
  destruct (msgpack_Block_roundtrip b d Hu Hd) as (b'&Hb'&?&?).
  exists b'. unfold read_block. rewrite Hget, Hb'. done.
Qed.

(** ** The promises of [ContentStore] *)

Lemma on_run h {A} (f : GoM MemStore A) (w : gmap nat MemStore) m :
  w !! h = Some m -> on h f w = ((f m).1, <[h := (f m).2]> w).
Proof. intros Hm. unfold on. rewrite Hm. by destruct (f m). Qed.

Lemma on_read h {A} (f : MemStore -> A) (w : gmap nat MemStore) m :
  w !! h = Some m -> on h (ggets f) w = (Ret (f m), w).
Proof. intros Hm. rewrite (on_run h _ w m Hm). simpl. by rewrite insert_id. Qed.

Definition heap_wf (w : gmap nat MemStore) (h : nat) : Prop :=
  exists m, w !! h = Some m /\ mem_wf m.

Definition heap_view {A} (f : MemStore -> Cid -> result A) (w : gmap nat MemStore) (h : nat)
    (c : Cid) : result A :=
  match w !! h with Some m => f m c | None => Err ErrNotFound end.

#[export] Program Instance MemStore_ContentStore : ContentStore (gmap nat MemStore) nat := {|
  store_wf := heap_wf;
  view_set := heap_view read_set;
  view_tx := heap_view read_tx
|}.
Next Obligation.
  intros h c w (m&Hm&_). unfold heap_view. rewrite Hm.
  exact (on_read h (fun m => read_set m c) w m Hm).
Qed.
Next Obligation.
  intros h c w (m&Hm&_). unfold heap_view. rewrite Hm.
  exact (on_read h (fun m => read_tx m c) w m Hm).
Qed.
Next Obligation.
  intros h s w (m&Hm&Hwf). destruct (mem_PutSet_spec s m Hwf) as (c&m'&Hrun&Hwf'&Hext&?&?).
  exists (Ok c), (<[h := m']> w). simpl. rewrite (on_run h _ w m Hm), Hrun. simpl.
  unfold heap_wf, heap_view. rewrite lookup_insert_eq, Hm.
  split_and!; [done|by eauto|by apply ext_read_set|by apply ext_read_tx|by intros ? [= <-]; split].
Qed.
Next Obligation.
  intros h t w (m&Hm&Hwf) Ht. destruct (mem_PutTx_spec t m Hwf Ht) as (c&m'&Hrun&Hwf'&Hext&Hget).
  exists (Ok c), (<[h := m']> w). simpl. rewrite (on_run h _ w m Hm), Hrun. simpl.
  unfold heap_wf, heap_view. rewrite lookup_insert_eq, Hm.
  split_and!; [done|by eauto|by apply ext_read_set|by apply ext_read_tx|by intros ? [= <-]].
Qed.
Next Obligation.
  intros h c w (m&Hm&Hwf). unfold heap_view, read_tx, getObj. rewrite Hm.
  destruct (objects m !! c) as [o|] eqn:Ho; [|done]. destruct (Hwf c o Ho) as (d&_&->).
  intros _. apply cid_NewCidV1_defined.
Qed.
Next Obligation.
  intros h b w (m&Hm&Hwf). destruct (allTxCids_run b m) as (r&Hrun&Hwalk). exists r.
  simpl. rewrite (on_run h _ w m Hm). unfold mem_AllTx. rewrite Hrun. simpl.
  rewrite insert_id by done. split; [done|]. unfold heap_view. by rewrite Hm.
Qed.
End Content.

(** ** What accepting a block writes *)

Section Index.
Context `{L : Lib} `{!TxCodec} `{!ChainCodec} `{!RangeOrder} `{!CidLaws}.

(** The data of the transaction has the type its type field says, so that
    [ApplyTx] does not panic. *)
Definition appliable (t : Tx) : bool :=
  if bool_decide (tx_Type t = TxType_DID) then
    match as_DID (tx_Data t) with Some d => bool_decide (is_Some (did_Document d)) | None => false end
  else if bool_decide (tx_Type t = TxType_VC) then true
  else if bool_decide (tx_Type t = TxType_Node) then bool_decide (is_Some (as_Node (tx_Data t)))
  else true.

(** Everything but the registers of DIDs and nodes is kept. *)
Definition same_chain (m m' : MemStore) : Prop :=
  objects m' = objects m /\ bState m' = bState m /\ claims m' = claims m /\
  lastBlock m' = lastBlock m.

Lemma same_chain_trans m1 m2 m3 : same_chain m1 m2 -> same_chain m2 m3 -> same_chain m1 m3.
Proof. unfold same_chain. intuition congruence. Qed.

Lemma mem_ApplyTx_run id t m :
  appliable t = true ->
  exists m', mem_ApplyTx id t m = (Ret None, m') /\ same_chain m m' /\ txbIndex m' = txbIndex m.
Proof.
  unfold appliable, mem_ApplyTx, same_chain. rewrite cid_ParseCid_id. go_unfold. simpl.
  repeat case_bool_decide; intros Ha; try (eexists; by split_and!).
  - destruct (as_DID _) as [d|]; [|done]. destruct (did_Document d) as [doc|]; [|done].
    eexists. split; [done|]. by destruct m.
  - destruct (as_Node _) as [n|]; [|done]. eexists. split; [done|]. by destruct m.
  - destruct (as_Node _) as [n|]; [|done]. eexists. split; [done|]. by destruct m.
  - destruct (as_Node _) as [n|]; [|done]. by eexists.
Qed.

Lemma apply_one_run b ct m :
  appliable ct.2 = true ->
  exists m', apply_one b ct m = (Ret None, m') /\ same_chain m m' /\
    txbIndex m' = <[ct.1 := b]> (txbIndex m).
Proof.
  intros Ha.
  destruct (mem_ApplyTx_run ct.1 ct.2 (set_txbIndex (<[ct.1 := b]> (txbIndex m)) m) Ha)
    as (m'&Hrun&Hsame&Hidx).
  exists m'. unfold apply_one. go_unfold. rewrite Hrun. by destruct m.
Qed.

Lemma apply_loop_run b l m :
  Forall (fun ct => appliable ct.2 = true) l ->
  exists m', gfor_e l (apply_one b) m = (Ret None, m') /\ same_chain m m' /\
    forall c, txbIndex m' !! c = if decide (c ∈ l.*1) then Some b else txbIndex m !! c.
Proof.
  intros Hl. revert m. induction Hl as [|ct l Ha _ IH]; intros m; simpl.
  { exists m. by split_and!. }
  destruct (apply_one_run b ct m Ha) as (m1&Hrun1&Hs1&Hi1). destruct (IH m1) as (m2&Hrun2&Hs2&Hi2).
  exists m2. split_and!; [|by eapply same_chain_trans|].
  - unfold gcheck_e, mbind, GoM_bind. by rewrite Hrun1.
  - intros c. rewrite Hi2, Hi1. destruct (decide (ct.1 = c)) as [<-|Hne].
    + rewrite lookup_insert_eq. by repeat case_decide; set_solver.
    + rewrite lookup_insert_ne by done. repeat case_decide; set_solver.
Qed.

Lemma applyTxs_run b txs m :
  map_Forall (fun _ t => appliable t = true) txs ->
  exists m', applyTxs b txs m = (Ret None, m') /\ same_chain m m' /\
    forall c, txbIndex m' !! c = if decide (c ∈ dom txs) then Some b else txbIndex m !! c.
Proof.
  intros Ha. destruct (apply_loop_run b (map_range txs) m) as (m'&Hrun&Hs&Hi).
  { apply Forall_forall. intros [c t] Ht%list_elem_of_In%elem_of_map_range. by eapply Ha. }
  exists m'. split_and!; [done..|]. intros c. rewrite Hi.
  assert (c ∈ (map_range txs).*1 <-> c ∈ dom txs) as Hdom.
  { rewrite list_elem_of_fmap, elem_of_dom. split.
    - intros ([? t]&->&Ht%elem_of_map_range). by exists t.
    - intros [t Ht]. exists (c, t). by rewrite elem_of_map_range. }
  by repeat case_decide; naive_solver.
Qed.

Lemma same_chain_block m m' c : objects m' = objects m -> read_block m' c = read_block m c.
Proof. unfold read_block, getObj. by intros ->. Qed.

Lemma allTxCids_objects b x m :
  allTxCids b (set_bState x m) = let (r, _) := allTxCids b m in (r, set_bState x m).
Proof.
  destruct m as [o t bs n d c l g]. unfold allTxCids, gget, mbind, GoM_bind, set_bState.
  change (walk (read_set (Build_MemStore o t x n d c l g))) with
    (walk (read_set (Build_MemStore o t bs n d c l g))).
  change (read_tx (Build_MemStore o t x n d c l g)) with
    (read_tx (Build_MemStore o t bs n d c l g)).
  change (walk_fuel (Build_MemStore o t x n d c l g)) with
    (walk_fuel (Build_MemStore o t bs n d c l g)).
  by destruct (walk _ _ _ _ _ _).
Qed.
End Index.
End MemStoreFacts.
