(* ===== verification/Validator.v ===== *)
(** * pkg/storage/validator.go: the validity of transactions and blocks

    The validator is a client of the interface [Store] only.  Its state is the
    memory of the stores and its own field [s], which [IsBlockValid] points at a
    scratch store while it applies the transactions of a block. *)

From S2P Require Import Prelude Externals W3cDid Tx Chain.

Module Validator.
Import W3cDid Tx Chain.

(** The interface [Validator].  [VS] is the state its methods run in; a
    transaction is a pointer, and [IsTxValid] also gives what it leaves in it.
    [ApplyFromTip] loops over the ancestors of a block: [None] means that the
    fuel ran out. *)
Class Validator `{Lib} (VS : Type) := {
  IsBlockValid : Block -> bool -> GoM VS (option error);
  IsTxValid : Tx -> GoM VS (option error * Tx);
  ApplyFromTip : nat -> BlockID -> GoM VS (option (option error))
}.

Section TxValidator.
Context `{L : Lib} {W H : Type} `{!Store W H} `{!TxCodec} `{!RangeOrder}.

(** [type TxValidator struct { s Store }], with the memory of the stores. *)
Record VState := { v_world : W; v_s : H }.

Definition set_world (w : W) (v : VState) : VState := {| v_world := w; v_s := v_s v |}.
Definition set_s (s : H) (v : VState) : VState := {| v_world := v_world v; v_s := s |}.

Notation M := (GoM VState).

(** A method call on the store [s]. *)
Definition call {A} (m : GoM W A) : M A := gzoom v_world set_world m.

(** A method call on the field: [v.s.Method(...)] *)
Definition vs {A} (m : H -> GoM W A) : M A := s ← ggets v_s; call (m s).

Definition isNodeTxValid (t : Tx) : M (option error) := mret (Some ErrOpNotSupported).

Definition isVCTxValid (t : Tx) : M (option error) := mret None.

(** [lookupErr == ErrNotFound] *)
Definition lookup_missing (existing : result (option Document)) : bool :=
  match existing with Err lookupErr => bool_decide (lookupErr = ErrNotFound) | Ok _ => false end.

(** The part of [isDIDTxValid] after the signature field was cleared.  In the
    branch of updates and revocations the error that is wrapped is [err], which
    is [nil] there. *)
Definition did_action (action : Z) (doc : Document) (existing : result (option Document))
    (signature sigmsg : bytes) : M (option error) :=
  if bool_decide (action = TxActionAdd) then
    if lookup_missing existing then
      r ← Signed doc signature sigmsg;
      mret (match r with Some _ => Some ErrDIDInvalidSignature | None => None end)
    else mret (Some ErrDIDAlreadyExists)
  else if bool_decide (action = TxActionUpdate) || bool_decide (action = TxActionRevoke) then
    match existing with
    | Err lookupErr => mret (Wrap None "tx validation")
    | Ok existingDid =>
        existingDid ← gsome existingDid;
        r ← Signed existingDid signature sigmsg;
        mret (match r with Some _ => Some ErrDIDInvalidSignature | None => None end)
    end
  else mret (Some ErrOpNotSupported).

(** The transaction is returned as it is left: its signature field is cleared
    to build the signed message, and not set again. *)
Definition isDIDTxValid (t : Tx) : M (option error * Tx) :=
  did ← gsome (as_DID (tx_Data t));
  doc ← gsome (did_Document did);
  existing ← vs (fun s => LookupDID s (doc_ID doc));
  let signature := tx_Signature t in
  let t := tx_set_Signature [] t in
  match Marshal t with
  | Err err => mret (Some (errorsWrap err "marshalling tx for signature"), t)
  | Ok sigmsg =>
      invalid ← IsValid doc;
      match invalid with
      | Some _ => mret (Some ErrDIDInvalid, t)
      | None =>
          r ← did_action (tx_Action t) doc existing signature sigmsg;
          mret (r, t)
      end
  end.

Definition tv_IsTxValid (t : Tx) : M (option error * Tx) :=
  if negb (bool_decide (tx_Version t = Version1)) then mret (Some ErrTxVersionNotSupported, t)
  else if bool_decide (tx_Ts t = 0%Z) then mret (Some ErrTxMissingTimestamp, t)
  else if bool_decide (tx_From t = ""%string) then mret (Some ErrTxMissingFrom, t)
  else match tx_Data t with
  | DataNil => mret (Some ErrTxMissingData, t)
  | _ =>
      if bool_decide (tx_Type t = TxType_DID) then isDIDTxValid t
      else if bool_decide (tx_Type t = TxType_VC) then r ← isVCTxValid t; mret (r, t)
      else if bool_decide (tx_Type t = TxType_Node) then r ← isNodeTxValid t; mret (r, t)
      else mret (Some ErrTxUnsupportedType, t)
  end.

(** [if isNewBlock { ... }] *)
Definition check_new (isNewBlock : bool) (id : Cid) : M (option error) :=
  if isNewBlock then
    r ← vs (fun s => GetTxBlock s id);
    match r with
    | Err err =>
        if errors_Is err ErrNotFound then mret None
        else mret (Some (errorsWrap err "checking for preexisting tx"))
    | Ok _ => mret (Some (errorsNew "tx already in previous block"))
    end
  else mret None.

(** The body of the loop over the transactions of a block. *)
Definition try_tx (isNewBlock : bool) (ct : Cid * Tx) : M (option error) :=
  '(e, t) ← tv_IsTxValid ct.2;
  match e with
  | Some err => mret (Some (errorsWrap err "invalid tx in block"))
  | None =>
      gcheck_e (check_new isNewBlock ct.1) (
      gwrap_e "applying test tx" (vs (fun s => ApplyTx s ct.1 t)))
  end.

(** What runs between the [defer] and the return. *)
Definition test_txs (b : Block) (isNewBlock : bool) (txs : gmap Cid Tx) : M (option error) :=
  gcheck_e (gfor_e (map_range txs) (try_tx isNewBlock)) (
  gwrap_e "marking block validated" (vs (fun s => MarkBlock s (blk_ID b) BlockStateValidated))).

Definition tv_IsBlockValid (b : Block) (isNewBlock : bool) : M (option error) :=
  gcheck_e (gwrap_e "marking block unvalidated"
    (vs (fun s => MarkBlock s (blk_ID b) BlockStateUnvalidated))) (
  gtry_e (gwrap "getting block txs" (vs (fun s => AllTx s b))) (fun txs =>
  ogs ← ggets v_s;
  test ← vs StartTest;
  match test with
  | Err err => mret (Some (errorsWrap err "failed to start test apply"))
  | Ok ms =>
      gmodify (set_s ms);;
      gdefer (test_txs b isNewBlock txs)
        (gmodify (set_s ogs);; _ ← vs CompleteTest; mret tt)
  end)).

(** The loop that fetches the ancestors of the tip up to the last applied block
    or a block without an identifier.  [lastApplied] is dereferenced by the
    loop's condition. *)
Fixpoint fetch_back (fuel : nat) (lastApplied : option Block) (currentTip : Block)
    (queue : list Block) : M (option (result (list Block))) :=
  last ← gsome lastApplied;
  if negb (bool_decide (blk_ID currentTip = blk_ID last)) &&
     negb (bool_decide (blk_ID currentTip = cid_Undef))
  then match fuel with
       | 0 => mret None
       | S fuel =>
           r ← gwrap "getting block" (vs (fun s => GetBlock s (blk_Parent currentTip)));
           match r with
           | Err e => mret (Some (Err e))
           | Ok b => fetch_back fuel lastApplied b (queue ++ [b])
           end
       end
  else mret (Some (Ok queue)).

(** The body of the loop that imports the fetched blocks. *)
Definition import_block (b : Block) : M (option error) :=
  gcheck_e (gwrap_e "validating block" (tv_IsBlockValid b true)) (
  gwrap_e "indexing block" (vs (fun s => MarkBlock s (blk_ID b) BlockStateAccepted))).

Definition tv_ApplyFromTip (fuel : nat) (id : BlockID) : M (option (option error)) :=
  r ← gwrap "getting last applied block" (vs GetLastApplied);
  match r with
  | Err e => mret (Some (Some e))
  | Ok lastApplied =>
      r ← gwrap "getting tip block" (vs (fun s => GetBlock s id));
      match r with
      | Err e => mret (Some (Some e))
      | Ok currentTip =>
          r ← fetch_back fuel lastApplied currentTip [currentTip];
          match r with
          | None => mret None
          | Some (Err e) => mret (Some (Some e))
          | Some (Ok queue) => e ← gfor_e (reverse queue) import_block; mret (Some e)
          end
      end
  end.

#[export] Instance TxValidator_Validator : Validator VState := {|
  IsBlockValid := tv_IsBlockValid;
  IsTxValid := tv_IsTxValid;
  ApplyFromTip := tv_ApplyFromTip
|}.
End TxValidator.
Arguments VState : clear implicits.

(** mock/validator.go *)
Definition MockValidator `{Lib} (VS : Type) : Validator VS := {|
  IsBlockValid _ _ := mret None;
  IsTxValid t := mret (None, t);
  ApplyFromTip _ _ := mret (Some None)
|}.
End Validator.
