(* ===== verification/StoreProps.v ===== *)
(** * Theorems on blocks, Merkle sets and stores

    The theorems about [NewTxSet] and [NewBlock] are proved against the
    interface [ContentStore]; the in-memory store discharges it.  Each theorem
    with hypotheses is applied to a concrete store of the toy libraries. *)

From S2P Require Import Prelude Externals W3cDid Tx Chain Toy ChainFacts MemStore.
From S2P Require Import MemStoreFacts.

Module StoreProps.
Import W3cDid Tx Chain ChainFacts MemStore MemStoreFacts.

(** ** Shared facts *)

Section Blocks.
Context `{L : Lib} {W H : Type} `{!Store W H} `{!ContentStore W H}.

(** [m] is what a walk over a set of the transactions [txs] must give in [w]. *)
Definition exactly (w : W) (h : H) (txs : list Cid) (m : gmap Cid Tx) : Prop :=
  dom m = list_to_set txs /\ forall t v, m !! t = Some v -> view_tx w h t = Ok v.

Lemma NewTxSet_AllTx h txs w :
  txs <> [] -> length txs <= MaxBlockTxCount -> store_wf w h -> put_total h ->
  (forall t, t ∈ txs -> is_ok (view_tx w h t) = true) ->
  exists root w', NewTxSet h txs w = (Ret (Ok root), w') /\ store_wf w' h /\ store_ext w w' h /\
    forall b, blk_TxRoot b = ts_cid root ->
      exists m, AllTx h b w' = (Ret (Ok m), w') /\ exactly w h txs m.
Proof.
  intros Hne Hlen Hwf Htot Htx.
  assert (Forall (fun t => t <> cid_Undef) txs) as Hd.
  { apply list.Forall_forall. intros t Ht. by eapply view_tx_defined; [|apply Htx]. }
  pose proof (NewTxSet_wp h txs w Hne Hlen Hd Hwf) as Hwp.
  apply wp_ret_inv in Hwp as (r&w'&Hrun&Hwf'&Hext&Hroot&Hok). specialize (Hok Htot).
  destruct r as [root|]; [|done]. exists root, w'. split_and!; [done..|].
  intros b Hb. destruct (AllTx_view h b w' Hwf') as (r&Hall&Hwalk). rewrite Hb in Hwalk.
  destruct (walks_to_holds (view_set w' h) (view_tx w' h) (list_to_set txs) (ts_cid root) r)
    as (m&->&Hdom&Hm).
  - pose proof (list_to_set_size txs). lia.
  - intros t Ht%elem_of_list_to_set. rewrite (proj2 Hext) by auto. auto.
  - by apply Hroot.
  - done.
  - exists m. unfold exactly. split_and!; [done..|]. intros t v Htv. rewrite <- (Hm t v Htv).
    symmetry. apply (proj2 Hext). apply Htx. apply (elem_of_list_to_set (C := gset Cid)).
    rewrite <- Hdom. apply elem_of_dom. by eexists.
Qed.

(** ** NewTxSet and NewBlock *)

(** C14. A Merkle set gives back what it was built from: in any store that keeps
    its promises, [NewTxSet] on between 1 and 1000 stored transactions returns a
    root, and [AllTx] on a block with that root returns exactly those
    transactions. *)
Theorem NewTxSet_roundtrip h txs w :
  txs <> [] -> length txs <= MaxBlockTxCount -> store_wf w h -> put_total h ->
  (forall t, t ∈ txs -> is_ok (view_tx w h t) = true) ->
  exists root w', NewTxSet h txs w = (Ret (Ok root), w') /\
    forall b, blk_TxRoot b = ts_cid root ->
      exists m, AllTx h b w' = (Ret (Ok m), w') /\
        dom m = list_to_set txs /\ forall t v, m !! t = Some v -> view_tx w h t = Ok v.
Proof.
  intros Hne Hlen Hwf Htot Htx.
  destruct (NewTxSet_AllTx h txs w Hne Hlen Hwf Htot Htx) as (root&w'&?&_&_&?). eauto.
Qed.

(** The set of a block does not depend on the order its transactions are
    listed in: [NewTxSet] does the same to the store and returns the same root
    for every permutation, so that proposers agree on the root. *)
Lemma NewTxSet_order `{!CidLaws} h l1 l2 w :
  l1 ≡ₚ l2 -> NewTxSet h l1 w = NewTxSet h l2 w.
Proof. intros Hp. unfold NewTxSet. by rewrite (sort_cids_canonical l1 l2 Hp). Qed.

(** A list of no transaction makes [NewTxSet] index an empty slice, and one
    of more than 1000 is refused before anything is stored. *)
Lemma NewTxSet_bounds h w :
  NewTxSet h [] w = (Panic, w) /\
  forall txs, MaxBlockTxCount < length txs ->
    NewTxSet h txs w = (Ret (Err (errorsNew "too many tx for set")), w).
Proof.
  split; [done|]. intros txs Hlen. unfold NewTxSet. rewrite decide_True; [done|].
  by rewrite sort_cids_perm.
Qed.

(** The block [NewBlock] makes on a parent has the parent's height plus one
    (in 64 bits), a bloom filter in which every one of its transactions tests
    positive, and a root under which [AllTx] finds exactly its transactions. *)
Theorem NewBlock_sound `{!BloomLaws} h now nonce parent pb txs w :
  txs <> [] -> length txs <= MaxBlockTxCount -> store_wf w h -> put_total h ->
  (forall t, t ∈ txs -> is_ok (view_tx w h t) = true) ->
  parent <> cid_Undef -> GetBlock h parent w = (Ret (Ok pb), w) ->
  is_ok (MakeBloom txs) = true ->
  exists b w', NewBlock h now (Ok nonce) parent txs w = (Ret (Ok b), w') /\
    blk_Parent b = parent /\ blk_Height b = u64 (blk_Height pb + 1) /\
    (forall t, t ∈ txs -> BloomContains (blk_Bloom b) t = Ok true) /\
    exists m, AllTx h b w' = (Ret (Ok m), w') /\
      dom m = list_to_set txs /\ forall t v, m !! t = Some v -> view_tx w h t = Ok v.
Proof.
  intros Hne Hlen Hwf Htot Htx Hp Hpb Hbl.
  destruct (NewTxSet_AllTx h txs w Hne Hlen Hwf Htot Htx) as (root&w'&Hset&_&_&Hall).
  destruct (MakeBloom txs) as [bl|] eqn:Hb; [|done].
  destruct (Hall {| blk_Version := Version; blk_ID := cid_Undef; blk_Parent := parent;
    blk_Height := u64 (blk_Height pb + 1); blk_CreatedAt := now; blk_Proposer := "";
    blk_Signature := []; blk_Nonce := nonce; blk_Bloom := bl;
    blk_TxRoot := ts_cid root |} eq_refl) as (m&Hm&Hex).
  eexists _, w'. split_and!.
  - unfold NewBlock. rewrite bool_decide_false by done. go_unfold.
    rewrite Hpb. simpl. rewrite Hb. simpl. by rewrite Hset.
  - done.
  - done.
  - simpl. intros t Ht. by eapply MakeBloom_contains.
  - exists m. by split.
Qed.
End Blocks.

(** ** The in-memory store *)

Section Mem.
Context `{L : Lib} `{!TxCodec} `{!ChainCodec} `{!RangeOrder}.

Lemma mem_put_total `{!ChainCodecLaws} h s (w : gmap nat MemStore) m :
  w !! h = Some m -> exists c w', PutSet h s w = (Ret (Ok c), w').
Proof.
  intros Hm. exists (obj_cid (ok_opt (msgpack_Marshal_TxSet s))). eexists.
  simpl. rewrite (on_run h _ w m Hm). done.
Qed.

(** [mem_wf] as a test. *)
Definition mem_wfb (m : MemStore) : bool :=
  forallb (fun co => match co.2 with
    | Some d => bool_decide (co.1 = obj_cid (Some d))
    | None => false
    end) (map_to_list (objects m)).

Lemma mem_wfb_wf m : mem_wfb m = true -> mem_wf m.
Proof.
  unfold mem_wfb. rewrite forallb_forall. intros Hb c o Ho.
  specialize (Hb (c, o)). rewrite <- list_elem_of_In, elem_of_map_to_list in Hb.
  specialize (Hb Ho). simpl in Hb. destruct o as [d|]; [|done].
  exists d. split; [done|]. by apply bool_decide_eq_true in Hb.
Qed.

(** [AllTx] of the in-memory store returns on every memory and every root,
    also when the stored sets form a cycle; it changes nothing, and it returns
    at most 1000 transactions. *)
Lemma mem_AllTx_total b m :
  exists r, mem_AllTx b m = (Ret r, m) /\
    forall txs, r = Ok txs -> size txs <= MaxBlockTxCount.
Proof.
  destruct (allTxCids_run b m) as (r&Hrun&Hwalk). exists r. split; [done|].
  intros txs ->. destruct Hwalk as [fuel Hw]. eapply walk_size; [|exact Hw].
  rewrite map_size_empty. unfold MaxBlockTxCount. lia.
Qed.

(** Objects are content addressed: a transaction put into the in-memory
    store is read back under the returned identifier, an identifier names one
    encoding only, and every object readable before is still the same. *)
Lemma mem_PutTx_GetTx `{!HashLaws} `{!TxCodecLaws} t m :
  mem_wf m -> tx_typed t = true ->
  exists c m', mem_PutTx t m = (Ret (Ok c), m') /\ mem_wf m' /\
    mem_GetTx c m' = (Ret (Ok t), m') /\
    (forall c' d, getObj m c' = Some d -> getObj m' c' = Some d) /\
    (forall t' m2, mem_PutTx t' m = (Ret (Ok c), m2) -> msgpack_Marshal_Tx t' = msgpack_Marshal_Tx t).
Proof.
  intros Hwf Ht. destruct (mem_PutTx_spec t m Hwf Ht) as (c&m'&Hrun&Hwf'&Hext&Hget).
  exists c, m'. split_and!; [done..| |done|].
  - unfold mem_GetTx, ggets. by rewrite Hget.
  - intros t' m2 Hrun2. unfold mem_PutTx in Hrun, Hrun2.
    destruct (Marshal_total t) as (d&_&Hd). destruct (Marshal_total t') as (d'&_&Hd').
    rewrite Hd in *. rewrite Hd' in *. f_equal. apply obj_cid_inj.
    injection Hrun as <- _. by injection Hrun2.
Qed.

(** Accepting a validated block indexes it: every transaction of the block
    is then found in that block, the index of every other transaction is kept,
    and no object is lost.  From any other state, accepting only records the
    state. *)
Theorem mem_MarkBlock_accept `{!CidLaws} b blk txs m :
  read_block m b = Ok blk -> mem_AllTx blk m = (Ret (Ok txs), m) ->
  map_Forall (fun _ t => appliable t = true) txs ->
  if bool_decide (bState m !! b = Some BlockStateValidated) then
    exists m', mem_MarkBlock b BlockStateAccepted m = (Ret None, m') /\
      (forall c, c ∈ dom txs -> mem_GetTxBlock c m' = (Ret (Ok blk), m')) /\
      (forall c, c ∉ dom txs -> txbIndex m' !! c = txbIndex m !! c) /\
      objects m' = objects m /\ bState m' = <[b := BlockStateAccepted]> (bState m)
  else mem_MarkBlock b BlockStateAccepted m =
    (Ret None, set_bState (<[b := BlockStateAccepted]> (bState m)) m).
Proof.
  intros Hb Htxs Happ. unfold mem_MarkBlock. go_unfold.
  case_bool_decide as Hst; rewrite ?Hst; simpl.
  - destruct (applyTxs_run b txs (set_bState (<[b := BlockStateAccepted]> (bState m)) m) Happ)
      as (m'&Hrun&(Ho&Hs&_)&Hi).
    exists m'. split.
    { unfold indexBlockTx, mem_GetBlock. go_unfold.
      rewrite (same_chain_block m) by (by destruct m). rewrite Hb. simpl.
      rewrite allTxCids_objects. unfold mem_AllTx in Htxs. by rewrite Htxs. }
    destruct m as [o ti bs n d c l g]. simpl in *. split_and!; [|by intros c0 Hc0; rewrite Hi, decide_False|done..].
    intros c0 Hc0. unfold mem_GetTxBlock. go_unfold. rewrite Hi, decide_True by done.
    unfold mem_GetBlock, ggets. rewrite (same_chain_block (Build_MemStore o ti bs n d c l g)) by done.
    by rewrite Hb.
  - rewrite bool_decide_false; [done|]. intros Hc. apply Hst.
    destruct (bState m !! b) as [z|] eqn:Hz; simpl in Hc; [by rewrite Hc|done].
Qed.

(** A scratch store is isolated: [StartTest] gives a new pointer to a store
    with the same objects, indexes and registers, and no method called through
    another pointer changes what the original holds. *)
Lemma mem_StartTest_isolated h m (w : gmap nat MemStore) :
  w !! h = Some m ->
  exists ms w', mem_StartTest h w = (Ret (Ok ms), w') /\ ms <> h /\ w' !! h = Some m /\
    (exists m', w' !! ms = Some m' /\ objects m' = objects m /\ txbIndex m' = txbIndex m /\
       bState m' = bState m /\ nodes m' = nodes m /\ dids m' = dids m) /\
    forall A (f : GoM MemStore A) h' w2, h' <> h -> (on h' f w2).2 !! h = w2 !! h.
Proof.
  intros Hm. unfold mem_StartTest. rewrite Hm.
  assert (fresh (dom w) <> h) as Hf.
  { intros Heq. apply (is_fresh (dom w)). rewrite Heq. apply elem_of_dom. by eexists. }
  eexists _, _. split; [done|]. split_and!; [done|by rewrite lookup_insert_ne| |].
  - exists (mem_copy m). by rewrite lookup_insert_eq.
  - intros A f h' w2 Hne. unfold on. destruct (w2 !! h') as [m2|]; [|done].
    destruct (f m2). simpl. by rewrite lookup_insert_ne.
Qed.

(** The list of nodes, from which every member derives the proposer of a
    round, is the sorted list of the registered nodes whatever order the map is
    iterated in. *)
Lemma mem_Nodes_sorted m :
  exists l, mem_Nodes m = (Ret (Ok l), m) /\ StronglySorted string_le l /\ NoDup l /\
    (forall n, n ∈ l <-> is_Some (nodes m !! n)) /\
    forall l', StronglySorted string_le l' -> l' ≡ₚ l -> l' = l.
Proof.
  eexists. split; [done|]. split_and!.
  - apply sort_strings_sorted.
  - rewrite sort_strings_perm. apply map_range_nodup_fst.
  - intros n. rewrite sort_strings_perm, list_elem_of_fmap. split.
    + intros ([? c]&->&Hc%elem_of_map_range). by eexists.
    + intros [c Hc]. exists (n, c). by rewrite elem_of_map_range.
  - intros l' Hs Hp. by apply (StronglySorted_unique string_le); [|apply sort_strings_sorted|].
Qed.
End Mem.

(** ** A concrete store *)

Section Demo.
Import Toy.
#[local] Existing Instance range_asc.

(** A credential and a DID registration. *)
Definition demo_vc (ts : Z) : Tx := {|
  tx_Version := Version1; tx_Ts := ts; tx_From := "did:didem:a"; tx_Type := TxType_VC;
  tx_Action := TxActionAdd; tx_Data := DataRaw [x07]; tx_Signature := []
|}.
Definition demo_id (t : Tx) : Cid := obj_cid (ok_opt (msgpack_Marshal_Tx t)).
Definition demo_ids : list Cid := [demo_id (demo_vc 1); demo_id (demo_vc 2); demo_id (demo_vc 3)].

(** A store with three transactions, a parent block, and a block over them. *)
Definition demo_parent : Block := {|
  blk_Version := 1; blk_ID := cid_Undef; blk_Parent := cid_Undef; blk_Height := 6;
  blk_CreatedAt := 1; blk_Proposer := ""; blk_Signature := []; blk_Nonce := [];
  blk_Bloom := []; blk_TxRoot := cid_Undef
|}.
Definition demo_parent_id : Cid := obj_cid (ok_opt (msgpack_Marshal_Block demo_parent)).
Definition demo_mem0 : MemStore :=
  foldl (fun m t => (mem_PutTx t m).2) (mem_PutBlock demo_parent NewMemStore).2
    [demo_vc 1; demo_vc 2; demo_vc 3].
Definition demo_heap : gmap nat MemStore := {[ 0 := demo_mem0 ]}.

Lemma demo_wf : store_wf (ContentStore := MemStore_ContentStore) demo_heap 0.
Proof. exists demo_mem0. split; [apply lookup_singleton_eq|]. apply mem_wfb_wf. by_vm. Qed.

Lemma demo_put_total : put_total (W := gmap nat MemStore) (0 : nat).
Proof. intros s w (m&Hm&_). by eapply mem_put_total. Qed.

Lemma demo_stored : Forall (fun t => is_ok (heap_view read_tx demo_heap 0 t) = true) demo_ids.
Proof. repeat constructor; by_vm. Qed.

Lemma demo_stored' t : t ∈ demo_ids -> is_ok (heap_view read_tx demo_heap 0 t) = true.
Proof. intros Ht. pose proof demo_stored as Hd. rewrite Forall_forall in Hd. by apply Hd, list_elem_of_In. Qed.

Lemma NewTxSet_roundtrip_witness :
  exists root w', NewTxSet 0 demo_ids demo_heap = (Ret (Ok root), w') /\
    forall b, blk_TxRoot b = ts_cid root ->
      exists m, AllTx 0 b w' = (Ret (Ok m), w') /\
        dom m = list_to_set demo_ids /\
        forall t v, m !! t = Some v -> heap_view read_tx demo_heap 0 t = Ok v.
Proof.
  refine (NewTxSet_roundtrip (W := gmap nat MemStore) (0 : nat) demo_ids demo_heap _ _ _ _ _).
  - done.
  - vm_compute. lia.
  - exact demo_wf.
  - exact demo_put_total.
  - exact demo_stored'.
Defined.

Lemma NewTxSet_order_witness :
  NewTxSet 0 demo_ids demo_heap = NewTxSet 0 (reverse demo_ids) demo_heap.
Proof. apply NewTxSet_order. symmetry. apply reverse_Permutation. Defined.

Lemma NewTxSet_bounds_witness :
  NewTxSet 0 (replicate 1001 (demo_id (demo_vc 1))) demo_heap =
    (Ret (Err (errorsNew "too many tx for set")), demo_heap).
Proof. apply NewTxSet_bounds. rewrite length_replicate. unfold MaxBlockTxCount. lia. Defined.

Lemma NewBlock_sound_witness :
  exists b w', NewBlock 0 5 (Ok []) demo_parent_id demo_ids demo_heap = (Ret (Ok b), w') /\
    blk_Parent b = demo_parent_id /\ blk_Height b = u64 (blk_Height demo_parent + 1) /\
    (forall t, t ∈ demo_ids -> BloomContains (blk_Bloom b) t = Ok true) /\
    exists m, AllTx 0 b w' = (Ret (Ok m), w') /\
      dom m = list_to_set demo_ids /\
      forall t v, m !! t = Some v -> heap_view read_tx demo_heap 0 t = Ok v.
Proof.
  refine (NewBlock_sound (W := gmap nat MemStore) (0 : nat) 5 [] demo_parent_id demo_parent
    demo_ids demo_heap _ _ _ _ _ _ _ _).
  - done.
  - vm_compute. lia.
  - exact demo_wf.
  - exact demo_put_total.
  - exact demo_stored'.
  - done.
  - etransitivity; [exact (on_read 0 (fun m => read_block m demo_parent_id) demo_heap demo_mem0
      (lookup_singleton_eq _ _))|]. cbv beta.
    assert (read_block demo_mem0 demo_parent_id = Ok demo_parent) as -> by by_vm. done.
  - done.
Defined.

Lemma mem_PutTx_GetTx_witness :
  exists c m', mem_PutTx (demo_vc 4) demo_mem0 = (Ret (Ok c), m') /\ mem_wf m' /\
    mem_GetTx c m' = (Ret (Ok (demo_vc 4)), m') /\
    (forall c' d, getObj demo_mem0 c' = Some d -> getObj m' c' = Some d) /\
    (forall t' m2, mem_PutTx t' demo_mem0 = (Ret (Ok c), m2) ->
       msgpack_Marshal_Tx t' = msgpack_Marshal_Tx (demo_vc 4)).
Proof. apply mem_PutTx_GetTx; [|done]. apply mem_wfb_wf. by_vm. Defined.

Lemma mem_StartTest_isolated_witness :
  exists ms w', mem_StartTest 0 demo_heap = (Ret (Ok ms), w') /\ ms <> 0 /\
    w' !! 0 = Some demo_mem0 /\
    (exists m', w' !! ms = Some m' /\ objects m' = objects demo_mem0 /\
       txbIndex m' = txbIndex demo_mem0 /\ bState m' = bState demo_mem0 /\
       nodes m' = nodes demo_mem0 /\ dids m' = dids demo_mem0) /\
    forall A (f : GoM MemStore A) h' (w2 : gmap nat MemStore), h' <> 0 -> (on h' f w2).2 !! 0 = w2 !! 0.
Proof. apply mem_StartTest_isolated, lookup_singleton_eq. Defined.

(** The store after a block over the three transactions was stored and
    validated. *)
Definition demo_root : Cid :=
  match (NewTxSet 0 demo_ids demo_heap).1 with Ret (Ok s) => ts_cid s | _ => cid_Undef end.
Definition demo_block : Block := {|
  blk_Version := 1; blk_ID := cid_Undef; blk_Parent := demo_parent_id; blk_Height := 7;
  blk_CreatedAt := 1; blk_Proposer := ""; blk_Signature := []; blk_Nonce := [];
  blk_Bloom := []; blk_TxRoot := demo_root
|}.
Definition demo_block_id : Cid := obj_cid (ok_opt (msgpack_Marshal_Block demo_block)).
Definition demo_mem1 : MemStore :=
  let m := from_option id NewMemStore ((NewTxSet 0 demo_ids demo_heap).2 !! 0) in
  let m := (mem_PutBlock demo_block m).2 in
  (mem_MarkBlock demo_block_id BlockStateValidated m).2.
Definition demo_txs : gmap Cid Tx :=
  match (mem_AllTx demo_block demo_mem1).1 with Ret (Ok txs) => txs | _ => ∅ end.

Lemma mem_MarkBlock_accept_witness :
  size demo_txs = 3 /\
  exists m', mem_MarkBlock demo_block_id BlockStateAccepted demo_mem1 = (Ret None, m') /\
    (forall c, c ∈ dom demo_txs -> mem_GetTxBlock c m' = (Ret (Ok demo_block), m')) /\
    (forall c, c ∉ dom demo_txs -> txbIndex m' !! c = txbIndex demo_mem1 !! c) /\
    objects m' = objects demo_mem1 /\
    bState m' = <[demo_block_id := BlockStateAccepted]> (bState demo_mem1).
Proof.
  split; [by_vm|].
  pose proof (mem_MarkBlock_accept demo_block_id demo_block demo_txs demo_mem1) as Hacc.
  rewrite bool_decide_true in Hacc by by_vm. apply Hacc.
  - by_vm.
  - destruct (allTxCids_run demo_block demo_mem1) as (r&Hr&_).
    assert (match (mem_AllTx demo_block demo_mem1).1 with Ret (Ok _) => true | _ => false end = true)
      as Hall by by_vm.
    unfold demo_txs, mem_AllTx in *. rewrite Hr in *. by destruct r.
  - intros c t Ht%elem_of_map_to_list%list_elem_of_In.
    assert (forallb (fun ct => appliable ct.2) (map_to_list demo_txs) = true) as Ha by by_vm.
    rewrite forallb_forall in Ha. exact (Ha _ Ht).
Defined.
End Demo.
End StoreProps.
