(* ===== verification/Ipfs.v ===== *)
(** * internal/storage/ipfs.go: the persistent store

    Objects live in IPFS, the indexes in a pebble database.  Both are libraries:
    the classes [Pebble] and [Ipfs] hold the calls the store makes.  The state of
    the program is a [World]: the node and the network behind it, the database,
    and the heaps of batches and of [IPFSStorage] structs, so that a store and
    the scratch store [StartTest] makes share the database but not the pending
    batch.  coinflip.go draws from [math/rand], whose draws are an input. *)

From S2P Require Import Prelude Externals W3cDid Tx Chain ChainFacts.

Module Ipfs.
Import W3cDid Tx Chain ChainFacts.

(** ** github.com/cockroachdb/pebble

    A database and a batch are values that the mutating calls replace.  [Close]
    may be called on a [nil] batch: what it then does is a parameter too. *)
Class Pebble := {
  DB : Type;
  Batch : Type;
  pebble_ErrNotFound : error;
  db_Get : DB -> bytes -> result bytes;
  db_Set : bytes -> bytes -> DB -> option error * DB;
  db_Iter : DB -> bytes -> bytes -> list (bytes * bytes);
  db_Close : DB -> option error * DB;
  db_NewBatch : Batch;
  db_NewIndexedBatch : Batch;
  batch_Get : Batch -> DB -> bytes -> result bytes;
  batch_Set : bytes -> bytes -> Batch -> option error * Batch;
  batch_Delete : bytes -> Batch -> option error * Batch;
  batch_Iter : Batch -> DB -> bytes -> bytes -> list (bytes * bytes);
  batch_Commit : Batch -> DB -> option error * DB;
  batch_Close : Batch -> option error;
  batch_Close_nil : exit (option error)
}.

(** ** The block and pin API of kubo

    [IPFS] is what the node can reach: [ipfs_reachable] is the finite set of
    identifiers it can resolve. *)
Class Ipfs `{Lib} := {
  IPFS : Type;
  block_Put : bytes -> IPFS -> result Cid * IPFS;
  block_Get : IPFS -> Cid -> result bytes;
  pin_Add : Cid -> IPFS -> option error * IPFS;
  ipfs_reachable : IPFS -> gset Cid
}.

(** ** The tables *)

Definition tableSep : Byte.byte := x3a.

Definition txBlockTPrefix : Byte.byte := x01.
Definition blockStateTPrefix : Byte.byte := x02.
Definition didTPrefix : Byte.byte := x03.
Definition didHisoryTPrefix : Byte.byte := x04.
Definition activeClaimTPrefix : Byte.byte := x05.
Definition nodesTPrefix : Byte.byte := x06.
Definition latestBlockTPrefix : Byte.byte := x07.
Definition genesisTPrefix : Byte.byte := x08.

Definition allTxNWorkers : nat := 3.

(** Each part is followed by a separator, and the last separator is cut. *)
Definition typedKey (kType : Byte.byte) (parts : list string) : bytes :=
  match parts with
  | [] => [kType]
  | _ =>
      let k := kType :: concat (map (fun p => bytes_of_string p ++ [tableSep]) parts) in
      take (length k - 1) k
  end.

Section Ipfs.
Context `{L : Lib} `{!TxCodec} `{!ChainCodec} `{!RangeOrder} `{!Pebble} `{!Ipfs}.

(** [type IPFSStorage struct]: the node and the database are the ones of the
    world; [pfTipApply] points to a batch or is [nil]. *)
Record IPFSStorage := { pfTipApply : option nat }.

Record World := {
  w_ipfs : IPFS;
  w_db : DB;
  w_batches : gmap nat Batch;
  w_stores : gmap nat IPFSStorage;
  w_rand : nat -> Z
}.

Definition set_ipfs (x : IPFS) (w : World) : World := {|
  w_ipfs := x; w_db := w_db w; w_batches := w_batches w; w_stores := w_stores w;
  w_rand := w_rand w |}.
Definition set_db (x : DB) (w : World) : World := {|
  w_ipfs := w_ipfs w; w_db := x; w_batches := w_batches w; w_stores := w_stores w;
  w_rand := w_rand w |}.
Definition set_batches (x : gmap nat Batch) (w : World) : World := {|
  w_ipfs := w_ipfs w; w_db := w_db w; w_batches := x; w_stores := w_stores w;
  w_rand := w_rand w |}.
Definition set_stores (x : gmap nat IPFSStorage) (w : World) : World := {|
  w_ipfs := w_ipfs w; w_db := w_db w; w_batches := w_batches w; w_stores := x;
  w_rand := w_rand w |}.
Definition set_rand (x : nat -> Z) (w : World) : World := {|
  w_ipfs := w_ipfs w; w_db := w_db w; w_batches := w_batches w; w_stores := w_stores w;
  w_rand := x |}.

Notation M := (GoM World).

(** A call that returns an error and replaces the node, the database, or the
    batch the pointer [b] points to. *)
Definition on_ipfs {A} (f : IPFS -> A * IPFS) : M A := fun w =>
  let (r, x) := f (w_ipfs w) in (Ret r, set_ipfs x w).
Definition on_db {A} (f : DB -> A * DB) : M A := fun w =>
  let (r, x) := f (w_db w) in (Ret r, set_db x w).
Definition get_batch (b : nat) : M Batch := w ← gget; gsome (w_batches w !! b).
Definition on_batch (b : nat) (f : Batch -> option error * Batch) : M (option error) :=
  x ← get_batch b;
  gmodify (fun w => set_batches (<[b := (f x).2]> (w_batches w)) w);;
  mret (f x).1.
Definition new_batch (x : Batch) : M nat :=
  b ← ggets (fun w => fresh (dom (w_batches w)));
  gmodify (fun w => set_batches (<[b := x]> (w_batches w)) w);; mret b.

(** A closed batch goes back to the pool: its pointer is dead. *)
Definition close_batch (b : nat) : M (option error) :=
  x ← get_batch b;
  gmodify (fun w => set_batches (delete b (w_batches w)) w);; mret (batch_Close x).

(** The receiver of a method. *)
Definition self (h : nat) : M IPFSStorage := w ← gget; gsome (w_stores w !! h).

(** coinflip.go *)
Definition Flip : M bool :=
  flipint ← ggets (fun w => w_rand w 0);
  gmodify (fun w => set_rand (fun n => w_rand w (S n)) w);;
  mret (Z.eqb flipint 0).

(** ** Metadata *)

Definition metadataGet (h : nat) (key : bytes) : M (result bytes) :=
  s ← self h;
  match pfTipApply s with
  | Some b => x ← get_batch b; ggets (fun w => batch_Get x (w_db w) key)
  | None => ggets (fun w => db_Get (w_db w) key)
  end.

Definition metadataSet (h : nat) (key value : bytes) : M (option error) :=
  s ← self h;
  match pfTipApply s with
  | Some b => on_batch b (batch_Set key value)
  | None => on_db (db_Set key value)
  end.

Definition metadataNewIter (h : nat) (lower upper : bytes) : M (list (bytes * bytes)) :=
  s ← self h;
  match pfTipApply s with
  | Some b => x ← get_batch b; ggets (fun w => batch_Iter x (w_db w) lower upper)
  | None => ggets (fun w => db_Iter (w_db w) lower upper)
  end.

(** ** Objects *)

Definition putRaw (d : bytes) : M (result Cid) := on_ipfs (block_Put d).
Definition getRaw (n : IPFS) (c : Cid) : result bytes := block_Get n c.

Definition ipfs_PutTx (t : Tx) : M (result Cid) :=
  gtry (mret (Marshal t)) putRaw.

Definition ipfs_read_tx (n : IPFS) (c : TxID) : result Tx :=
  data ← getRaw n c; Unmarshal data empty_Tx.
Definition ipfs_GetTx (c : TxID) : M (result Tx) := ggets (fun w => ipfs_read_tx (w_ipfs w) c).

Definition ipfs_PutBlock (b : Block) : M (result Cid) :=
  gtry (mret (wrap "mashaling tx" (msgpack_Marshal_Block b))) putRaw.

(** The identifier is not in the encoding: it is set from the argument. *)
Definition ipfs_read_block (n : IPFS) (c : BlockID) : result Block :=
  data ← getRaw n c;
  b ← wrap "unmarshalling block" (msgpack_Unmarshal_Block data);
  Ok (blk_set_ID c b).
Definition ipfs_GetBlock (c : BlockID) : M (result Block) :=
  ggets (fun w => ipfs_read_block (w_ipfs w) c).

Definition ipfs_PutSet (txs : TxSet) : M (result Cid) :=
  gtry (mret (wrap "mashaling tx" (msgpack_Marshal_TxSet txs))) (fun d =>
  gtry (gwrap "storing txset" (putRaw d)) (fun c =>
  pin ← Flip;
  if pin : bool then
    gcheck (gwrap_e "pinning txset" (on_ipfs (pin_Add c))) (mret (Ok c))
  else mret (Ok c))).

Definition ipfs_read_set (n : IPFS) (c : Cid) : result TxSet :=
  data ← getRaw n c; wrap "unmarshalling block" (msgpack_Unmarshal_TxSet data).
Definition ipfs_GetSet (c : Cid) : M (result TxSet) := ggets (fun w => ipfs_read_set (w_ipfs w) c).

(** One unit of fuel for the root and one for each child of a reachable set. *)
Definition ipfs_walk_fuel (n : IPFS) : nat := S (pending (ipfs_read_set n) (ipfs_reachable n) ∅).

Definition ipfs_AllTx (b : Block) : M (result (gmap Cid Tx)) :=
  n ← ggets w_ipfs;
  gsome (walk (ipfs_read_set n) (ipfs_read_tx n) (ipfs_walk_fuel n) ∅ [blk_TxRoot b] ∅).

(** ** The last applied block *)

Definition ipfs_UpdateLastApplied (h : nat) (id : BlockID) : M (option error) :=
  gwrap_e "storing last block ref"
    (metadataSet h (typedKey latestBlockTPrefix []) (bytes_of_string (cid_String id))).

Definition ipfs_GetLastApplied (h : nat) : M (result (option Block)) :=
  r ← metadataGet h (typedKey latestBlockTPrefix []);
  match r with
  | Err err =>
      if bool_decide (err = pebble_ErrNotFound) then mret (Ok None)
      else mret (Err (errorsWrap err "getting last block ref"))
  | Ok d =>
      gtry (mret (wrap "casting block ref" (cid_Cast d))) (fun bid =>
      gtry (ipfs_GetBlock bid) (fun b => mret (Ok (Some b))))
  end.

(** ** Test stores *)

Definition ipfs_StartTest (h : nat) : M (result nat) :=
  s ← self h;
  match pfTipApply s with
  | Some _ => mret (Err (errorsNew "test apply already started"))
  | None =>
      b ← new_batch db_NewIndexedBatch;
      sc ← ggets (fun w => fresh (dom (w_stores w)));
      gmodify (fun w => set_stores (<[sc := {| pfTipApply := Some b |}]> (w_stores w)) w);;
      mret (Ok sc)
  end.

Definition ipfs_CompleteTest (h : nat) : M (option error) :=
  gdefer
    (s ← self h;
     match pfTipApply s with
     | Some b => close_batch b
     | None => fun w => (batch_Close_nil, w)
     end)
    (gmodify (fun w => set_stores (<[h := {| pfTipApply := None |}]> (w_stores w)) w)).

(** ** Indexing transactions *)

Definition indexTxNode (b : nat) (ntx : Tx) (id : TxID) : M (option error) :=
  c ← gsome (as_Node (tx_Data ntx));
  let k := typedKey nodesTPrefix [node_Id c] in
  if bool_decide (tx_Action ntx = TxActionAdd) then on_batch b (batch_Set k (cid_Bytes id))
  else if bool_decide (tx_Action ntx = TxActionRevoke) then on_batch b (batch_Delete k)
  else mret (Some (errorsNew "unsupported action")).

Definition indexTxDID (b : nat) (dtx : Tx) (id : TxID) : M (option error) :=
  c ← gsome (as_DID (tx_Data dtx));
  doc ← gsome (did_Document c);
  let k := typedKey didTPrefix [doc_ID doc] in
  let ak := typedKey didHisoryTPrefix [doc_ID doc; cid_String id] in
  gcheck_e (gwrap_e "appending to did history" (on_batch b (batch_Set ak (cid_Bytes id)))) (
  if bool_decide (tx_Action dtx = TxActionAdd) || bool_decide (tx_Action dtx = TxActionUpdate)
  then on_batch b (batch_Set k (cid_Bytes id))
  else if bool_decide (tx_Action dtx = TxActionRevoke) then on_batch b (batch_Delete k)
  else mret (Some (errorsNew "unsupported action"))).

Definition indexTxVC (b : nat) (vtx : Tx) (id : TxID) : M (option error) :=
  mret (Some (errorsNew "not implemented")).

(** [ApplyTx]; [ctxBatch] is the batch the context carries, if any. *)
Definition ipfs_ApplyTx (ctxBatch : option nat) (h : nat) (id : TxID) (t : Tx) :
  M (option error) :=
  grecover
    (batch ← (match ctxBatch with
              | Some b => mret (Some b)
              | None => s ← self h; mret (pfTipApply s)
              end);
     match batch with
     | None => mret (Some (errorsNew "applying tx without batch"))
     | Some batch =>
         if bool_decide (tx_Type t = TxType_Node) then
           gwrap_e "indexing tx" (indexTxNode batch t id)
         else if bool_decide (tx_Type t = TxType_DID) then
           gwrap_e "indexing tx" (indexTxDID batch t id)
         else if bool_decide (tx_Type t = TxType_VC) then
           gwrap_e "indexing tx" (indexTxVC batch t id)
         else mret (Some (errorsNew "unsupported tx type"))
     end)
    (Some (errorsNew "failed to apply tx")).

(** The body of the loop of [indexBlock]. *)
Definition index_one (h batch : nat) (bId : BlockID) (ct : Cid * Tx) : M (option error) :=
  gcheck_e (gwrap_e "a" (on_batch batch
    (batch_Set (typedKey txBlockTPrefix [cid_String ct.1]) (cid_Bytes bId)))) (
  r ← ipfs_ApplyTx (Some batch) h ct.1 ct.2;
  match r with
  | Some e => _ ← close_batch batch; mret (Some (errorsWrap e "applying tx"))
  | None =>
      s ← self h;
      match pfTipApply s with
      | Some _ => mret None
      | None =>
          pin ← Flip;
          if pin : bool then gwrap_e "pinning block" (on_ipfs (pin_Add ct.1)) else mret None
      end
  end).

Definition indexBlock (h : nat) (bId : BlockID) : M (option error) :=
  gtry_e (gwrap "getting block" (ipfs_GetBlock bId)) (fun b =>
  gtry_e (gwrap "getting block transactions" (ipfs_AllTx b)) (fun txs =>
  gcheck_e (gwrap_e "pinning block" (on_ipfs (pin_Add bId))) (
  s ← self h;
  batch ← (match pfTipApply s with Some b => mret b | None => new_batch db_NewBatch end);
  gcheck_e (gfor_e (map_range txs) (index_one h batch bId)) (
  s ← self h;
  match pfTipApply s with
  | Some _ => mret None
  | None =>
      x ← get_batch batch;
      gwrap_e "applying metadata batch index" (on_db (batch_Commit x))
  end)))).

Definition ipfs_MarkBlock (h : nat) (id : BlockID) (state : Z) : M (option error) :=
  let k := typedKey blockStateTPrefix [cid_String id] in
  r ← metadataGet h k;
  gtry_e (mret (match r with
                | Ok cStateB => Ok cStateB
                | Err err =>
                    if bool_decide (err = pebble_ErrNotFound) then Ok [x00; x00; x00; x00]
                    else Err (errorsWrap err "looking up block state")
                end)) (fun cStateB =>
  cState ← gsome (Uint32 cStateB);
  gcheck_e (gwrap_e "setting block state" (metadataSet h k (PutUint32 (u32 state)))) (
  if bool_decide (cState = BlockStateValidated) && bool_decide (state = BlockStateAccepted) then
    gcheck_e (gwrap_e "indexing block" (indexBlock h id)) (
    gwrap_e "setting block as last prefix"
      (metadataSet h (typedKey latestBlockTPrefix []) (cid_Bytes id)))
  else mret None)).

(** A missing key is reported with pebble's own error, wrapped. *)
Definition ipfs_GetTxBlock (h : nat) (id : TxID) : M (result Block) :=
  gtry (gwrap "looking up tx block" (metadataGet h (typedKey txBlockTPrefix [cid_String id]))) (fun bcid =>
  gtry (mret (wrap "casting tx block cid" (cid_Cast bcid))) (fun c =>
  ipfs_GetBlock c)).

(** ** Reading the indexes *)

Definition ipfs_LookupDID (h : nat) (did : string) : M (result (option Document)) :=
  r ← metadataGet h (typedKey didTPrefix [did]);
  match r with
  | Err err =>
      mret (Err (if bool_decide (err = pebble_ErrNotFound) then ErrNotFound
                 else errorsWrap err "finding did metadata key"))
  | Ok txB =>
      gtry (mret (wrap "casting did tx cid" (cid_Cast txB))) (fun cid =>
      gtry (gwrap "lookup id tx" (ipfs_GetTx cid)) (fun t =>
      if negb (bool_decide (tx_Type t = TxType_DID)) then
        mret (Err (errorsNew "unexpected tx type"))
      else data ← gsome (as_DID (tx_Data t)); mret (Ok (did_Document data))))
  end.

Definition ipfs_Node (h : nat) (nid : string) : M (result (option Node)) :=
  r ← metadataGet h (typedKey nodesTPrefix [nid]);
  match r with
  | Err err =>
      mret (Err (if bool_decide (err = pebble_ErrNotFound) then ErrNotFound
                 else errorsWrap err "looking up node key"))
  | Ok v =>
      gtry (mret (wrap "casting node cid" (cid_Cast v))) (fun cid =>
      gtry (gwrap "getting node tx" (ipfs_GetTx cid)) (fun nodeTx =>
      if negb (bool_decide (tx_Type nodeTx = TxType_Node)) then
        mret (Err (errorsNew "unexpected tx type"))
      else if bool_decide (tx_Action nodeTx = TxActionRevoke) then mret (Err ErrNotFound)
      else n ← gsome (as_Node (tx_Data nodeTx)); mret (Ok (Some n))))
  end.

Definition ipfs_Nodes (h : nat) : M (result (list string)) :=
  l ← metadataNewIter h [nodesTPrefix] [x07];
  mret (Ok (map (fun kv => string_of_bytes (drop 1 kv.1)) l)).

(** The workers of [DIDHistory] take identifiers from a channel.  One that fails
    to fetch a transaction sends the error to a channel that was never made and
    blocks for ever; when all have, the identifiers left are never fetched and
    the call does not return: [None]. *)
Fixpoint history_workers (n : IPFS) (workers : nat) (cids : list Cid) (txs : list Tx) :
  option (list Tx) :=
  match cids with
  | [] => Some txs
  | c :: cids =>
      match workers with
      | 0 => None
      | S rest =>
          match ipfs_read_tx n c with
          | Ok t => history_workers n workers cids (txs ++ [t])
          | Err _ => history_workers n rest cids txs
          end
      end
  end.

(** Every entry of the history table, whatever the DID asked for; the fetches
    complete in an order the scheduler picks. *)
Definition ipfs_DIDHistory (h : nat) (id : string) : M (option (result (list Tx))) :=
  l ← metadataNewIter h [didHisoryTPrefix] [x05];
  let hCids : gset Cid := list_to_set (omap (fun kv => ok_opt (cid_Cast kv.2)) l) in
  n ← ggets w_ipfs;
  mret (Ok <$> history_workers n allTxNWorkers (range_order (elements hCids)) []).

Definition ipfs_Claims (did : string) : M (result (list Tx)) :=
  mret (Err (errorsNew "not implemented")).

Definition ipfs_HasGenesisApplied (h : nat) : M bool :=
  r ← metadataGet h (typedKey genesisTPrefix []); mret (is_ok r).

Definition ipfs_Stop : M (option error) := on_db db_Close.

(** ** The genesis block *)

(** Each transaction is stored and applied to the batch. *)
Definition genesis_one (h batch : nat) (txs : list Cid) (t : Tx) : M (result (list Cid)) :=
  gtry (gwrap "storing tx" (ipfs_PutTx t)) (fun cid =>
  gcheck (gwrap_e "applying tx" (ipfs_ApplyTx (Some batch) h cid t)) (
  mret (Ok (txs ++ [cid])))).

(** What follows the check of the root: three writes to the batch, then the
    commit. *)
Definition genesis_commit (batch : nat) (g : GenesisInfo) : M (option error) :=
  gtry_e (gwrap "putting block" (ipfs_PutBlock (gen_Block g))) (fun bcid =>
  gcheck_e (gwrap_e "setting genesis as last block"
    (on_batch batch (batch_Set (typedKey latestBlockTPrefix []) (cid_Bytes bcid)))) (
  gcheck_e (gwrap_e "storing genesis prefix"
    (on_batch batch (batch_Set (typedKey genesisTPrefix []) []))) (
  x ← get_batch batch;
  gwrap_e "applying batch" (on_db (batch_Commit x))))).

(** The methods of the store, but for [ApplyGenesis], which calls [NewTxSet] on
    its receiver; [NewTxSet] calls none but [PutSet]. *)
Definition ipfs_methods (applyGenesis : nat -> GenesisInfo -> M (option error)) :
  Store World nat := {|
  PutTx h t := ipfs_PutTx t;
  GetTx h c := ipfs_GetTx c;
  PutBlock h b := ipfs_PutBlock b;
  GetBlock h c := ipfs_GetBlock c;
  AllTx h b := ipfs_AllTx b;
  PutSet h s := ipfs_PutSet s;
  GetSet h c := ipfs_GetSet c;
  GetTxBlock := ipfs_GetTxBlock;
  MarkBlock := ipfs_MarkBlock;
  UpdateLastApplied := ipfs_UpdateLastApplied;
  GetLastApplied := ipfs_GetLastApplied;
  Stop h := ipfs_Stop;
  LookupDID := ipfs_LookupDID;
  DIDHistory := ipfs_DIDHistory;
  Claims h d := ipfs_Claims d;
  Nodes := ipfs_Nodes;
  Node_ := ipfs_Node;
  HasGenesisApplied := ipfs_HasGenesisApplied;
  ApplyGenesis := applyGenesis;
  ApplyTx := ipfs_ApplyTx None;
  StartTest := ipfs_StartTest;
  CompleteTest := ipfs_CompleteTest
|}.

Definition ipfs_ApplyGenesis (h : nat) (g : GenesisInfo) : M (option error) :=
  batch ← new_batch db_NewBatch;
  gtry_e (gfold (gen_Txs g) [] (genesis_one h batch)) (fun txs =>
  gtry_e (gwrap "storing tx set"
    (NewTxSet (Store0 := ipfs_methods (fun _ _ => gpanic)) h txs)) (fun set =>
  if bool_decide (ts_cid set = blk_TxRoot (gen_Block g)) then genesis_commit batch g
  else mret (Some (errorsNew "calculated tx set does not match block root")))).

#[export] Instance IPFSStorage_Store : Store World nat := ipfs_methods ipfs_ApplyGenesis.
End Ipfs.
End Ipfs.
