(* ===== verification/IpfsFacts.v ===== *)
(** * internal/storage/ipfs.go: what the libraries promise, and the lemmas on
      keys, batches and objects that the properties of the store are made of *)

From S2P Require Import Prelude Externals W3cDid Tx Chain ChainFacts Ipfs.

Module IpfsFacts.
Import W3cDid Tx Chain ChainFacts Ipfs.

(** ** pebble: an ordered map, and batches of pending writes over it *)

(** The contents a batch shows: its own writes first, a deletion being a write
    of nothing. *)
Definition overlay (p : gmap bytes (option bytes)) (m : gmap bytes bytes) : gmap bytes bytes :=
  merge (fun w v => match w with Some o => o | None => v end) p m.

Lemma lookup_overlay p m k :
  overlay p m !! k = match p !! k with Some o => o | None => m !! k end.
Proof. unfold overlay. rewrite lookup_merge. unfold diag_None. by destruct (p !! k), (m !! k). Qed.

Definition found `{Pebble} (o : option bytes) : result bytes :=
  match o with Some v => Ok v | None => Err pebble_ErrNotFound end.

(** The entries of [m] from [lo] up to [hi], in the order of their keys. *)
Definition ranged (m : gmap bytes bytes) (lo hi : bytes) (l : list (bytes * bytes)) : Prop :=
  StronglySorted (fun a b => bytes_leb a b = true) l.*1 /\ NoDup l.*1 /\
  forall k v, (k, v) ∈ l <->
    m !! k = Some v /\ bytes_leb lo k = true /\ bytes_leb hi k = false.

(** Documented behaviour; [Get] and iterators do not fail, writes may. *)
Class PebbleLaws `{Pebble} := {
  db_view : DB -> gmap bytes bytes;
  batch_view : Batch -> gmap bytes (option bytes);
  pebble_err_own : errors_Is pebble_ErrNotFound ErrNotFound = false;
  db_Get_view : forall d k, db_Get d k = found (db_view d !! k);
  db_Set_view : forall k v d d', db_Set k v d = (None, d') -> db_view d' = <[k := v]> (db_view d);
  db_Set_atomic : forall k v d e d', db_Set k v d = (Some e, d') -> db_view d' = db_view d;
  db_Iter_view : forall d lo hi, ranged (db_view d) lo hi (db_Iter d lo hi);
  db_NewBatch_view : batch_view db_NewBatch = ∅;
  db_NewIndexedBatch_view : batch_view db_NewIndexedBatch = ∅;
  batch_Get_view : forall b d k,
    batch_Get b d k = found (overlay (batch_view b) (db_view d) !! k);
  batch_Set_view : forall k v b b',
    batch_Set k v b = (None, b') -> batch_view b' = <[k := Some v]> (batch_view b);
  batch_Delete_view : forall k b b',
    batch_Delete k b = (None, b') -> batch_view b' = <[k := None]> (batch_view b);
  batch_Iter_view : forall b d lo hi,
    ranged (overlay (batch_view b) (db_view d)) lo hi (batch_Iter b d lo hi);
  batch_Commit_view : forall b d d',
    batch_Commit b d = (None, d') -> db_view d' = overlay (batch_view b) (db_view d);
  (** a write, and a batch, is done as a whole or not at all *)
  batch_Commit_atomic : forall b d e d', batch_Commit b d = (Some e, d') -> db_view d' = db_view d
}.

(** ** IPFS: what was put can be read, and stays readable *)
Class IpfsLaws `{Ipfs} : Prop := {
  block_Put_Get : forall d n c n', block_Put d n = (Ok c, n') -> block_Get n' c = Ok d;
  block_Put_defined : forall d n c n', block_Put d n = (Ok c, n') -> c <> cid_Undef;
  block_Put_keeps : forall d' n c d, block_Get n c = Ok d -> block_Get (block_Put d' n).2 c = Ok d;
  pin_Add_keeps : forall c' n c d, block_Get n c = Ok d -> block_Get (pin_Add c' n).2 c = Ok d;
  block_Get_defined : forall n c d, block_Get n c = Ok d -> c <> cid_Undef;
  block_Get_reachable : forall n c d, block_Get n c = Ok d -> c ∈ ipfs_reachable n
}.

(** The text of an identifier is in a base alphabet, which has no [':']. *)
Class CidTextLaws `{Lib} : Prop := {
  cid_String_nosep : forall c, tableSep ∉ bytes_of_string (cid_String c)
}.

(** ** Keys *)

Section Keys.

(** The parts joined by the separator. *)
Fixpoint joined (parts : list string) : bytes :=
  match parts with
  | [] => []
  | [p] => bytes_of_string p
  | p :: parts => bytes_of_string p ++ tableSep :: joined parts
  end.

Lemma concat_joined parts :
  parts <> [] ->
  concat (map (fun p => bytes_of_string p ++ [tableSep]) parts) = joined parts ++ [tableSep].
Proof.
  induction parts as [|p parts IH]; [done|]. intros _. destruct parts as [|q parts].
  { simpl. by rewrite app_nil_r. }
  change (concat (map _ (p :: q :: parts))) with
    ((bytes_of_string p ++ [tableSep]) ++
     concat (map (fun p => bytes_of_string p ++ [tableSep]) (q :: parts))).
  rewrite IH by done. change (joined (p :: q :: parts)) with
    (bytes_of_string p ++ tableSep :: joined (q :: parts)). by rewrite <- !app_assoc.
Qed.

Lemma typedKey_joined k parts : typedKey k parts = k :: joined parts.
Proof.
  destruct parts as [|p parts]; [done|]. unfold typedKey. rewrite concat_joined by done.
  cbn [length]. rewrite length_app. cbn [length].
  replace (S (length (joined (p :: parts)) + 1) - 1) with (S (length (joined (p :: parts)))) by lia.
  simpl. f_equal. by rewrite take_app_length.
Qed.

Lemma typedKey_prefix k1 k2 p1 p2 : k1 <> k2 -> typedKey k1 p1 <> typedKey k2 p2.
Proof. rewrite !typedKey_joined. congruence. Qed.

Lemma typedKey_single k a b : typedKey k [a] = typedKey k [b] -> a = b.
Proof. rewrite !typedKey_joined. simpl. intros [= Hab]. by apply bytes_of_string_inj. Qed.

(** Two tails without a separator, after the last one. *)
Lemma app_sep_inj (a1 a2 s1 s2 : bytes) :
  tableSep ∉ s1 -> tableSep ∉ s2 ->
  a1 ++ tableSep :: s1 = a2 ++ tableSep :: s2 -> a1 = a2 /\ s1 = s2.
Proof.
  revert a2. induction a1 as [|x a1 IH]; intros [|y a2] H1 H2 He; simpl in He; simplify_eq.
  - done.
  - exfalso. apply H1. set_solver.
  - exfalso. apply H2. set_solver.
  - by destruct (IH a2) as [-> ->].
Qed.

Lemma typedKey_pair k a1 a2 b1 b2 :
  tableSep ∉ bytes_of_string b1 -> tableSep ∉ bytes_of_string b2 ->
  typedKey k [a1; b1] = typedKey k [a2; b2] -> a1 = a2 /\ b1 = b2.
Proof.
  intros H1 H2. rewrite !typedKey_joined. simpl. intros [= He].
  destruct (app_sep_inj _ _ _ _ H1 H2 He) as [Ha Hb]. split; by apply bytes_of_string_inj.
Qed.
End Keys.

#[export] Hint Resolve typedKey_prefix : go.

(** ** Little endian *)

Lemma Uint32_PutUint32_states s :
  s = BlockStateUnvalidated \/ s = BlockStateValidated \/ s = BlockStateAccepted ->
  Uint32 (PutUint32 (u32 s)) = Some s.
Proof. intros [->|[->| ->]]; by_vm. Qed.

(** ** Objects: the store keeps the contract of [ContentStore] *)

Section Objects.
Context `{L : Lib} `{!TxCodec} `{!ChainCodec} `{!RangeOrder} `{!Pebble} `{!Ipfs}.
Context `{!IpfsLaws}.

(** Everything that can be read in [n] can be read in [n']. *)
Definition keeps (n n' : IPFS) : Prop :=
  forall c d, block_Get n c = Ok d -> block_Get n' c = Ok d.

Lemma keeps_refl n : keeps n n.
Proof. by intros c d. Qed.

Lemma keeps_trans n1 n2 n3 : keeps n1 n2 -> keeps n2 n3 -> keeps n1 n3.
Proof. unfold keeps. auto. Qed.

Lemma keeps_put d n : keeps n (block_Put d n).2.
Proof. intros c d'. apply block_Put_keeps. Qed.

Lemma keeps_pin c n : keeps n (pin_Add c n).2.
Proof. intros c' d'. apply pin_Add_keeps. Qed.

Lemma keeps_tx n n' c : keeps n n' -> is_ok (ipfs_read_tx n c) = true ->
  ipfs_read_tx n' c = ipfs_read_tx n c.
Proof.
  intros Hk. unfold ipfs_read_tx, getRaw. destruct (block_Get n c) as [d|] eqn:Hd; [|done].
  by rewrite (Hk c d Hd).
Qed.

Lemma keeps_set n n' c : keeps n n' -> is_ok (ipfs_read_set n c) = true ->
  ipfs_read_set n' c = ipfs_read_set n c.
Proof.
  intros Hk. unfold ipfs_read_set, getRaw. destruct (block_Get n c) as [d|] eqn:Hd; [|done].
  by rewrite (Hk c d Hd).
Qed.

Lemma keeps_block n n' c : keeps n n' -> is_ok (ipfs_read_block n c) = true ->
  ipfs_read_block n' c = ipfs_read_block n c.
Proof.
  intros Hk. unfold ipfs_read_block, getRaw. destruct (block_Get n c) as [d|] eqn:Hd; [|done].
  by rewrite (Hk c d Hd).
Qed.

(** The parts of the world an object operation does not touch. *)
Definition same_meta (w w' : World) : Prop :=
  w_db w' = w_db w /\ w_batches w' = w_batches w /\ w_stores w' = w_stores w.

(** What a call that only works on objects guarantees. *)
Definition grows (w w' : World) : Prop := keeps (w_ipfs w) (w_ipfs w') /\ same_meta w w'.

Lemma grows_refl w : grows w w.
Proof. split; [apply keeps_refl|done]. Qed.

Lemma grows_trans w1 w2 w3 : grows w1 w2 -> grows w2 w3 -> grows w1 w3.
Proof. intros (?&?&?&?) (?&?&?&?). split; [by eapply keeps_trans|]. split_and!; congruence. Qed.

Lemma putRaw_run d w :
  exists r n, putRaw d w = (Ret r, set_ipfs n w) /\ block_Put d (w_ipfs w) = (r, n) /\
    grows w (set_ipfs n w).
Proof.
  unfold putRaw, on_ipfs. destruct (block_Put d (w_ipfs w)) as [r n] eqn:Hp.
  exists r, n. split_and!; [done..|]. split; [|done]. simpl.
  pose proof (keeps_put d (w_ipfs w)) as Hk. by rewrite Hp in Hk.
Qed.

Lemma ipfs_PutSet_spec `{!ChainCodecLaws} s w :
  exists r w', ipfs_PutSet s w = (Ret r, w') /\ grows w w' /\
    forall c, r = Ok c ->
      c <> cid_Undef /\ (ts_defined s -> ipfs_read_set (w_ipfs w') c = Ok (ts_set_cid cid_Undef s)).
Proof.
  pose proof (msgpack_TxSet_total s) as Hok. unfold ipfs_PutSet.
  destruct (msgpack_Marshal_TxSet s) as [d|] eqn:Hd; [|done].
  destruct (putRaw_run d w) as (r&n&Hr&Hp&Hg). go_unfold. simpl. rewrite Hr.
  destruct r as [c|e]; simpl; [|by exists (Err (errorsWrap e "storing txset")), (set_ipfs n w)].
  assert (forall n', keeps n n' ->
    c <> cid_Undef /\ (ts_defined s -> ipfs_read_set n' c = Ok (ts_set_cid cid_Undef s))) as Hread.
  { intros n' Hk. split; [by eapply block_Put_defined|]. intros Hs. unfold ipfs_read_set, getRaw. rewrite (Hk c d (block_Put_Get _ _ _ _ Hp)). simpl.
    by rewrite (msgpack_TxSet_roundtrip s d Hs Hd). }
  unfold Flip. go_unfold. simpl. case_match eqn:Hf.
  - unfold on_ipfs. simpl. destruct (pin_Add c n) as [e n'] eqn:Hpin.
    pose proof (keeps_pin c n) as Hk. rewrite Hpin in Hk. simpl in *.
    exists (match e with Some e => Err (errorsWrap e "pinning txset") | None => Ok c end).
    eexists. split; [by destruct e|]. split.
    { eapply grows_trans; [exact Hg|]. split; [exact Hk|done]. }
    destruct e; [done|]. intros c' [= <-]. by apply Hread.
  - exists (Ok c). eexists. split; [done|]. split; [eapply grows_trans; [exact Hg|split; [apply keeps_refl|done]]|].
    intros c' [= <-]. apply Hread, keeps_refl.
Qed.

Lemma ipfs_PutTx_spec `{!TxCodecLaws} t w :
  tx_typed t = true ->
  exists r w', ipfs_PutTx t w = (Ret r, w') /\ grows w w' /\
    forall c, r = Ok c -> c <> cid_Undef /\ ipfs_read_tx (w_ipfs w') c = Ok t.
Proof.
  intros Ht. destruct (Marshal_total t) as (d&Hm&Hd). unfold ipfs_PutTx. rewrite Hm.
  destruct (putRaw_run d w) as (r&n&Hr&Hp&Hg). go_unfold. simpl. rewrite Hr.
  exists r, (set_ipfs n w). split_and!; [done..|]. intros c ->. simpl.
  split; [by eapply block_Put_defined|]. unfold ipfs_read_tx, getRaw.
  rewrite (block_Put_Get _ _ _ _ Hp). simpl. by apply Unmarshal_Marshal.
Qed.

Lemma ipfs_PutBlock_spec `{!ChainCodecLaws} b w :
  exists r w', ipfs_PutBlock b w = (Ret r, w') /\ grows w w' /\
    forall c, r = Ok c -> c <> cid_Undef /\ (blk_TxRoot b <> cid_Undef -> exists b', ipfs_read_block (w_ipfs w') c = Ok b' /\ blk_ID b' = c /\
      blk_TxRoot b' = blk_TxRoot b /\ blk_Height b' = blk_Height b).
Proof.
  pose proof (msgpack_Block_total b) as Hok. unfold ipfs_PutBlock.
  destruct (msgpack_Marshal_Block b) as [d|] eqn:Hd; [|done].
  destruct (putRaw_run d w) as (r&n&Hr&Hp&Hg). go_unfold. simpl. rewrite Hr.
  exists r, (set_ipfs n w). split_and!; [done..|]. intros c ->. split; [by eapply block_Put_defined|].
  intros Hu. destruct (msgpack_Block_roundtrip b d Hu Hd) as (b'&Hb'&Hroot&Hh).
  exists (blk_set_ID c b'). split_and!; [|done..]. unfold ipfs_read_block, getRaw. simpl.
  rewrite (block_Put_Get _ _ _ _ Hp). simpl. by rewrite Hb'.
Qed.

Lemma ipfs_AllTx_run b w :
  exists r, ipfs_AllTx b w = (Ret r, w) /\
    walks_to (ipfs_read_set (w_ipfs w)) (ipfs_read_tx (w_ipfs w)) (blk_TxRoot b) r.
Proof.
  destruct (walk_terminates (ipfs_read_set (w_ipfs w)) (ipfs_read_tx (w_ipfs w))
    (ipfs_reachable (w_ipfs w)) (ipfs_walk_fuel (w_ipfs w)) ∅ [blk_TxRoot b] ∅) as [r Hr].
  { intros c Hc. unfold ipfs_read_set, getRaw in Hc.
    destruct (block_Get (w_ipfs w) c) as [d|] eqn:Hd; [|done]. by eapply block_Get_reachable. }
  { unfold ipfs_walk_fuel. simpl. lia. }
  exists r. split; [|by exists (ipfs_walk_fuel (w_ipfs w))].
  unfold ipfs_AllTx. go_unfold. by rewrite Hr.
Qed.

Context `{!TxCodecLaws} `{!ChainCodecLaws}.

#[local] Obligation Tactic := idtac.

#[export] Program Instance IPFSStorage_ContentStore : ContentStore World nat := {|
  store_wf _ _ := True;
  view_set w _ := ipfs_read_set (w_ipfs w);
  view_tx w _ := ipfs_read_tx (w_ipfs w)
|}.
Next Obligation. done. Qed.
Next Obligation. done. Qed.
Next Obligation.
  intros h s w _. destruct (ipfs_PutSet_spec s w) as (r&w'&Hr&[Hk _]&Hv).
  exists r, w'. split; [exact Hr|]. split; [done|]. split; [|exact Hv].
  split; intros c; [by apply keeps_set|by apply keeps_tx].
Qed.
Next Obligation.
  intros h t w _ Ht. destruct (ipfs_PutTx_spec t w Ht) as (r&w'&Hr&[Hk _]&Hv).
  exists r, w'. split; [exact Hr|]. split; [done|]. split; [|intros c Hc; by apply Hv].
  split; intros c; [by apply keeps_set|by apply keeps_tx].
Qed.
Next Obligation.
  intros h c w _. unfold ipfs_read_tx, getRaw. destruct (block_Get (w_ipfs w) c) as [d|] eqn:Hd; [|done].
  intros _. by eapply block_Get_defined.
Qed.
Next Obligation. intros h b w _. apply ipfs_AllTx_run. Qed.
End Objects.

(** ** Metadata: what a store shows of the database and of its batch *)

Section Metadata.
Context `{L : Lib} `{!TxCodec} `{!ChainCodec} `{!RangeOrder} `{!Pebble} `{!Ipfs}.
Context `{!PebbleLaws}.

Definition meta_view (w : World) (h : nat) : option (gmap bytes bytes) :=
  match w_stores w !! h with
  | None => None
  | Some s =>
      match pfTipApply s with
      | None => Some (db_view (w_db w))
      | Some b => x ← w_batches w !! b; Some (overlay (batch_view x) (db_view (w_db w)))
      end
  end.

(** A store that works on the database itself. *)
Definition persistent (w : World) (h : nat) : Prop :=
  w_stores w !! h = Some {| pfTipApply := None |}.

Lemma persistent_view w h : persistent w h -> meta_view w h = Some (db_view (w_db w)).
Proof. unfold meta_view, persistent. by intros ->. Qed.

Lemma metadataGet_run w h m k :
  meta_view w h = Some m -> metadataGet h k w = (Ret (found (m !! k)), w).
Proof.
  unfold meta_view, metadataGet, self, get_batch. go_unfold.
  destruct (w_stores w !! h) as [[[b|]]|]; [|simpl; intros [= <-]; by rewrite db_Get_view|done].
  simpl. destruct (w_batches w !! b) as [x|]; [|done]. intros [= <-]. by rewrite batch_Get_view.
Qed.

Lemma metadataNewIter_run w h m lo hi :
  meta_view w h = Some m ->
  exists l, metadataNewIter h lo hi w = (Ret l, w) /\ ranged m lo hi l.
Proof.
  unfold meta_view, metadataNewIter, self, get_batch. go_unfold.
  destruct (w_stores w !! h) as [[[b|]]|]; [| |done].
  - simpl. destruct (w_batches w !! b) as [x|]; [|done]. intros [= <-].
    eexists. split; [done|apply batch_Iter_view].
  - intros [= <-]. eexists. split; [done|apply db_Iter_view].
Qed.

(** [w'] is [w] after the writes [p] to the batch [b]. *)
Definition batch_wrote (b : nat) (p : gmap bytes (option bytes)) (w w' : World) : Prop :=
  exists x x', w_batches w !! b = Some x /\ w' = set_batches (<[b := x']> (w_batches w)) w /\
    batch_view x' = p ∪ batch_view x.

Lemma on_batch_set b k v w w' :
  on_batch b (batch_Set k v) w = (Ret None, w') -> batch_wrote b {[k := Some v]} w w'.
Proof.
  unfold on_batch, get_batch. go_unfold. destruct (w_batches w !! b) as [x|] eqn:Hx; [|done].
  destruct (batch_Set k v x) as [e x'] eqn:Hset. simpl. intros [= -> <-].
  exists x, x'. split_and!; [done..|]. rewrite (batch_Set_view _ _ _ _ Hset). by rewrite insert_union_singleton_l.
Qed.

Lemma on_batch_delete b k w w' :
  on_batch b (batch_Delete k) w = (Ret None, w') -> batch_wrote b {[k := None]} w w'.
Proof.
  unfold on_batch, get_batch. go_unfold. destruct (w_batches w !! b) as [x|] eqn:Hx; [|done].
  destruct (batch_Delete k x) as [e x'] eqn:Hset. simpl. intros [= -> <-].
  exists x, x'. split_and!; [done..|]. rewrite (batch_Delete_view _ _ _ Hset). by rewrite insert_union_singleton_l.
Qed.

Lemma set_batches_twice x y w : set_batches x (set_batches y w) = set_batches x w.
Proof. done. Qed.

Lemma batch_wrote_trans b p1 p2 w1 w2 w3 :
  batch_wrote b p1 w1 w2 -> batch_wrote b p2 w2 w3 -> batch_wrote b (p2 ∪ p1) w1 w3.
Proof.
  intros (x&x1&Hx&->&Hv1) (y&x2&Hy&->&Hv2). simpl in Hy. rewrite lookup_insert_eq in Hy.
  injection Hy as <-. exists x, x2. split_and!; [done| |].
  - rewrite set_batches_twice. f_equal. simpl. by rewrite insert_insert_eq.
  - rewrite Hv2, Hv1. by rewrite (assoc_L (∪)).
Qed.

(** What the index of a transaction writes: the table of nodes, or the tables of
    DIDs and of their histories. *)
Definition tx_writes (id : Cid) (t : Tx) : gmap bytes (option bytes) :=
  match tx_Data t with
  | DataNode n =>
      {[ typedKey nodesTPrefix [node_Id n] :=
           if bool_decide (tx_Action t = TxActionAdd) then Some (cid_Bytes id) else None ]}
  | DataDID {| did_Document := Some doc |} =>
      {[ typedKey didTPrefix [doc_ID doc] :=
           if bool_decide (tx_Action t = TxActionRevoke) then None else Some (cid_Bytes id);
         typedKey didHisoryTPrefix [doc_ID doc; cid_String id] := Some (cid_Bytes id) ]}
  | _ => ∅
  end.

(** The transactions [ApplyTx] can index. *)
Definition indexable (t : Tx) : bool :=
  match tx_Data t with
  | DataNode _ => bool_decide (tx_Type t = TxType_Node) &&
      (bool_decide (tx_Action t = TxActionAdd) || bool_decide (tx_Action t = TxActionRevoke))
  | DataDID {| did_Document := Some _ |} => bool_decide (tx_Type t = TxType_DID) &&
      (bool_decide (tx_Action t = TxActionAdd) || bool_decide (tx_Action t = TxActionUpdate) ||
       bool_decide (tx_Action t = TxActionRevoke))
  | _ => false
  end.

Lemma indexTxNode_spec b t id w w' :
  indexTxNode b t id w = (Ret None, w') ->
  exists n, tx_Data t = DataNode n /\ batch_wrote b (tx_writes id t) w w' /\
    (tx_Action t = TxActionAdd \/ tx_Action t = TxActionRevoke).
Proof.
  unfold indexTxNode, tx_writes, as_Node. destruct (tx_Data t) as [|d|n|r|r]; try done.
  intros Hr. exists n. split; [done|]. revert Hr. simpl. unfold mbind, GoM_bind, mret, GoM_ret.
  case_bool_decide as Ha.
  - intros Hr. split; [by apply on_batch_set|auto].
  - case_bool_decide as Hv; [|done]. intros Hr. split; [by apply on_batch_delete|auto].
Qed.

Lemma indexTxDID_spec b t id w w' :
  indexTxDID b t id w = (Ret None, w') ->
  exists doc, tx_Data t = DataDID {| did_Document := Some doc |} /\
    batch_wrote b (tx_writes id t) w w' /\
    (tx_Action t = TxActionAdd \/ tx_Action t = TxActionUpdate \/ tx_Action t = TxActionRevoke).
Proof.
  unfold indexTxDID, tx_writes, as_DID. destruct (tx_Data t) as [|[[doc|]]|n|r|r]; try done.
  intros Hr. exists doc. split; [done|]. revert Hr. cbn [did_Document].
  unfold gcheck_e, gwrap_e, gsome, mbind, GoM_bind, mret, GoM_ret. cbn [did_Document].
  destruct (on_batch b (batch_Set _ _) w) as [[[e|]|] w1] eqn:Hh; try done. cbn [Wrap].
  apply on_batch_set in Hh. rewrite insert_union_singleton_l.
  destruct (bool_decide (tx_Action t = TxActionAdd) || _) eqn:Ha.
  - intros Hr. apply on_batch_set in Hr. apply orb_true_iff in Ha. rewrite !bool_decide_eq_true in Ha.
    rewrite bool_decide_eq_false_2 by (destruct Ha as [Ha|Ha]; by rewrite Ha).
    split; [by eapply batch_wrote_trans|tauto].
  - clear Ha. case_bool_decide as Hv; [|done]. intros Hr. apply on_batch_delete in Hr.
    split; [by eapply batch_wrote_trans|tauto].
Qed.

(** [ApplyTx] without error: the transaction is indexable and its writes, and
    nothing else, are in the batch. *)
Lemma ipfs_ApplyTx_spec ob h id t w w' :
  ipfs_ApplyTx ob h id t w = (Ret None, w') ->
  exists b, (ob = Some b \/ ob = None /\ exists s, w_stores w !! h = Some s /\ pfTipApply s = Some b) /\
    indexable t = true /\ batch_wrote b (tx_writes id t) w w'.
Proof.
  unfold ipfs_ApplyTx, grecover. intros Hr. unfold mbind at 1, GoM_bind at 1 in Hr.
  assert (exists ob' : option nat,
    (match ob with Some b => mret (Some b) | None => s ← self h; mret (pfTipApply s) end) w
      = (Ret ob', w) /\ (forall b, ob' = Some b -> ob = Some b \/ ob = None /\
          exists s, w_stores w !! h = Some s /\ pfTipApply s = Some b)) as (ob'&He&Hob).
  { destruct ob as [b|]; [exists (Some b); split; [done|]; intros ? [= ->]; by left|].
    unfold self in *. go_unfold. destruct (w_stores w !! h) as [s|]; [|done].
    exists (pfTipApply s). split; [done|]. intros b Hb. right. eauto. }
  rewrite He in Hr. destruct ob' as [b|]; [|done]. exists b. split; [by apply Hob|]. clear He Hob.
  unfold gwrap_e, mbind, GoM_bind, mret, GoM_ret in Hr.
  case_bool_decide as Hn; [|case_bool_decide as Hd; [|by case_bool_decide]].
  - destruct (indexTxNode b t id w) as [[[e|]|] w1] eqn:Hi; try done. injection Hr as <-.
    destruct (indexTxNode_spec _ _ _ _ _ Hi) as (n&Hdata&Hw&Ha). split; [|done]. unfold indexable. rewrite Hdata.
    rewrite bool_decide_eq_true_2 by done. simpl. rewrite orb_true_iff, !bool_decide_eq_true. tauto.
  - destruct (indexTxDID b t id w) as [[[e|]|] w1] eqn:Hi; try done. injection Hr as <-.
    destruct (indexTxDID_spec _ _ _ _ _ Hi) as (doc&Hdata&Hw&Ha). split; [|done]. unfold indexable. rewrite Hdata.
    rewrite bool_decide_eq_true_2 by done. simpl. rewrite !orb_true_iff, !bool_decide_eq_true. tauto.
Qed.
End Metadata.
End IpfsFacts.
