(* ===== verification/IpfsProps.v ===== *)
(** * The properties of the persistent store *)

From S2P Require Import Prelude Externals W3cDid Tx Chain ChainFacts Ipfs IpfsFacts.

Module IpfsProps.
Import W3cDid Tx Chain ChainFacts Ipfs IpfsFacts.

(** The tables of the metadata database do not overlap: keys with different
    prefixes differ, and within a table a key determines the name it was made
    from, or the name and the identifier, whatever separators the name holds. *)
Lemma typedKey_tables `{CidTextLaws} :
  (forall k1 k2 p1 p2, k1 <> k2 -> typedKey k1 p1 <> typedKey k2 p2) /\
  (forall k a b, typedKey k [a] = typedKey k [b] -> a = b) /\
  (forall k a1 a2 c1 c2,
    typedKey k [a1; cid_String c1] = typedKey k [a2; cid_String c2] ->
    a1 = a2 /\ cid_String c1 = cid_String c2).
Proof.
  split_and!; [apply typedKey_prefix|apply typedKey_single|].
  intros k a1 a2 c1 c2. apply typedKey_pair; apply cid_String_nosep.
Qed.

Section Index.
Context `{L : Lib} `{!TxCodec} `{!ChainCodec} `{!RangeOrder} `{!Pebble} `{!Ipfs}.

(** [ApplyTx] always returns: a panic while a transaction is indexed is
    turned into an error, and without error the transaction was one that can be
    indexed, a batch was there to write to, and the batch has exactly the
    entries of the transaction. *)
Lemma ipfs_ApplyTx_total `{!PebbleLaws} ob h id t w :
  exists r w', ipfs_ApplyTx ob h id t w = (Ret r, w') /\
    (indexable t = false -> is_Some r) /\
    (r = None -> exists b, batch_wrote b (tx_writes id t) w w' /\ w_db w' = w_db w).
Proof.
  destruct (ipfs_ApplyTx ob h id t w) as [[r|] w'] eqn:Hr.
  - exists r, w'. split; [done|]. split.
    + intros Hi. destruct r as [e|]; [by eexists|].
      destruct (ipfs_ApplyTx_spec _ _ _ _ _ _ Hr) as (b&_&Hi'&_). congruence.
    + intros ->. destruct (ipfs_ApplyTx_spec _ _ _ _ _ _ Hr) as (b&_&_&Hw).
      exists b. split; [done|]. by destruct Hw as (x&x'&_&->&_).
  - exfalso. unfold ipfs_ApplyTx, grecover in Hr. by repeat case_match.
Qed.

Context `{!PebbleLaws}.

Lemma overlay_union p q m : overlay (p ∪ q) m = overlay p (overlay q m).
Proof.
  apply map_eq. intros k. rewrite !lookup_overlay, lookup_union.
  by destruct (p !! k), (q !! k).
Qed.

(** What a store with a pending batch shows after a write to the batch. *)
Lemma batch_wrote_view b p w w' h m :
  w_stores w !! h = Some {| pfTipApply := Some b |} -> meta_view w h = Some m ->
  batch_wrote b p w w' -> meta_view w' h = Some (overlay p m) /\ w_ipfs w' = w_ipfs w.
Proof.
  unfold meta_view. intros Hs Hm (x&x'&Hx&->&Hv). rewrite Hs in Hm. simpl in *. rewrite Hs. simpl.
  rewrite Hx in Hm. simpl in Hm. injection Hm as <-. rewrite lookup_insert_eq. simpl.
  rewrite Hv, overlay_union. done.
Qed.

(** A lookup depends on one entry of the metadata and on the objects. *)
Lemma LookupDID_frame h did w w' m m' :
  meta_view w h = Some m -> meta_view w' h = Some m' -> w_ipfs w' = w_ipfs w ->
  m' !! typedKey didTPrefix [did] = m !! typedKey didTPrefix [did] ->
  ipfs_LookupDID h did w' = ((ipfs_LookupDID h did w).1, w').
Proof.
  intros Hm Hm' Hn He. unfold ipfs_LookupDID, ipfs_GetTx. go_unfold.
  rewrite (metadataGet_run _ _ _ _ Hm), (metadataGet_run _ _ _ _ Hm'), He. simpl.
  repeat (case_match; simplify_eq/=; rewrite ?Hn in *); done.
Qed.

Lemma LookupDID_found h did w m id t doc `{!CidLaws} :
  meta_view w h = Some m -> m !! typedKey didTPrefix [did] = Some (cid_Bytes id) ->
  id <> cid_Undef -> ipfs_read_tx (w_ipfs w) id = Ok t -> tx_Type t = TxType_DID ->
  tx_Data t = DataDID {| did_Document := doc |} ->
  ipfs_LookupDID h did w = (Ret (Ok doc), w).
Proof.
  intros Hm Hk Hid Ht Hty Hd. unfold ipfs_LookupDID, ipfs_GetTx. go_unfold.
  rewrite (metadataGet_run _ _ _ _ Hm), Hk. simpl. rewrite cid_Cast_Bytes by done. simpl.
  rewrite Ht. simpl. by rewrite Hty, Hd.
Qed.

Lemma Node_found h nid w m id t n `{!CidLaws} :
  meta_view w h = Some m -> m !! typedKey nodesTPrefix [nid] = Some (cid_Bytes id) ->
  id <> cid_Undef -> ipfs_read_tx (w_ipfs w) id = Ok t -> tx_Type t = TxType_Node ->
  tx_Action t = TxActionAdd -> tx_Data t = DataNode n ->
  ipfs_Node h nid w = (Ret (Ok (Some n)), w).
Proof.
  intros Hm Hk Hid Ht Hty Ha Hd. unfold ipfs_Node, ipfs_GetTx. go_unfold.
  rewrite (metadataGet_run _ _ _ _ Hm), Hk. simpl. rewrite cid_Cast_Bytes by done. simpl.
  rewrite Ht. simpl. by rewrite Hty, Ha, Hd.
Qed.

Lemma overlay_other p m k : p !! k = None -> overlay p m !! k = m !! k.
Proof. intros Hk. by rewrite lookup_overlay, Hk. Qed.

Lemma tx_writes_did id t did :
  (forall doc, tx_Data t = DataDID {| did_Document := Some doc |} -> doc_ID doc <> did) ->
  tx_writes id t !! typedKey didTPrefix [did] = None.
Proof.
  intros Hd. unfold tx_writes. destruct (tx_Data t) as [|[[doc|]]|n|r|r]; try apply lookup_empty.
  - rewrite lookup_insert_ne, lookup_singleton_ne; [done|by apply typedKey_prefix|].
    intros He%typedKey_single. by eapply Hd.
  - rewrite lookup_singleton_ne; [done|]. by apply typedKey_prefix.
Qed.

Lemma tx_writes_node id t nid :
  (forall n, tx_Data t = DataNode n -> node_Id n <> nid) ->
  tx_writes id t !! typedKey nodesTPrefix [nid] = None.
Proof.
  intros Hd. unfold tx_writes. destruct (tx_Data t) as [|[[doc|]]|n|r|r]; try apply lookup_empty.
  - rewrite lookup_insert_ne, lookup_singleton_ne; [done|by apply typedKey_prefix..].
  - rewrite lookup_singleton_ne; [done|]. intros He%typedKey_single. by eapply Hd.
Qed.

(** A write to the metadata of a store is seen by the store. *)
Lemma metadataSet_view h k v m w w' :
  meta_view w h = Some m -> metadataSet h k v w = (Ret None, w') ->
  meta_view w' h = Some (<[k := v]> m) /\ w_ipfs w' = w_ipfs w /\ w_stores w' = w_stores w.
Proof.
  unfold metadataSet, self. intros Hm Hr. destruct (w_stores w !! h) as [[[b|]]|] eqn:Hs;
    unfold mbind, GoM_bind, gget, gsome in Hr; rewrite Hs in Hr; simpl in Hr; [| |done].
  - apply on_batch_set in Hr. destruct (batch_wrote_view _ _ _ _ _ _ Hs Hm Hr) as [-> Hn].
    split_and!; [f_equal|done|by destruct Hr as (?&?&_&->&_)].
    apply map_eq. intros k'. rewrite lookup_overlay. destruct (decide (k = k')) as [->|].
    + by rewrite lookup_singleton_eq, lookup_insert_eq.
    + by rewrite lookup_singleton_ne, lookup_insert_ne.
  - unfold on_db in Hr. destruct (db_Set k v (w_db w)) as [e d] eqn:Hd. injection Hr as -> <-.
    unfold meta_view in *. simpl. rewrite Hs in *. simpl in *. injection Hm as <-.
    by rewrite (db_Set_view _ _ _ _ Hd).
Qed.

(** [UpdateLastApplied] stores the text of the identifier where
    [GetLastApplied] expects its bytes: after an update that succeeded, the last
    applied block cannot be read, whichever block it is. *)
Lemma ipfs_UpdateLastApplied_lost `{!CidLaws} h id m w w' :
  meta_view w h = Some m -> ipfs_UpdateLastApplied h id w = (Ret None, w') ->
  exists e, ipfs_GetLastApplied h w' = (Ret (Err (errorsWrap e "casting block ref")), w').
Proof.
  intros Hm Hr. unfold ipfs_UpdateLastApplied, gwrap_e, mbind, GoM_bind in Hr.
  destruct (metadataSet h _ _ w) as [[[e|]|] w1] eqn:Hset; try done. injection Hr as <-.
  destruct (metadataSet_view _ _ _ _ _ _ Hm Hset) as (Hm'&_&_).
  pose proof (cid_Cast_text id) as Hcast. unfold ipfs_GetLastApplied. go_unfold.
  rewrite (metadataGet_run _ _ _ _ Hm'), lookup_insert_eq. simpl.
  destruct (cid_Cast _) as [c|e]; [done|]. by exists e.
Qed.

(** The keys an iterator over the table of nodes meets. *)
Lemma nodes_range k :
  bytes_leb [nodesTPrefix] k = true -> bytes_leb [x07] k = false -> k = nodesTPrefix :: drop 1 k.
Proof. destruct k as [|x k]; [done|]. destruct x; simpl; done. Qed.

Definition node_of_key (k : bytes) : string := string_of_bytes (drop 1 k).

Lemma node_of_key_sorted l :
  StronglySorted (fun a b => bytes_leb a b = true) l ->
  Forall (fun k => k = nodesTPrefix :: drop 1 k) l ->
  StronglySorted string_le (node_of_key <$> l).
Proof.
  induction 1 as [|k l Hl IH Hk]; intros Hkey; simpl; [constructor|].
  apply Forall_cons_1 in Hkey as [Hk0 Hkey]. constructor; [by apply IH|].
  apply Forall_fmap. rewrite Forall_forall in *. intros k' Hk'. specialize (Hk k' Hk').
  specialize (Hkey k' Hk'). unfold string_le, node_of_key. simpl.
  rewrite !bytes_of_string_of_bytes. rewrite Hk0, Hkey in Hk. simpl in Hk. exact Hk.
Qed.

Lemma node_of_key_inj k1 k2 :
  k1 = nodesTPrefix :: drop 1 k1 -> k2 = nodesTPrefix :: drop 1 k2 ->
  node_of_key k1 = node_of_key k2 -> k1 = k2.
Proof.
  intros H1' H2' He. unfold node_of_key in He. apply (f_equal bytes_of_string) in He.
  rewrite !bytes_of_string_of_bytes in He. congruence.
Qed.

(** [Nodes] lists the identifiers of the table of nodes in byte order, each
    once: what every member takes the proposer of a beacon from does not depend
    on the order the nodes were registered in. *)
Lemma ipfs_Nodes_sorted h m w :
  meta_view w h = Some m ->
  exists l, ipfs_Nodes h w = (Ret (Ok l), w) /\ StronglySorted string_le l /\ NoDup l /\
    forall n, n ∈ l <-> is_Some (m !! typedKey nodesTPrefix [n]).
Proof.
  intros Hm. destruct (metadataNewIter_run _ _ _ [nodesTPrefix] [x07] Hm) as (kvs&Hkvs&Hsort&Hnd&Hin).
  assert (Forall (fun k => k = nodesTPrefix :: drop 1 k) kvs.*1) as Hkey.
  { apply Forall_fmap, list.Forall_forall. intros [k v] Hk. apply Hin in Hk as (_&Hlo&Hhi).
    by apply nodes_range. }
  exists (node_of_key <$> kvs.*1). split_and!.
  - unfold ipfs_Nodes. go_unfold. rewrite Hkvs. by rewrite <- list_fmap_compose.
  - by apply node_of_key_sorted.
  - rewrite list.Forall_forall in Hkey. apply NoDup_fmap_2_strong; [|done].
    intros k1 k2 H1' H2'. apply node_of_key_inj; by apply Hkey.
  - rewrite list.Forall_forall in Hkey. intros n. rewrite list_elem_of_fmap, typedKey_joined. simpl. split.
    + intros (k&->&Hk). unfold node_of_key. rewrite bytes_of_string_of_bytes, <- (Hkey k Hk).
      apply list_elem_of_fmap in Hk as ([k' v]&->&Hk). apply Hin in Hk as (Hk&_). by eexists.
    + intros [v Hv]. exists (nodesTPrefix :: bytes_of_string n). unfold node_of_key. simpl.
      split; [by rewrite drop_0, string_of_bytes_of_string|]. apply list_elem_of_fmap.
      exists (nodesTPrefix :: bytes_of_string n, v). split; [done|]. apply Hin. by split_and!.
Qed.
End Index.
End IpfsProps.
