(* ===== verification/IpfsBlocks.v ===== *)
(** * Blocks of the persistent store: scratch stores, acceptance, genesis *)

From S2P Require Import Prelude Externals W3cDid Tx Chain ChainFacts Ipfs IpfsFacts IpfsProps.

Module IpfsBlocks.
Import W3cDid Tx Chain ChainFacts Ipfs IpfsFacts IpfsProps.

(** ** Scratch stores *)

Section Scratch.
Context `{L : Lib} `{!TxCodec} `{!ChainCodec} `{!RangeOrder} `{!Pebble} `{!Ipfs}.

(** The database and the stores are as they were. *)
Definition untouched (d : DB) (st : gmap nat IPFSStorage) (w : World) : Prop :=
  w_db w = d /\ w_stores w = st.

Section Untouched.
Context (d : DB) (st : gmap nat IPFSStorage).
Notation I := (untouched d st).

Lemma untouched_ipfs {A} (f : IPFS -> A * IPFS) : preserves I (on_ipfs f).
Proof. intros w [??]. unfold on_ipfs. by destruct (f (w_ipfs w)). Qed.

Lemma untouched_get_batch b : preserves I (get_batch b).
Proof. unfold get_batch. preserves_walk fail. Qed.

Lemma untouched_on_batch b f : preserves I (on_batch b f).
Proof. unfold on_batch. preserves_walk ltac:(apply untouched_get_batch). Qed.

Lemma untouched_new_batch x : preserves I (new_batch x).
Proof. unfold new_batch. preserves_walk fail. Qed.

Lemma untouched_close_batch b : preserves I (close_batch b).
Proof. unfold close_batch. preserves_walk ltac:(apply untouched_get_batch). Qed.

Lemma untouched_Flip : preserves I Flip.
Proof. unfold Flip. preserves_walk fail. Qed.

(** The receiver is the one the heap has. *)
Lemma untouched_self {A} h (k : IPFSStorage -> GoM World A) :
  (forall s, st !! h = Some s -> preserves I (k s)) -> preserves I (s ← self h; k s).
Proof.
  intros Hk w Hw. unfold self. go_unfold. destruct Hw as [Hd Hst]. rewrite Hst.
  destruct (st !! h) as [s|] eqn:Hs; [|by split]. by apply Hk.
Qed.

Lemma untouched_receiver h : preserves I (self h).
Proof. unfold self. preserves_walk fail. Qed.
End Untouched.

Create HintDb scratch.
#[local] Hint Resolve untouched_ipfs untouched_get_batch untouched_on_batch
  untouched_new_batch untouched_close_batch untouched_Flip untouched_receiver : scratch.

Ltac scratch :=
  preserves_walk ltac:(first [ solve [eauto with scratch] | apply preserves_for_e ]).

Lemma untouched_ApplyTx d st ob h id t : preserves (untouched d st) (ipfs_ApplyTx ob h id t).
Proof.
  assert (forall A (m : GoM World A) a, preserves (untouched d st) m ->
    preserves (untouched d st) (grecover m a)) as Hrec.
  { intros A m a Hm w Hw. specialize (Hm w Hw). unfold grecover. by destruct (m w) as [[]]. }
  unfold ipfs_ApplyTx, indexTxNode, indexTxDID, indexTxVC. apply Hrec. scratch.
Qed.
#[local] Hint Resolve untouched_ApplyTx : scratch.

(** Reads change nothing. *)
Lemma untouched_metadataGet d st h k : preserves (untouched d st) (metadataGet h k).
Proof. unfold metadataGet. scratch. Qed.

Lemma untouched_PutTx d st t : preserves (untouched d st) (ipfs_PutTx t).
Proof. unfold ipfs_PutTx, putRaw. scratch. Qed.

Lemma untouched_PutBlock d st b : preserves (untouched d st) (ipfs_PutBlock b).
Proof. unfold ipfs_PutBlock, putRaw. scratch. Qed.

Lemma untouched_PutSet d st s : preserves (untouched d st) (ipfs_PutSet s).
Proof.
  unfold ipfs_PutSet, putRaw, gcheck. scratch.
Qed.

Lemma untouched_index_one d st h b bId ct : preserves (untouched d st) (index_one h b bId ct).
Proof. unfold index_one. scratch. Qed.

Lemma untouched_NewIter d st h lo hi : preserves (untouched d st) (metadataNewIter h lo hi).
Proof. unfold metadataNewIter. scratch. Qed.
#[local] Hint Resolve untouched_metadataGet untouched_index_one untouched_NewIter : scratch.

Section Scratch_store.
Context (d : DB) (st : gmap nat IPFSStorage) (h b : nat).
Context (Hscratch : st !! h = Some {| pfTipApply := Some b |}).

(** The receiver has a batch. *)
Ltac receiver :=
  lazymatch goal with
  | |- preserves _ (mbind _ (self h)) =>
      apply untouched_self; rewrite Hscratch; intros ? [= <-]; cbn [pfTipApply]
  end.
Ltac scratch_walk :=
  repeat first [receiver | preserves_step ltac:(first [ solve [eauto with scratch] | apply preserves_for_e ])].

Lemma scratch_metadataSet k v : preserves (untouched d st) (metadataSet h k v).
Proof. unfold metadataSet. scratch_walk. Qed.

Lemma scratch_indexBlock bId : preserves (untouched d st) (indexBlock h bId).
Proof. unfold indexBlock, ipfs_GetBlock, ipfs_AllTx. scratch_walk. Qed.
#[local] Hint Resolve scratch_metadataSet scratch_indexBlock : scratch.

Lemma scratch_MarkBlock id s : preserves (untouched d st) (ipfs_MarkBlock h id s).
Proof. unfold ipfs_MarkBlock. scratch. Qed.

Lemma scratch_UpdateLastApplied id : preserves (untouched d st) (ipfs_UpdateLastApplied h id).
Proof. unfold ipfs_UpdateLastApplied. scratch. Qed.

(** A test cannot be started on a scratch store. *)
Lemma scratch_StartTest : preserves (untouched d st) (ipfs_StartTest h).
Proof. unfold ipfs_StartTest. scratch_walk. Qed.
End Scratch_store.

(** The operations of the interface [Store] on a scratch store while the test
    runs.  Three are left out, because they do not stop at the batch:
    [CompleteTest], after which the store writes the database, [ApplyGenesis],
    which commits a batch of its own, and [Stop], which closes the database. *)
Inductive scratch_op :=
| DoPutTx (t : Tx)
| DoGetTx (id : TxID)
| DoPutBlock (b : Block)
| DoGetBlock (id : BlockID)
| DoAllTx (b : Block)
| DoPutSet (s : TxSet)
| DoGetSet (c : Cid)
| DoGetTxBlock (id : TxID)
| DoMarkBlock (id : BlockID) (state : Z)
| DoUpdateLastApplied (id : BlockID)
| DoGetLastApplied
| DoLookupDID (did : string)
| DoDIDHistory (did : string)
| DoClaims (did : string)
| DoNodes
| DoNode (nid : string)
| DoHasGenesisApplied
| DoApplyTx (id : TxID) (t : Tx)
| DoStartTest.

Definition run_scratch_op (h : nat) (op : scratch_op) : GoM World unit :=
  match op with
  | DoPutTx t => _ ← PutTx h t; mret tt
  | DoGetTx id => _ ← GetTx h id; mret tt
  | DoPutBlock b => _ ← PutBlock h b; mret tt
  | DoGetBlock id => _ ← GetBlock h id; mret tt
  | DoAllTx b => _ ← AllTx h b; mret tt
  | DoPutSet s => _ ← PutSet h s; mret tt
  | DoGetSet c => _ ← GetSet h c; mret tt
  | DoGetTxBlock id => _ ← GetTxBlock h id; mret tt
  | DoMarkBlock id state => _ ← MarkBlock h id state; mret tt
  | DoUpdateLastApplied id => _ ← UpdateLastApplied h id; mret tt
  | DoGetLastApplied => _ ← GetLastApplied h; mret tt
  | DoLookupDID did => _ ← LookupDID h did; mret tt
  | DoDIDHistory did => _ ← DIDHistory h did; mret tt
  | DoClaims did => _ ← Claims h did; mret tt
  | DoNodes => _ ← Nodes h; mret tt
  | DoNode nid => _ ← Node_ h nid; mret tt
  | DoHasGenesisApplied => _ ← HasGenesisApplied h; mret tt
  | DoApplyTx id t => _ ← ApplyTx h id t; mret tt
  | DoStartTest => _ ← StartTest h; mret tt
  end.

Fixpoint run_scratch (h : nat) (ops : list scratch_op) : GoM World unit :=
  match ops with [] => mret tt | op :: ops => run_scratch_op h op;; run_scratch h ops end.

Lemma untouched_run_scratch d st h b ops :
  st !! h = Some {| pfTipApply := Some b |} -> preserves (untouched d st) (run_scratch h ops).
Proof.
  intros Hs. induction ops as [|op ops IH]; simpl; [apply preserves_ret|].
  apply preserves_bind; [|done].
  destruct op; (apply preserves_bind; [|intros; apply preserves_ret]); simpl.
  - apply (untouched_PutTx d st).
  - unfold ipfs_GetTx. scratch.
  - apply (untouched_PutBlock d st).
  - unfold ipfs_GetBlock. scratch.
  - unfold ipfs_AllTx. scratch.
  - apply (untouched_PutSet d st).
  - unfold ipfs_GetSet. scratch.
  - unfold ipfs_GetTxBlock, ipfs_GetBlock. scratch.
  - by eapply (scratch_MarkBlock d st).
  - by eapply (scratch_UpdateLastApplied d st).
  - unfold ipfs_GetLastApplied, ipfs_GetBlock. scratch.
  - unfold ipfs_LookupDID, ipfs_GetTx. scratch.
  - unfold ipfs_DIDHistory. scratch.
  - unfold ipfs_Claims. scratch.
  - unfold ipfs_Nodes. scratch.
  - unfold ipfs_Node, ipfs_GetTx. scratch.
  - unfold ipfs_HasGenesisApplied. scratch.
  - apply (untouched_ApplyTx d st None).
  - by eapply (scratch_StartTest d st).
Qed.

Lemma StartTest_run h w :
  persistent w h ->
  exists sc b, ipfs_StartTest h w = (Ret (Ok sc),
      set_stores (<[sc := {| pfTipApply := Some b |}]> (w_stores w))
        (set_batches (<[b := db_NewIndexedBatch]> (w_batches w)) w)) /\
    w_stores w !! sc = None /\ w_batches w !! b = None.
Proof.
  intros Hp. exists (fresh (dom (w_stores w))), (fresh (dom (w_batches w))). split_and!.
  - unfold ipfs_StartTest, self, new_batch. go_unfold. by rewrite Hp.
  - apply not_elem_of_dom, is_fresh.
  - apply not_elem_of_dom, is_fresh.
Qed.

(** A new scratch store shows the metadata of the database. *)
Lemma ipfs_scratch_view `{!PebbleLaws} h sc w w1 :
  persistent w h -> ipfs_StartTest h w = (Ret (Ok sc), w1) ->
  meta_view w1 sc = Some (db_view (w_db w)).
Proof.
  intros Hp Hst. destruct (StartTest_run h w Hp) as (sc'&b&Hst'&_&_).
  rewrite Hst' in Hst. injection Hst as -> <-. unfold meta_view. simpl.
  rewrite lookup_insert_eq. simpl. rewrite lookup_insert_eq. simpl. f_equal.
  rewrite db_NewIndexedBatch_view. apply map_eq. intros k. by rewrite lookup_overlay, lookup_empty.
Qed.

(** C19. While a test runs, the scratch store is isolated from the store it was
    started on: it first shows the same metadata, and whatever sequence of the
    operations of the interface is run on it, other than [CompleteTest],
    [ApplyGenesis] and [Stop], also to a panic, the database is not written, so
    that the original store reads every key and lists the nodes as before. *)
Theorem ipfs_scratch_isolated `{!PebbleLaws} h sc ops w w1 :
  persistent w h -> ipfs_StartTest h w = (Ret (Ok sc), w1) ->
  sc <> h /\ meta_view w1 sc = Some (db_view (w_db w)) /\
  let w2 := (run_scratch sc ops w1).2 in
  w_db w2 = w_db w /\
  (forall k, metadataGet h k w2 = (Ret (db_Get (w_db w) k), w2)) /\
  ipfs_Nodes h w2 = ((ipfs_Nodes h w).1, w2).
Proof.
  intros Hp Hst. pose proof (ipfs_scratch_view _ _ _ _ Hp Hst) as Hview.
  destruct (StartTest_run h w Hp) as (sc'&b&Hst'&Hsc&Hb). rewrite Hst' in Hst. injection Hst as -> <-.
  assert (sc <> h) as Hne by (intros ->; by rewrite Hp in Hsc). split; [done|]. split; [done|]. clear Hview.
  set (w1 := set_stores _ _).
  pose proof (untouched_run_scratch (w_db w) (w_stores w1) sc b ops
    ltac:(apply lookup_insert_eq) w1 ltac:(done)) as [Hdb Hstores].
  intros w2. fold w2 in Hdb, Hstores. split; [done|].
  assert (persistent w2 h) as Hp2.
  { unfold persistent. rewrite Hstores. unfold w1. simpl. by rewrite lookup_insert_ne. }
  unfold ipfs_Nodes, metadataNewIter, metadataGet, self. go_unfold. rewrite Hp, Hp2. simpl.
  by rewrite Hdb.
Qed.
End Scratch.

(** ** Accepting a block *)

Section Accept.
Context `{L : Lib} `{!TxCodec} `{!ChainCodec} `{!RangeOrder} `{!Pebble} `{!Ipfs}.
Context `{!PebbleLaws} `{!IpfsLaws}.

(** [w'] is [w] with the writes [p] in the batch [b] and more objects. *)
Definition indexed (b : nat) (p : gmap bytes (option bytes)) (w w' : World) : Prop :=
  w_db w' = w_db w /\ w_stores w' = w_stores w /\ keeps (w_ipfs w) (w_ipfs w') /\
  forall x, w_batches w !! b = Some x ->
    exists x', w_batches w' !! b = Some x' /\ batch_view x' = p ∪ batch_view x.

Lemma indexed_wrote b p w w' : batch_wrote b p w w' -> indexed b p w w'.
Proof.
  intros (x&x'&Hx&->&Hv). split_and!; [done..|apply keeps_refl|]. simpl. rewrite Hx.
  intros ? [= <-]. exists x'. by rewrite lookup_insert_eq.
Qed.

Lemma indexed_none b w w' :
  keeps (w_ipfs w) (w_ipfs w') -> same_meta w w' -> indexed b ∅ w w'.
Proof.
  intros Hk (Hd&Hb&Hs). split_and!; [done..|]. intros x Hx. exists x.
  by rewrite Hb, Hx, (left_id_L ∅ (∪)).
Qed.

Lemma indexed_trans b p q w1 w2 w3 :
  indexed b p w1 w2 -> indexed b q w2 w3 -> indexed b (q ∪ p) w1 w3.
Proof.
  intros (Hd1&Hs1&Hk1&Hb1) (Hd2&Hs2&Hk2&Hb2). split_and!; [congruence..|by eapply keeps_trans|].
  intros x Hx. destruct (Hb1 x Hx) as (x1&Hx1&Hv1). destruct (Hb2 x1 Hx1) as (x2&Hx2&Hv2).
  exists x2. split; [done|]. by rewrite Hv2, Hv1, (assoc_L (∪)).
Qed.

Definition txkey (c : Cid) : bytes := typedKey txBlockTPrefix [cid_String c].
Definition statekey (c : Cid) : bytes := typedKey blockStateTPrefix [cid_String c].

(** What the index of a block writes, transaction by transaction. *)
Definition one_writes (bId : Cid) (ct : Cid * Tx) : gmap bytes (option bytes) :=
  tx_writes ct.1 ct.2 ∪ {[txkey ct.1 := Some (cid_Bytes bId)]}.
Fixpoint block_writes (bId : Cid) (l : list (Cid * Tx)) : gmap bytes (option bytes) :=
  match l with [] => ∅ | ct :: l => block_writes bId l ∪ one_writes bId ct end.

Lemma pin_or_not h c w r w' :
  (s ← self h;
   match pfTipApply s with
   | Some _ => mret None
   | None => pin ← Flip;
       if pin : bool then gwrap_e "pinning block" (on_ipfs (pin_Add c)) else mret None
   end) w = (Ret r, w') -> keeps (w_ipfs w) (w_ipfs w') /\ same_meta w w'.
Proof.
  unfold self, Flip, on_ipfs. go_unfold. destruct (w_stores w !! h) as [[[b|]]|]; [| |done].
  { simpl. intros [= <- <-]. split; [apply keeps_refl|done]. }
  simpl. case_match; simpl.
  - pose proof (keeps_pin c (w_ipfs w)) as Hk. destruct (pin_Add c (w_ipfs w)) as [e n].
    intros [= <- <-]. by split.
  - intros [= <- <-]. split; [apply keeps_refl|done].
Qed.

Lemma index_one_inv h b bId ct w w' :
  index_one h b bId ct w = (Ret None, w') ->
  indexable ct.2 = true /\ indexed b (one_writes bId ct) w w'.
Proof.
  unfold index_one. intros (w1&H1'%wrap_e_inv&Hr)%check_e_inv.
  apply bind_inv in Hr as ([e|]&w2&H2'&Hr).
  { apply bind_inv in Hr as (?&?&_&Hr). done. }
  apply on_batch_set in H1'. destruct (ipfs_ApplyTx_spec _ _ _ _ _ _ H2') as (b'&Hb&Hi&Hw).
  destruct Hb as [[= <-]|[? _]]; [|done]. split; [done|]. apply pin_or_not in Hr as [Hk Hm].
  unfold one_writes. rewrite <- (left_id_L ∅ (∪) (tx_writes _ _ ∪ _)).
  eapply indexed_trans; [|by apply indexed_none].
  eapply indexed_trans; [by apply indexed_wrote|by apply indexed_wrote].
Qed.

Lemma index_loop_inv h b bId l w w' :
  gfor_e l (index_one h b bId) w = (Ret None, w') ->
  Forall (fun ct => indexable ct.2 = true) l /\ indexed b (block_writes bId l) w w'.
Proof.
  revert w. induction l as [|ct l IH]; simpl; intros w.
  { intros [= <-]. split; [constructor|]. apply indexed_none; [apply keeps_refl|done]. }
  intros (w1&H1'&Hr)%check_e_inv. destruct (index_one_inv _ _ _ _ _ _ H1') as [Hi Hx].
  destruct (IH w1 Hr) as [HF Hx']. split; [by constructor|]. by eapply indexed_trans.
Qed.

Lemma block_writes_txkey `{!CidLaws} bId l c :
  block_writes bId l !! txkey c = if decide (c ∈ l.*1) then Some (Some (cid_Bytes bId)) else None.
Proof.
  induction l as [|[c' t] l IH]; [done|]. cbn [block_writes]. rewrite lookup_union, IH.
  assert (one_writes bId (c', t) !! txkey c =
    if decide (c = c') then Some (Some (cid_Bytes bId)) else None) as ->.
  { unfold one_writes. simpl. rewrite lookup_union.
    assert (tx_writes c' t !! txkey c = None) as ->.
    { unfold tx_writes, txkey. destruct (tx_Data t) as [|[[doc|]]|n|r|r]; try apply lookup_empty.
      - rewrite lookup_insert_ne, lookup_singleton_ne; [done|by apply typedKey_prefix..].
      - rewrite lookup_singleton_ne; [done|by apply typedKey_prefix]. }
    rewrite (left_id_L None union). destruct (decide (c = c')) as [->|Hc].
    - by rewrite lookup_singleton_eq.
    - rewrite lookup_singleton_ne; [done|]. unfold txkey.
      intros He%typedKey_single. apply (inj cid_String) in He. congruence. }
  clear IH. rewrite fmap_cons. simpl. repeat case_decide; try done; set_solver.
Qed.

Lemma block_writes_other k p bId l :
  k <> txBlockTPrefix -> k <> didTPrefix -> k <> didHisoryTPrefix -> k <> nodesTPrefix ->
  block_writes bId l !! typedKey k p = None.
Proof.
  intros Hk1 Hk2 Hk3 Hk4. induction l as [|[c t] l IH]; [done|]. cbn [block_writes].
  rewrite lookup_union, IH. unfold one_writes. rewrite lookup_union. simpl.
  rewrite (lookup_singleton_ne (txkey c)) by (apply typedKey_prefix; congruence).
  unfold tx_writes. destruct (tx_Data t) as [|[[doc|]]|n|r|r]; rewrite ?lookup_empty; try done.
  - rewrite lookup_insert_ne, lookup_singleton_ne; [done|apply typedKey_prefix; congruence..].
  - rewrite lookup_singleton_ne; [done|apply typedKey_prefix; congruence].
Qed.

Lemma pin_run c w r w' :
  on_ipfs (pin_Add c) w = (Ret r, w') -> keeps (w_ipfs w) (w_ipfs w') /\ same_meta w w'.
Proof.
  unfold on_ipfs. pose proof (keeps_pin c (w_ipfs w)) as Hk.
  destruct (pin_Add c (w_ipfs w)) as [e n]. intros [= <- <-]. by split.
Qed.

Lemma self_run h w s : w_stores w !! h = Some s -> self h w = (Ret s, w).
Proof. unfold self. go_unfold. by intros ->. Qed.

Lemma self_bind {A} h w s (k : IPFSStorage -> GoM World A) :
  w_stores w !! h = Some s -> (s ← self h; k s) w = k s w.
Proof. intros Hs. unfold mbind, GoM_bind. by rewrite (self_run h w s Hs). Qed.

Lemma new_batch_run x w :
  new_batch x w = (Ret (fresh (dom (w_batches w))),
    set_batches (<[fresh (dom (w_batches w)) := x]> (w_batches w)) w).
Proof. done. Qed.

Lemma get_batch_run b w x : w_batches w !! b = Some x -> get_batch b w = (Ret x, w).
Proof. unfold get_batch. go_unfold. by intros ->. Qed.

(** A block indexed on the database: its transactions can all be indexed, and
    the database has their writes. *)
Lemma indexBlock_inv h id w w' :
  persistent w h -> indexBlock h id w = (Ret None, w') ->
  exists blk txs, ipfs_read_block (w_ipfs w) id = Ok blk /\
    ipfs_AllTx blk w = (Ret (Ok txs), w) /\
    Forall (fun ct => indexable ct.2 = true) (map_range txs) /\
    db_view (w_db w') = overlay (block_writes id (map_range txs)) (db_view (w_db w)) /\
    w_stores w' = w_stores w /\ keeps (w_ipfs w) (w_ipfs w').
Proof.
  unfold indexBlock. intros Hp (blk&w0&Hblk%wrap_inv&Hr)%try_e_inv. injection Hblk as Hblk <-.
  apply try_e_inv in Hr as (txs&w0&Htxs%wrap_inv&Hr).
  destruct (ipfs_AllTx_run blk w) as (r&Hrun&_). rewrite Hrun in Htxs. injection Htxs as -> <-.
  exists blk, txs. split; [done|]. split; [done|].
  apply check_e_inv in Hr as (w1&[Hk1 (Hd1&Hb1&Hs1)]%wrap_e_inv%pin_run&Hr).
  assert (w_stores w1 !! h = Some {| pfTipApply := None |}) as Hp1 by by rewrite Hs1.
  rewrite (self_bind _ _ _ _ Hp1) in Hr. simpl in Hr.
  apply bind_inv in Hr as (b&w2&Hnew&Hr). rewrite new_batch_run in Hnew. injection Hnew as <- <-.
  set (b := fresh (dom (w_batches w1))) in *. set (w2 := set_batches _ w1) in *.
  apply check_e_inv in Hr as (w3&Hloop&Hr).
  destruct (index_loop_inv _ _ _ _ _ _ Hloop) as [HF (Hd3&Hs3&Hk3&Hb3)]. split; [done|].
  destruct (Hb3 db_NewBatch) as (x&Hx&Hv); [apply lookup_insert_eq|].
  assert (w_stores w3 !! h = Some {| pfTipApply := None |}) as Hp3 by by rewrite Hs3.
  rewrite (self_bind _ _ _ _ Hp3) in Hr. simpl in Hr.
  apply bind_inv in Hr as (x'&w4&Hget&Hr). rewrite (get_batch_run _ _ _ Hx) in Hget.
  injection Hget as <- <-. apply wrap_e_inv in Hr. unfold on_db in Hr.
  destruct (batch_Commit x (w_db w3)) as [e d] eqn:Hc. injection Hr as -> <-. simpl. split_and!.
  - rewrite (batch_Commit_view _ _ _ Hc), Hv, db_NewBatch_view, (right_id_L ∅ (∪)).
    rewrite Hd3. simpl. by rewrite Hd1.
  - by rewrite Hs3.
  - by eapply keeps_trans.
Qed.

Lemma AllTx_ipfs b w w1 : w_ipfs w1 = w_ipfs w -> ipfs_AllTx b w1 = ((ipfs_AllTx b w).1, w1).
Proof. unfold ipfs_AllTx. go_unfold. intros ->. by destruct (walk _ _ _ _ _ _). Qed.

Definition latestkey : bytes := typedKey latestBlockTPrefix [].

(** The block state a store has recorded, 0 if none. *)
Definition state_of (m : gmap bytes bytes) (id : Cid) : option Z :=
  match m !! statekey id with Some d => Uint32 d | None => Some BlockStateUnvalidated end.

(** Marking a block as accepted: the state is written first; the index follows
    if the block was validated. *)
Lemma MarkBlock_accept_inv h id m w r w' :
  meta_view w h = Some m -> ipfs_MarkBlock h id BlockStateAccepted w = (Ret r, w') ->
  exists w1, w_ipfs w1 = w_ipfs w /\
    ((metadataSet h (statekey id) (PutUint32 (u32 BlockStateAccepted)) w = (Ret None, w1) /\
      if bool_decide (state_of m id = Some BlockStateValidated) then
        gcheck_e (gwrap_e "indexing block" (indexBlock h id))
          (gwrap_e "setting block as last prefix" (metadataSet h latestkey (cid_Bytes id))) w1
          = (Ret r, w')
      else r = None /\ w' = w1) \/
     (exists e, metadataSet h (statekey id) (PutUint32 (u32 BlockStateAccepted)) w = (Ret (Some e), w') /\
       is_Some r /\ w1 = w)).
Proof.
  intros Hm. unfold ipfs_MarkBlock, state_of. fold (statekey id). fold latestkey.
  intros (g&w0&Hget&Hr)%bind_inv. rewrite (metadataGet_run _ _ _ _ Hm) in Hget.
  injection Hget as <- <-.
  assert (exists d, match m !! statekey id with Some d => Uint32 d | None => Some BlockStateUnvalidated end = Uint32 d /\
    gtry_e (mret (Ok d)) (fun cStateB => cState ← gsome (Uint32 cStateB);
      gcheck_e (gwrap_e "setting block state"
        (metadataSet h (statekey id) (PutUint32 (u32 BlockStateAccepted)))) (
      if bool_decide (cState = BlockStateValidated) && bool_decide (BlockStateAccepted = BlockStateAccepted)
      then gcheck_e (gwrap_e "indexing block" (indexBlock h id))
        (gwrap_e "setting block as last prefix" (metadataSet h latestkey (cid_Bytes id)))
      else mret None)) w = (Ret r, w')) as (d&->&Hr').
  { destruct (m !! statekey id) as [d|]; simpl in Hr; [by exists d|].
    rewrite bool_decide_eq_true_2 in Hr by done. by exists [x00; x00; x00; x00]. }
  clear Hr. apply bind_inv in Hr' as (d'&w0&Hd&Hr). injection Hd as <- <-.
  apply bind_inv in Hr as (st&w0&Hst&Hr). destruct (Uint32 d) as [st'|]; [|done].
  injection Hst as -> <-. apply bind_inv in Hr as (e&w1&Hset&Hr).
  apply bind_inv in Hset as (e'&w1'&Hset&He). injection He as <- <-.
  destruct e' as [e'|]; simpl in Hr.
  - injection Hr as <- <-. exists w. split; [done|]. right. eauto.
  - destruct (metadataSet_view _ _ _ _ _ _ Hm Hset) as (Hm1&Hn1&Hs1).
    exists w1'. split; [done|]. left. split; [done|].
    rewrite (bool_decide_ext (Some st = Some BlockStateValidated) (st = BlockStateValidated)) by naive_solver.
    case_bool_decide; [done|]. by injection Hr as <- <-.
Qed.

(** C16. Accepting a validated block indexes it: every transaction of the block is
    then found in it, it is the last applied block, and the entries of other
    transactions are unchanged. *)
Theorem ipfs_MarkBlock_accept `{!CidLaws} h id blk txs w w' :
  persistent w h -> state_of (db_view (w_db w)) id = Some BlockStateValidated ->
  id <> cid_Undef -> ipfs_read_block (w_ipfs w) id = Ok blk ->
  ipfs_AllTx blk w = (Ret (Ok txs), w) ->
  ipfs_MarkBlock h id BlockStateAccepted w = (Ret None, w') ->
  (forall c, c ∈ dom txs -> ipfs_GetTxBlock h c w' = (Ret (Ok blk), w')) /\
  ipfs_GetLastApplied h w' = (Ret (Ok (Some blk)), w') /\
  (forall c, c ∉ dom txs -> db_view (w_db w') !! txkey c = db_view (w_db w) !! txkey c).
Proof.
  intros Hp Hst Hid Hblk Htxs Hr. pose proof (persistent_view _ _ Hp) as Hm.
  destruct (MarkBlock_accept_inv _ _ _ _ _ _ Hm Hr) as (w1&Hn1&[[Hset Hrest]|(e&_&[? ?]&_)]); [|done].
  rewrite bool_decide_eq_true_2 in Hrest by done.
  destruct (metadataSet_view _ _ _ _ _ _ Hm Hset) as (Hm1&_&Hs1).
  assert (persistent w1 h) as Hp1 by (unfold persistent; by rewrite Hs1).
  apply check_e_inv in Hrest as (w2&Hidx%wrap_e_inv&Hlast%wrap_e_inv).
  destruct (indexBlock_inv _ _ _ _ Hp1 Hidx) as (blk'&txs'&Hblk'&Htxs'&_&Hdb&Hs2&Hk).
  rewrite Hn1, Hblk in Hblk'. injection Hblk' as <-.
  rewrite (AllTx_ipfs blk w w1 Hn1), Htxs in Htxs'. injection Htxs' as <-.
  assert (persistent w2 h) as Hp2 by (unfold persistent; by rewrite Hs2).
  destruct (metadataSet_view _ _ _ _ _ _ (persistent_view _ _ Hp2) Hlast) as (Hm'&Hn'&Hs').
  assert (ipfs_read_block (w_ipfs w') id = Ok blk) as Hread.
  { rewrite Hn'. rewrite (keeps_block _ _ _ Hk); rewrite Hn1; by rewrite Hblk. }
  rewrite (persistent_view _ _ Hp1) in Hm1. injection Hm1 as Hm1. rewrite Hdb, Hm1 in Hm'.
  assert (forall c, latestkey <> txkey c) as Hlt by (intros c; by apply typedKey_prefix).
  assert (forall c, statekey id <> txkey c) as Hstt by (intros c; by apply typedKey_prefix).
  split_and!.
  - intros c Hc. unfold ipfs_GetTxBlock, ipfs_GetBlock. fold (txkey c). go_unfold.
    rewrite (metadataGet_run _ _ _ _ Hm'), lookup_insert_ne, lookup_overlay, block_writes_txkey by done.
    rewrite decide_True by by apply elem_of_map_range_fst. simpl.
    rewrite cid_Cast_Bytes by done. simpl. by rewrite Hread.
  - unfold ipfs_GetLastApplied, ipfs_GetBlock. fold latestkey. go_unfold.
    rewrite (metadataGet_run _ _ _ _ Hm'), lookup_insert_eq. simpl.
    rewrite cid_Cast_Bytes by done. simpl. by rewrite Hread.
  - intros c Hc. assert (persistent w' h) as Hp' by (unfold persistent; by rewrite Hs').
    rewrite (persistent_view _ _ Hp') in Hm'. injection Hm' as ->.
    rewrite lookup_insert_ne, lookup_overlay, block_writes_txkey by done.
    rewrite decide_False by by rewrite elem_of_map_range_fst. by rewrite lookup_insert_ne.
Qed.

(** The contents of the database and the stores are as they were. *)
Definition viewed (D : gmap bytes bytes) (st : gmap nat IPFSStorage) (w : World) : Prop :=
  db_view (w_db w) = D /\ w_stores w = st.

Lemma viewed_preserves {A} D st (m : GoM World A) :
  (forall d, preserves (untouched d st) m) -> preserves (viewed D st) m.
Proof. intros Hm w [Hd Hs]. destruct (Hm (w_db w) w) as [Hd' Hs']; [done|]. split; [by rewrite Hd'|done]. Qed.

Lemma viewed_commit D st x : err_keeps (viewed D st) (on_db (batch_Commit x)).
Proof.
  intros r w w' [Hd Hs]. unfold on_db. destruct (batch_Commit x (w_db w)) as [[e|] d] eqn:Hc;
    intros [= <- <-] Hr; [|done]. split; [|done]. simpl. by rewrite (batch_Commit_atomic _ _ _ _ Hc).
Qed.

Lemma viewed_db_set k v D st : err_keeps (viewed D st) (on_db (db_Set k v)).
Proof.
  intros r w w' [Hd Hs]. unfold on_db. destruct (db_Set k v (w_db w)) as [[e|] d] eqn:Hc;
    intros [= <- <-] Hr; [|done]. split; [|done]. simpl. by rewrite (db_Set_atomic _ _ _ _ _ Hc).
Qed.

Lemma viewed_set h k v D st : err_keeps (viewed D st) (metadataSet h k v).
Proof.
  apply err_keeps_bind; [apply viewed_preserves; intros; apply untouched_receiver|].
  intros s. destruct (pfTipApply s) as [b|]; [|apply viewed_db_set].
  apply err_keeps_preserves, viewed_preserves. intros. apply untouched_on_batch.
Qed.

Lemma viewed_indexBlock h id D st : err_keeps (viewed D st) (indexBlock h id).
Proof.
  unfold indexBlock.
  apply err_keeps_try_e; [apply preserves_wrap, preserves_gets|intros blk].
  apply err_keeps_try_e.
  { apply preserves_wrap, preserves_bind; [apply preserves_gets|intros; apply preserves_some]. }
  intros txs. apply err_keeps_check_e.
  { apply preserves_wrap_e, viewed_preserves. intros. apply untouched_ipfs. }
  assert (forall h', preserves (viewed D st) (self h')) as Hself.
  { intros. apply viewed_preserves. intros. apply untouched_receiver. }
  apply err_keeps_bind; [done|intros s]. apply err_keeps_bind.
  { destruct (pfTipApply s); [apply preserves_ret|]. apply viewed_preserves. intros. apply untouched_new_batch. }
  intros b. apply err_keeps_check_e.
  { apply preserves_for_e. intros ct. apply viewed_preserves. intros. apply untouched_index_one. }
  apply err_keeps_bind; [done|intros s']. destruct (pfTipApply s').
  { apply err_keeps_preserves, preserves_ret. }
  apply err_keeps_bind; [apply viewed_preserves; intros; apply untouched_get_batch|].
  intros x. apply err_keeps_wrap_e, viewed_commit.
Qed.

Lemma indexBlock_credential h id blk txs c t w :
  persistent w h -> ipfs_read_block (w_ipfs w) id = Ok blk ->
  ipfs_AllTx blk w = (Ret (Ok txs), w) -> txs !! c = Some t -> tx_Type t = TxType_VC ->
  forall r w', indexBlock h id w = (Ret r, w') ->
    is_Some r /\ viewed (db_view (w_db w)) (w_stores w) w'.
Proof.
  intros Hp Hblk Htxs Hc Ht r w' Hr. destruct r as [e|].
  { split; [by eexists|]. by eapply viewed_indexBlock; [|exact Hr|]. }
  exfalso. destruct (indexBlock_inv _ _ _ _ Hp Hr) as (blk'&txs'&Hblk'&Htxs'&HF&_).
  rewrite Hblk in Hblk'. injection Hblk' as <-. rewrite Htxs in Htxs'. injection Htxs' as <-.
  rewrite list.Forall_forall in HF. specialize (HF (c, t)). simpl in HF.
  rewrite elem_of_map_range in HF. specialize (HF Hc). unfold indexable in HF.
  rewrite Ht in HF. by destruct (tx_Data t) as [|[[]]| | |].
Qed.

(** A validated block that holds a credential is never indexed, although the
    validator accepts every credential: marking it as accepted fails, its state
    is recorded as accepted nevertheless, and marking it again changes nothing
    but that state. *)
Lemma credential_block_unindexed h id blk txs c t w r w' :
  persistent w h -> state_of (db_view (w_db w)) id = Some BlockStateValidated ->
  ipfs_read_block (w_ipfs w) id = Ok blk -> ipfs_AllTx blk w = (Ret (Ok txs), w) ->
  txs !! c = Some t -> tx_Type t = TxType_VC ->
  ipfs_MarkBlock h id BlockStateAccepted w = (Ret r, w') ->
  is_Some r /\
  (forall k, k <> statekey id -> db_view (w_db w') !! k = db_view (w_db w) !! k) /\
  (state_of (db_view (w_db w')) id = Some BlockStateAccepted ->
   forall r2 w2, ipfs_MarkBlock h id BlockStateAccepted w' = (Ret r2, w2) ->
   forall k, k <> statekey id -> db_view (w_db w2) !! k = db_view (w_db w) !! k).
Proof.
  intros Hp Hst Hblk Htxs Hc Ht Hr. pose proof (persistent_view _ _ Hp) as Hm.
  assert (is_Some r /\ w_stores w' = w_stores w /\
    forall k, k <> statekey id -> db_view (w_db w') !! k = db_view (w_db w) !! k) as (Hsome&Hs'&Hk').
  { destruct (MarkBlock_accept_inv _ _ _ _ _ _ Hm Hr) as (w1&Hn1&[[Hset Hrest]|(e&Hset&Hsome&_)]).
    - rewrite bool_decide_eq_true_2 in Hrest by done.
      destruct (metadataSet_view _ _ _ _ _ _ Hm Hset) as (Hm1&_&Hs1).
      assert (persistent w1 h) as Hp1 by (unfold persistent; by rewrite Hs1).
      rewrite (persistent_view _ _ Hp1) in Hm1. injection Hm1 as Hm1.
      apply bind_inv in Hrest as (e&w2&(e'&w2'&Hidx&He)%bind_inv&Hrest). injection He as <- <-.
      rewrite <- Hn1 in Hblk. pose proof (AllTx_ipfs blk w w1 Hn1) as Htxs1. rewrite Htxs in Htxs1.
      destruct (indexBlock_credential h id blk txs c t w1 Hp1 Hblk Htxs1 Hc Ht _ _ Hidx) as [[e2 ->] [Hv Hs2]].
      injection Hrest as <- <-. split; [by eexists|]. split; [congruence|].
      intros k Hk. rewrite Hv, Hm1. by rewrite lookup_insert_ne.
    - split; [done|]. destruct (viewed_set h _ _ (db_view (w_db w)) (w_stores w) _ _ _ ltac:(done) Hset ltac:(done)) as [Hv Hs].
      split; [done|]. intros k _. by rewrite Hv. }
  split; [done|]. split; [done|]. intros Hst' r2 w2 Hr2 k Hk. rewrite <- Hk' by done.
  assert (persistent w' h) as Hp' by (unfold persistent; by rewrite Hs').
  pose proof (persistent_view _ _ Hp') as Hm'.
  destruct (MarkBlock_accept_inv _ _ _ _ _ _ Hm' Hr2) as (w1&Hn1&[[Hset Hrest]|(e&Hset&_&_)]).
  - rewrite Hst', bool_decide_eq_false_2 in Hrest by done. destruct Hrest as [_ ->].
    destruct (metadataSet_view _ _ _ _ _ _ Hm' Hset) as (Hm1&_&Hs1).
    assert (persistent w1 h) as Hp1 by (unfold persistent; by rewrite Hs1).
    rewrite (persistent_view _ _ Hp1) in Hm1. injection Hm1 as ->. by rewrite lookup_insert_ne.
  - destruct (viewed_set h _ _ (db_view (w_db w')) (w_stores w') _ _ _ ltac:(done) Hset ltac:(done)) as [Hv _].
    by rewrite Hv.
Qed.
End Accept.
End IpfsBlocks.
