(* ===== verification/MemPool.v ===== *)
(** * pkg/did/consensus/mempool.go: the pool of pending transactions

    container/heap works on any [heap.Interface]; it is a generic section over
    the class [HeapInterface].  The pool is its instance: a slice of pointers
    to transactions, ordered by timestamp.  A [nil] pointer in the slice is
    dereferenced by [Less].  The mutex is not modelled: each method runs alone. *)

From S2P Require Import Prelude Externals W3cDid Tx.

Module MemPool.
Import Tx.

(** ** container/heap *)

Class HeapInterface (S A : Type) := {
  heap_Len : GoM S nat;
  heap_Less : nat -> nat -> GoM S bool;
  heap_Swap : nat -> nat -> GoM S unit;
  heap_Push : A -> GoM S unit;
  heap_Pop : GoM S A
}.

Section Heap.
Context {S A : Type} `{!HeapInterface S A}.

(** [up(h, j)]: the index decreases, [j + 1] rounds are enough. *)
Fixpoint up (fuel j : nat) : GoM S unit :=
  match fuel with
  | 0 => mret tt
  | Datatypes.S fuel =>
      let i := (j - 1) / 2 in
      if bool_decide (i = j) then mret tt
      else
        b ← heap_Less j i;
        if negb b then mret tt else heap_Swap i j;; up fuel i
  end.

(** [down(h, i, n)]: the index increases up to [n], [n] rounds are enough. *)
Fixpoint down (fuel i n : nat) : GoM S unit :=
  match fuel with
  | 0 => mret tt
  | Datatypes.S fuel =>
      let j1 := 2 * i + 1 in
      if bool_decide (n <= j1) then mret tt
      else
        j ← (if bool_decide (j1 + 1 < n) then
               b ← heap_Less (j1 + 1) j1; mret (if b : bool then j1 + 1 else j1)
             else mret j1);
        b ← heap_Less j i;
        if negb b then mret tt else heap_Swap i j;; down fuel j n
  end.

(** [for i := n/2 - 1; i >= 0; i-- { down(h, i, n) }] *)
Fixpoint init_from (k n : nat) : GoM S unit :=
  match k with
  | 0 => mret tt
  | Datatypes.S k => down n k n;; init_from k n
  end.

Definition Init : GoM S unit := n ← heap_Len; init_from (n / 2) n.

Definition Push (x : A) : GoM S unit :=
  heap_Push x;; n ← heap_Len; up n (n - 1).

Definition Pop : GoM S A :=
  len ← heap_Len;
  let n := len - 1 in
  heap_Swap 0 n;; down n 0 n;; heap_Pop.
End Heap.

(** ** TxMemPool *)

Section TxMemPool.
Context `{Lib}.

(** [plist], a slice of pointers *)
Notation TxList := (list (option Tx)).

Definition pool_Len : GoM TxList nat := ggets length.

Definition pool_Less (i j : nat) : GoM TxList bool :=
  l ← gget;
  a ← gsome (l !! i); a ← gsome a;
  b ← gsome (l !! j); b ← gsome b;
  mret (tx_Ts a <? tx_Ts b)%Z.

Definition pool_Swap (i j : nat) : GoM TxList unit :=
  l ← gget;
  _ ← gsome (l !! i); _ ← gsome (l !! j);
  gput (list_swap i j l).

Definition pool_Push (x : option Tx) : GoM TxList unit := gmodify (fun l => l ++ [x]).

Definition pool_Pop : GoM TxList (option Tx) :=
  old ← gget;
  let n := length old in
  x ← gsome (old !! (n - 1));
  gput (take (n - 1) old);; mret x.

#[export] Instance TxMemPool_heap : HeapInterface TxList (option Tx) := {|
  heap_Len := pool_Len; heap_Less := pool_Less; heap_Swap := pool_Swap;
  heap_Push := pool_Push; heap_Pop := pool_Pop
|}.

Definition NewTxMemPool : TxList := (Init ([] : TxList)).2.

(** [nil] on an empty pool *)
Definition GetTx : GoM TxList (option Tx) :=
  n ← pool_Len;
  if bool_decide (0 < n) then Pop else mret None.

(** The expiry is not used. *)
Definition AddTx (t : option Tx) (expires : Z) : GoM TxList (option error) :=
  Push t;; mret None.
End TxMemPool.

(** ** The heap order *)

Definition parent (c : nat) : nat := (c - 1) / 2.

Lemma parent_spec c : 0 < c -> c = 2 * parent c + 1 \/ c = 2 * parent c + 2.
Proof.
  intros Hc. unfold parent. pose proof (Nat.div_mod (c - 1) 2 ltac:(lia)).
  pose proof (Nat.mod_upper_bound (c - 1) 2 ltac:(lia)). lia.
Qed.

Section HeapOrder.
Context (n : nat) (k : nat -> Z).

(** Every element is at least its parent, in the first [n] places. *)
Definition ordered : Prop := forall c, 0 < c < n -> (k (parent c) <= k c)%Z.

(** The same except between [j] and its parent; the children of [j] are not
    below the parent of [j]. *)
Definition ordered_above (j : nat) : Prop :=
  (forall c, 0 < c < n -> c <> j -> (k (parent c) <= k c)%Z) /\
  (forall c, 0 < c < n -> parent c = j -> 0 < j -> (k (parent j) <= k c)%Z).

(** The same except between [i] and its children. *)
Definition ordered_below (i : nat) : Prop :=
  (forall c, 0 < c < n -> parent c <> i -> (k (parent c) <= k c)%Z) /\
  (forall c, 0 < c < n -> parent c = i -> 0 < i -> (k (parent i) <= k c)%Z).

Lemma ordered_min : ordered -> forall c, c < n -> (k 0 <= k c)%Z.
Proof.
  intros Ho c. induction c as [c IH] using lt_wf_ind. intros Hc.
  destruct (decide (c = 0)) as [->|Hne]; [lia|].
  pose proof (parent_spec c ltac:(lia)).
  transitivity (k (parent c)); [apply IH; lia|apply Ho; lia].
Qed.
End HeapOrder.

(** Case on the positions a swap touches. *)
Ltac heap_cases :=
  repeat case_decide; subst;
  repeat match goal with
    | E : parent _ = parent _ |- _ => rewrite E in *; clear E
    end; try lia.

(** The keys after a swap. *)
Definition swapped (i j : nat) (k : nat -> Z) (c : nat) : Z :=
  if decide (c = j) then k i else if decide (c = i) then k j else k c.

Lemma ordered_above_step n k j :
  0 < j < n -> ordered_above n k j -> (k j < k (parent j))%Z ->
  ordered_above n (swapped (parent j) j k) (parent j).
Proof.
  intros Hj [H1 H2] Hlt. pose proof (parent_spec j ltac:(lia)). unfold swapped. split.
  - intros c Hc Hne. pose proof (parent_spec c ltac:(lia)).
    pose proof (H1 c Hc) as Hc1. pose proof (H2 c Hc) as Hc2.
    heap_cases.
  - intros c Hc Hpc Hp. pose proof (parent_spec c ltac:(lia)).
    pose proof (parent_spec (parent j) ltac:(lia)).
    pose proof (H1 (parent j) ltac:(lia) ltac:(lia)) as Hpj. pose proof (H1 c Hc) as Hc1.
    rewrite Hpc in Hc1. repeat case_decide; subst; try lia.
Qed.

Lemma ordered_above_done n k j :
  ordered_above n k j -> (0 < j -> (k (parent j) <= k j)%Z) -> ordered n k.
Proof.
  intros [H1 _] Hj c Hc. destruct (decide (c = j)) as [->|Hne]; [|by apply H1].
  apply Hj. lia.
Qed.

Lemma ordered_below_step n k i j :
  j < n -> 0 < j -> parent j = i -> ordered_below n k i -> (k j < k i)%Z ->
  (forall c, 0 < c < n -> parent c = i -> (k j <= k c)%Z) ->
  ordered_below n (swapped i j k) j.
Proof.
  intros Hjn Hj Hp [H1 H2] Hlt Hmin. pose proof (parent_spec j Hj).
  pose proof (H2 j ltac:(lia) Hp) as Hj2. unfold swapped. split.
  - intros c Hc Hne. pose proof (parent_spec c ltac:(lia)).
    pose proof (H1 c Hc) as Hc1. pose proof (H2 c Hc) as Hc2. pose proof (Hmin c Hc) as Hc3.
    heap_cases.
  - intros c Hc Hpc _. pose proof (parent_spec c ltac:(lia)).
    pose proof (H1 c Hc) as Hc1. rewrite Hpc in Hc1.
    heap_cases.
Qed.

Lemma ordered_below_done n k i :
  ordered_below n k i -> (forall c, 0 < c < n -> parent c = i -> (k i <= k c)%Z) -> ordered n k.
Proof.
  intros [H1 _] Hi c Hc. destruct (decide (parent c = i)) as [Heq|Hne]; [|by apply H1].
  rewrite Heq. by apply Hi.
Qed.

Lemma ordered_above_ext n k k' j :
  (forall c, k' c = k c) -> ordered_above n k j -> ordered_above n k' j.
Proof. intros He [H1 H2]. split; intros; rewrite !He; auto. Qed.

Lemma ordered_below_ext n k k' j :
  (forall c, k' c = k c) -> ordered_below n k j -> ordered_below n k' j.
Proof. intros He [H1 H2]. split; intros; rewrite !He; auto. Qed.

(** ** The operations keep the heap order *)

Section PoolFacts.
Context `{Lib}.
Implicit Types l : list (option Tx).

(** No pointer of the slice is [nil]. *)
Definition live l : Prop := Forall is_Some l.

Definition key_at l (c : nat) : Z :=
  match l !! c with Some (Some t) => tx_Ts t | _ => 0%Z end.

Definition is_heap l : Prop := live l /\ ordered (length l) (key_at l).

Lemma live_lookup l i : live l -> i < length l -> exists t, l !! i = Some (Some t).
Proof.
  intros Hl Hi. destruct (lookup_lt_is_Some_2 l i Hi) as [o Ho].
  destruct (Forall_lookup_1 _ _ _ _ Hl Ho) as [t ->]. by exists t.
Qed.

Lemma pool_Less_run l i j :
  live l -> i < length l -> j < length l ->
  pool_Less i j l = (Ret (key_at l i <? key_at l j)%Z, l).
Proof.
  intros Hl Hi Hj. destruct (live_lookup l i Hl Hi) as [a Ha].
  destruct (live_lookup l j Hl Hj) as [b Hb].
  unfold pool_Less, key_at. go_unfold. by rewrite Ha, Hb.
Qed.

Lemma pool_Swap_run l i j :
  i < length l -> j < length l -> pool_Swap i j l = (Ret tt, list_swap i j l).
Proof.
  intros Hi Hj. destruct (lookup_lt_is_Some_2 l i Hi) as [a Ha].
  destruct (lookup_lt_is_Some_2 l j Hj) as [b Hb].
  unfold pool_Swap. go_unfold. by rewrite Ha, Hb.
Qed.

Lemma key_at_swap l i j c :
  i < length l -> j < length l -> key_at (list_swap i j l) c = swapped i j (key_at l) c.
Proof.
  intros Hi Hj. unfold key_at, swapped. rewrite list_swap_lookup by done.
  by repeat case_decide.
Qed.

Lemma live_perm l l' : l ≡ₚ l' -> live l -> live l'.
Proof. unfold live. by intros ->. Qed.

Lemma up_run fuel j l :
  live l -> j < length l -> j < fuel -> ordered_above (length l) (key_at l) j ->
  exists l', up fuel j l = (Ret tt, l') /\ l' ≡ₚ l /\ ordered (length l') (key_at l').
Proof.
  revert j l. induction fuel as [|fuel IH]; intros j l Hl Hj Hf Ho; [lia|].
  cbn [up heap_Less heap_Swap TxMemPool_heap]. change ((j - 1) / 2) with (parent j). cbv zeta.
  destruct (decide (j = 0)) as [->|Hj0].
  { exists l. split_and!; [done..|]. eapply ordered_above_done; [exact Ho|]. by intros ?%Nat.lt_irrefl. }
  pose proof (parent_spec j ltac:(lia)). rewrite bool_decide_false by lia.
  unfold mbind, GoM_bind. rewrite (pool_Less_run l j (parent j)) by (done || lia).
  destruct (Z.ltb_spec (key_at l j) (key_at l (parent j))) as [Hlt|Hge]; simpl.
  - rewrite (pool_Swap_run l (parent j) j) by lia.
    assert (list_swap (parent j) j l ≡ₚ l) as Hp by apply list_swap_perm.
    destruct (IH (parent j) (list_swap (parent j) j l)) as (l'&Hrun&Hp'&Ho').
    + by eapply live_perm.
    + rewrite Hp. lia.
    + lia.
    + rewrite list_swap_length. eapply ordered_above_ext, ordered_above_step; [|lia|done..].
      intros c. apply key_at_swap; lia.
    + exists l'. split_and!; [done|by rewrite Hp', Hp|done].
  - exists l. split_and!; [done..|]. by eapply ordered_above_done.
Qed.

(** The child [down] compares with is the least one. *)
Lemma least_child n k i j c :
  0 < c < n -> parent c = i ->
  j = (if bool_decide (2 * i + 1 + 1 < n) then
         if (k (2 * i + 1 + 1)%nat <? k (2 * i + 1)%nat)%Z then 2 * i + 1 + 1 else 2 * i + 1
       else 2 * i + 1) ->
  (k j <= k c)%Z.
Proof.
  intros Hc Hp ->. pose proof (parent_spec c ltac:(lia)).
  assert (c = 2 * i + 1 \/ c = 2 * i + 1 + 1) as [-> | ->] by lia;
    case_bool_decide; try lia; destruct (Z.ltb_spec (k (2 * i + 1 + 1)) (k (2 * i + 1))); lia.
Qed.

Lemma down_run fuel i n l :
  live l -> n <= length l -> n <= i + fuel -> ordered_below n (key_at l) i ->
  exists l', down fuel i n l = (Ret tt, l') /\ l' ≡ₚ l /\ ordered n (key_at l') /\
    (forall c, n <= c -> l' !! c = l !! c).
Proof.
  revert i l. induction fuel as [|fuel IH]; intros i l Hl Hn Hf Ho; cbn [down heap_Less heap_Swap TxMemPool_heap]; cbv zeta.
  { exists l. split_and!; [done..| |done]. eapply ordered_below_done; [exact Ho|].
    intros c Hc Hp. pose proof (parent_spec c ltac:(lia)). lia. }

  case_bool_decide as Hj1.
  { exists l. split_and!; [done..| |done]. eapply ordered_below_done; [exact Ho|].
    intros c Hc Hp. pose proof (parent_spec c ltac:(lia)). lia. }
  set (j := if bool_decide (2 * i + 1 + 1 < n) then
         if (key_at l (2 * i + 1 + 1) <? key_at l (2 * i + 1))%Z then 2 * i + 1 + 1 else 2 * i + 1
       else 2 * i + 1).
  assert (j < n /\ 2 * i + 1 <= j <= 2 * i + 2) as [Hjn Hji].
  { unfold j. case_bool_decide; [destruct (_ <? _)%Z|]; lia. }
  assert (parent j = i) as Hpj by (pose proof (parent_spec j ltac:(lia)); lia).
  unfold mbind at 1, GoM_bind at 1.
  replace ((if bool_decide (2 * i + 1 + 1 < n) then _ else _) l) with (Ret j, l).
  2: { unfold j. case_bool_decide; [|done]. unfold mbind, GoM_bind.
       by rewrite (pool_Less_run l (2 * i + 1 + 1) (2 * i + 1)) by (done || lia). }
  unfold mbind, GoM_bind. rewrite (pool_Less_run l j i) by (done || lia).
  pose proof (least_child n (key_at l) i j) as Hleast.
  destruct (Z.ltb_spec (key_at l j) (key_at l i)) as [Hlt|Hge]; simpl.
  - rewrite (pool_Swap_run l i j) by lia.
    assert (list_swap i j l ≡ₚ l) as Hp by apply list_swap_perm.
    destruct (IH j (list_swap i j l)) as (l'&Hrun&Hp'&Ho'&Hsame).
    + by eapply live_perm.
    + rewrite Hp. lia.
    + lia.
    + eapply ordered_below_ext; [intros c; apply key_at_swap; lia|].
      apply ordered_below_step; [lia..|done|done|]. intros c Hc Hpc. by apply Hleast.
    + exists l'. split_and!; [done|by rewrite Hp', Hp|done|]. intros c Hc.
      rewrite Hsame by done. rewrite list_swap_lookup by lia. repeat case_decide; (lia || done).
  - exists l. split_and!; [done..| |done]. eapply ordered_below_done; [exact Ho|].
    intros c Hc Hpc. transitivity (key_at l j); [done|]. by apply Hleast.
Qed.

Lemma AddTx_run l t e :
  is_heap l ->
  exists l', AddTx (Some t) e l = (Ret None, l') /\ is_heap l' /\ l' ≡ₚ Some t :: l.
Proof.
  intros [Hl Ho].
  assert (live (l ++ [Some t])) as Hl1 by (apply Forall_app; split; [done|by repeat constructor]).
  assert (length (l ++ [Some t]) = S (length l)) as Hlen by (rewrite length_app; simpl; lia).
  destruct (up_run (S (length l)) (length l) (l ++ [Some t])) as (l'&Hrun&Hp&Ho');
    [done|lia|lia| |].
  - rewrite Hlen. split.
    + intros c Hc Hne. pose proof (parent_spec c ltac:(lia)).
      unfold key_at. rewrite !lookup_app_l by lia. apply Ho. lia.
    + intros c Hc Hpc. pose proof (parent_spec c ltac:(lia)). lia.
  - exists l'. unfold AddTx, Push. go_unfold. cbn [heap_Push heap_Len TxMemPool_heap].
    unfold pool_Push, pool_Len, gmodify, ggets. rewrite Hlen.
    replace (S (length l) - 1) with (length l) by lia. rewrite Hrun. split_and!; [done|..].
    + split; [|done]. by eapply live_perm.
    + rewrite Hp. symmetry. apply Permutation_cons_append.
Qed.

Lemma pool_Pop_run l o : pool_Pop (l ++ [o]) = (Ret o, l).
Proof.
  unfold pool_Pop. go_unfold. rewrite length_app. simpl.
  replace (length l + 1 - 1) with (length l) by lia.
  by rewrite lookup_app_r, Nat.sub_diag, take_app_length by lia.
Qed.

Lemma GetTx_run l :
  is_heap l -> l <> [] ->
  exists t l', GetTx l = (Ret (Some t), l') /\ is_heap l' /\ l ≡ₚ Some t :: l' /\
    (forall u, Some u ∈ l -> (tx_Ts t <= tx_Ts u)%Z).
Proof.
  intros [Hl Ho] Hne. assert (0 < length l) as Hpos by (destruct l; simpl; (done || lia)).
  set (n := length l - 1). assert (length l = S n) as Hn by (unfold n; lia).
  destruct (live_lookup l 0 Hl Hpos) as [t Ht].
  assert (list_swap 0 n l ≡ₚ l) as Hp1 by apply list_swap_perm.
  destruct (down_run n 0 n (list_swap 0 n l)) as (l2&Hrun&Hp2&Ho2&Hsame).
  { by eapply live_perm. } { rewrite Hp1. lia. } { lia. }
  { split.
    - intros c Hc Hpc. pose proof (parent_spec c ltac:(lia)). rewrite !key_at_swap by lia.
      unfold swapped. repeat case_decide; try lia. apply Ho. lia.
    - lia. }
  assert (length l2 = S n) as Hl2 by (by rewrite Hp2, Hp1).
  assert (l2 !! n = Some (Some t)) as Hlast.
  { rewrite Hsame by lia. rewrite list_swap_lookup by lia. by rewrite decide_True. }
  assert (l2 = take n l2 ++ [Some t]) as Hsplit.
  { rewrite <- (take_drop n l2) at 1. f_equal. rewrite (drop_S _ _ _ Hlast). f_equal.
    apply drop_ge. lia. }
  assert (l ≡ₚ Some t :: take n l2) as Hperm.
  { rewrite <- Hp1, <- Hp2. rewrite Hsplit at 1. symmetry. apply Permutation_cons_append. }
  exists t, (take n l2). split_and!.
  - unfold GetTx, Pop, pool_Len. go_unfold. rewrite bool_decide_true by done.
    cbn [heap_Swap heap_Len heap_Pop TxMemPool_heap]. unfold pool_Len, ggets. fold n.
    rewrite (pool_Swap_run l 0 n), Hrun by lia. rewrite Hsplit at 1. apply pool_Pop_run.
  - split.
    + pose proof (live_perm _ _ Hperm Hl) as Hlive. by inversion Hlive.
    + rewrite length_take, Hl2. replace (n `min` S n) with n by lia. intros c Hc.
      pose proof (parent_spec c ltac:(lia)). unfold key_at. rewrite !lookup_take_lt by lia.
      by apply Ho2.
  - done.
  - intros u [c Hc]%list_elem_of_lookup. pose proof (lookup_lt_Some _ _ _ Hc).
    pose proof (ordered_min _ _ Ho c ltac:(done)) as Hmin. unfold key_at in Hmin.
    by rewrite Ht, Hc in Hmin.
Qed.

Lemma is_heap_nil : is_heap [].
Proof. split; [constructor|]. intros c Hc. simpl in Hc. lia. Qed.
End PoolFacts.

(** ** What the pool promises

    A bag of transactions: [AddTx] puts one in, [GetTx] takes a least one out,
    and gives [nil] only when the bag is empty. *)

Section Spec.
Context `{Lib}.

Inductive pool_op :=
| OpAdd (t : Tx) (ttl : Z)
| OpGet.

Inductive spec_step : list Tx -> pool_op -> option Tx -> list Tx -> Prop :=
| spec_add S t ttl : spec_step S (OpAdd t ttl) None (t :: S)
| spec_get S t S' :
    S ≡ₚ t :: S' -> (forall u, u ∈ S -> (tx_Ts t <= tx_Ts u)%Z) -> spec_step S OpGet (Some t) S'
| spec_empty : spec_step [] OpGet None [].

Inductive spec_run : list Tx -> list pool_op -> list (option Tx) -> list Tx -> Prop :=
| spec_nil S : spec_run S [] [] S
| spec_cons S1 op o S2 ops os S3 :
    spec_step S1 op o S2 -> spec_run S2 ops os S3 -> spec_run S1 (op :: ops) (o :: os) S3.

(** The same operations on the pool. *)
Definition run_op (op : pool_op) : GoM (list (option Tx)) (option Tx) :=
  match op with
  | OpAdd t ttl => AddTx (Some t) ttl;; mret None
  | OpGet => GetTx
  end.

Fixpoint run_ops (ops : list pool_op) : GoM (list (option Tx)) (list (option Tx)) :=
  match ops with
  | [] => mret []
  | op :: ops => o ← run_op op; os ← run_ops ops; mret (o :: os)
  end.

Lemma run_op_spec op l S :
  is_heap l -> l ≡ₚ Some <$> S ->
  exists o l' S', run_op op l = (Ret o, l') /\ spec_step S op o S' /\
    is_heap l' /\ l' ≡ₚ Some <$> S'.
Proof.
  intros Hh Hp. destruct op as [t ttl|]; simpl.
  - destruct (AddTx_run l t ttl Hh) as (l'&Hrun&Hh'&Hp'). exists None, l', (t :: S).
    split_and!; [|constructor|done|simpl; by rewrite Hp', Hp].
    unfold mbind, GoM_bind. by rewrite Hrun.
  - destruct (decide (l = [])) as [->|Hne].
    + apply Permutation_nil in Hp. destruct S; [|done].
      exists None, [], []. split_and!; [done|constructor|apply is_heap_nil|done].
    + destruct (GetTx_run l Hh Hne) as (t&l'&Hrun&Hh'&Hp'&Hmin).
      assert (Some t ∈ Some <$> S) as Hin by (rewrite <- Hp, Hp'; set_solver).
      apply list_elem_of_fmap in Hin as (t'&[= <-]&Hin).
      apply elem_of_Permutation in Hin as [S' HS].
      exists (Some t), l', S'. split_and!; [done| |done|].
      * constructor; [done|]. intros u Hu. apply Hmin. rewrite Hp. by apply list_elem_of_fmap_2.
      * apply (Permutation_cons_inv (a := Some t)). rewrite <- Hp', Hp, HS. done.
Qed.

Lemma run_ops_spec ops l S :
  is_heap l -> l ≡ₚ Some <$> S ->
  exists os l' S', run_ops ops l = (Ret os, l') /\ spec_run S ops os S' /\
    is_heap l' /\ l' ≡ₚ Some <$> S'.
Proof.
  revert l S. induction ops as [|op ops IH]; intros l S Hh Hp; simpl.
  { exists [], l, S. split_and!; [done|constructor|done..]. }
  destruct (run_op_spec op l S Hh Hp) as (o&l1&S1&Hrun&Hst&Hh1&Hp1).
  destruct (IH l1 S1 Hh1 Hp1) as (os&l2&S2&Hruns&Hsts&Hh2&Hp2).
  exists (o :: os), l2, S2. split_and!; [|by econstructor|done..].
  unfold mbind, GoM_bind. by rewrite Hrun, Hruns.
Qed.

(** C12. The pool implements a bag ordered by timestamp: every sequence of
    [AddTx] and [GetTx] on a new pool returns, and its results are those of a
    bag from which [GetTx] takes an oldest transaction, and [nil] only when
    there is none. *)
Theorem mempool_refines ops :
  exists os l' S', run_ops ops NewTxMemPool = (Ret os, l') /\ spec_run [] ops os S' /\
    l' ≡ₚ Some <$> S'.
Proof.
  destruct (run_ops_spec ops NewTxMemPool []) as (os&l'&S'&?&?&_&?); [apply is_heap_nil|done|].
  by exists os, l', S'.
Qed.

Definition ts_le (a b : Tx) : Prop := (tx_Ts a <= tx_Ts b)%Z.

Lemma spec_run_adds txs ttl ops S os S' :
  spec_run S (((fun t => OpAdd t ttl) <$> txs) ++ ops) os S' ->
  exists os1 S1, os = replicate (length txs) None ++ os1 /\ S1 ≡ₚ txs ++ S /\ spec_run S1 ops os1 S'.
Proof.
  revert S os. induction txs as [|t txs IH]; intros S os Hr; simpl in *.
  { by exists os, S. }
  inversion Hr as [|? ? o S2 ? os2 ? Hst Hr2]; subst. inversion Hst; subst.
  destruct (IH _ _ Hr2) as (os1&S1&->&Hp&?). exists os1, S1. split_and!; [done| |done].
  rewrite Hp. symmetry. apply Permutation_middle.
Qed.

Lemma spec_run_drain n S os S' :
  spec_run S (replicate n OpGet) os S' -> length S = n ->
  exists ts, os = Some <$> ts /\ ts ≡ₚ S /\ StronglySorted ts_le ts.
Proof.
  revert S os. induction n as [|n IH]; intros S os Hr Hlen; simpl in *.
  { inversion Hr; subst. exists []. destruct S'; [|done]. split_and!; [done..|constructor]. }
  inversion Hr as [|? ? o S2 ? os2 ? Hst Hr2]; subst.
  inversion Hst as [|? t ? Hp Hmin|]; subst; [|done].
  destruct (IH _ _ Hr2) as (ts&->&Hts&Hs).
  { rewrite Hp in Hlen. simpl in Hlen. lia. }
  exists (t :: ts). split_and!; [done|by rewrite Hts, <- Hp|]. constructor; [done|].
  apply Forall_forall. intros u Hu%list_elem_of_In. apply Hmin. rewrite Hp, <- Hts. by right.
Qed.

(** C13. Transactions leave the pool in the order of their timestamps, whatever
    the order they came in: draining a pool that was given [txs] yields a sorted
    permutation of [txs]. *)
Theorem mempool_sorted txs ttl :
  exists ts l', run_ops (((fun t => OpAdd t ttl) <$> txs) ++ replicate (length txs) OpGet)
      NewTxMemPool = (Ret (replicate (length txs) None ++ (Some <$> ts)), l') /\
    ts ≡ₚ txs /\ StronglySorted ts_le ts.
Proof.
  destruct (run_ops_spec (((fun t => OpAdd t ttl) <$> txs) ++ replicate (length txs) OpGet)
    NewTxMemPool []) as (os&l'&S'&Hrun&Hspec&_&_); [apply is_heap_nil|done|].
  apply spec_run_adds in Hspec as (os1&S1&->&Hp&Hspec). rewrite app_nil_r in Hp.
  apply spec_run_drain in Hspec as (ts&->&Hts&Hs); [|by rewrite Hp].
  exists ts, l'. split_and!; [done|by rewrite Hts|done].
Qed.
End Spec.
End MemPool.
