(* ===== verification/ValidatorFacts.v ===== *)
(** * Theorems on the validator

    What a transaction accepted by [IsTxValid] satisfies, that [IsBlockValid]
    puts its store back on every path, and, over the in-memory store, what a
    valid block implies and what validation leaves behind. *)

From S2P Require Import Prelude Externals Cryptography W3cDid Tx Chain Toy ChainFacts MemStore.
From S2P Require Import MemStoreFacts Validator.

Module ValidatorFacts.
Import Cryptography W3cDid Tx Chain ChainFacts MemStore MemStoreFacts Validator.

(** ** Signatures of a document *)

Section Signatures.
Context `{Lib} {S : Type}.
Implicit Types s : S.

(** Checking a document or a signature does not touch the state. *)
Definition pure_comp {A} (m : GoM S A) : Prop := forall s, (m s).2 = s.

Lemma pure_ret {A} (a : A) : pure_comp (mret a).
Proof. done. Qed.

Lemma pure_some {A} (o : option A) : pure_comp (gsome o).
Proof. by destruct o. Qed.

Lemma pure_bind {A B} (m : GoM S A) (k : A -> GoM S B) :
  pure_comp m -> (forall a, pure_comp (k a)) -> pure_comp (m ≫= k).
Proof.
  intros Hm Hk s. unfold mbind, GoM_bind. specialize (Hm s).
  destruct (m s) as [[a|] s']; simpl in *; subst; [apply Hk|done].
Qed.

Lemma pure_for_e {A} (l : list A) body :
  (forall x, pure_comp (body x)) -> pure_comp (gfor_e l body).
Proof.
  intros Hb. induction l; simpl; [done|]. apply pure_bind; [done|].
  by intros [|].
Qed.

Lemma validators_pure t f vm sig msg :
  validators (S := S) t = Some f -> pure_comp (f vm sig msg).
Proof.
  unfold validators. repeat case_bool_decide; intros [= <-]; [|done..].
  unfold ValidateEd25519. destruct (wrap _ _); [|done]. apply pure_bind; [|done].
  unfold ed25519_Verify. by case_decide.
Qed.

Lemma signed_loop_pure vms sig msg : pure_comp (signed_loop vms sig msg).
Proof.
  induction vms as [|vm vms IH]; simpl; [done|].
  destruct (validators (vm_Type vm)) as [f|] eqn:Hf; [|done].
  apply pure_bind; [by eapply validators_pure|]. by intros [[]|].
Qed.

Lemma Signed_pure d sig msg : pure_comp (Signed d sig msg).
Proof. unfold Signed. destruct (doc_VerificationMethod d); [done|]. apply signed_loop_pure. Qed.

Lemma url_incomplete_pure u : pure_comp (url_incomplete u).
Proof.
  unfold url_incomplete, Id, Method. apply pure_bind; [apply pure_bind; [apply pure_some|done]|].
  intros i. case_bool_decide; [done|]. apply pure_bind; [apply pure_bind; [apply pure_some|done]|done].
Qed.

Lemma IsValid_pure d : pure_comp (IsValid d).
Proof.
  unfold IsValid. case_bool_decide; [done|]. apply pure_bind; [apply url_incomplete_pure|].
  intros []; [done|]. apply pure_bind.
  - apply pure_for_e. intros vm. unfold vm_check. case_bool_decide; [done|].
    apply pure_bind; [apply url_incomplete_pure|]. intros []; [done|].
    apply pure_bind; [apply url_incomplete_pure|]. by intros [].
  - intros [|]; [done|]. apply pure_for_e. intros svc. unfold svc_check. by case_match.
Qed.

(** A verification method accepts a signature of a message. *)
Definition vm_accepts (s : S) (vm : VerificationMethod) (sig msg : bytes) : Prop :=
  exists f, validators (vm_Type vm) = Some f /\ f vm sig msg s = (Ret (Ok true), s).

Lemma signed_loop_sound vms sig msg s :
  signed_loop vms sig msg s = (Ret None, s) ->
  exists vm, vm ∈ vms /\ vm_accepts s vm sig msg.
Proof.
  induction vms as [|vm vms IH]; simpl; [done|].
  destruct (validators (vm_Type vm)) as [f|] eqn:Hf.
  - unfold mbind, GoM_bind. pose proof (validators_pure _ _ vm sig msg Hf s) as Hp.
    destruct (f vm sig msg s) as [[r|] s'] eqn:Hr; simpl in Hp; subst; [|done].
    destruct r as [[]|e]; intros Hl.
    + exists vm. split; [by left|]. by exists f.
    + destruct (IH Hl) as (vm'&?&?). exists vm'. split; [by right|done].
    + destruct (IH Hl) as (vm'&?&?). exists vm'. split; [by right|done].
  - intros Hl. destruct (IH Hl) as (vm'&?&?). exists vm'. split; [by right|done].
Qed.

Lemma Signed_sound d sig msg s :
  (Signed d sig msg s).1 = Ret None ->
  exists vm, vm ∈ doc_VerificationMethod d /\ vm_accepts s vm sig msg.
Proof.
  intros Hs. pose proof (Signed_pure d sig msg s) as Hp.
  destruct (Signed d sig msg s) as [r s'] eqn:Hr. simpl in *. subst.
  unfold Signed in Hr. destruct (doc_VerificationMethod d) as [|vm vms]; [done|].
  by apply signed_loop_sound.
Qed.

(** A method whose check does not panic. *)
Definition vm_safe (vm : VerificationMethod) : Prop :=
  vm_Type vm = Ed25519VerificationKey2018 ->
  forall pk, decodeMultibase (vm_PublicKeyMultibase vm) = Ok pk -> length pk = PublicKeySize.

Lemma vm_safe_run vm f sig msg s :
  vm_safe vm -> validators (vm_Type vm) = Some f -> exists r, f vm sig msg s = (Ret r, s).
Proof.
  intros Hs. unfold validators. repeat case_bool_decide; intros [= <-]; try (by eexists).
  unfold ValidateEd25519. destruct (decodeMultibase _) as [pk|] eqn:Hd; simpl; [|by eexists].
  unfold ed25519_Verify. rewrite decide_True by (by apply Hs). by eexists.
Qed.

Lemma signed_loop_complete vms vm sig msg s :
  Forall vm_safe vms -> vm ∈ vms -> vm_accepts s vm sig msg ->
  signed_loop vms sig msg s = (Ret None, s).
Proof.
  intros Hsafe Hin Hacc. induction Hsafe as [|v vms Hv Hvs IH]; [set_solver|]. simpl.
  destruct (validators (vm_Type v)) as [f|] eqn:Hf.
  - unfold mbind, GoM_bind. destruct (vm_safe_run v f sig msg s Hv Hf) as [r Hr]. rewrite Hr.
    destruct r as [[]|e]; [done|..].
    all: apply list_elem_of_In in Hin as [<-|Hin%list_elem_of_In]; [|by apply IH];
      destruct Hacc as (g&Hg&Hrun); rewrite Hf in Hg; injection Hg as <-; congruence.
  - apply list_elem_of_In in Hin as [<-|Hin%list_elem_of_In]; [|by apply IH].
    destruct Hacc as (g&Hg&Hrun). congruence.
Qed.
End Signatures.

Section SignedProps.
Context `{Lib} {S : Type}.

(** [Signed] accepts exactly the signatures one of the document's
    verification methods accepts, in a document whose Ed25519 keys have the
    right length (on others the library call panics). *)
Theorem Signed_iff d sig msg (s : S) :
  Forall vm_safe (doc_VerificationMethod d) ->
  Signed d sig msg s = (Ret None, s) <->
  exists vm, vm ∈ doc_VerificationMethod d /\ vm_accepts s vm sig msg.
Proof.
  intros Hsafe. split.
  - intros Hs. apply Signed_sound. by rewrite Hs.
  - intros (vm&Hin&Hacc). unfold Signed.
    destruct (doc_VerificationMethod d) as [|v vms] eqn:Hd; [set_solver|].
    by eapply signed_loop_complete.
Qed.

(** A document that publishes a BLS key accepts what the holder of the key
    signs: encoding the key for the document, signing and verifying round
    trip. *)
Lemma Signed_bls `{!BlsLaws, !MultibaseLaws} d vm k msg sig mb (s : S) :
  Forall vm_safe (doc_VerificationMethod d) -> vm ∈ doc_VerificationMethod d ->
  vm_Type vm = Bls12381G2Key2020 ->
  EncodeMultibase (PkBls12381 (bls_Point (bls_Public k))) = Ok mb ->
  vm_PublicKeyMultibase vm = mb -> bls_Sign k msg = Ok sig ->
  Signed d sig msg s = (Ret None, s).
Proof.
  intros Hsafe Hin Ht Hmb Hvm Hsig. unfold Signed.
  destruct (doc_VerificationMethod d) as [|v vms] eqn:Hd; [set_solver|].
  eapply signed_loop_complete; [done..|]. exists ValidateBls12381. split.
  - by rewrite Ht.
  - by eapply ValidateBls12381_sign.
Qed.
End SignedProps.

(** ** Transactions *)

Section TxFacts.
Context `{L : Lib} {W H : Type} `{!Store W H} `{!TxCodec} `{!RangeOrder}.
Notation VState := (VState W H).
Implicit Types st : VState.

(** What the checks before the type switch say of an accepted transaction. *)
Definition tx_stateless (t : Tx) : Prop :=
  tx_Version t = Version1 /\ tx_Ts t <> 0%Z /\ tx_From t <> ""%string /\
  tx_Data t <> DataNil /\ (tx_Type t = TxType_DID \/ tx_Type t = TxType_VC).

Lemma IsTxValid_inv t t' st st' :
  tv_IsTxValid t st = (Ret (None, t'), st') ->
  tx_stateless t /\ (tx_Type t = TxType_DID -> isDIDTxValid t st = (Ret (None, t'), st')).
Proof.
  unfold tv_IsTxValid, tx_stateless.
  destruct (bool_decide (tx_Version t = _)) eqn:Hv; [|done]. apply bool_decide_eq_true in Hv.
  simpl. case_bool_decide; [done|]. case_bool_decide; [done|].
  destruct (tx_Data t) eqn:Hd; [done|..].
  all: case_bool_decide as Ht1; [intros Hr; split_and!; auto|];
    case_bool_decide as Ht2; [intros Hr; split_and!; auto; done|];
    case_bool_decide as Ht3; done.
Qed.

Lemma vs_run {A} (m : H -> GoM W A) st :
  vs m st = ((m (v_s st) (v_world st)).1, set_world (m (v_s st) (v_world st)).2 st).
Proof. unfold vs, call, gzoom. go_unfold. by destruct (m (v_s st) (v_world st)). Qed.

Lemma did_action_pure action doc ex sig msg :
  pure_comp (S := VState) (did_action action doc ex sig msg).
Proof.
  unfold did_action. case_bool_decide.
  - destruct (lookup_missing ex); [|done]. apply pure_bind; [apply Signed_pure|done].
  - case_match; [|done]. destruct ex as [o|]; [|done].
    apply pure_bind; [apply pure_some|]. intros d. apply pure_bind; [apply Signed_pure|done].
Qed.

Lemma pure_preserves {A} (I : VState -> Prop) (m : GoM VState A) : pure_comp m -> preserves I m.
Proof. intros Hp s Hs. by rewrite Hp. Qed.

(** Any invariant the store methods keep is kept by the check of a
    transaction. *)
Lemma preserves_IsTxValid (I : VState -> Prop) t :
  (forall d, preserves I (vs (fun s => LookupDID s d))) ->
  preserves I (tv_IsTxValid t).
Proof.
  intros HI. unfold tv_IsTxValid. repeat (case_match; [apply preserves_ret|]).
  case_match; [apply preserves_ret|..].
  all: repeat case_match; try (apply preserves_ret);
    try (apply preserves_bind; [apply preserves_ret|intros; apply preserves_ret]).
  all: unfold isDIDTxValid;
    apply preserves_bind; [apply preserves_some|]; intros did;
    apply preserves_bind; [apply preserves_some|]; intros doc;
    apply preserves_bind; [apply HI|]; intros ex; case_match; [|apply preserves_ret];
    apply preserves_bind; [apply pure_preserves, IsValid_pure|]; intros [|]; [apply preserves_ret|];
    apply preserves_bind; [apply pure_preserves, did_action_pure|]; intros r; apply preserves_ret.
Qed.

Lemma isDIDTxValid_inv t t' st st' :
  isDIDTxValid t st = (Ret (None, t'), st') ->
  exists doc existing sigmsg,
    tx_Data t = DataDID {| did_Document := Some doc |} /\
    (LookupDID (v_s st) (doc_ID doc) (v_world st)).1 = Ret existing /\
    Marshal (tx_set_Signature [] t) = Ok sigmsg /\
    t' = tx_set_Signature [] t /\
    st' = set_world (LookupDID (v_s st) (doc_ID doc) (v_world st)).2 st /\
    IsValid doc st' = (Ret None, st') /\
    did_action (tx_Action t) doc existing (tx_Signature t) sigmsg st' = (Ret None, st').
Proof.
  unfold isDIDTxValid. intros Hr.
  destruct (tx_Data t) as [|[[doc|]]| | |] eqn:Hd; try done. unfold mbind, GoM_bind, gsome in Hr. simpl in Hr.
  rewrite vs_run in Hr. destruct (LookupDID _ _ _) as [[ex|] w'] eqn:Hl; [|done]. simpl in Hr.
  destruct (Marshal _) as [sigmsg|] eqn:Hm; [|done].
  pose proof (IsValid_pure doc (set_world w' st)) as Hp.
  destruct (IsValid doc (set_world w' st)) as [[iv|] st1] eqn:Hiv; [|done]. simpl in Hp. subst.
  destruct iv as [|]; [done|].
  exists doc, ex, sigmsg. rewrite Hl. simpl.
  pose proof (did_action_pure (tx_Action t) doc ex (tx_Signature t) sigmsg (set_world w' st)) as Hp.
  change (tx_Action (tx_set_Signature [] t)) with (tx_Action t) in Hr.
  destruct (did_action _ _ _ _ _ _) as [[r|] st2] eqn:Ha; [|done]. simpl in Hp. subst.
  unfold mret, GoM_ret in Hr. simplify_eq/=. done.
Qed.

(** C20. A DID registration the validator accepts is of version 1, dated and
    attributed, its document is valid, the DID was not registered before, and
    one of the document's own verification methods accepts the signature over
    the transaction without its signature. *)
Theorem IsTxValid_add_sound t t' st st' :
  tv_IsTxValid t st = (Ret (None, t'), st') ->
  tx_Type t = TxType_DID -> tx_Action t = TxActionAdd ->
  tx_stateless t /\
  exists doc sigmsg vm,
    tx_Data t = DataDID {| did_Document := Some doc |} /\
    (LookupDID (v_s st) (doc_ID doc) (v_world st)).1 = Ret (Err ErrNotFound) /\
    IsValid doc st' = (Ret None, st') /\
    Marshal (tx_set_Signature [] t) = Ok sigmsg /\
    vm ∈ doc_VerificationMethod doc /\ vm_accepts st' vm (tx_Signature t) sigmsg.
Proof.
  intros Hr Ht Ha. destruct (IsTxValid_inv t t' st st' Hr) as [Hs Hd]. split; [done|].
  destruct (isDIDTxValid_inv t t' st st' (Hd Ht))
    as (doc&ex&sigmsg&Hdata&Hl&Hm&_&_&Hiv&Hact).
  unfold did_action in Hact. rewrite Ha in Hact. simpl in Hact.
  destruct (lookup_missing ex) eqn:Hmiss; [|done].
  assert (ex = Err ErrNotFound) as ->.
  { destruct ex; [done|]. simpl in Hmiss. by apply bool_decide_eq_true in Hmiss as ->. }
  unfold mbind, GoM_bind in Hact.
  destruct (Signed doc (tx_Signature t) sigmsg st') as [[[e|]|] st1] eqn:Hsig; try done.
  destruct (Signed_sound doc (tx_Signature t) sigmsg st') as (vm&?&?); [by rewrite Hsig|].
  by exists doc, sigmsg, vm.
Qed.

(** Updating or revoking a DID that is not registered is accepted, whatever
    the signature: the lookup error is dropped, the error wrapped in its place
    being [nil]. *)
Theorem IsTxValid_update_missing t doc e w' sigmsg st :
  tx_Version t = Version1 -> tx_Ts t <> 0%Z -> tx_From t <> ""%string ->
  tx_Type t = TxType_DID -> tx_Action t = TxActionUpdate \/ tx_Action t = TxActionRevoke ->
  tx_Data t = DataDID {| did_Document := Some doc |} ->
  LookupDID (v_s st) (doc_ID doc) (v_world st) = (Ret (Err e), w') ->
  IsValid doc (set_world w' st) = (Ret None, set_world w' st) ->
  Marshal (tx_set_Signature [] t) = Ok sigmsg ->
  tv_IsTxValid t st = (Ret (None, tx_set_Signature [] t), set_world w' st).
Proof.
  intros Hv Hts Hf Ht Ha Hd Hl Hiv Hm. unfold tv_IsTxValid.
  rewrite Hv, (bool_decide_false (tx_Ts t = 0%Z)), (bool_decide_false (tx_From t = ""%string)) by done.
  rewrite Hd, Ht. simpl. unfold isDIDTxValid. rewrite Hd.
  go_unfold. simpl. rewrite vs_run, Hl. simpl. rewrite Hm. simpl. rewrite Hiv.
  unfold did_action. simpl. by destruct Ha as [-> | ->].
Qed.

(** [IsBlockValid] points the validator back at its own store on every path:
    on success, on every error and on a panic. *)
Lemma IsBlockValid_restores b isNew st :
  v_s (tv_IsBlockValid b isNew st).2 = v_s st.
Proof.
  assert (forall A (m : H -> GoM W A) st, v_s (vs m st).2 = v_s st) as Hvs
    by (intros A m st1; by rewrite vs_run).
  unfold tv_IsBlockValid. go_unfold. rewrite vs_run.
  destruct (MarkBlock _ _ _ _) as [[[e|]|] w1]; try done. simpl.
  rewrite vs_run. destruct (AllTx _ _ _) as [[[txs|e]|] w2]; try done. simpl.
  rewrite vs_run. destruct (StartTest _ _) as [[[ms|e]|] w3]; try done. simpl.
  unfold gdefer. destruct (test_txs _ _ _ _) as [r st1]. rewrite vs_run.
  by destruct (CompleteTest _ _) as [[|] ?].
Qed.

Lemma test_txs_inv (I : VState -> Prop) (P : Cid * Tx -> Prop) b isNew txs st st' :
  (forall ct, preserves I (try_tx isNew ct)) ->
  (forall ct st st', I st -> try_tx isNew ct st = (Ret None, st') -> P ct) ->
  I st -> test_txs b isNew txs st = (Ret None, st') ->
  forall id t, txs !! id = Some t -> P (id, t).
Proof.
  intros HI HP Hst Hr id t Ht. unfold test_txs, gcheck_e, mbind, GoM_bind in Hr.
  destruct (gfor_e _ _ st) as [[[e|]|] st1] eqn:Hloop; try done.
  eapply gfor_e_ok in Hloop as [HF _]; [|done..].
  rewrite Forall_forall in HF. apply HF, list_elem_of_In. by apply elem_of_map_range.
Qed.

Lemma try_tx_inv isNew ct st st' :
  try_tx isNew ct st = (Ret None, st') ->
  exists t' st1, tv_IsTxValid ct.2 st = (Ret (None, t'), st1) /\
    exists st2, check_new isNew ct.1 st1 = (Ret None, st2).
Proof.
  unfold try_tx, gcheck_e, mbind, GoM_bind.
  destruct (tv_IsTxValid ct.2 st) as [[[[e|] t']|] st1]; try done.
  destruct (check_new isNew ct.1 st1) as [[[e|]|] st2] eqn:Hc; try done. eauto.
Qed.

(** What a block must satisfy to be valid: the phases of the check succeed. *)
Lemma IsBlockValid_inv b isNew st st' :
  tv_IsBlockValid b isNew st = (Ret None, st') ->
  exists w1 txs w2 ms w3 st2,
    MarkBlock (v_s st) (blk_ID b) BlockStateUnvalidated (v_world st) = (Ret None, w1) /\
    AllTx (v_s st) b w1 = (Ret (Ok txs), w2) /\
    StartTest (v_s st) w2 = (Ret (Ok ms), w3) /\
    test_txs b isNew txs {| v_world := w3; v_s := ms |} = (Ret None, st2).
Proof.
  unfold tv_IsBlockValid. go_unfold. rewrite vs_run.
  destruct (MarkBlock _ _ _ _) as [[[e|]|] w1] eqn:Hmark; try done. simpl.
  rewrite vs_run. simpl. destruct (AllTx _ _ _) as [[[txs|e]|] w2] eqn:Hall; try done. simpl.
  rewrite vs_run. simpl. destruct (StartTest _ _) as [[[ms|e]|] w3] eqn:Hstart; try done. simpl.
  unfold gdefer, set_s. simpl.
  destruct (test_txs _ _ _ _) as [r st1] eqn:Htest. intros Hr.
  exists w1, txs, w2, ms, w3, st1. split_and!; try done. rewrite Htest.
  by destruct (vs _ _) as [[|] ?]; simplify_eq.
Qed.

(** Every transaction of a block [IsBlockValid] accepts is of version 1, has
    a timestamp, a sender and data, and is a DID or a credential transaction: no
    block with a node transaction is ever valid. *)
Theorem valid_block_txs b isNew st st' :
  tv_IsBlockValid b isNew st = (Ret None, st') ->
  exists w1 txs w2,
    MarkBlock (v_s st) (blk_ID b) BlockStateUnvalidated (v_world st) = (Ret None, w1) /\
    AllTx (v_s st) b w1 = (Ret (Ok txs), w2) /\
    forall id t, txs !! id = Some t -> tx_stateless t.
Proof.
  intros Hr. destruct (IsBlockValid_inv b isNew st st' Hr) as (w1&txs&w2&ms&w3&st2&Hmk&Hall&_&Htest).
  exists w1, txs, w2. split_and!; [done..|]. intros id t Ht.
  eapply (test_txs_inv (fun _ => True) (fun ct => tx_stateless ct.2)); [done| |done..].
  intros ct s1 s2 _ (t'&s3&Hv&_)%try_tx_inv. by apply IsTxValid_inv in Hv as [? _].
Qed.
End TxFacts.

(** ** The validator over the in-memory store *)

Section MemValidator.
Context `{L : Lib} `{!TxCodec} `{!ChainCodec} `{!RangeOrder}.
Notation VState := (VState (gmap nat MemStore) nat).
Implicit Types st : VState.

(** The validator works on a store that is not [h], and [h] holds [m]. *)
Definition away (h : nat) (m : MemStore) (st : VState) : Prop :=
  v_s st <> h /\ v_world st !! h = Some m.

Lemma away_vs h m {A} (f : GoM MemStore A) : preserves (away h m) (vs (fun s => on s f)).
Proof.
  intros st [Hne Hm]. rewrite vs_run. split; [done|]. simpl. unfold on.
  destruct (v_world st !! v_s st) as [m2|]; [|done]. destruct (f m2) as [r m3]. simpl.
  by rewrite lookup_insert_ne.
Qed.

Lemma preserves_try_tx (I : VState -> Prop) isNew ct :
  (forall d, preserves I (vs (fun s => on s (mem_LookupDID d)))) ->
  (forall c, preserves I (vs (fun s => on s (mem_GetTxBlock c)))) ->
  (forall c t, preserves I (vs (fun s => on s (mem_ApplyTx c t)))) ->
  preserves I (try_tx isNew ct).
Proof.
  intros H1' H2' H3'. unfold try_tx. apply preserves_bind; [by apply preserves_IsTxValid|].
  intros [[e|] t]; [apply preserves_ret|]. apply preserves_check_e.
  - unfold check_new. destruct isNew; [|apply preserves_ret].
    apply preserves_bind; [apply H2'|]. intros [b|e]; [apply preserves_ret|].
    case_match; apply preserves_ret.
  - apply preserves_wrap_e, H3'.
Qed.

Lemma away_test_txs h m b isNew txs : preserves (away h m) (test_txs b isNew txs).
Proof.
  unfold test_txs. apply preserves_check_e.
  - apply preserves_for_e. intros ct. apply preserves_try_tx; intros; apply away_vs.
  - apply preserves_wrap_e, away_vs.
Qed.

Lemma mem_Mark_unvalidated b m :
  mem_MarkBlock b BlockStateUnvalidated m =
    (Ret None, set_bState (<[b := BlockStateUnvalidated]> (bState m)) m).
Proof. unfold mem_MarkBlock. go_unfold. by rewrite andb_false_r. Qed.

Lemma allTx_same b (m : MemStore) : (mem_AllTx b m).2 = m.
Proof. unfold mem_AllTx. destruct (allTxCids_run b m) as (r&Hr&_). by rewrite Hr. Qed.

Lemma IsBlockValid_world b isNew st m :
  v_world st !! v_s st = Some m ->
  v_world (tv_IsBlockValid b isNew st).2 !! v_s st =
    Some (set_bState (<[blk_ID b := BlockStateUnvalidated]> (bState m)) m).
Proof.
  intros Hm. set (m1 := set_bState _ m). unfold tv_IsBlockValid. go_unfold.
  rewrite vs_run. cbn [MarkBlock MemStore_Store].
  rewrite (on_run _ _ _ m Hm), mem_Mark_unvalidated. cbn [fst snd v_world v_s set_world Wrap].
  fold m1. rewrite vs_run. cbn [AllTx MemStore_Store v_world v_s set_world].
  rewrite (on_run _ _ _ m1) by (by rewrite lookup_insert_eq).
  rewrite allTx_same, insert_insert_eq. cbn [fst snd v_world v_s set_world].
  set (w1 := <[v_s st := m1]> (v_world st)). assert (w1 !! v_s st = Some m1) as Hw1
    by (by unfold w1; rewrite lookup_insert_eq).
  destruct (mem_AllTx b m1).1 as [[txs|e]|]; try done. simpl.
  rewrite vs_run. cbn [StartTest MemStore_Store v_world v_s set_world]. unfold mem_StartTest.
  rewrite Hw1. simpl. set (ms := fresh (dom w1)).
  assert (ms <> v_s st) as Hms.
  { intros Heq. apply (is_fresh (dom w1)). fold ms. rewrite Heq. apply elem_of_dom. by eexists. }
  unfold gdefer. destruct (test_txs _ _ _ _) as [r st1] eqn:Ht.
  assert (away (v_s st) m1 st1) as [_ Haw].
  { pose proof (away_test_txs (v_s st) m1 b isNew txs) as Hp.
    specialize (Hp {| v_world := <[ms := mem_copy m1]> w1; v_s := ms |}).
    unfold set_s in Ht. simpl in Ht. rewrite Ht in Hp. apply Hp. split; [done|]. simpl.
    by rewrite lookup_insert_ne. }
  rewrite vs_run. simpl. rewrite (on_run _ _ _ m1 Haw). simpl. by rewrite lookup_insert_eq.
Qed.

(** C23. Validation leaves no trace but a mark: whatever [IsBlockValid] returns,
    and also if it panics, the validator's own store is as it was, except that
    the block is marked unvalidated. *)
Theorem mem_IsBlockValid_isolated b isNew st m :
  v_world st !! v_s st = Some m ->
  v_s (tv_IsBlockValid b isNew st).2 = v_s st /\
  v_world (tv_IsBlockValid b isNew st).2 !! v_s st =
    Some (set_bState (<[blk_ID b := BlockStateUnvalidated]> (bState m)) m).
Proof. intros Hm. split; [apply IsBlockValid_restores|by apply IsBlockValid_world]. Qed.

(** The mark "validated" is made on the scratch store and is lost, so
    accepting a block that was found valid indexes none of its transactions: it
    only records the state. *)
Lemma valid_block_not_indexed b isNew st st' m :
  v_world st !! v_s st = Some m -> tv_IsBlockValid b isNew st = (Ret None, st') ->
  exists m1, v_world st' !! v_s st = Some m1 /\
    mem_MarkBlock (blk_ID b) BlockStateAccepted m1 =
      (Ret None, set_bState (<[blk_ID b := BlockStateAccepted]> (bState m1)) m1) /\
    txbIndex m1 = txbIndex m /\ dids m1 = dids m /\ nodes m1 = nodes m.
Proof.
  intros Hm Hr. pose proof (IsBlockValid_world b isNew st m Hm) as Hw. rewrite Hr in Hw.
  eexists. split; [exact Hw|]. destruct m as [o t bs n d c l g]. simpl. split_and!; [|done..].
  unfold mem_MarkBlock. go_unfold. simpl. by rewrite lookup_insert_eq.
Qed.

(** The chain part of a store is unchanged. *)
Definition same_index (m : MemStore) (ms : nat) (st : VState) : Prop :=
  v_s st = ms /\ exists m2, v_world st !! ms = Some m2 /\
    txbIndex m2 = txbIndex m /\ objects m2 = objects m.

Lemma same_index_vs m ms {A} (f : GoM MemStore A) :
  (forall m, txbIndex (f m).2 = txbIndex m /\ objects (f m).2 = objects m) ->
  preserves (same_index m ms) (vs (fun s => on s f)).
Proof.
  intros Hf st [<- (m2&Hm2&Hi&Ho)]. rewrite vs_run. split; [done|]. simpl.
  rewrite (on_run _ _ _ m2 Hm2). simpl. exists (f m2).2. rewrite lookup_insert_eq.
  destruct (Hf m2) as [-> ->]. done.
Qed.

Lemma mem_read_same {A} (f : MemStore -> A) m :
  txbIndex (ggets f m).2 = txbIndex m /\ objects (ggets f m).2 = objects m.
Proof. done. Qed.

Lemma mem_ApplyTx_same c t m :
  txbIndex (mem_ApplyTx c t m).2 = txbIndex m /\ objects (mem_ApplyTx c t m).2 = objects m.
Proof.
  unfold mem_ApplyTx. go_unfold. destruct (wrap _ _); [|done]. destruct m.
  repeat case_bool_decide; simpl; by repeat case_match; simplify_eq/=.
Qed.

Lemma mem_GetTxBlock_same c m : (mem_GetTxBlock c m).2 = m.
Proof. unfold mem_GetTxBlock, mem_GetBlock. go_unfold. by destruct (txbIndex m !! c). Qed.

Lemma mem_LookupDID_same c m : (mem_LookupDID c m).2 = m.
Proof.
  unfold mem_LookupDID. go_unfold. destruct (dids m !! c); [|done]. by destruct (getObj _ _).
Qed.

Lemma same_index_try_tx m ms isNew ct : preserves (same_index m ms) (try_tx isNew ct).
Proof.
  apply preserves_try_tx; intros; apply same_index_vs; intros m2.
  - by rewrite mem_LookupDID_same.
  - by rewrite mem_GetTxBlock_same.
  - apply mem_ApplyTx_same.
Qed.

Lemma read_txblock_same c m m2 :
  txbIndex m2 = txbIndex m -> objects m2 = objects m ->
  (mem_GetTxBlock c m2).1 = (mem_GetTxBlock c m).1.
Proof.
  intros Hi Ho. unfold mem_GetTxBlock. go_unfold. rewrite Hi.
  destruct (txbIndex m !! c); [|done]. simpl. by rewrite (same_chain_block m m2 _ Ho).
Qed.

(** C21. No transaction is accepted twice: if a new block is valid, none of its
    transactions is found in a block the store has. *)
Theorem valid_new_block_fresh b st st' m :
  v_world st !! v_s st = Some m -> tv_IsBlockValid b true st = (Ret None, st') ->
  exists txs, (mem_AllTx b m).1 = Ret (Ok txs) /\
    forall id, id ∈ dom txs -> exists e,
      (mem_GetTxBlock id m).1 = Ret (Err e) /\ errors_Is e ErrNotFound = true.
Proof.
  intros Hm Hr. destruct (IsBlockValid_inv b true st st' Hr) as
    (w1&txs&w2&ms&w3&st2&Hmark&Hall&Hstart&Htest).
  simpl in Hmark, Hall, Hstart. rewrite (on_run _ _ _ m Hm), mem_Mark_unvalidated in Hmark.
  simpl in Hmark. injection Hmark as <-. set (m1 := set_bState _ m) in *.
  rewrite (on_run _ _ _ m1) in Hall by (by rewrite lookup_insert_eq).
  rewrite allTx_same, insert_insert_eq in Hall. injection Hall as Hall <-.
  unfold mem_StartTest in Hstart. rewrite lookup_insert_eq in Hstart. injection Hstart as <- <-.
  exists txs. split.
  { unfold mem_AllTx, m1 in *. rewrite allTxCids_objects in Hall. by destruct (allTxCids b m). }
  intros id [t Ht]%elem_of_dom.
  eapply (test_txs_inv (same_index m _) (fun ct => exists e,
    (mem_GetTxBlock ct.1 m).1 = Ret (Err e) /\ errors_Is e ErrNotFound = true))
    with (id := id) (t := t); [intros; apply same_index_try_tx| | |exact Htest|exact Ht].
  2: { split; [done|]. exists (mem_copy m1). simpl. rewrite lookup_insert_eq. by destruct m. }
  intros ct s1 s2 HI Htry. apply try_tx_inv in Htry as (t'&s3&Hv&s4&Hc).
  assert (same_index m (fresh (dom (<[v_s st := m1]> (v_world st)))) s3) as [Hs3 (m3&Hm3&Hi&Ho)].
  { pose proof (preserves_IsTxValid (same_index m (fresh (dom (<[v_s st := m1]> (v_world st))))) ct.2)
      as Hp. specialize (Hp ltac:(intros; apply same_index_vs; intros; by rewrite mem_LookupDID_same)).
    specialize (Hp s1 HI). by rewrite Hv in Hp. }
  unfold check_new in Hc. unfold mbind, GoM_bind in Hc. rewrite vs_run in Hc. simpl in Hc.
  rewrite Hs3, (on_run _ _ _ m3 Hm3), (read_txblock_same ct.1 m m3 Hi Ho) in Hc. simpl in Hc.
  destruct (mem_GetTxBlock ct.1 m).1 as [[b'|e]|]; try done. exists e. split; [done|].
  by destruct (errors_Is e ErrNotFound).
Qed.
End MemValidator.

(** ** A concrete registration *)

Section Demo.
Import Toy.
#[local] Existing Instance range_asc.

Definition demo_key : Bls12381PrivateKey := {| bls_sk := [x05] |}.
Definition demo_vm : VerificationMethod := {|
  vm_ID := "did:didem:alice#k1"; vm_Type := Bls12381G2Key2020;
  vm_Controller := "did:didem:alice"; vm_PublicKeyJwk := None;
  vm_PublicKeyMultibase := "z" +:+ string_of_bytes [x50; x05]
|}.
Definition demo_doc : Document := {|
  doc_Context := []; doc_ID := "did:didem:alice"; doc_AlsoKnownAs := []; doc_Controller := [];
  doc_VerificationMethod := [demo_vm]; doc_Authentication := []; doc_AssertionMethod := [];
  doc_KeyAgreement := []; doc_CapabilityInvocation := []; doc_CapabilityDelegation := [];
  doc_Service := []
|}.
Definition demo_unsigned (action : Z) : Tx := {|
  tx_Version := Version1; tx_Ts := 9; tx_From := "did:didem:alice"; tx_Type := TxType_DID;
  tx_Action := action; tx_Data := DataDID {| did_Document := Some demo_doc |}; tx_Signature := []
|}.
Definition demo_msg : bytes :=
  match Marshal (demo_unsigned TxActionAdd) with Ok b => b | Err _ => [] end.
Definition demo_sig : bytes := [x05] ++ demo_msg.
Definition demo_tx : Tx := tx_set_Signature demo_sig (demo_unsigned TxActionAdd).

(** A store with a block that registers the document. *)
Definition demo_w0 : gmap nat MemStore := {[ 0 := NewMemStore ]}.
Definition demo_txid : Cid := obj_cid (ok_opt (msgpack_Marshal_Tx demo_tx)).
Definition demo_w1 : gmap nat MemStore := (PutTx 0 demo_tx demo_w0).2.
Definition demo_w2 : gmap nat MemStore := (NewTxSet 0 [demo_txid] demo_w1).2.
Definition demo_m2 : MemStore := from_option id NewMemStore (demo_w2 !! 0).
Definition demo_blk : Block := {|
  blk_Version := 1; blk_ID := Some [x0a]; blk_Parent := cid_Undef; blk_Height := 1;
  blk_CreatedAt := 1; blk_Proposer := ""; blk_Signature := []; blk_Nonce := [];
  blk_Bloom := [];
  blk_TxRoot := match (NewTxSet 0 [demo_txid] demo_w1).1 with Ret (Ok s) => ts_cid s | _ => cid_Undef end
|}.
Definition demo_st : VState (gmap nat MemStore) nat := {| v_world := {[ 0 := demo_m2 ]}; v_s := 0 |}.

Lemma demo_safe : Forall vm_safe (doc_VerificationMethod demo_doc).
Proof. repeat constructor. intros Ht. discriminate Ht. Qed.

Lemma Signed_iff_witness :
  Signed demo_doc demo_sig demo_msg tt = (Ret None, tt) /\
  exists vm, vm ∈ doc_VerificationMethod demo_doc /\ vm_accepts tt vm demo_sig demo_msg.
Proof.
  assert (Signed demo_doc demo_sig demo_msg tt = (Ret None, tt)) as Hs by by_vm.
  split; [exact Hs|]. exact (proj1 (Signed_iff demo_doc demo_sig demo_msg tt demo_safe) Hs).
Defined.

Lemma Signed_bls_witness : Signed demo_doc demo_sig demo_msg tt = (Ret None, tt).
Proof.
  apply (Signed_bls demo_doc demo_vm demo_key demo_msg demo_sig (vm_PublicKeyMultibase demo_vm) tt
    demo_safe); [by left|done|by_vm|done|done].
Defined.

Lemma demo_tx_run :
  tv_IsTxValid demo_tx demo_st = (Ret (None, tx_set_Signature [] demo_tx), (tv_IsTxValid demo_tx demo_st).2).
Proof. apply pair_fst. by_vm. Qed.

Lemma IsTxValid_add_sound_witness :
  tx_stateless demo_tx /\
  exists doc sigmsg vm,
    tx_Data demo_tx = DataDID {| did_Document := Some doc |} /\
    (LookupDID (v_s demo_st) (doc_ID doc) (v_world demo_st)).1 = Ret (Err ErrNotFound) /\
    IsValid doc (tv_IsTxValid demo_tx demo_st).2 = (Ret None, (tv_IsTxValid demo_tx demo_st).2) /\
    Marshal (tx_set_Signature [] demo_tx) = Ok sigmsg /\
    vm ∈ doc_VerificationMethod doc /\
    vm_accepts (tv_IsTxValid demo_tx demo_st).2 vm (tx_Signature demo_tx) sigmsg.
Proof. exact (IsTxValid_add_sound _ _ _ _ demo_tx_run eq_refl eq_refl). Defined.

(** A revocation of the same DID, which is not registered, with an empty
    signature. *)
Lemma IsTxValid_update_missing_witness :
  tv_IsTxValid (demo_unsigned TxActionRevoke) demo_st =
    (Ret (None, demo_unsigned TxActionRevoke), set_world (v_world demo_st) demo_st).
Proof.
  refine (IsTxValid_update_missing (demo_unsigned TxActionRevoke) demo_doc ErrNotFound _
    (match Marshal (demo_unsigned TxActionRevoke) with Ok b => b | Err _ => [] end) demo_st
    eq_refl _ _ eq_refl (or_intror eq_refl) eq_refl _ _ _); [done|done| |by_vm|by_vm].
  simpl. rewrite (on_run 0 _ _ demo_m2) by apply lookup_singleton_eq.
  rewrite mem_LookupDID_same, insert_id by apply lookup_singleton_eq.
  f_equal.
Defined.

Lemma demo_blk_run :
  tv_IsBlockValid demo_blk true demo_st = (Ret None, (tv_IsBlockValid demo_blk true demo_st).2).
Proof. apply pair_fst. by_vm. Qed.

Lemma valid_block_txs_witness :
  exists w1 txs w2,
    MarkBlock (v_s demo_st) (blk_ID demo_blk) BlockStateUnvalidated (v_world demo_st) = (Ret None, w1) /\
    AllTx (v_s demo_st) demo_blk w1 = (Ret (Ok txs), w2) /\
    forall id t, txs !! id = Some t -> tx_stateless t.
Proof. exact (valid_block_txs _ _ _ _ demo_blk_run). Defined.

Lemma mem_IsBlockValid_isolated_witness :
  v_s (tv_IsBlockValid demo_blk true demo_st).2 = 0 /\
  v_world (tv_IsBlockValid demo_blk true demo_st).2 !! 0 =
    Some (set_bState (<[blk_ID demo_blk := BlockStateUnvalidated]> (bState demo_m2)) demo_m2).
Proof. exact (mem_IsBlockValid_isolated demo_blk true demo_st demo_m2 (lookup_singleton_eq _ _)). Defined.

Lemma valid_block_not_indexed_witness :
  exists m1, v_world (tv_IsBlockValid demo_blk true demo_st).2 !! 0 = Some m1 /\
    mem_MarkBlock (blk_ID demo_blk) BlockStateAccepted m1 =
      (Ret None, set_bState (<[blk_ID demo_blk := BlockStateAccepted]> (bState m1)) m1) /\
    txbIndex m1 = txbIndex demo_m2 /\ dids m1 = dids demo_m2 /\ nodes m1 = nodes demo_m2.
Proof.
  exact (valid_block_not_indexed demo_blk true demo_st _ demo_m2 (lookup_singleton_eq _ _)
    demo_blk_run).
Defined.

Lemma valid_new_block_fresh_witness :
  exists txs, (mem_AllTx demo_blk demo_m2).1 = Ret (Ok txs) /\
    forall id, id ∈ dom txs -> exists e,
      (mem_GetTxBlock id demo_m2).1 = Ret (Err e) /\ errors_Is e ErrNotFound = true.
Proof.
  exact (valid_new_block_fresh demo_blk demo_st _ demo_m2 (lookup_singleton_eq _ _)
    demo_blk_run).
Defined.
End Demo.
End ValidatorFacts.
