(* ===== verification/IpfsGenesis.v ===== *)
(** * The genesis block of the persistent store, and the histories of DIDs *)

From S2P Require Import Prelude Externals W3cDid Tx Chain ChainFacts Ipfs IpfsFacts IpfsProps.
From S2P Require Import IpfsBlocks.

Module IpfsGenesis.
Import W3cDid Tx Chain ChainFacts Ipfs IpfsFacts IpfsProps IpfsBlocks.

Section Genesis.
Context `{L : Lib} `{!TxCodec} `{!ChainCodec} `{!RangeOrder} `{!Pebble} `{!Ipfs}.
Context `{!PebbleLaws} `{!IpfsLaws} `{!TxCodecLaws} `{!ChainCodecLaws}.

(** ** Nothing is written unless everything is *)

Lemma viewed_genesis_one D st h b txs t : preserves (viewed D st) (genesis_one h b txs t).
Proof.
  apply preserves_try.
  { apply preserves_wrap, viewed_preserves. intros. apply untouched_PutTx. }
  intros c. unfold gcheck. apply preserves_bind; [|intros []; apply preserves_ret].
  apply preserves_wrap_e, viewed_preserves. intros. apply untouched_ApplyTx.
Qed.

Lemma viewed_genesis_commit D st b g : err_keeps (viewed D st) (genesis_commit b g).
Proof.
  apply err_keeps_try_e; [apply preserves_wrap, viewed_preserves; intros; apply untouched_PutBlock|].
  intros c. do 2 (apply err_keeps_check_e;
    [apply preserves_wrap_e, viewed_preserves; intros; apply untouched_on_batch|]).
  apply err_keeps_bind; [apply viewed_preserves; intros; apply untouched_get_batch|].
  intros x. apply err_keeps_wrap_e, viewed_commit.
Qed.

Lemma viewed_genesis D st h g : err_keeps (viewed D st) (ipfs_ApplyGenesis h g).
Proof.
  apply err_keeps_bind; [apply viewed_preserves; intros; apply untouched_new_batch|intros b].
  apply err_keeps_try_e; [apply preserves_fold; intros; apply viewed_genesis_one|intros txs].
  apply err_keeps_try_e.
  - apply preserves_wrap. apply (preserves_NewTxSet (Store0 := ipfs_methods _)).
    intros s. apply viewed_preserves. intros. apply untouched_PutSet.
  - intros set. case_bool_decide; [apply viewed_genesis_commit|apply err_keeps_preserves, preserves_ret].
Qed.

(** ** What a success leaves *)

(** The transactions [l] are stored under [cids], and [b] is still a batch. *)
Lemma genesis_fold h b l acc txs w w' :
  Forall (fun t => tx_typed t = true) l -> is_Some (w_batches w !! b) ->
  gfold l acc (genesis_one h b) w = (Ret (Ok txs), w') ->
  exists cids, txs = acc ++ cids /\ keeps (w_ipfs w) (w_ipfs w') /\
    Forall2 (fun c t => ipfs_read_tx (w_ipfs w') c = Ok t) cids l /\ is_Some (w_batches w' !! b).
Proof.
  intros Hl. revert acc w. induction Hl as [|t l Ht Hl IH]; intros acc w Hb; simpl.
  { intros [= <- <-]. exists []. rewrite app_nil_r. split_and!; [done|apply keeps_refl|constructor|done]. }
  intros (acc1&w1&Hone&Hr)%try_inv. apply try_inv in Hone as (c&w2&Hput%wrap_inv&Hone).
  destruct (ipfs_PutTx_spec t w Ht) as (r&w2'&Hput'&[Hk2 (Hd2&Hb2&Hs2)]&Hread).
  rewrite Hput in Hput'. injection Hput' as <- <-. destruct (Hread c eq_refl) as [_ Hc].
  apply check_inv in Hone as (w3&Happ%wrap_e_inv&Hacc). injection Hacc as <- <-.
  destruct (ipfs_ApplyTx_spec _ _ _ _ _ _ Happ) as (b'&Hb'&_&(x&x'&Hx&->&_)).
  destruct Hb' as [[= <-]|[? _]]; [|done].
  apply IH in Hr as (cids&->&Hk&HF&Hb1); [|eexists; apply lookup_insert_eq].
  exists (c :: cids). split_and!; [by rewrite <- app_assoc|by eapply keeps_trans| |done].
  constructor; [|done]. rewrite <- Hc. apply (keeps_tx (w_ipfs w2)); [exact Hk|by rewrite Hc].
Qed.

(** [NewTxSet] does not call the method it is called from. *)
Lemma NewTxSet_receiver f h txs :
  NewTxSet (Store0 := ipfs_methods f) h txs = NewTxSet (Store0 := IPFSStorage_Store) h txs.
Proof. reflexivity. Qed.

Lemma NewTxSet_batches h txs B :
  preserves (fun w : World => w_batches w = B) (NewTxSet h txs).
Proof.
  apply preserves_NewTxSet. intros s w Hw. simpl.
  destruct (ipfs_PutSet_spec s w) as (r&w'&Hr&[_ (_&Hb&_)]&_). change (PutSet h s w) with (ipfs_PutSet s w).
  rewrite Hr. simpl. congruence.
Qed.

Lemma NewTxSet_length h txs w set w' :
  NewTxSet h txs w = (Ret (Ok set), w') -> length txs <= MaxBlockTxCount.
Proof.
  intros Hr. destruct (decide (MaxBlockTxCount < length txs)) as [Hlt|]; [|lia]. unfold NewTxSet in Hr.
  by rewrite decide_True in Hr by by rewrite sort_cids_perm.
Qed.

(** The set is over the transactions, in a store that still has them. *)
Lemma genesis_set h txs w set w' :
  NewTxSet h txs w = (Ret (Ok set), w') -> Forall (fun c => c <> cid_Undef) txs ->
  length txs <= MaxBlockTxCount /\ w_batches w' = w_batches w /\ ts_cid set <> cid_Undef /\
  holds (ipfs_read_set (w_ipfs w')) (ts_cid set) (list_to_set txs) /\
  (forall c t, ipfs_read_tx (w_ipfs w) c = Ok t -> ipfs_read_tx (w_ipfs w') c = Ok t).
Proof.
  intros Hr Hd. assert (txs <> []) as Hne by (intros ->; done).
  pose proof (NewTxSet_length _ _ _ _ _ Hr) as Hlen. split; [done|]. split.
  { pose proof (NewTxSet_batches h txs (w_batches w) w eq_refl) as Hb. by rewrite Hr in Hb. }
  pose proof (NewTxSet_wp h txs w Hne Hlen Hd I) as Hwp. unfold wp in Hwp. rewrite Hr in Hwp.
  destruct Hwp as (_&[_ Htx]&Hok&_). destruct (Hok set eq_refl) as (Hh&_&Hu&_). split_and!; [done..|].
  intros c t Hc. simpl in Htx. rewrite Htx; [done|]. by rewrite Hc.
Qed.

(** Two entries more in the batch, then the commit. *)
Lemma genesis_commit_inv h b g w w' :
  persistent w h -> is_Some (w_batches w !! b) -> blk_TxRoot (gen_Block g) <> cid_Undef ->
  genesis_commit b g w = (Ret None, w') ->
  exists bcid blk, bcid <> cid_Undef /\ ipfs_read_block (w_ipfs w') bcid = Ok blk /\
    blk_TxRoot blk = blk_TxRoot (gen_Block g) /\ blk_Height blk = blk_Height (gen_Block g) /\
    keeps (w_ipfs w) (w_ipfs w') /\ (w_stores w = w_stores w' -> persistent w' h) /\
    w_stores w' = w_stores w /\
    db_view (w_db w') !! latestkey = Some (cid_Bytes bcid) /\
    db_view (w_db w') !! typedKey genesisTPrefix [] = Some [].
Proof.
  intros Hp [x Hx] Hdef (bcid&w1&Hput%wrap_inv&Hr)%try_e_inv.
  destruct (ipfs_PutBlock_spec (gen_Block g) w) as (r&w1'&Hput'&[Hk (Hd1&Hb1&Hs1)]&Hread).
  rewrite Hput in Hput'. injection Hput' as <- <-.
  destruct (Hread bcid eq_refl) as [Hu (blk&Hblk&_&Hroot&Hheight)%(fun H => H Hdef)].
  apply check_e_inv in Hr as (w2&Hl%wrap_e_inv%on_batch_set&Hr).
  apply check_e_inv in Hr as (w3&Hg%wrap_e_inv%on_batch_set&Hr).
  pose proof (batch_wrote_trans _ _ _ _ _ _ Hl Hg) as (x1&x3&Hx1&->&Hv).
  rewrite Hb1, Hx in Hx1. injection Hx1 as <-.
  apply bind_inv in Hr as (x'&w4&Hget&Hr). rewrite (get_batch_run _ _ x3) in Hget by apply lookup_insert_eq.
  injection Hget as <- <-. apply wrap_e_inv in Hr. unfold on_db in Hr.
  destruct (batch_Commit x3 _) as [e d] eqn:Hc. injection Hr as -> <-.
  exists bcid, blk. simpl in *. split_and!; try done.
  - intros _. unfold persistent. simpl. by rewrite Hs1.
  - rewrite (batch_Commit_view _ _ _ Hc), Hv, lookup_overlay, <- (assoc_L (∪)).
    rewrite lookup_union_r by by rewrite lookup_singleton_ne.
    by rewrite (lookup_union_Some_l _ _ _ (Some (cid_Bytes bcid))) by apply lookup_singleton_eq.
  - rewrite (batch_Commit_view _ _ _ Hc), Hv, lookup_overlay, <- (assoc_L (∪)).
    by rewrite (lookup_union_Some_l _ _ _ (Some [])) by apply lookup_singleton_eq.
Qed.

(** Walking the set of the stored transactions [l]. *)
Lemma genesis_walk w root cids l :
  length cids <= MaxBlockTxCount ->
  holds (ipfs_read_set (w_ipfs w)) root (list_to_set cids) ->
  Forall2 (fun c t => ipfs_read_tx (w_ipfs w) c = Ok t) cids l ->
  exists m, (forall b, blk_TxRoot b = root -> ipfs_AllTx b w = (Ret (Ok m), w)) /\
    forall t, t ∈ l <-> exists c, m !! c = Some t.
Proof.
  intros Hlen Hholds HF.
  assert (exists m, (forall b, blk_TxRoot b = root -> ipfs_AllTx b w = (Ret (Ok m), w)) /\
    dom m = list_to_set cids /\
    forall c v, m !! c = Some v -> ipfs_read_tx (w_ipfs w) c = Ok v) as (m&Hrun&Hdom&Hm).
  { assert (forall b, blk_TxRoot b = root -> exists m, ipfs_AllTx b w = (Ret (Ok m), w) /\
      dom m = list_to_set cids /\ forall c v, m !! c = Some v -> ipfs_read_tx (w_ipfs w) c = Ok v) as Hall.
    { intros b Hb. destruct (ipfs_AllTx_run b w) as (r&Hr&Hwalk). rewrite Hb in Hwalk.
      destruct (walks_to_holds (ipfs_read_set (w_ipfs w)) (ipfs_read_tx (w_ipfs w)) (list_to_set cids) root r) as (m&->&Hd&Hm); [..|by exists m]; try done.
      - etrans; [apply list_to_set_size|done].
      - intros c Hc%elem_of_list_to_set. apply list_elem_of_lookup in Hc as [i Hi].
        destruct (Forall2_lookup_l _ _ _ _ _ HF Hi) as (t&_&Ht). by rewrite Ht. }
    set (b0 := {| blk_Version := 0; blk_ID := cid_Undef; blk_Parent := cid_Undef; blk_Height := 0;
      blk_CreatedAt := 0; blk_Proposer := ""; blk_Signature := []; blk_Nonce := []; blk_Bloom := [];
      blk_TxRoot := root |}).
    destruct (Hall b0 eq_refl) as (m&Hr&Hd&Hm). exists m. split_and!; [|done..].
    intros b Hb. rewrite <- Hr. unfold ipfs_AllTx. by rewrite Hb. }
  exists m. split; [done|]. intros t. split.
  - intros Ht. apply list_elem_of_lookup in Ht as [i Hi].
    destruct (Forall2_lookup_r _ _ _ _ _ HF Hi) as (c&Hc&Hread). exists c.
    assert (c ∈ dom m) as [v Hv]%elem_of_dom
      by (rewrite Hdom, elem_of_list_to_set; by eapply list_elem_of_lookup_2).
    pose proof (Hm c v Hv) as Hv'. simpl in Hread. rewrite Hread in Hv'. by injection Hv' as ->.
  - intros (c&Hc). assert (c ∈ dom m) as Hin by (apply elem_of_dom; by eexists).
    rewrite Hdom, elem_of_list_to_set in Hin. apply list_elem_of_lookup in Hin as [i Hi].
    destruct (Forall2_lookup_l _ _ _ _ _ HF Hi) as (t'&Ht'&Hread).
    pose proof (Hm c t Hc) as Hv. simpl in Hread. rewrite Hread in Hv. injection Hv as ->.
    apply list_elem_of_lookup. by exists i.
Qed.

(** C15. The genesis is applied as a whole or not at all: if [ApplyGenesis] fails,
    or panics, the database is as it was; if it succeeds, the genesis is recorded
    as applied and the last applied block is the genesis block, whose set holds
    exactly the transactions of the genesis. *)
Theorem ipfs_genesis_atomic `{!CidLaws} h g w :
  persistent w h -> Forall (fun t => tx_typed t = true) (gen_Txs g) ->
  match ipfs_ApplyGenesis h g w with
  | (Ret None, w') =>
      ipfs_HasGenesisApplied h w' = (Ret true, w') /\
      exists blk m, ipfs_GetLastApplied h w' = (Ret (Ok (Some blk)), w') /\
        blk_TxRoot blk = blk_TxRoot (gen_Block g) /\ blk_Height blk = blk_Height (gen_Block g) /\
        ipfs_AllTx blk w' = (Ret (Ok m), w') /\
        forall t, t ∈ gen_Txs g <-> exists c, m !! c = Some t
  | (_, w') => db_view (w_db w') = db_view (w_db w)
  end.
Proof.
  intros Hp Hl. destruct (ipfs_ApplyGenesis h g w) as [r w'] eqn:Hr.
  assert (r <> Ret None -> db_view (w_db w') = db_view (w_db w)) as Hkeep.
  { intros Hne. by eapply viewed_genesis; [|exact Hr|]. }
  destruct r as [[e|]|]; [by apply Hkeep| |by apply Hkeep]. clear Hkeep.
  apply bind_inv in Hr as (b&w1&Hnew&Hr). rewrite new_batch_run in Hnew. injection Hnew as <- <-.
  apply try_e_inv in Hr as (txs&w2&Hfold&Hr). set (b := fresh _) in *. set (w1 := set_batches _ w) in *.
  assert (preserves (viewed (db_view (w_db w)) (w_stores w))
    (gfold (gen_Txs g) [] (genesis_one h b))) as Hkeep2
    by (apply preserves_fold; intros; apply viewed_genesis_one).
  specialize (Hkeep2 w1 ltac:(done)). rewrite Hfold in Hkeep2. destruct Hkeep2 as [_ Hs2].
  apply genesis_fold in Hfold as (cids&->&_&HF&Hb2); [|done|eexists; apply lookup_insert_eq].
  rewrite app_nil_l in Hr. apply try_e_inv in Hr as (set&w3&Hset%wrap_inv&Hr).
  rewrite NewTxSet_receiver in Hset.
  pose proof (preserves_NewTxSet (fun w' => w_stores w' = w_stores w) h
    ltac:(intros s' w0 Hw0; exact (proj2 (untouched_PutSet (w_db w0) (w_stores w) s' w0 (conj eq_refl Hw0))))
    cids w2 Hs2) as Hs3.
  rewrite Hset in Hs3. simpl in Hs3.
  assert (Forall (fun c => c <> cid_Undef) cids) as Hd.
  { eapply Forall2_Forall_l; [exact HF|]. apply Forall_true. intros t c Hc.
    apply (view_tx_defined (ContentStore := IPFSStorage_ContentStore) h c w2 I). simpl. by rewrite Hc. }
  destruct (genesis_set h cids w2 set w3 Hset Hd) as (Hlen&Hb3&Hu'&Hholds&Hread).
  case_bool_decide as Hroot; [|done]. rewrite <- Hb3 in Hb2.
  assert (persistent w3 h) as Hp3 by (unfold persistent; by rewrite Hs3).
  destruct (genesis_commit_inv _ _ _ _ _ Hp3 Hb2 ltac:(by rewrite <- Hroot) Hr)
    as (bcid&blk&Hu&Hblk&Hblkroot&Hheight&Hk&_&Hs'&Hlatest&Hgen).
  assert (meta_view w' h = Some (db_view (w_db w'))) as Hm'.
  { apply persistent_view. unfold persistent. by rewrite Hs'. }
  split.
  { unfold ipfs_HasGenesisApplied. go_unfold. by rewrite (metadataGet_run _ _ _ _ Hm'), Hgen. }
  destruct (genesis_walk w' (blk_TxRoot blk) cids (gen_Txs g)) as (m&Hwalk&Hm).
  { done. }
  { rewrite Hblkroot, <- Hroot. eapply holds_mono; [|exact Hholds]. intros c. by apply keeps_set. }
  { eapply Forall2_impl; [|exact HF]. intros c t Hc%Hread. rewrite <- Hc. apply (keeps_tx (w_ipfs w3)); [done|]. by rewrite Hc. }
  exists blk, m. split_and!; [|done..| |done].
  - unfold ipfs_GetLastApplied, ipfs_GetBlock. fold latestkey. go_unfold.
    rewrite (metadataGet_run _ _ _ _ Hm'), Hlatest. simpl. rewrite cid_Cast_Bytes by done. simpl.
    by rewrite Hblk.
  - by apply Hwalk.
Qed.
End Genesis.

(** ** The history of a DID *)

Section History.
Context `{L : Lib} `{!TxCodec} `{!ChainCodec} `{!RangeOrder} `{!Pebble} `{!Ipfs}.

(** The identifiers among [cids] whose transaction cannot be fetched. *)
Definition unreadable (n : IPFS) (cids : list Cid) : list Cid :=
  filter (fun c => is_ok (ipfs_read_tx n c) = false) cids.

Lemma history_workers_spec n workers cids txs :
  (length (unreadable n cids) < workers ->
   history_workers n workers cids txs = Some (txs ++ omap (fun c => ok_opt (ipfs_read_tx n c)) cids)) /\
  (workers < length (unreadable n cids) -> history_workers n workers cids txs = None).
Proof.
  revert workers txs. induction cids as [|c cids IH]; intros workers txs; simpl.
  { split; [by rewrite app_nil_r|lia]. }
  unfold unreadable in *. destruct (ipfs_read_tx n c) as [t|e] eqn:Hc; simpl.
  - rewrite filter_cons_False by by rewrite Hc. destruct workers as [|rest].
    { split; [lia|done]. }
    destruct (IH (S rest) (txs ++ [t])) as [IH1 IH2]. split; [|done].
    intros Hlt. rewrite IH1 by done. by rewrite <- app_assoc.
  - rewrite filter_cons_True by by rewrite Hc. simpl. destruct workers as [|rest].
    { split; [lia|done]. }
    destruct (IH rest txs) as [IH1 IH2]. split; intros Hw; [apply IH1|apply IH2]; exact (proj2 (Nat.succ_lt_mono _ _) Hw).
Qed.

Lemma history_range k :
  bytes_leb [didHisoryTPrefix] k = true -> bytes_leb [x05] k = false ->
  k = didHisoryTPrefix :: drop 1 k.
Proof. destruct k as [|x k]; [done|]. destruct x; simpl; done. Qed.

Lemma unreadable_perm n l1 l2 : l1 ≡ₚ l2 -> length (unreadable n l1) = length (unreadable n l2).
Proof. intros Hp. unfold unreadable. by rewrite Hp. Qed.

(** C24. [DIDHistory] fetches every identifier of the history table, not only
    those of the DID it is asked about.  Transactions that cannot be fetched are
    left out without an error while there are fewer of them than workers; when
    there are more, every worker is blocked and the call never returns. *)
Theorem ipfs_DIDHistory_outcome `{!PebbleLaws} h id m w :
  meta_view w h = Some m ->
  exists cids, NoDup cids /\
    (forall c, c ∈ cids <-> exists k v, m !! (didHisoryTPrefix :: k) = Some v /\ cid_Cast v = Ok c) /\
    (length (unreadable (w_ipfs w) cids) < allTxNWorkers ->
      exists txs, ipfs_DIDHistory h id w = (Ret (Some (Ok txs)), w) /\
        txs ≡ₚ omap (fun c => ok_opt (ipfs_read_tx (w_ipfs w) c)) cids) /\
    (allTxNWorkers < length (unreadable (w_ipfs w) cids) -> ipfs_DIDHistory h id w = (Ret None, w)).
Proof.
  intros Hm. destruct (metadataNewIter_run _ _ _ [didHisoryTPrefix] [x05] Hm) as (l&Hl&_&_&Hin).
  set (S := list_to_set (omap (fun kv => ok_opt (cid_Cast kv.2)) l) : gset Cid).
  assert (forall r, r = history_workers (w_ipfs w) allTxNWorkers (range_order (elements S)) [] ->
    ipfs_DIDHistory h id w = (Ret (Ok <$> r), w)) as Hrun.
  { intros r ->. unfold ipfs_DIDHistory. go_unfold. by rewrite Hl. }
  destruct (history_workers_spec (w_ipfs w) allTxNWorkers (range_order (elements S)) []) as [Hok Hhang].
  rewrite (unreadable_perm _ _ _ (range_order_perm (elements S))) in Hok, Hhang.
  exists (elements S). split; [apply NoDup_elements|]. split; [|split].
  - intros c. rewrite elem_of_elements. unfold S. rewrite elem_of_list_to_set, list_elem_of_omap. split.
    + intros ([k v]&Hk&Hc). apply Hin in Hk as (Hk&Hlo&Hhi). simpl in Hc.
      destruct (cid_Cast v) as [c'|] eqn:Hcast; [|done]. injection Hc as ->.
      rewrite (history_range k Hlo Hhi) in Hk. eauto.
    + intros (k&v&Hk&Hc). exists (didHisoryTPrefix :: k, v). simpl. rewrite Hc. split; [|done].
      apply Hin. by split_and!.
  - intros Hlt. specialize (Hok Hlt). eexists. split; [rewrite (Hrun _ (eq_sym Hok)); reflexivity|].
    simpl. by rewrite (range_order_perm (elements S)).
  - intros Hgt. apply (Hrun None). symmetry. by apply Hhang.
Qed.
End History.
End IpfsGenesis.
