(* ===== verification/IpfsValidator.v ===== *)
(** * The validator over the persistent store *)

From S2P Require Import Prelude Externals W3cDid Tx Chain ChainFacts Validator ValidatorFacts.
From S2P Require Import Ipfs IpfsFacts IpfsProps IpfsBlocks.

Module IpfsValidator.
Import W3cDid Tx Chain ChainFacts Validator ValidatorFacts Ipfs IpfsFacts IpfsProps IpfsBlocks.

Section IpfsValidator.
Context `{L : Lib} `{!TxCodec} `{!ChainCodec} `{!RangeOrder} `{!Pebble} `{!Ipfs}.
Context `{!PebbleLaws} `{!IpfsLaws} `{!CidLaws}.
Notation VState := (VState World nat).
Implicit Types st : VState.

Lemma MarkBlock_unvalidated_inv h id m w w' :
  meta_view w h = Some m -> ipfs_MarkBlock h id BlockStateUnvalidated w = (Ret None, w') ->
  metadataSet h (statekey id) (PutUint32 (u32 BlockStateUnvalidated)) w = (Ret None, w').
Proof.
  intros Hm (g&w0&Hget&Hr)%bind_inv. rewrite (metadataGet_run _ _ _ _ Hm) in Hget.
  injection Hget as <- <-. apply try_e_inv in Hr as (d&w0&Hd&Hr). injection Hd as _ <-.
  apply bind_inv in Hr as (s&w0&Hs&Hr).
  assert (w0 = w) as -> by (destruct (Uint32 d); [by injection Hs|done]).
  apply check_e_inv in Hr as (w1&Hset%wrap_e_inv&Hr).
  rewrite andb_false_r in Hr. by injection Hr as <-.
Qed.

(** Looking a DID up leaves the validator where it is. *)
Lemma LookupDID_still st0 d m :
  meta_view (v_world st0) (v_s st0) = Some m ->
  preserves (fun st => st = st0) (vs (fun s => LookupDID s d)).
Proof.
  intros Hm st ->. rewrite vs_run. change (LookupDID (v_s st0) d) with (ipfs_LookupDID (v_s st0) d).
  rewrite (LookupDID_frame (v_s st0) d _ _ m m Hm Hm eq_refl eq_refl). by destruct st0.
Qed.

(** A transaction no block holds is not recognised as new: the error of the
    database is not the one the validator expects. *)
Lemma check_new_refuses st m c :
  meta_view (v_world st) (v_s st) = Some m -> m !! txkey c = None ->
  exists e, check_new true c st = (Ret (Some e), st).
Proof.
  intros Hm Hc. unfold check_new, mbind, GoM_bind. rewrite vs_run.
  change (GetTxBlock (v_s st) c) with (ipfs_GetTxBlock (v_s st) c).
  assert (ipfs_GetTxBlock (v_s st) c (v_world st) =
    (Ret (Err (errorsWrap pebble_ErrNotFound "looking up tx block")), v_world st)) as ->.
  { unfold ipfs_GetTxBlock. fold (txkey c). go_unfold. by rewrite (metadataGet_run _ _ _ _ Hm), Hc. }
  cbn [fst snd errors_Is]. rewrite pebble_err_own, orb_false_r, bool_decide_eq_false_2 by done.
  exists (errorsWrap (errorsWrap pebble_ErrNotFound "looking up tx block") "checking for preexisting tx").
  by destruct st.
Qed.

(** Over the persistent store no block with a transaction is accepted as a new
    one: the store reports a transaction it does not know with the database's own
    error, which is not the [ErrNotFound] the validator tests for. *)
Theorem ipfs_new_block_refused b txs st r st' :
  persistent (v_world st) (v_s st) ->
  ipfs_AllTx b (v_world st) = (Ret (Ok txs), v_world st) -> txs <> ∅ ->
  (forall c, c ∈ dom txs -> db_view (w_db (v_world st)) !! txkey c = None) ->
  tv_IsBlockValid b true st = (Ret r, st') -> is_Some r.
Proof.
  intros Hp Htxs Hne Hnew Hr. destruct r as [e|]; [by eexists|]. exfalso.
  destruct (IsBlockValid_inv _ _ _ _ Hr) as (w1&txs'&w2&ms&w3&st2&Hmark&Hall&Hstart&Htest).
  pose proof (persistent_view _ _ Hp) as Hm. apply (MarkBlock_unvalidated_inv _ _ _ _ _ Hm) in Hmark.
  destruct (metadataSet_view _ _ _ _ _ _ Hm Hmark) as (Hm1&Hn1&Hs1).
  change (ipfs_AllTx b w1 = (Ret (Ok txs'), w2)) in Hall.
  rewrite (AllTx_ipfs b _ w1 Hn1), Htxs in Hall. injection Hall as <- <-.
  assert (persistent w1 (v_s st)) as Hp1 by (unfold persistent; by rewrite Hs1).
  pose proof (ipfs_scratch_view _ _ _ _ Hp1 Hstart) as Hm3.
  rewrite (persistent_view _ _ Hp1) in Hm1. injection Hm1 as Hm1. rewrite Hm1 in Hm3.
  apply check_e_inv in Htest as (st3&Hloop&_).
  destruct (map_range txs) as [|[c t] l] eqn:Hl.
  { apply Hne, map_to_list_empty_iff, Permutation_nil_r. rewrite <- (map_range_perm txs). by rewrite Hl. }
  apply check_e_inv in Hloop as (st4&Htry&_). apply try_tx_inv in Htry as (t'&st5&Hval&st6&Hcheck).
  pose proof (preserves_IsTxValid (fun st => st = {| v_world := w3; v_s := ms |}) t
    ltac:(intros d; by eapply LookupDID_still) _ eq_refl) as Hstill.
  simpl in Hval. rewrite Hval in Hstill. simpl in Hstill. subst st5.
  assert (c ∈ dom txs) as Hc by (apply elem_of_map_range_fst; rewrite Hl; by left).
  destruct (check_new_refuses {| v_world := w3; v_s := ms |} _ c Hm3) as [e He].
  { rewrite lookup_insert_ne by by apply typedKey_prefix. by apply Hnew. }
  cbn [fst] in Hcheck. by rewrite He in Hcheck.
Qed.
End IpfsValidator.
End IpfsValidator.
