(* ===== verification/IpfsDemo.v ===== *)
(** * The laws of the store's libraries hold together, and witnesses

    A map for the database, a map of pending writes for a batch, a set of byte
    strings for IPFS; the theorems of the persistent store applied to a small
    chain: a genesis with a node and a DID, a block with a registration, a block
    with a credential. *)

From S2P Require Import Prelude Externals Cryptography W3cDid Tx Chain ChainFacts Toy.
From S2P Require Import Validator ValidatorFacts Ipfs IpfsFacts IpfsProps IpfsBlocks.
From S2P Require Import IpfsGenesis IpfsValidator.

Module IpfsDemo.
Import Cryptography W3cDid Tx Chain ChainFacts Toy Validator ValidatorFacts.
Import Ipfs IpfsFacts IpfsProps IpfsBlocks IpfsGenesis IpfsValidator.
#[local] Existing Instance range_asc.

(** ** The libraries *)

Definition bytes_le (a b : bytes) : Prop := bytes_leb a b = true.
#[local] Instance bytes_le_dec : RelDecision bytes_le.
Proof. intros a b. unfold bytes_le. apply _. Defined.
#[local] Instance bytes_le_total : Total bytes_le.
Proof. intros a b. apply bytes_leb_total. Qed.
#[local] Instance bytes_le_trans : Transitive bytes_le.
Proof. intros a b c. apply bytes_leb_trans. Qed.

Definition toy_iter (m : gmap bytes bytes) (lo hi : bytes) : list (bytes * bytes) :=
  (fun k => (k, from_option id [] (m !! k))) <$>
    merge_sort bytes_le
      (filter (fun k => bytes_leb lo k = true /\ bytes_leb hi k = false) (elements (dom m))).

Lemma toy_iter_ranged m lo hi : ranged m lo hi (toy_iter m lo hi).
Proof.
  unfold toy_iter, ranged. set (keys := merge_sort _ _).
  assert (keys ≡ₚ filter (fun k => bytes_leb lo k = true /\ bytes_leb hi k = false) (elements (dom m)))
    as Hp by apply merge_sort_Permutation.
  assert (((fun k => (k, from_option id [] (m !! k))) <$> keys).*1 = keys) as Hk.
  { rewrite <- list_fmap_compose. apply list_fmap_id. }
  rewrite Hk. split_and!.
  - apply (StronglySorted_merge_sort bytes_le).
  - rewrite Hp. apply list.NoDup_filter, NoDup_elements.
  - intros k v. rewrite list_elem_of_fmap. split.
    + intros (k'&[= -> ->]&Hin). rewrite Hp, list_elem_of_filter, elem_of_elements, elem_of_dom in Hin.
      destruct Hin as [[Hlo Hhi] [x Hx]]. by rewrite Hx.
    + intros (Hv&Hlo&Hhi). exists k. rewrite Hv. split; [done|].
      rewrite Hp, list_elem_of_filter, elem_of_elements, elem_of_dom. eauto.
Qed.

Definition toy_get (m : gmap bytes bytes) (k : bytes) : result bytes :=
  match m !! k with Some v => Ok v | None => Err (Sentinel "pebble: not found") end.

#[local] Instance ToyPebble : Pebble := {|
  DB := gmap bytes bytes;
  Batch := gmap bytes (option bytes);
  pebble_ErrNotFound := Sentinel "pebble: not found";
  db_Get := toy_get;
  db_Set k v d := (None, <[k := v]> d);
  db_Iter := toy_iter;
  db_Close d := (None, d);
  db_NewBatch := ∅;
  db_NewIndexedBatch := ∅;
  batch_Get b d := toy_get (overlay b d);
  batch_Set k v b := (None, <[k := Some v]> b);
  batch_Delete k b := (None, <[k := None]> b);
  batch_Iter b d := toy_iter (overlay b d);
  batch_Commit b d := (None, overlay b d);
  batch_Close b := None;
  batch_Close_nil := Ret None
|}.

#[local] Instance ToyPebbleLaws : PebbleLaws.
Proof.
  refine {| db_view := (fun d : @DB ToyPebble => d); batch_view := (fun b : @Batch ToyPebble => b) |};
    try done; simpl; try congruence; intros; apply toy_iter_ranged.
Defined.

#[local] Instance ToyIpfs : Ipfs := {|
  IPFS := gset bytes;
  block_Put d n := (Ok (Some d), {[d]} ∪ n);
  block_Get n c :=
    match c with
    | Some d => if decide (d ∈ n) then Ok d else Err (errorsNew "not found")
    | None => Err (errorsNew "undefined")
    end;
  pin_Add c n := (None, n);
  ipfs_reachable n := set_map Some n
|}.

#[local] Instance ToyIpfsLaws : IpfsLaws.
Proof.
  split; simpl.
  - intros d n c n' [= <- <-]. rewrite decide_True by set_solver. done.
  - by intros d n c n' [= <- <-].
  - intros d' n [b|] d; [|done]. destruct (decide (b ∈ n)); [|done]. intros [= <-].
    by rewrite decide_True by set_solver.
  - done.
  - by intros n [b|] d.
  - intros n [b|] d; [|done]. destruct (decide (b ∈ n)); [|done]. set_solver.
Qed.

#[local] Instance ToyCidText : CidTextLaws.
Proof.
  split. intros [b|]; simpl; [|set_solver]. change (bytes_of_string ("b1" +:+ string_of_bytes (to_text b)))
    with (x62 :: x31 :: bytes_of_string (string_of_bytes (to_text b))).
  rewrite bytes_of_string_of_bytes, !not_elem_of_cons. split_and!; [done..|].
  intros Hx%to_text_letters. by vm_compute in Hx.
Qed.

Lemma typedKey_tables_witness :
  typedKey didHisoryTPrefix ["did:a:b"; cid_String (Some [x01])] <>
  typedKey didHisoryTPrefix ["did:a"; cid_String (Some [x01])].
Proof.
  intros He. destruct (proj2 (proj2 typedKey_tables) _ _ _ _ _ He) as [Ha _]. discriminate Ha.
Defined.

(** ** A small chain *)

Definition vnode : Tx := {|
  tx_Version := Version1; tx_Ts := 1; tx_From := "did:didem:a"; tx_Type := TxType_Node;
  tx_Action := TxActionAdd;
  tx_Data := DataNode {| node_Id := "n1"; node_Did := "did:didem:a"; node_Key := [x07] |};
  tx_Signature := [] |}.
Definition vcred : Tx := {|
  tx_Version := Version1; tx_Ts := 3; tx_From := "did:didem:a"; tx_Type := TxType_VC;
  tx_Action := TxActionAdd; tx_Data := DataRaw [x09]; tx_Signature := [] |}.

Definition id_of (t : Tx) : Cid := ok_opt (Marshal t).

Definition world0 : World := {|
  w_ipfs := ∅; w_db := ∅; w_batches := ∅; w_stores := {[0 := {| pfTipApply := None |}]};
  w_rand n := Z.of_nat (n mod 2) |}.

Definition root_of (r : exit (result TxSet)) : Cid :=
  match r with Ret (Ok s) => ts_cid s | _ => cid_Undef end.

Definition blk_over (root : Cid) : Block := {|
  blk_Version := 1; blk_ID := cid_Undef; blk_Parent := cid_Undef; blk_Height := 4;
  blk_CreatedAt := 1; blk_Proposer := ""; blk_Signature := []; blk_Nonce := []; blk_Bloom := [];
  blk_TxRoot := root |}.

Definition gen : GenesisInfo := {|
  gen_ChainID := "demo"; gen_Txs := [vnode; demo_tx];
  gen_Block := blk_over (root_of (NewTxSet 0 [id_of vnode; id_of demo_tx] world0).1) |}.

Lemma world0_persistent : persistent world0 0.
Proof. apply lookup_singleton_eq. Qed.

Definition world1 : World := (ipfs_ApplyGenesis 0 gen world0).2.

Lemma gen_run : ipfs_ApplyGenesis 0 gen world0 = (Ret None, world1).
Proof. unfold world1. apply pair_fst. by_vm. Qed.

Lemma ipfs_genesis_atomic_witness :
  ipfs_HasGenesisApplied 0 world1 = (Ret true, world1) /\
  exists blk m, ipfs_GetLastApplied 0 world1 = (Ret (Ok (Some blk)), world1) /\
    blk_TxRoot blk = blk_TxRoot (gen_Block gen) /\ blk_Height blk = blk_Height (gen_Block gen) /\
    ipfs_AllTx blk world1 = (Ret (Ok m), world1) /\
    forall t, t ∈ gen_Txs gen <-> exists c, m !! c = Some t.
Proof.
  pose proof (ipfs_genesis_atomic 0 gen world0 world0_persistent
    ltac:(repeat constructor)) as Hg.
  rewrite gen_run in Hg. exact Hg.
Defined.

Lemma world1_persistent : persistent world1 0.
Proof. unfold persistent. by_vm. Qed.

Lemma ipfs_Nodes_sorted_witness :
  exists l, ipfs_Nodes 0 world1 = (Ret (Ok l), world1) /\ StronglySorted string_le l /\ NoDup l /\
    forall n, n ∈ l <-> is_Some (db_view (w_db world1) !! typedKey nodesTPrefix [n]).
Proof. exact (ipfs_Nodes_sorted 0 _ world1 (persistent_view _ _ world1_persistent)). Defined.

Lemma ipfs_DIDHistory_outcome_witness :
  exists cids, NoDup cids /\
    (forall c, c ∈ cids <-> exists k v,
       db_view (w_db world1) !! (didHisoryTPrefix :: k) = Some v /\ cid_Cast v = Ok c) /\
    (length (unreadable (w_ipfs world1) cids) < allTxNWorkers ->
      exists txs, ipfs_DIDHistory 0 "did:other:b" world1 = (Ret (Some (Ok txs)), world1) /\
        txs ≡ₚ omap (fun c => ok_opt (ipfs_read_tx (w_ipfs world1) c)) cids) /\
    (allTxNWorkers < length (unreadable (w_ipfs world1) cids) ->
      ipfs_DIDHistory 0 "did:other:b" world1 = (Ret None, world1)).
Proof. exact (ipfs_DIDHistory_outcome 0 "did:other:b" _ world1 (persistent_view _ _ world1_persistent)). Defined.

(** The last block is lost as soon as it is updated. *)
Lemma update_run : ipfs_UpdateLastApplied 0 (Some [x01]) world1 =
  (Ret None, (ipfs_UpdateLastApplied 0 (Some [x01]) world1).2).
Proof. apply pair_fst. by_vm. Qed.

Lemma ipfs_UpdateLastApplied_lost_witness :
  let w := (ipfs_UpdateLastApplied 0 (Some [x01]) world1).2 in
  exists e, ipfs_GetLastApplied 0 w = (Ret (Err (errorsWrap e "casting block ref")), w).
Proof.
  exact (ipfs_UpdateLastApplied_lost 0 (Some [x01]) _ world1 _
    (persistent_view _ _ world1_persistent) update_run).
Defined.

(** ** A scratch store over it *)

Definition world2 : World := (ipfs_StartTest 0 world1).2.
Definition scratch_id : nat :=
  match (ipfs_StartTest 0 world1).1 with Ret (Ok sc) => sc | _ => 0 end.

Lemma start_run : ipfs_StartTest 0 world1 = (Ret (Ok scratch_id), world2).
Proof. unfold world2. apply pair_fst. by_vm. Qed.

Lemma ipfs_scratch_isolated_witness :
  scratch_id <> 0 /\ meta_view world2 scratch_id = Some (db_view (w_db world1)) /\
  let w2 := (run_scratch scratch_id [DoStartTest; DoApplyTx (id_of vnode) vnode; DoNode "n"; DoMarkBlock (Some [x01]) 2] world2).2 in
  w_db w2 = w_db world1 /\
  (forall k, metadataGet 0 k w2 = (Ret (db_Get (w_db world1) k), w2)) /\
  ipfs_Nodes 0 w2 = ((ipfs_Nodes 0 world1).1, w2).
Proof. exact (ipfs_scratch_isolated 0 scratch_id _ world1 world2 world1_persistent start_run). Defined.

(** What is left out there: after [CompleteTest] the store writes the database, and
    a genesis that is applied to a scratch store goes to the database too. *)
Definition completed : World := (ipfs_MarkBlock scratch_id (Some [x01]) 1 (ipfs_CompleteTest scratch_id world2).2).2.
Definition scratch_genesis : World :=
  let (r, w) := ipfs_StartTest 0 world0 in
  match r with Ret (Ok sc) => (ipfs_ApplyGenesis sc gen w).2 | _ => w end.

Example scratch_exceptions :
  db_Get (w_db world2) (typedKey blockStateTPrefix [cid_String (Some [x01])]) = Err pebble_ErrNotFound /\
  db_Get (w_db completed) (typedKey blockStateTPrefix [cid_String (Some [x01])]) = Ok (PutUint32 1) /\
  (ipfs_HasGenesisApplied 0 world0).1 = Ret false /\ (ipfs_HasGenesisApplied 0 scratch_genesis).1 = Ret true.
Proof. split_and!; by_vm. Qed.

Lemma ipfs_ApplyTx_total_witness :
  exists r w', ipfs_ApplyTx None 0 (id_of vcred) vcred world1 = (Ret r, w') /\
    (indexable vcred = false -> is_Some r) /\
    (r = None -> exists b, batch_wrote b (tx_writes (id_of vcred) vcred) world1 w' /\ w_db w' = w_db world1).
Proof. exact (ipfs_ApplyTx_total None 0 (id_of vcred) vcred world1). Defined.

Lemma id_defined t : (match id_of t with Some _ => true | None => false end) = true -> id_of t <> cid_Undef.
Proof. intros Ht He. by rewrite He in Ht. Qed.

(** ** Blocks over it *)

(** The transaction [t], the set of it, a block over the set: stored, and the
    block marked as validated. *)
Definition with_tx (t : Tx) : World := (ipfs_PutTx t world1).2.
Definition blk_of (t : Tx) : Block := blk_over (root_of (NewTxSet 0 [id_of t] (with_tx t)).1).
Definition blk_id (t : Tx) : Cid := ok_opt (msgpack_Marshal_Block (blk_of t)).
Definition with_block (t : Tx) : World :=
  (ipfs_PutBlock (blk_of t) (NewTxSet 0 [id_of t] (with_tx t)).2).2.
Definition validated (t : Tx) : World := (ipfs_MarkBlock 0 (blk_id t) BlockStateValidated (with_block t)).2.
Definition found_block (t : Tx) : Block := blk_set_ID (blk_id t) (blk_of t).
Definition txs_of (t : Tx) : gmap Cid Tx :=
  match (ipfs_AllTx (found_block t) (validated t)).1 with Ret (Ok m) => m | _ => ∅ end.
Definition update : Tx := demo_unsigned TxActionUpdate.

Lemma AllTx_pure b w r : (ipfs_AllTx b w).1 = r -> ipfs_AllTx b w = (r, w).
Proof. destruct (ipfs_AllTx_run b w) as (r'&->&_). by intros <-. Qed.

Lemma update_persistent : persistent (validated update) 0.
Proof. unfold persistent. by_vm. Qed.

Lemma update_state : state_of (db_view (w_db (validated update))) (blk_id update) = Some BlockStateValidated.
Proof. by_vm. Qed.

Lemma update_read : ipfs_read_block (w_ipfs (validated update)) (blk_id update) = Ok (found_block update).
Proof. by_vm. Qed.

Lemma update_txs : ipfs_AllTx (found_block update) (validated update) =
  (Ret (Ok (txs_of update)), validated update).
Proof. apply AllTx_pure. by_vm. Qed.

Lemma update_accept : ipfs_MarkBlock 0 (blk_id update) BlockStateAccepted (validated update) =
  (Ret None, (ipfs_MarkBlock 0 (blk_id update) BlockStateAccepted (validated update)).2).
Proof. apply pair_fst. by_vm. Qed.

Lemma blk_defined t : (match blk_id t with Some _ => true | None => false end) = true -> blk_id t <> cid_Undef.
Proof. intros Ht He. by rewrite He in Ht. Qed.

Lemma ipfs_MarkBlock_accept_witness :
  let w' := (ipfs_MarkBlock 0 (blk_id update) BlockStateAccepted (validated update)).2 in
  (forall c, c ∈ dom (txs_of update) -> ipfs_GetTxBlock 0 c w' = (Ret (Ok (found_block update)), w')) /\
  ipfs_GetLastApplied 0 w' = (Ret (Ok (Some (found_block update))), w') /\
  (forall c, c ∉ dom (txs_of update) ->
     db_view (w_db w') !! txkey c = db_view (w_db (validated update)) !! txkey c).
Proof.
  exact (ipfs_MarkBlock_accept 0 (blk_id update) (found_block update) (txs_of update) _ _
    update_persistent update_state (blk_defined update ltac:(by_vm)) update_read update_txs update_accept).
Defined.

Lemma update_size : size (txs_of update) = 1.
Proof. by_vm. Qed.

(** The same block, checked as a new one. *)
Definition vstate : VState World nat := {| v_world := validated update; v_s := 0 |}.


(** A block with a credential. *)
Lemma vcred_persistent : persistent (validated vcred) 0.
Proof. unfold persistent. by_vm. Qed.

Lemma vcred_state : state_of (db_view (w_db (validated vcred))) (blk_id vcred) = Some BlockStateValidated.
Proof. by_vm. Qed.

Lemma vcred_read : ipfs_read_block (w_ipfs (validated vcred)) (blk_id vcred) = Ok (found_block vcred).
Proof. by_vm. Qed.

Lemma vcred_txs : ipfs_AllTx (found_block vcred) (validated vcred) =
  (Ret (Ok (txs_of vcred)), validated vcred).
Proof. apply AllTx_pure. by_vm. Qed.

Lemma vcred_in : txs_of vcred !! id_of vcred = Some vcred.
Proof. by_vm. Qed.

Definition vcred_error : option error :=
  match (ipfs_MarkBlock 0 (blk_id vcred) BlockStateAccepted (validated vcred)).1 with
  | Ret r => r | Panic => None end.

Lemma vcred_run : ipfs_MarkBlock 0 (blk_id vcred) BlockStateAccepted (validated vcred) =
  (Ret vcred_error, (ipfs_MarkBlock 0 (blk_id vcred) BlockStateAccepted (validated vcred)).2).
Proof. apply pair_fst. by_vm. Qed.

Lemma credential_block_unindexed_witness :
  let w' := (ipfs_MarkBlock 0 (blk_id vcred) BlockStateAccepted (validated vcred)).2 in
  is_Some vcred_error /\
  (forall k, k <> statekey (blk_id vcred) ->
     db_view (w_db w') !! k = db_view (w_db (validated vcred)) !! k) /\
  (state_of (db_view (w_db w')) (blk_id vcred) = Some BlockStateAccepted ->
   forall r2 w2, ipfs_MarkBlock 0 (blk_id vcred) BlockStateAccepted w' = (Ret r2, w2) ->
   forall k, k <> statekey (blk_id vcred) ->
     db_view (w_db w2) !! k = db_view (w_db (validated vcred)) !! k).
Proof.
  exact (credential_block_unindexed 0 (blk_id vcred) (found_block vcred) (txs_of vcred)
    (id_of vcred) vcred _ _ _ vcred_persistent vcred_state vcred_read vcred_txs vcred_in eq_refl
    vcred_run).
Defined.

Definition unindexed (w : World) (m : gmap Cid Tx) : bool :=
  forallb (fun ct => bool_decide (db_view (w_db w) !! txkey ct.1 = None)) (map_to_list m).

Lemma unindexed_spec w m : unindexed w m = true ->
  forall c, c ∈ dom m -> db_view (w_db w) !! txkey c = None.
Proof.
  unfold unindexed. rewrite forallb_forall. intros Hall c [t Ht]%elem_of_dom.
  specialize (Hall (c, t)). rewrite <- list_elem_of_In, elem_of_map_to_list in Hall.
  by apply bool_decide_eq_true in Hall.
Qed.

Definition refusal : option error :=
  match (tv_IsBlockValid (found_block update) true vstate).1 with Ret r => r | Panic => None end.

Lemma refused_run : tv_IsBlockValid (found_block update) true vstate =
  (Ret refusal, (tv_IsBlockValid (found_block update) true vstate).2).
Proof. apply pair_fst. by_vm. Qed.

Lemma txs_nonempty : txs_of update <> ∅.
Proof. intros He. pose proof update_size as Hs. by rewrite He in Hs. Qed.

Lemma ipfs_new_block_refused_witness : is_Some refusal.
Proof.
  exact (ipfs_new_block_refused (found_block update) (txs_of update) vstate refusal _
    update_persistent update_txs txs_nonempty (unindexed_spec _ _ ltac:(by_vm)) refused_run).
Defined.
End IpfsDemo.
