(* ===== verification/CatchUp.v ===== *)
(** * Catching up: [ApplyFromTip] of pkg/storage/validator.go over any store

    The loop that fetches the ancestors of a tip ends when heights decrease
    towards the genesis, and what is imported is the line of blocks from the last
    applied one to the tip; in a store that reads a block without its identifier
    the line may start at such a block instead. *)

From S2P Require Import Prelude Externals W3cDid Tx Chain Toy MemStore MemStoreFacts Validator ValidatorFacts StoreProps.

Module CatchUp.
Import Tx Chain Validator ValidatorFacts.

Section CatchUp.
Context `{L : Lib} {W H : Type} `{!Store W H} `{!TxCodec} `{!RangeOrder}.
Notation VState := (VState W H).
Implicit Types st : VState.

Section Read.
(** What the store reads, in a state of the validator. *)
Context (rd : BlockID -> result Block) (last : BlockID).

Definition reads st : Prop := forall c, GetBlock (v_s st) c (v_world st) = (Ret (rd c), v_world st).

(** A stored block is above its parent. *)
Definition heights_grow : Prop := forall c b p,
  rd c = Ok b -> rd (blk_Parent b) = Ok p -> (0 <= blk_Height p < blk_Height b)%Z.

(** The loop stops at the last applied block or at one without an identifier. *)
Definition stops (b : Block) : Prop := blk_ID b = last \/ blk_ID b = cid_Undef.

(** Every block is read with an identifier, as the persistent store does. *)
Definition identified : Prop := forall c b, rd c = Ok b -> blk_ID b <> cid_Undef.

(** The line of a block: its ancestors up to where the loop stops. *)
Inductive lineage : Block -> list Block -> Prop :=
| lineage_stop b : stops b -> lineage b [b]
| lineage_parent b p l : ~ stops b -> rd (blk_Parent b) = Ok p -> lineage p l -> lineage b (b :: l).

Lemma lineage_oldest b l : lineage b l -> exists l' o, l = l' ++ [o] /\ stops o.
Proof.
  induction 1 as [b Hb|b p l Hb Hp Hl (l'&o&->&Ho)]; [by exists [], b|]. by exists (b :: l'), o.
Qed.

Lemma lineage_complete c b l :
  identified -> rd c = Ok b -> lineage b l -> exists l' o, l = l' ++ [o] /\ blk_ID o = last.
Proof.
  intros Hid Hc Hl. revert c Hc. induction Hl as [b [Hb|Hb]|b p l Hb Hp Hl IH]; intros c Hc.
  - by exists [], b.
  - by destruct (Hid c b).
  - destruct (IH _ Hp) as (l'&o&->&Ho). by exists (b :: l'), o.
Qed.

(** Enough fuel: one more than the height of the block. *)
Lemma fetch_back_run st fuel lastApplied b queue :
  reads st -> heights_grow -> blk_ID lastApplied = last -> (exists c, rd c = Ok b) ->
  Z.to_nat (blk_Height b) < fuel ->
  exists r, fetch_back fuel (Some lastApplied) b queue st = (Ret (Some r), st) /\
    match r with Ok q => exists l, q = queue ++ l /\ lineage b (b :: l) | Err _ => True end.
Proof.
  intros Hrd Hgrow Hlast. revert b queue. induction fuel as [|fuel IH]; intros b queue [c Hc] Hf; [lia|].
  simpl. unfold mbind at 1, GoM_bind at 1. cbn [gsome mret GoM_ret]. rewrite Hlast.
  destruct (decide (stops b)) as [Hs|Hs].
  - exists (Ok queue). split; [|exists []; by rewrite app_nil_r; split; [|constructor]].
    unfold stops in Hs. repeat case_bool_decide; simpl; try done. by destruct Hs.
  - rewrite !bool_decide_eq_false_2 by (intros ?; apply Hs; by (left + right)). simpl.
    unfold gwrap, mbind, GoM_bind. rewrite vs_run, Hrd. destruct st as [w h]. simpl.
    destruct (rd (blk_Parent b)) as [p|e] eqn:Hp; simpl; [|by eexists].
    destruct (Hgrow c b p Hc Hp) as [Hp0 Hpb].
    destruct (IH p (queue ++ [p])) as (r&Hr&Hl); [by eexists|lia|]. exists r. split; [exact Hr|].
    destruct r as [q|]; [|done]. destruct Hl as (l&->&Hl). exists (p :: l).
    split; [by rewrite <- app_assoc|]. by eapply lineage_parent.
Qed.
End Read.

Section Apply.
Context (rd : BlockID -> result Block) st (last tip : Block) (id : BlockID) (fuel : nat).
Context (Hrd : reads rd st) (Hgrow : heights_grow rd).
Context (Hlast : GetLastApplied (v_s st) (v_world st) = (Ret (Ok (Some last)), v_world st)).
Context (Htip : rd id = Ok tip) (Hfuel : Z.to_nat (blk_Height tip) < fuel).

(** A call fails to fetch, or imports a line of blocks. *)
Lemma ApplyFromTip_run :
  (exists e, tv_ApplyFromTip fuel id st = (Ret (Some (Some e)), st)) \/
  (exists l, lineage rd (blk_ID last) tip l /\
     tv_ApplyFromTip fuel id st = (e ← gfor_e (reverse l) import_block; mret (Some e)) st).
Proof using Hrd Hgrow Hlast Htip Hfuel.
  destruct st as [w h]. simpl in Hlast.
  destruct (fetch_back_run rd (blk_ID last) _ fuel last tip [tip] Hrd Hgrow eq_refl (ex_intro _ _ Htip) Hfuel)
    as (r&Hr&Hl).
  unfold tv_ApplyFromTip, gwrap, mbind, GoM_bind. rewrite vs_run. simpl. rewrite Hlast. simpl.
  rewrite vs_run. simpl. rewrite (Hrd id : GetBlock h id w = _), Htip. simpl.
  unfold set_world in *. simpl in *. rewrite Hr. destruct r as [q|e]; [|by left; eexists].
  right. destruct Hl as (l&->&Hl). by exists (tip :: l).
Qed.

(** C22. Catching up ends, and imports what it should: in a store whose blocks are
    above their parents, [ApplyFromTip] comes to a result with fuel beyond the
    height of the tip, and when it succeeds it has imported, the oldest first and
    with no gap, the ancestors of the tip back to the last applied block or to the
    first one that was read without an identifier, and nothing else; when the store
    reads every block with its identifier, the oldest one is the last applied
    block. *)
Theorem ApplyFromTip_ends :
  (tv_ApplyFromTip fuel id st).1 <> Ret None /\
  forall st', tv_ApplyFromTip fuel id st = (Ret (Some None), st') ->
    exists l, lineage rd (blk_ID last) tip l /\ gfor_e (reverse l) import_block st = (Ret None, st') /\
      (identified rd -> exists l' o, l = l' ++ [o] /\ blk_ID o = blk_ID last).
Proof using Hrd Hgrow Hlast Htip Hfuel.
  destruct ApplyFromTip_run as [[e ->]|(l&Hl&->)]; [by split|].
  unfold mbind, GoM_bind. destruct (gfor_e _ _ st) as [[e|] st2] eqn:Hloop; [|by split].
  split; [done|]. intros st' [= -> <-]. exists l. split_and!; [done..|].
  intros Hid. by eapply lineage_complete.
Qed.

(** The block where the fetching stopped, which is the last applied one, is
    validated as a new block a second time. *)
Lemma ApplyFromTip_reimports st' :
  tv_ApplyFromTip fuel id st = (Ret (Some None), st') ->
  exists o st1, stops (blk_ID last) o /\ tv_IsBlockValid o true st = (Ret None, st1).
Proof using Hrd Hgrow Hlast Htip Hfuel.
  destruct ApplyFromTip_run as [[e ->]|(l&Hl&->)]; [done|].
  destruct (lineage_oldest _ _ _ _ Hl) as (l'&o&->&Ho). rewrite reverse_app. simpl.
  intros (e&st1&Hloop&Hr)%bind_inv. injection Hr as -> ->.
  apply check_e_inv in Hloop as (st2&Himp&_). apply check_e_inv in Himp as (st3&Hv%wrap_e_inv&_). by exists o, st3.
Qed.
End Apply.
End CatchUp.

(** ** Two blocks on top of the last applied one *)

Section Demo.
Import Toy MemStore MemStoreFacts.
#[local] Existing Instance range_asc.

Definition heights_okb (m : MemStore) : bool :=
  forallb (fun co => match read_block m co.1 with
    | Ok b => match read_block m (blk_Parent b) with
              | Ok p => (0 <=? blk_Height p)%Z && (blk_Height p <? blk_Height b)%Z
              | Err _ => true
              end
    | Err _ => true
    end) (map_to_list (objects m)).

Lemma heights_okb_grow m : heights_okb m = true -> heights_grow (read_block m).
Proof.
  unfold heights_okb. rewrite forallb_forall. intros Hall c b p Hb Hp.
  assert (exists o, objects m !! c = Some o) as [o Ho].
  { destruct (objects m !! c) as [o|] eqn:Ho; [by eexists|].
    assert (getObj m c = None) as Hg by exact (f_equal mjoin Ho). unfold read_block in Hb. by rewrite Hg in Hb. }
  specialize (Hall (c, o)). rewrite <- list_elem_of_In, elem_of_map_to_list in Hall.
  specialize (Hall Ho). simpl in Hall. rewrite Hb, Hp in Hall. lia.
Qed.

Lemma mem_reads m : reads (read_block m) {| v_world := {[ 0 := m ]} : gmap nat MemStore; v_s := 0 |}.
Proof. intros c. exact (on_read 0 (fun m => read_block m c) {[ 0 := m ]} m (lookup_singleton_eq _ _)). Qed.

Definition block_on (parent : BlockID) (height : Z) (id : bytes) : Block := {|
  blk_Version := 1; blk_ID := Some id; blk_Parent := parent; blk_Height := height; blk_CreatedAt := 1;
  blk_Proposer := ""; blk_Signature := []; blk_Nonce := []; blk_Bloom := []; blk_TxRoot := blk_TxRoot demo_blk |}.
Definition put (b : Block) (m : MemStore) : BlockID * MemStore :=
  (obj_cid (ok_opt (msgpack_Marshal_Block b)), (mem_PutBlock b m).2).

Definition base := put (block_on cid_Undef 0 [x0a]) demo_m2.
Definition next := put (block_on base.1 1 [x0b]) base.2.
Definition tip2 := put (block_on next.1 2 [x0c]) next.2.
Definition mem2 : MemStore := set_lastBlock base.1 tip2.2.
Definition st2 : VState (gmap nat MemStore) nat := {| v_world := {[ 0 := mem2 ]}; v_s := 0 |}.

Lemma st2_last : GetLastApplied 0 (v_world st2) = (Ret (Ok (Some (block_on cid_Undef 0 [x0a]))), v_world st2).
Proof. reflexivity. Qed.

Lemma ApplyFromTip_ends_witness :
  (tv_ApplyFromTip 3 tip2.1 st2).1 <> Ret None /\
  forall st', tv_ApplyFromTip 3 tip2.1 st2 = (Ret (Some None), st') ->
    exists l, lineage (read_block mem2) (Some [x0a]) (block_on next.1 2 [x0c]) l /\
      gfor_e (reverse l) import_block st2 = (Ret None, st') /\
      (identified (read_block mem2) -> exists l' o, l = l' ++ [o] /\ blk_ID o = Some [x0a]).
Proof.
  exact (ApplyFromTip_ends (read_block mem2) st2 (block_on cid_Undef 0 [x0a]) (block_on next.1 2 [x0c]) tip2.1 3
    (mem_reads mem2) (heights_okb_grow mem2 ltac:(by_vm)) st2_last ltac:(reflexivity) ltac:(simpl; lia)).
Defined.

(** It succeeds: three blocks are imported, the last applied one again. *)
Example catches_up : match (tv_ApplyFromTip 3 tip2.1 st2).1 with Ret (Some None) => true | _ => false end = true.
Proof. by_vm. Qed.
End Demo.
End CatchUp.
