(* ===== verification/Register.v ===== *)
(** * The register that the stores implement

    An abstract register: the documents of the DIDs and the nodes that are
    registered.  The persistent store refines it; of the in-memory store the node
    table does.  So a persistent and an in-memory store that show the same nodes
    show the same nodes after the same transactions, and name the same
    proposers. *)

From S2P Require Import Prelude Externals W3cDid Tx Chain ChainFacts MemStore MemStoreFacts StoreProps.
From S2P Require Import Ipfs IpfsFacts IpfsProps.

Module Register.
Import W3cDid Tx Chain ChainFacts MemStore MemStoreFacts StoreProps Ipfs IpfsFacts IpfsProps.

(** ** The specification *)

Section Spec.
Context `{L : Lib}.

Record Register := { r_dids : gmap string Document; r_nodes : gmap string Node }.

Definition apply_did (t : Tx) (m : gmap string Document) : gmap string Document :=
  match tx_Data t with
  | DataDID {| did_Document := Some doc |} =>
      if bool_decide (tx_Action t = TxActionRevoke) then delete (doc_ID doc) m else <[doc_ID doc := doc]> m
  | _ => m
  end.

Definition apply_node (t : Tx) (m : gmap string Node) : gmap string Node :=
  match tx_Data t with
  | DataNode n =>
      if bool_decide (tx_Action t = TxActionAdd) then <[node_Id n := n]> m else delete (node_Id n) m
  | _ => m
  end.

Definition reg_apply (r : Register) (t : Tx) : Register :=
  {| r_dids := apply_did t (r_dids r); r_nodes := apply_node t (r_nodes r) |}.

(** the answer to a lookup *)
Definition answer {A} (o : option A) : result (option A) :=
  match o with Some a => Ok (Some a) | None => Err ErrNotFound end.

(** the names of the nodes, in byte order *)
Definition names {A} (m : gmap string A) (l : list string) : Prop :=
  StronglySorted string_le l /\ NoDup l /\ forall n, n ∈ l <-> is_Some (m !! n).

Lemma names_unique {A} (m : gmap string A) l1 l2 : names m l1 -> names m l2 -> l1 = l2.
Proof.
  intros (Hs1&Hn1&Hin1) (Hs2&Hn2&Hin2). apply (StronglySorted_unique string_le); [done..|].
  apply NoDup_Permutation; [done..|]. intros n. by rewrite Hin1, Hin2.
Qed.
End Spec.

(** ** The persistent store *)

Section Persistent.
Context `{L : Lib} `{!TxCodec} `{!ChainCodec} `{!RangeOrder} `{!Pebble} `{!Ipfs} `{!PebbleLaws} `{!CidLaws}.

Definition ipfs_stored (w : World) (id : Cid) (t : Tx) : Prop :=
  id <> cid_Undef /\ ipfs_read_tx (w_ipfs w) id = Ok t.

(** The entry of a table that stands for an optional value. *)
Definition entry {A} (w : World) (good : Tx -> A -> Prop) (e : option bytes) (o : option A) : Prop :=
  match o with
  | Some a => exists id t, e = Some (cid_Bytes id) /\ ipfs_stored w id t /\ good t a
  | None => e = None
  end.

Definition holds_node (t : Tx) (n : Node) : Prop :=
  tx_Type t = TxType_Node /\ tx_Action t = TxActionAdd /\ tx_Data t = DataNode n.
Definition holds_did (t : Tx) (doc : Document) : Prop :=
  tx_Type t = TxType_DID /\ tx_Data t = DataDID {| did_Document := Some doc |}.

Definition shows_nodes (w : World) (m : gmap bytes bytes) (ns : gmap string Node) : Prop :=
  forall nid, entry w holds_node (m !! typedKey nodesTPrefix [nid]) (ns !! nid).
Definition shows_dids (w : World) (m : gmap bytes bytes) (ds : gmap string Document) : Prop :=
  forall did, entry w holds_did (m !! typedKey didTPrefix [did]) (ds !! did).

(** Store [h], which has a pending batch, shows a register. *)
Definition ipfs_shows (h : nat) (w : World) (r : Register) : Prop :=
  exists b m, w_stores w !! h = Some {| pfTipApply := Some b |} /\ meta_view w h = Some m /\
    shows_nodes w m (r_nodes r) /\ shows_dids w m (r_dids r).

Lemma entry_keep {A} w w' (good : Tx -> A -> Prop) e o :
  w_ipfs w' = w_ipfs w -> entry w good e o -> entry w' good e o.
Proof. unfold entry, ipfs_stored. by intros ->. Qed.

(** What a step of the register does to one name is what the writes of the
    transaction do to the entry of the name. *)
Lemma shows_nodes_apply w w' m ns id t :
  w_ipfs w' = w_ipfs w -> ipfs_stored w id t -> indexable t = true -> shows_nodes w m ns ->
  shows_nodes w' (overlay (tx_writes id t) m) (apply_node t ns).
Proof.
  intros Hn Hst Hi Hs nid. apply (entry_keep w); [done|].
  destruct (tx_Data t) as [|[[doc|]]|n|r|r] eqn:Hd; unfold indexable in Hi; rewrite Hd in Hi; try done.
  - rewrite overlay_other by (apply tx_writes_node; by rewrite Hd). unfold apply_node. rewrite Hd. apply Hs.
  - apply andb_true_iff in Hi as [Hty%bool_decide_eq_true _]. unfold apply_node. rewrite Hd.
    destruct (decide (node_Id n = nid)) as [<-|Hne].
    + rewrite lookup_overlay. unfold tx_writes. rewrite Hd, lookup_singleton_eq. case_bool_decide.
      * rewrite lookup_insert_eq. by exists id, t.
      * by rewrite lookup_delete_eq.
    + rewrite overlay_other by (apply tx_writes_node; rewrite Hd; by intros ? [= <-]).
      case_bool_decide; rewrite ?lookup_insert_ne, ?lookup_delete_ne by done; apply Hs.
Qed.

Lemma shows_dids_apply w w' m ds id t :
  w_ipfs w' = w_ipfs w -> ipfs_stored w id t -> indexable t = true -> shows_dids w m ds ->
  shows_dids w' (overlay (tx_writes id t) m) (apply_did t ds).
Proof.
  intros Hn Hst Hi Hs did. apply (entry_keep w); [done|].
  destruct (tx_Data t) as [|[[doc|]]|n|r|r] eqn:Hd; unfold indexable in Hi; rewrite Hd in Hi; try done.
  - apply andb_true_iff in Hi as [Hty%bool_decide_eq_true _]. unfold apply_did. rewrite Hd.
    destruct (decide (doc_ID doc = did)) as [<-|Hne].
    + rewrite lookup_overlay. unfold tx_writes. rewrite Hd, lookup_insert_eq. case_bool_decide.
      * by rewrite lookup_delete_eq.
      * rewrite lookup_insert_eq. by exists id, t.
    + rewrite overlay_other by (apply tx_writes_did; rewrite Hd; by intros ? [= <-]).
      case_bool_decide; rewrite ?lookup_insert_ne, ?lookup_delete_ne by done; apply Hs.
  - rewrite overlay_other by (apply tx_writes_did; by rewrite Hd). unfold apply_did. rewrite Hd. apply Hs.
Qed.

Lemma ipfs_shows_apply h w w' r id t :
  ipfs_shows h w r -> ipfs_stored w id t -> ipfs_ApplyTx None h id t w = (Ret None, w') ->
  ipfs_shows h w' (reg_apply r t) /\ w_ipfs w' = w_ipfs w.
Proof.
  intros (b&m&Hb&Hm&Hn&Hd) Hst Hr. destruct (ipfs_ApplyTx_spec _ _ _ _ _ _ Hr) as (b'&Hb'&Hi&Hw).
  assert (b' = b) as -> by (destruct Hb' as [?|(_&s&Hs&?)]; [done|]; rewrite Hb in Hs; by simplify_eq/=).
  destruct (batch_wrote_view _ _ _ _ _ _ Hb Hm Hw) as [Hm' Hx]. split; [|done].
  exists b, (overlay (tx_writes id t) m). split_and!; [|done|..].
  - by destruct Hw as (?&?&_&->&_).
  - by apply (shows_nodes_apply w).
  - by apply (shows_dids_apply w).
Qed.

(** What the lookups of a store answer. *)
Definition answers (h : nat) (w : World) (r : Register) : Prop :=
  (forall did, ipfs_LookupDID h did w = (Ret (answer (r_dids r !! did)), w)) /\
  (forall nid, ipfs_Node h nid w = (Ret (answer (r_nodes r !! nid)), w)) /\
  exists l, ipfs_Nodes h w = (Ret (Ok l), w) /\ names (r_nodes r) l.

Lemma ipfs_shows_answers h w r : ipfs_shows h w r -> answers h w r.
Proof.
  intros (b&m&Hb&Hm&Hn&Hd). split_and!.
  - intros did. specialize (Hd did). destruct (r_dids r !! did) as [doc|]; cbn [entry answer] in *.
    + destruct Hd as (id&t&Hk&[Hid Ht]&Hty&Hdt). by eapply LookupDID_found.
    + unfold ipfs_LookupDID. go_unfold. rewrite (metadataGet_run _ _ _ _ Hm), Hd. simpl.
      by rewrite bool_decide_eq_true_2.
  - intros nid. specialize (Hn nid). destruct (r_nodes r !! nid) as [n|]; cbn [entry answer] in *.
    + destruct Hn as (id&t&Hk&[Hid Ht]&Hty&Ha&Hdt). by eapply Node_found.
    + unfold ipfs_Node. go_unfold. rewrite (metadataGet_run _ _ _ _ Hm), Hn. simpl.
      by rewrite bool_decide_eq_true_2.
  - destruct (ipfs_Nodes_sorted _ _ _ Hm) as (l&Hl&Hs&Hnd&Hin). exists l. split; [done|].
    split_and!; [done..|]. intros nid. rewrite Hin. specialize (Hn nid).
    destruct (r_nodes r !! nid) as [n|]; cbn [entry answer] in *; [destruct Hn as (?&?&->&_)|rewrite Hn]; done.
Qed.

Lemma ipfs_run_shows h l w w' r :
  ipfs_shows h w r -> Forall (fun it => ipfs_stored w it.1 it.2) l ->
  gfor_e l (fun it => ipfs_ApplyTx None h it.1 it.2) w = (Ret None, w') ->
  ipfs_shows h w' (foldl reg_apply r l.*2).
Proof.
  revert w r. induction l as [|[id t] l IH]; intros w r Hs Hl Hr; [by injection Hr as <-|].
  apply Forall_cons_1 in Hl as [Hid Hl]. apply check_e_inv in Hr as (w1&Ha&Hr).
  destruct (ipfs_shows_apply _ _ _ _ _ _ Hs Hid Ha) as [Hs1 Hn]. simpl. eapply IH; [exact Hs1| |exact Hr].
  eapply list.Forall_impl; [exact Hl|]. intros [id' t']. unfold ipfs_stored. by rewrite Hn.
Qed.

(** C17. The persistent store refines the register: when a store with a pending
    batch shows a register and stored transactions are applied to it in order
    without an error, it answers every lookup of a DID and of a node, and lists
    the nodes, as the register does after the same transactions. *)
Theorem ipfs_refines_register h l w w' r :
  ipfs_shows h w r -> Forall (fun it => ipfs_stored w it.1 it.2) l ->
  gfor_e l (fun it => ipfs_ApplyTx None h it.1 it.2) w = (Ret None, w') ->
  answers h w r /\ answers h w' (foldl reg_apply r l.*2).
Proof.
  intros Hs Hl Hr. split; [by apply ipfs_shows_answers|].
  eapply ipfs_shows_answers, ipfs_run_shows; done.
Qed.
End Persistent.

(** ** The in-memory store *)

Section Memory.
Context `{L : Lib} `{!TxCodec} `{!ChainCodec} `{!RangeOrder} `{!CidLaws}.

Definition mem_entry (s : MemStore) (e : option Cid) (o : option Node) : Prop :=
  match o with
  | Some n => exists cid t, e = Some cid /\ read_tx s cid = Ok t /\ tx_Data t = DataNode n
  | None => e = None
  end.

Definition mem_shows (s : MemStore) (m : gmap string Node) : Prop :=
  forall nid, mem_entry s (nodes s !! nid) (m !! nid).

Lemma mem_entry_keep s s' e o : objects s' = objects s -> mem_entry s e o -> mem_entry s' e o.
Proof. unfold mem_entry, read_tx, getObj. by intros ->. Qed.

Lemma mem_Node_run nid s (cid : Cid) t n :
  nodes s !! nid = Some cid -> read_tx s cid = Ok t -> tx_Data t = DataNode n ->
  mem_Node nid s = (Ret (Ok (Some n)), s).
Proof.
  intros Hc Ht Hn. unfold mem_Node. go_unfold. simpl. rewrite Hc. unfold read_tx in Ht.
  destruct (getObj s cid) as [d|]; [|done]. unfold wrap in *. destruct (Unmarshal d empty_Tx); [|done].
  injection Ht as ->. by rewrite Hn.
Qed.

Lemma mem_ApplyTx_nodes id t s s' :
  indexable t = true -> mem_ApplyTx id t s = (Ret None, s') ->
  objects s' = objects s /\ nodes s' =
    match tx_Data t with
    | DataNode n => if bool_decide (tx_Action t = TxActionAdd) then <[node_Id n := id]> (nodes s)
                    else delete (node_Id n) (nodes s)
    | _ => nodes s
    end.
Proof.
  unfold indexable, mem_ApplyTx. rewrite cid_ParseCid_id. go_unfold. simpl.
  destruct (tx_Data t) as [|[[doc|]]|n|r|r]; try done;
    intros [Hty%bool_decide_eq_true Ha]%andb_true_iff; rewrite Hty; simpl.
  - intros [= <-]. by destruct s.
  - apply orb_true_iff in Ha as [Ha%bool_decide_eq_true|Ha%bool_decide_eq_true]; rewrite Ha; simpl;
      intros [= <-]; by destruct s.
Qed.

Lemma mem_shows_apply s s' m id t :
  mem_shows s m -> read_tx s id = Ok t -> indexable t = true -> mem_ApplyTx id t s = (Ret None, s') ->
  mem_shows s' (apply_node t m) /\ objects s' = objects s.
Proof.
  intros Hs Ht Hi Hr. destruct (mem_ApplyTx_nodes _ _ _ _ Hi Hr) as [Ho Hn]. split; [|done].
  intros nid. apply (mem_entry_keep s); [done|]. specialize (Hs nid). unfold apply_node. rewrite Hn.
  destruct (tx_Data t) as [|?|n|?|?] eqn:Hd; [done..| |done|done].
  destruct (decide (node_Id n = nid)) as [<-|Hne]; case_bool_decide;
    rewrite ?lookup_insert_eq, ?lookup_delete_eq; [by exists id, t|done|..];
    rewrite ?lookup_insert_ne, ?lookup_delete_ne by done; exact Hs.
Qed.

Lemma mem_shows_answers s m :
  mem_shows s m ->
  (forall nid, mem_Node nid s = (Ret (answer (m !! nid)), s)) /\
  exists l, mem_Nodes s = (Ret (Ok l), s) /\ names m l.
Proof.
  intros Hs. split.
  - intros nid. specialize (Hs nid). destruct (m !! nid) as [n|].
    + destruct Hs as (cid&t&Hc&Ht&Hd). by apply (mem_Node_run nid s cid t).
    + unfold mem_Node. go_unfold. simpl. by rewrite Hs.
  - destruct (mem_Nodes_sorted s) as (l&Hl&Hsl&Hnd&Hin&_). exists l. split; [done|].
    split_and!; [done..|]. intros nid. rewrite Hin. specialize (Hs nid).
    destruct (m !! nid); [destruct Hs as (?&?&->&_)|rewrite Hs]; done.
Qed.
End Memory.

(** ** Both *)

Section Agree.
Context `{L : Lib} `{!TxCodec} `{!ChainCodec} `{!RangeOrder} `{!Pebble} `{!Ipfs} `{!PebbleLaws} `{!CidLaws}.

(** The nodes a persistent store with a pending batch shows *)
Definition ipfs_shows_nodes (h : nat) (w : World) (m : gmap string Node) : Prop :=
  exists ds, ipfs_shows h w {| r_dids := ds; r_nodes := m |}.

Lemma stores_run h (l : list (Cid * Cid * Tx)) w w' s s' m :
  ipfs_shows_nodes h w m -> mem_shows s m ->
  Forall (fun x => ipfs_stored w x.1.1 x.2 /\ read_tx s x.1.2 = Ok x.2) l ->
  gfor_e l (fun x => ipfs_ApplyTx None h x.1.1 x.2) w = (Ret None, w') ->
  gfor_e l (fun x => mem_ApplyTx x.1.2 x.2) s = (Ret None, s') ->
  exists m', ipfs_shows_nodes h w' m' /\ mem_shows s' m'.
Proof.
  revert w s m. induction l as [|[[id1 id2] t] l IH]; intros w s m [ds Hi] Hm Hl Hr1 Hr2.
  { injection Hr1 as <-. injection Hr2 as <-. exists m. split; [by exists ds|done]. }
  apply Forall_cons_1 in Hl as [[Hi1 Hi2] Hl].
  apply check_e_inv in Hr1 as (w1&Ha1&Hr1), Hr2 as (s1&Ha2&Hr2).
  destruct (ipfs_ApplyTx_spec _ _ _ _ _ _ Ha1) as (_&_&Hix&_).
  destruct (ipfs_shows_apply _ _ _ _ _ _ Hi Hi1 Ha1) as [Hi' Hn].
  destruct (mem_shows_apply _ _ _ _ _ Hm Hi2 Hix Ha2) as [Hm' Ho].
  eapply IH; [by eexists|exact Hm'| |exact Hr1|exact Hr2].
  eapply list.Forall_impl; [exact Hl|]. intros x. unfold ipfs_stored, read_tx, getObj. by rewrite Hn, Ho.
Qed.

(** C18. The persistent and the in-memory store agree on the nodes: when a
    persistent store with a pending batch and an in-memory store show the same
    nodes, and both apply the same stored transactions without an error, under
    whatever identifiers each keeps them, then they give the same answer for every
    node and the same list of nodes, from which the engine takes its
    proposers. *)
Theorem stores_agree h (l : list (Cid * Cid * Tx)) w w' s s' m :
  ipfs_shows_nodes h w m -> mem_shows s m ->
  Forall (fun x => ipfs_stored w x.1.1 x.2 /\ read_tx s x.1.2 = Ok x.2) l ->
  gfor_e l (fun x => ipfs_ApplyTx None h x.1.1 x.2) w = (Ret None, w') ->
  gfor_e l (fun x => mem_ApplyTx x.1.2 x.2) s = (Ret None, s') ->
  (forall nid, (ipfs_Node h nid w').1 = (mem_Node nid s').1) /\
  (ipfs_Nodes h w').1 = (mem_Nodes s').1.
Proof.
  intros Hi Hm Hl Hr1 Hr2. destruct (stores_run _ _ _ _ _ _ _ Hi Hm Hl Hr1 Hr2) as (m'&[ds Hs1]&Hs2).
  apply ipfs_shows_answers in Hs1 as (_&Hn1&l1&Hl1&Hs1). apply mem_shows_answers in Hs2 as (Hn2&l2&Hl2&Hs2).
  split; [intros nid; by rewrite Hn1, Hn2|]. rewrite Hl1, Hl2. by rewrite (names_unique _ _ _ Hs1 Hs2).
Qed.
End Agree.
End Register.
