(* ===== verification/RegisterDemo.v ===== *)
(** * Witnesses for the register

    A scratch store over an empty database and an in-memory store, with the
    registrations of two nodes and a DID and the revocations of a node and of the
    DID applied to both. *)

From S2P Require Import Prelude Externals Cryptography W3cDid Tx Chain ChainFacts Toy MemStore.
From S2P Require Import ValidatorFacts Ipfs IpfsFacts IpfsDemo Register.

Module RegisterDemo.
Import W3cDid Tx Chain ChainFacts Toy MemStore ValidatorFacts.
Import Ipfs IpfsFacts IpfsDemo Register.
#[local] Existing Instance range_asc.
#[local] Existing Instance ToyPebble.
#[local] Existing Instance ToyPebbleLaws.
#[local] Existing Instance ToyIpfs.

Definition reg_tx (a : Z) (n : string) : Tx := {|
  tx_Version := Version1; tx_Ts := 1; tx_From := n; tx_Type := TxType_Node; tx_Action := a;
  tx_Data := DataNode {| node_Id := n; node_Did := n; node_Key := [x07] |}; tx_Signature := [] |}.

Definition reg_txs : list Tx :=
  [reg_tx TxActionAdd "b"; reg_tx TxActionAdd "a"; reg_tx TxActionRevoke "b"].
Definition all_txs : list Tx := reg_txs ++ [demo_unsigned TxActionAdd; demo_unsigned TxActionRevoke].

(** ** The persistent store *)

Definition opened : World := (ipfs_StartTest 0 world0).2.
Definition scratch : nat := match (ipfs_StartTest 0 world0).1 with Ret (Ok sc) => sc | _ => 0 end.
Definition pending_batch : nat :=
  match w_stores opened !! scratch with Some {| pfTipApply := Some b |} => b | _ => 0 end.
Definition filled : World := foldl (fun w t => (ipfs_PutTx t w).2) opened all_txs.

Definition empty_register : Register := {| r_dids := ∅; r_nodes := ∅ |}.

Lemma filled_store : w_stores filled !! scratch = Some {| pfTipApply := Some pending_batch |}.
Proof. by_vm. Qed.

Lemma filled_view : meta_view filled scratch = Some ∅.
Proof. by_vm. Qed.

Lemma filled_shows : ipfs_shows scratch filled empty_register.
Proof.
  exists pending_batch, ∅. split_and!; [apply filled_store|apply filled_view|..]; intros n; simpl;
    by rewrite lookup_empty.
Qed.

Lemma filled_stored : Forall (fun t => ipfs_stored filled (id_of t) t) all_txs.
Proof. repeat constructor; first [by_vm | apply id_defined; by_vm]. Qed.

Definition items (l : list Tx) : list (Cid * Tx) := (fun t => (id_of t, t)) <$> l.
Definition applied : World :=
  (gfor_e (items all_txs) (fun it => ipfs_ApplyTx None scratch it.1 it.2) filled).2.

Lemma applied_run :
  gfor_e (items all_txs) (fun it => ipfs_ApplyTx None scratch it.1 it.2) filled = (Ret None, applied).
Proof. unfold applied. apply pair_fst. by_vm. Qed.

Lemma ipfs_refines_register_witness :
  ipfs_Node scratch "a" applied = (Ret (Ok (Some {| node_Id := "a"; node_Did := "a"; node_Key := [x07] |})), applied) /\
  ipfs_Node scratch "b" applied = (Ret (Err ErrNotFound), applied) /\
  ipfs_LookupDID scratch (doc_ID demo_doc) applied = (Ret (Err ErrNotFound), applied).
Proof.
  assert (Forall (fun it => ipfs_stored filled it.1 it.2) (items all_txs)) as Hst
    by apply Forall_fmap, filled_stored.
  destruct (ipfs_refines_register scratch (items all_txs) filled applied empty_register
    filled_shows Hst applied_run) as [_ (Hd&Hn&_)].
  exact (conj (Hn "a"%string) (conj (Hn "b"%string) (Hd (doc_ID demo_doc)))).
Defined.

(** ** The in-memory store beside it *)

Definition mem_id (t : Tx) : Cid := obj_cid (ok_opt (msgpack_Marshal_Tx t)).
Definition mem_filled : MemStore := foldl (fun m t => (mem_PutTx t m).2) NewMemStore reg_txs.

Lemma mem_filled_shows : mem_shows mem_filled ∅.
Proof. intros n. by rewrite lookup_empty. Qed.

Lemma mem_filled_stored : Forall (fun t => read_tx mem_filled (mem_id t) = Ok t) reg_txs.
Proof. repeat constructor; by_vm. Qed.

Definition both : list (Cid * Cid * Tx) := (fun t => (id_of t, mem_id t, t)) <$> reg_txs.
Definition applied1 : World := (gfor_e both (fun x => ipfs_ApplyTx None scratch x.1.1 x.2) filled).2.
Definition applied2 : MemStore := (gfor_e both (fun x => mem_ApplyTx x.1.2 x.2) mem_filled).2.

Lemma applied1_run : gfor_e both (fun x => ipfs_ApplyTx None scratch x.1.1 x.2) filled = (Ret None, applied1).
Proof. unfold applied1. apply pair_fst. by_vm. Qed.

Lemma applied2_run : gfor_e both (fun x => mem_ApplyTx x.1.2 x.2) mem_filled = (Ret None, applied2).
Proof. unfold applied2. apply pair_fst. by_vm. Qed.

Lemma both_stored :
  Forall (fun x => ipfs_stored filled x.1.1 x.2 /\ read_tx mem_filled x.1.2 = Ok x.2) both.
Proof.
  apply Forall_fmap, Forall_and; [|apply mem_filled_stored]. exact (proj1 (proj1 (Forall_app _ reg_txs _) filled_stored)).
Qed.

Lemma filled_nodes : ipfs_shows_nodes scratch filled ∅.
Proof. exists ∅. apply filled_shows. Qed.

Lemma stores_agree_witness :
  (forall nid, (ipfs_Node scratch nid applied1).1 = (mem_Node nid applied2).1) /\
  (ipfs_Nodes scratch applied1).1 = (mem_Nodes applied2).1.
Proof.
  exact (stores_agree scratch both filled applied1 mem_filled applied2 ∅ filled_nodes
    mem_filled_shows both_stored applied1_run applied2_run).
Defined.
End RegisterDemo.
