(* ===== verification/ConsensusState.v ===== *)
(** * pkg/did/consensus: messages, state, timers and the network of a node

    msg.go, state.go, crypto.go and p2p.go, the timers of consensus.go, and the
    resettable [Once] of internal/utils/resync.  The record [Consensus] is the
    struct of consensus.go together with what lives outside of it: the memory of
    the stores, what was published, the clock and the random source, and the
    goroutines that are asleep. *)

From S2P Require Import Prelude Externals Cryptography W3cDid Tx Chain Validator MemPool.

Module ConsensusState.
Import Cryptography Tx Chain Validator MemPool.

(** ** msg.go *)

Definition MsgTypeTx : Z := 1.
Definition MsgTypeBlock : Z := 2.
Definition MsgTypeConsensus : Z := 3.

Definition ConsensusMsgTypeNewRound : Z := 1.
Definition ConsensusMsgTypeProposal : Z := 2.
Definition ConsensusMsgTypeVote : Z := 3.
Definition ConsensusMsgTypeBlock : Z := 4.
Definition ConsensusMsgTypeEvidence : Z := 5.

Definition VoteTypePreVote : Z := 1.
Definition VoteTypePreCommit : Z := 2.

Record ConsensusMsgNewRound := {
  nr_Height : Z; nr_Round : Z; nr_LastCommitRound : Z; nr_Timestamp : Z
}.

Record ConsensusMsgProposal := {
  pr_Height : Z; pr_Round : Z; pr_BlockID : string; pr_Timestamp : Z
}.

Record ConsensusMsgVote := {
  vote_Type : Z; vote_Height : Z; vote_Round : Z; vote_BlockID : string;
  vote_Timestamp : Z; vote_Validator : string
}.

Record ConsensusMsgEvidence := { ev_Vote : ConsensusMsgVote; ev_Accepted : bool }.

Record ConsensusMsgBlock := {
  cb_Height : Z; cb_Round : Z; cb_CID : string; cb_Validators : bytes; cb_Signature : bytes
}.

Record ConsensusMsg := {
  cm_Type : Z;
  cm_NewRound : option ConsensusMsgNewRound;
  cm_Proposal : option ConsensusMsgProposal;
  cm_Vote : option ConsensusMsgVote;
  cm_Block : option ConsensusMsgBlock;
  cm_Evidence : option ConsensusMsgEvidence
}.

(** state.go *)
Inductive Step := propose | prevote | precommit | block.

#[export] Instance Step_eq_dec : EqDecision Step.
Proof. solve_decision. Defined.

Section Data.
Context `{Lib}.

Record TxMsg := { txm_Tx : option Tx; txm_TTL : Z }.
Record BlockMsg := { bm_Block : option Block }.

Record Msg := {
  msg_Type : Z;
  msg_From : PeerID;
  msg_Chain : bytes;
  msg_Tx : option TxMsg;
  msg_Block : option BlockMsg;
  msg_Consensus : option ConsensusMsg;
  msg_Timestamp : Z;
  msg_Signature : bytes;
  msg_Key : bytes
}.

Definition msg_set_Signature (x : bytes) (m : Msg) : Msg := {|
  msg_Type := msg_Type m; msg_From := msg_From m; msg_Chain := msg_Chain m; msg_Tx := msg_Tx m;
  msg_Block := msg_Block m; msg_Consensus := msg_Consensus m; msg_Timestamp := msg_Timestamp m;
  msg_Signature := x; msg_Key := msg_Key m
|}.

Definition msg_set_Key (x : bytes) (m : Msg) : Msg := {|
  msg_Type := msg_Type m; msg_From := msg_From m; msg_Chain := msg_Chain m; msg_Tx := msg_Tx m;
  msg_Block := msg_Block m; msg_Consensus := msg_Consensus m; msg_Timestamp := msg_Timestamp m;
  msg_Signature := msg_Signature m; msg_Key := x
|}.

(** msgpack on messages.  The payload of a transaction that is decoded into an
    interface has no Go type to decode into; it is kept as [DataRaw]. *)
Class MsgCodec := {
  msgpack_Marshal_Msg : Msg -> result bytes;
  msgpack_Unmarshal_Msg : bytes -> result Msg
}.

(** A message with a consensus payload only is decoded as it was encoded. *)
Class MsgCodecLaws `{!MsgCodec} : Prop := {
  msgpack_Msg_roundtrip : forall m d,
    msg_Tx m = None -> msg_Block m = None ->
    msgpack_Marshal_Msg m = Ok d -> msgpack_Unmarshal_Msg d = Ok m
}.

Definition msg_Marshal `{!MsgCodec} (m : Msg) : result bytes := msgpack_Marshal_Msg m.

(** crypto.go: the signature field is cleared, and set again when the encoding
    succeeds. *)
Definition signatureData `{!MsgCodec} (m : Msg) : result bytes :=
  msg_Marshal (msg_set_Signature [] m).

Definition AggregateSignatures (sigs : list bytes) : result bytes :=
  AggregateBls12381Signatures sigs.
Definition AggregatePublicKeys (pk : list Bls12381PublicKey) : Point :=
  AggregateBls12381PublicKeys pk.

(** state.go: the two states of a node; a [resync.Once] is whether it is done. *)
Record State := {
  s_AmProposer : bool;
  s_Proposer : string;
  s_Height : Z;
  s_Round : Z;
  s_Step : Step;
  s_Block : Cid;
  s_ParentBlock : Cid;
  s_f : Z;
  s_PreVotes : gomap PeerID Msg;
  s_PreCommits : gomap PeerID Msg;
  s_PreVotesEvidence : gomap string ConsensusMsgEvidence;
  s_PreCommitsEvidence : gomap string ConsensusMsgEvidence;
  s_lockedValue : Cid;
  s_lockedRound : Z;
  s_pvOnce : bool;
  s_pcOnce : bool;
  s_sbOnce : bool
}.

Definition set_AmProposer (x : bool) (s : State) : State := {|
  s_AmProposer := x; s_Proposer := s_Proposer s; s_Height := s_Height s; s_Round := s_Round s;
  s_Step := s_Step s; s_Block := s_Block s; s_ParentBlock := s_ParentBlock s; s_f := s_f s;
  s_PreVotes := s_PreVotes s; s_PreCommits := s_PreCommits s; s_PreVotesEvidence :=
  s_PreVotesEvidence s; s_PreCommitsEvidence := s_PreCommitsEvidence s; s_lockedValue :=
  s_lockedValue s; s_lockedRound := s_lockedRound s; s_pvOnce := s_pvOnce s; s_pcOnce :=
  s_pcOnce s; s_sbOnce := s_sbOnce s
|}.
Definition set_Proposer (x : string) (s : State) : State := {|
  s_AmProposer := s_AmProposer s; s_Proposer := x; s_Height := s_Height s; s_Round := s_Round s;
  s_Step := s_Step s; s_Block := s_Block s; s_ParentBlock := s_ParentBlock s; s_f := s_f s;
  s_PreVotes := s_PreVotes s; s_PreCommits := s_PreCommits s; s_PreVotesEvidence :=
  s_PreVotesEvidence s; s_PreCommitsEvidence := s_PreCommitsEvidence s; s_lockedValue :=
  s_lockedValue s; s_lockedRound := s_lockedRound s; s_pvOnce := s_pvOnce s; s_pcOnce :=
  s_pcOnce s; s_sbOnce := s_sbOnce s
|}.
Definition set_Height (x : Z) (s : State) : State := {|
  s_AmProposer := s_AmProposer s; s_Proposer := s_Proposer s; s_Height := x; s_Round := s_Round
  s; s_Step := s_Step s; s_Block := s_Block s; s_ParentBlock := s_ParentBlock s; s_f := s_f s;
  s_PreVotes := s_PreVotes s; s_PreCommits := s_PreCommits s; s_PreVotesEvidence :=
  s_PreVotesEvidence s; s_PreCommitsEvidence := s_PreCommitsEvidence s; s_lockedValue :=
  s_lockedValue s; s_lockedRound := s_lockedRound s; s_pvOnce := s_pvOnce s; s_pcOnce :=
  s_pcOnce s; s_sbOnce := s_sbOnce s
|}.
Definition set_Round (x : Z) (s : State) : State := {|
  s_AmProposer := s_AmProposer s; s_Proposer := s_Proposer s; s_Height := s_Height s; s_Round :=
  x; s_Step := s_Step s; s_Block := s_Block s; s_ParentBlock := s_ParentBlock s; s_f := s_f s;
  s_PreVotes := s_PreVotes s; s_PreCommits := s_PreCommits s; s_PreVotesEvidence :=
  s_PreVotesEvidence s; s_PreCommitsEvidence := s_PreCommitsEvidence s; s_lockedValue :=
  s_lockedValue s; s_lockedRound := s_lockedRound s; s_pvOnce := s_pvOnce s; s_pcOnce :=
  s_pcOnce s; s_sbOnce := s_sbOnce s
|}.
Definition set_Step (x : Step) (s : State) : State := {|
  s_AmProposer := s_AmProposer s; s_Proposer := s_Proposer s; s_Height := s_Height s; s_Round :=
  s_Round s; s_Step := x; s_Block := s_Block s; s_ParentBlock := s_ParentBlock s; s_f := s_f s;
  s_PreVotes := s_PreVotes s; s_PreCommits := s_PreCommits s; s_PreVotesEvidence :=
  s_PreVotesEvidence s; s_PreCommitsEvidence := s_PreCommitsEvidence s; s_lockedValue :=
  s_lockedValue s; s_lockedRound := s_lockedRound s; s_pvOnce := s_pvOnce s; s_pcOnce :=
  s_pcOnce s; s_sbOnce := s_sbOnce s
|}.
Definition set_Block (x : Cid) (s : State) : State := {|
  s_AmProposer := s_AmProposer s; s_Proposer := s_Proposer s; s_Height := s_Height s; s_Round :=
  s_Round s; s_Step := s_Step s; s_Block := x; s_ParentBlock := s_ParentBlock s; s_f := s_f s;
  s_PreVotes := s_PreVotes s; s_PreCommits := s_PreCommits s; s_PreVotesEvidence :=
  s_PreVotesEvidence s; s_PreCommitsEvidence := s_PreCommitsEvidence s; s_lockedValue :=
  s_lockedValue s; s_lockedRound := s_lockedRound s; s_pvOnce := s_pvOnce s; s_pcOnce :=
  s_pcOnce s; s_sbOnce := s_sbOnce s
|}.
Definition set_ParentBlock (x : Cid) (s : State) : State := {|
  s_AmProposer := s_AmProposer s; s_Proposer := s_Proposer s; s_Height := s_Height s; s_Round :=
  s_Round s; s_Step := s_Step s; s_Block := s_Block s; s_ParentBlock := x; s_f := s_f s;
  s_PreVotes := s_PreVotes s; s_PreCommits := s_PreCommits s; s_PreVotesEvidence :=
  s_PreVotesEvidence s; s_PreCommitsEvidence := s_PreCommitsEvidence s; s_lockedValue :=
  s_lockedValue s; s_lockedRound := s_lockedRound s; s_pvOnce := s_pvOnce s; s_pcOnce :=
  s_pcOnce s; s_sbOnce := s_sbOnce s
|}.
Definition set_f (x : Z) (s : State) : State := {|
  s_AmProposer := s_AmProposer s; s_Proposer := s_Proposer s; s_Height := s_Height s; s_Round :=
  s_Round s; s_Step := s_Step s; s_Block := s_Block s; s_ParentBlock := s_ParentBlock s; s_f :=
  x; s_PreVotes := s_PreVotes s; s_PreCommits := s_PreCommits s; s_PreVotesEvidence :=
  s_PreVotesEvidence s; s_PreCommitsEvidence := s_PreCommitsEvidence s; s_lockedValue :=
  s_lockedValue s; s_lockedRound := s_lockedRound s; s_pvOnce := s_pvOnce s; s_pcOnce :=
  s_pcOnce s; s_sbOnce := s_sbOnce s
|}.
Definition set_PreVotes (x : gomap PeerID Msg) (s : State) : State := {|
  s_AmProposer := s_AmProposer s; s_Proposer := s_Proposer s; s_Height := s_Height s; s_Round :=
  s_Round s; s_Step := s_Step s; s_Block := s_Block s; s_ParentBlock := s_ParentBlock s; s_f :=
  s_f s; s_PreVotes := x; s_PreCommits := s_PreCommits s; s_PreVotesEvidence :=
  s_PreVotesEvidence s; s_PreCommitsEvidence := s_PreCommitsEvidence s; s_lockedValue :=
  s_lockedValue s; s_lockedRound := s_lockedRound s; s_pvOnce := s_pvOnce s; s_pcOnce :=
  s_pcOnce s; s_sbOnce := s_sbOnce s
|}.
Definition set_PreCommits (x : gomap PeerID Msg) (s : State) : State := {|
  s_AmProposer := s_AmProposer s; s_Proposer := s_Proposer s; s_Height := s_Height s; s_Round :=
  s_Round s; s_Step := s_Step s; s_Block := s_Block s; s_ParentBlock := s_ParentBlock s; s_f :=
  s_f s; s_PreVotes := s_PreVotes s; s_PreCommits := x; s_PreVotesEvidence := s_PreVotesEvidence
  s; s_PreCommitsEvidence := s_PreCommitsEvidence s; s_lockedValue := s_lockedValue s;
  s_lockedRound := s_lockedRound s; s_pvOnce := s_pvOnce s; s_pcOnce := s_pcOnce s; s_sbOnce :=
  s_sbOnce s
|}.
Definition set_PreVotesEvidence (x : gomap string ConsensusMsgEvidence) (s : State) : State := {|
  s_AmProposer := s_AmProposer s; s_Proposer := s_Proposer s; s_Height := s_Height s; s_Round :=
  s_Round s; s_Step := s_Step s; s_Block := s_Block s; s_ParentBlock := s_ParentBlock s; s_f :=
  s_f s; s_PreVotes := s_PreVotes s; s_PreCommits := s_PreCommits s; s_PreVotesEvidence := x;
  s_PreCommitsEvidence := s_PreCommitsEvidence s; s_lockedValue := s_lockedValue s;
  s_lockedRound := s_lockedRound s; s_pvOnce := s_pvOnce s; s_pcOnce := s_pcOnce s; s_sbOnce :=
  s_sbOnce s
|}.
Definition set_PreCommitsEvidence (x : gomap string ConsensusMsgEvidence) (s : State) : State := {|
  s_AmProposer := s_AmProposer s; s_Proposer := s_Proposer s; s_Height := s_Height s; s_Round :=
  s_Round s; s_Step := s_Step s; s_Block := s_Block s; s_ParentBlock := s_ParentBlock s; s_f :=
  s_f s; s_PreVotes := s_PreVotes s; s_PreCommits := s_PreCommits s; s_PreVotesEvidence :=
  s_PreVotesEvidence s; s_PreCommitsEvidence := x; s_lockedValue := s_lockedValue s;
  s_lockedRound := s_lockedRound s; s_pvOnce := s_pvOnce s; s_pcOnce := s_pcOnce s; s_sbOnce :=
  s_sbOnce s
|}.
Definition set_lockedValue (x : Cid) (s : State) : State := {|
  s_AmProposer := s_AmProposer s; s_Proposer := s_Proposer s; s_Height := s_Height s; s_Round :=
  s_Round s; s_Step := s_Step s; s_Block := s_Block s; s_ParentBlock := s_ParentBlock s; s_f :=
  s_f s; s_PreVotes := s_PreVotes s; s_PreCommits := s_PreCommits s; s_PreVotesEvidence :=
  s_PreVotesEvidence s; s_PreCommitsEvidence := s_PreCommitsEvidence s; s_lockedValue := x;
  s_lockedRound := s_lockedRound s; s_pvOnce := s_pvOnce s; s_pcOnce := s_pcOnce s; s_sbOnce :=
  s_sbOnce s
|}.
Definition set_lockedRound (x : Z) (s : State) : State := {|
  s_AmProposer := s_AmProposer s; s_Proposer := s_Proposer s; s_Height := s_Height s; s_Round :=
  s_Round s; s_Step := s_Step s; s_Block := s_Block s; s_ParentBlock := s_ParentBlock s; s_f :=
  s_f s; s_PreVotes := s_PreVotes s; s_PreCommits := s_PreCommits s; s_PreVotesEvidence :=
  s_PreVotesEvidence s; s_PreCommitsEvidence := s_PreCommitsEvidence s; s_lockedValue :=
  s_lockedValue s; s_lockedRound := x; s_pvOnce := s_pvOnce s; s_pcOnce := s_pcOnce s; s_sbOnce
  := s_sbOnce s
|}.
Definition set_pvOnce (x : bool) (s : State) : State := {|
  s_AmProposer := s_AmProposer s; s_Proposer := s_Proposer s; s_Height := s_Height s; s_Round :=
  s_Round s; s_Step := s_Step s; s_Block := s_Block s; s_ParentBlock := s_ParentBlock s; s_f :=
  s_f s; s_PreVotes := s_PreVotes s; s_PreCommits := s_PreCommits s; s_PreVotesEvidence :=
  s_PreVotesEvidence s; s_PreCommitsEvidence := s_PreCommitsEvidence s; s_lockedValue :=
  s_lockedValue s; s_lockedRound := s_lockedRound s; s_pvOnce := x; s_pcOnce := s_pcOnce s;
  s_sbOnce := s_sbOnce s
|}.
Definition set_pcOnce (x : bool) (s : State) : State := {|
  s_AmProposer := s_AmProposer s; s_Proposer := s_Proposer s; s_Height := s_Height s; s_Round :=
  s_Round s; s_Step := s_Step s; s_Block := s_Block s; s_ParentBlock := s_ParentBlock s; s_f :=
  s_f s; s_PreVotes := s_PreVotes s; s_PreCommits := s_PreCommits s; s_PreVotesEvidence :=
  s_PreVotesEvidence s; s_PreCommitsEvidence := s_PreCommitsEvidence s; s_lockedValue :=
  s_lockedValue s; s_lockedRound := s_lockedRound s; s_pvOnce := s_pvOnce s; s_pcOnce := x;
  s_sbOnce := s_sbOnce s
|}.
Definition set_sbOnce (x : bool) (s : State) : State := {|
  s_AmProposer := s_AmProposer s; s_Proposer := s_Proposer s; s_Height := s_Height s; s_Round :=
  s_Round s; s_Step := s_Step s; s_Block := s_Block s; s_ParentBlock := s_ParentBlock s; s_f :=
  s_f s; s_PreVotes := s_PreVotes s; s_PreCommits := s_PreCommits s; s_PreVotesEvidence :=
  s_PreVotesEvidence s; s_PreCommitsEvidence := s_PreCommitsEvidence s; s_lockedValue :=
  s_lockedValue s; s_lockedRound := s_lockedRound s; s_pvOnce := s_pvOnce s; s_pcOnce :=
  s_pcOnce s; s_sbOnce := x
|}.

(** The zero value. *)
Definition zero_State : State := {|
  s_AmProposer := false; s_Proposer := ""; s_Height := 0; s_Round := 0; s_Step := propose;
  s_Block := cid_Undef; s_ParentBlock := cid_Undef; s_f := 0; s_PreVotes := None;
  s_PreCommits := None; s_PreVotesEvidence := None; s_PreCommitsEvidence := None;
  s_lockedValue := cid_Undef; s_lockedRound := 0; s_pvOnce := false; s_pcOnce := false;
  s_sbOnce := false
|}.

Definition setStep (st : Step) (s : State) : State := set_Step st s.

Definition resetOnces (s : State) : State :=
  set_sbOnce false (set_pcOnce false (set_pvOnce false s)).

(** ** Timers: a [time.Timer] is stopped, running, or has a tick in its channel *)

Inductive Timer :=
| TStopped
| TRunning (d : Z)
| TFired.

(** [if !t.Stop() { select { case <-t.C: default: } }] *)
Definition stopTimer (t : Timer) : Timer :=
  match t with
  | TRunning _ => TStopped
  | TFired => TStopped
  | TStopped => TStopped
  end.

(** [t.Reset(d)], on a timer whose channel is empty *)
Definition timer_Reset (t : Timer) (d : Z) : Timer := TRunning d.

Definition restartTimer (t : Timer) (d : Z) : Timer := timer_Reset (stopTimer t) d.

(** Durations in seconds *)
Definition timeoutPropose : Z := 60.
Definition timeoutPrevote : Z := 60.
Definition timeoutPrecommit : Z := 60.
Definition timeoutBlock : Z := 60.

(** ** p2p.go *)

Definition pubsubMsgsChanName : string := "/did/msgs".
Definition pubsubTxChanName : string := "/did/tx".

(** A message given to the router, with its encoding. *)
Record Published := { pub_topic : string; pub_msg : Msg; pub_data : bytes }.

(** github.com/libp2p/go-libp2p-pubsub: what it answers may depend on what was
    published before. *)
Class PubSub := {
  pubsub_Join : list Published -> string -> option error;
  pubsub_Subscribe : list Published -> string -> option error;
  pubsub_Publish : list Published -> string -> bytes -> option error
}.

(** A message the router delivers. *)
Record PubsubMessage := { pm_From : bytes; pm_Data : bytes; pm_Key : bytes }.

(** The body of the receiving loop of [Msgs]: [None] skips the message. *)
Definition p2p_receive `{!MsgCodec} (self : PeerID) (m : PubsubMessage) : option Msg :=
  let selfBytes := match peer_MarshalBinary self with Ok b => b | Err _ => [] end in
  if bool_decide (selfBytes = pm_From m) then None
  else match msgpack_Unmarshal_Msg (pm_Data m) with
       | Err _ => None
       | Ok msg => Some (msg_set_Key (pm_Key m) msg)
       end.
End Data.

(** ** The node *)

Section Node.
Context `{L : Lib} {W H VS : Type}.

Record Consensus := {
  c_chain : bytes;
  c_id : PeerID;
  c_signingKey : option Bls12381PrivateKey;
  c_genesis : option GenesisInfo;
  c_memPool : list (option Tx);
  c_store : option H;
  c_validator : option (Validator VS);
  c_beacon : bool;
  c_topics : gset string;
  c_state : State;
  c_propsalState : State;
  c_timerPropose : Timer;
  c_timerPrevote : Timer;
  c_timerPrecommit : Timer;
  c_timerBlock : Timer;
  c_mem : VS;
  c_outbox : list Published;
  c_sleeping : nat;
  c_blockFuncs : nat;
  c_now : Z;
  c_nonce : result bytes
}.

Definition set_chain (x : bytes) (s : Consensus) : Consensus := {|
  c_chain := x; c_id := c_id s; c_signingKey := c_signingKey s; c_genesis := c_genesis s;
  c_memPool := c_memPool s; c_store := c_store s; c_validator := c_validator s; c_beacon :=
  c_beacon s; c_topics := c_topics s; c_state := c_state s; c_propsalState := c_propsalState s;
  c_timerPropose := c_timerPropose s; c_timerPrevote := c_timerPrevote s; c_timerPrecommit :=
  c_timerPrecommit s; c_timerBlock := c_timerBlock s; c_mem := c_mem s; c_outbox := c_outbox s;
  c_sleeping := c_sleeping s; c_blockFuncs := c_blockFuncs s; c_now := c_now s; c_nonce :=
  c_nonce s
|}.
Definition set_id (x : PeerID) (s : Consensus) : Consensus := {|
  c_chain := c_chain s; c_id := x; c_signingKey := c_signingKey s; c_genesis := c_genesis s;
  c_memPool := c_memPool s; c_store := c_store s; c_validator := c_validator s; c_beacon :=
  c_beacon s; c_topics := c_topics s; c_state := c_state s; c_propsalState := c_propsalState s;
  c_timerPropose := c_timerPropose s; c_timerPrevote := c_timerPrevote s; c_timerPrecommit :=
  c_timerPrecommit s; c_timerBlock := c_timerBlock s; c_mem := c_mem s; c_outbox := c_outbox s;
  c_sleeping := c_sleeping s; c_blockFuncs := c_blockFuncs s; c_now := c_now s; c_nonce :=
  c_nonce s
|}.
Definition set_signingKey (x : option Bls12381PrivateKey) (s : Consensus) : Consensus := {|
  c_chain := c_chain s; c_id := c_id s; c_signingKey := x; c_genesis := c_genesis s; c_memPool
  := c_memPool s; c_store := c_store s; c_validator := c_validator s; c_beacon := c_beacon s;
  c_topics := c_topics s; c_state := c_state s; c_propsalState := c_propsalState s;
  c_timerPropose := c_timerPropose s; c_timerPrevote := c_timerPrevote s; c_timerPrecommit :=
  c_timerPrecommit s; c_timerBlock := c_timerBlock s; c_mem := c_mem s; c_outbox := c_outbox s;
  c_sleeping := c_sleeping s; c_blockFuncs := c_blockFuncs s; c_now := c_now s; c_nonce :=
  c_nonce s
|}.
Definition set_genesis (x : option GenesisInfo) (s : Consensus) : Consensus := {|
  c_chain := c_chain s; c_id := c_id s; c_signingKey := c_signingKey s; c_genesis := x;
  c_memPool := c_memPool s; c_store := c_store s; c_validator := c_validator s; c_beacon :=
  c_beacon s; c_topics := c_topics s; c_state := c_state s; c_propsalState := c_propsalState s;
  c_timerPropose := c_timerPropose s; c_timerPrevote := c_timerPrevote s; c_timerPrecommit :=
  c_timerPrecommit s; c_timerBlock := c_timerBlock s; c_mem := c_mem s; c_outbox := c_outbox s;
  c_sleeping := c_sleeping s; c_blockFuncs := c_blockFuncs s; c_now := c_now s; c_nonce :=
  c_nonce s
|}.
Definition set_memPool (x : list (option Tx)) (s : Consensus) : Consensus := {|
  c_chain := c_chain s; c_id := c_id s; c_signingKey := c_signingKey s; c_genesis := c_genesis
  s; c_memPool := x; c_store := c_store s; c_validator := c_validator s; c_beacon := c_beacon s;
  c_topics := c_topics s; c_state := c_state s; c_propsalState := c_propsalState s;
  c_timerPropose := c_timerPropose s; c_timerPrevote := c_timerPrevote s; c_timerPrecommit :=
  c_timerPrecommit s; c_timerBlock := c_timerBlock s; c_mem := c_mem s; c_outbox := c_outbox s;
  c_sleeping := c_sleeping s; c_blockFuncs := c_blockFuncs s; c_now := c_now s; c_nonce :=
  c_nonce s
|}.
Definition set_store (x : option H) (s : Consensus) : Consensus := {|
  c_chain := c_chain s; c_id := c_id s; c_signingKey := c_signingKey s; c_genesis := c_genesis
  s; c_memPool := c_memPool s; c_store := x; c_validator := c_validator s; c_beacon := c_beacon
  s; c_topics := c_topics s; c_state := c_state s; c_propsalState := c_propsalState s;
  c_timerPropose := c_timerPropose s; c_timerPrevote := c_timerPrevote s; c_timerPrecommit :=
  c_timerPrecommit s; c_timerBlock := c_timerBlock s; c_mem := c_mem s; c_outbox := c_outbox s;
  c_sleeping := c_sleeping s; c_blockFuncs := c_blockFuncs s; c_now := c_now s; c_nonce :=
  c_nonce s
|}.
Definition set_validator (x : option (Validator VS)) (s : Consensus) : Consensus := {|
  c_chain := c_chain s; c_id := c_id s; c_signingKey := c_signingKey s; c_genesis := c_genesis
  s; c_memPool := c_memPool s; c_store := c_store s; c_validator := x; c_beacon := c_beacon s;
  c_topics := c_topics s; c_state := c_state s; c_propsalState := c_propsalState s;
  c_timerPropose := c_timerPropose s; c_timerPrevote := c_timerPrevote s; c_timerPrecommit :=
  c_timerPrecommit s; c_timerBlock := c_timerBlock s; c_mem := c_mem s; c_outbox := c_outbox s;
  c_sleeping := c_sleeping s; c_blockFuncs := c_blockFuncs s; c_now := c_now s; c_nonce :=
  c_nonce s
|}.
Definition set_beacon (x : bool) (s : Consensus) : Consensus := {|
  c_chain := c_chain s; c_id := c_id s; c_signingKey := c_signingKey s; c_genesis := c_genesis
  s; c_memPool := c_memPool s; c_store := c_store s; c_validator := c_validator s; c_beacon :=
  x; c_topics := c_topics s; c_state := c_state s; c_propsalState := c_propsalState s;
  c_timerPropose := c_timerPropose s; c_timerPrevote := c_timerPrevote s; c_timerPrecommit :=
  c_timerPrecommit s; c_timerBlock := c_timerBlock s; c_mem := c_mem s; c_outbox := c_outbox s;
  c_sleeping := c_sleeping s; c_blockFuncs := c_blockFuncs s; c_now := c_now s; c_nonce :=
  c_nonce s
|}.
Definition set_topics (x : gset string) (s : Consensus) : Consensus := {|
  c_chain := c_chain s; c_id := c_id s; c_signingKey := c_signingKey s; c_genesis := c_genesis
  s; c_memPool := c_memPool s; c_store := c_store s; c_validator := c_validator s; c_beacon :=
  c_beacon s; c_topics := x; c_state := c_state s; c_propsalState := c_propsalState s;
  c_timerPropose := c_timerPropose s; c_timerPrevote := c_timerPrevote s; c_timerPrecommit :=
  c_timerPrecommit s; c_timerBlock := c_timerBlock s; c_mem := c_mem s; c_outbox := c_outbox s;
  c_sleeping := c_sleeping s; c_blockFuncs := c_blockFuncs s; c_now := c_now s; c_nonce :=
  c_nonce s
|}.
Definition set_state (x : State) (s : Consensus) : Consensus := {|
  c_chain := c_chain s; c_id := c_id s; c_signingKey := c_signingKey s; c_genesis := c_genesis
  s; c_memPool := c_memPool s; c_store := c_store s; c_validator := c_validator s; c_beacon :=
  c_beacon s; c_topics := c_topics s; c_state := x; c_propsalState := c_propsalState s;
  c_timerPropose := c_timerPropose s; c_timerPrevote := c_timerPrevote s; c_timerPrecommit :=
  c_timerPrecommit s; c_timerBlock := c_timerBlock s; c_mem := c_mem s; c_outbox := c_outbox s;
  c_sleeping := c_sleeping s; c_blockFuncs := c_blockFuncs s; c_now := c_now s; c_nonce :=
  c_nonce s
|}.
Definition set_propsalState (x : State) (s : Consensus) : Consensus := {|
  c_chain := c_chain s; c_id := c_id s; c_signingKey := c_signingKey s; c_genesis := c_genesis
  s; c_memPool := c_memPool s; c_store := c_store s; c_validator := c_validator s; c_beacon :=
  c_beacon s; c_topics := c_topics s; c_state := c_state s; c_propsalState := x; c_timerPropose
  := c_timerPropose s; c_timerPrevote := c_timerPrevote s; c_timerPrecommit := c_timerPrecommit
  s; c_timerBlock := c_timerBlock s; c_mem := c_mem s; c_outbox := c_outbox s; c_sleeping :=
  c_sleeping s; c_blockFuncs := c_blockFuncs s; c_now := c_now s; c_nonce := c_nonce s
|}.
Definition set_timerPropose (x : Timer) (s : Consensus) : Consensus := {|
  c_chain := c_chain s; c_id := c_id s; c_signingKey := c_signingKey s; c_genesis := c_genesis
  s; c_memPool := c_memPool s; c_store := c_store s; c_validator := c_validator s; c_beacon :=
  c_beacon s; c_topics := c_topics s; c_state := c_state s; c_propsalState := c_propsalState s;
  c_timerPropose := x; c_timerPrevote := c_timerPrevote s; c_timerPrecommit := c_timerPrecommit
  s; c_timerBlock := c_timerBlock s; c_mem := c_mem s; c_outbox := c_outbox s; c_sleeping :=
  c_sleeping s; c_blockFuncs := c_blockFuncs s; c_now := c_now s; c_nonce := c_nonce s
|}.
Definition set_timerPrevote (x : Timer) (s : Consensus) : Consensus := {|
  c_chain := c_chain s; c_id := c_id s; c_signingKey := c_signingKey s; c_genesis := c_genesis
  s; c_memPool := c_memPool s; c_store := c_store s; c_validator := c_validator s; c_beacon :=
  c_beacon s; c_topics := c_topics s; c_state := c_state s; c_propsalState := c_propsalState s;
  c_timerPropose := c_timerPropose s; c_timerPrevote := x; c_timerPrecommit := c_timerPrecommit
  s; c_timerBlock := c_timerBlock s; c_mem := c_mem s; c_outbox := c_outbox s; c_sleeping :=
  c_sleeping s; c_blockFuncs := c_blockFuncs s; c_now := c_now s; c_nonce := c_nonce s
|}.
Definition set_timerPrecommit (x : Timer) (s : Consensus) : Consensus := {|
  c_chain := c_chain s; c_id := c_id s; c_signingKey := c_signingKey s; c_genesis := c_genesis
  s; c_memPool := c_memPool s; c_store := c_store s; c_validator := c_validator s; c_beacon :=
  c_beacon s; c_topics := c_topics s; c_state := c_state s; c_propsalState := c_propsalState s;
  c_timerPropose := c_timerPropose s; c_timerPrevote := c_timerPrevote s; c_timerPrecommit := x;
  c_timerBlock := c_timerBlock s; c_mem := c_mem s; c_outbox := c_outbox s; c_sleeping :=
  c_sleeping s; c_blockFuncs := c_blockFuncs s; c_now := c_now s; c_nonce := c_nonce s
|}.
Definition set_timerBlock (x : Timer) (s : Consensus) : Consensus := {|
  c_chain := c_chain s; c_id := c_id s; c_signingKey := c_signingKey s; c_genesis := c_genesis
  s; c_memPool := c_memPool s; c_store := c_store s; c_validator := c_validator s; c_beacon :=
  c_beacon s; c_topics := c_topics s; c_state := c_state s; c_propsalState := c_propsalState s;
  c_timerPropose := c_timerPropose s; c_timerPrevote := c_timerPrevote s; c_timerPrecommit :=
  c_timerPrecommit s; c_timerBlock := x; c_mem := c_mem s; c_outbox := c_outbox s; c_sleeping :=
  c_sleeping s; c_blockFuncs := c_blockFuncs s; c_now := c_now s; c_nonce := c_nonce s
|}.
Definition set_mem (x : VS) (s : Consensus) : Consensus := {|
  c_chain := c_chain s; c_id := c_id s; c_signingKey := c_signingKey s; c_genesis := c_genesis
  s; c_memPool := c_memPool s; c_store := c_store s; c_validator := c_validator s; c_beacon :=
  c_beacon s; c_topics := c_topics s; c_state := c_state s; c_propsalState := c_propsalState s;
  c_timerPropose := c_timerPropose s; c_timerPrevote := c_timerPrevote s; c_timerPrecommit :=
  c_timerPrecommit s; c_timerBlock := c_timerBlock s; c_mem := x; c_outbox := c_outbox s;
  c_sleeping := c_sleeping s; c_blockFuncs := c_blockFuncs s; c_now := c_now s; c_nonce :=
  c_nonce s
|}.
Definition set_outbox (x : list Published) (s : Consensus) : Consensus := {|
  c_chain := c_chain s; c_id := c_id s; c_signingKey := c_signingKey s; c_genesis := c_genesis
  s; c_memPool := c_memPool s; c_store := c_store s; c_validator := c_validator s; c_beacon :=
  c_beacon s; c_topics := c_topics s; c_state := c_state s; c_propsalState := c_propsalState s;
  c_timerPropose := c_timerPropose s; c_timerPrevote := c_timerPrevote s; c_timerPrecommit :=
  c_timerPrecommit s; c_timerBlock := c_timerBlock s; c_mem := c_mem s; c_outbox := x;
  c_sleeping := c_sleeping s; c_blockFuncs := c_blockFuncs s; c_now := c_now s; c_nonce :=
  c_nonce s
|}.
Definition set_sleeping (x : nat) (s : Consensus) : Consensus := {|
  c_chain := c_chain s; c_id := c_id s; c_signingKey := c_signingKey s; c_genesis := c_genesis
  s; c_memPool := c_memPool s; c_store := c_store s; c_validator := c_validator s; c_beacon :=
  c_beacon s; c_topics := c_topics s; c_state := c_state s; c_propsalState := c_propsalState s;
  c_timerPropose := c_timerPropose s; c_timerPrevote := c_timerPrevote s; c_timerPrecommit :=
  c_timerPrecommit s; c_timerBlock := c_timerBlock s; c_mem := c_mem s; c_outbox := c_outbox s;
  c_sleeping := x; c_blockFuncs := c_blockFuncs s; c_now := c_now s; c_nonce := c_nonce s
|}.
Definition set_blockFuncs (x : nat) (s : Consensus) : Consensus := {|
  c_chain := c_chain s; c_id := c_id s; c_signingKey := c_signingKey s; c_genesis := c_genesis
  s; c_memPool := c_memPool s; c_store := c_store s; c_validator := c_validator s; c_beacon :=
  c_beacon s; c_topics := c_topics s; c_state := c_state s; c_propsalState := c_propsalState s;
  c_timerPropose := c_timerPropose s; c_timerPrevote := c_timerPrevote s; c_timerPrecommit :=
  c_timerPrecommit s; c_timerBlock := c_timerBlock s; c_mem := c_mem s; c_outbox := c_outbox s;
  c_sleeping := c_sleeping s; c_blockFuncs := x; c_now := c_now s; c_nonce := c_nonce s
|}.
Definition set_now (x : Z) (s : Consensus) : Consensus := {|
  c_chain := c_chain s; c_id := c_id s; c_signingKey := c_signingKey s; c_genesis := c_genesis
  s; c_memPool := c_memPool s; c_store := c_store s; c_validator := c_validator s; c_beacon :=
  c_beacon s; c_topics := c_topics s; c_state := c_state s; c_propsalState := c_propsalState s;
  c_timerPropose := c_timerPropose s; c_timerPrevote := c_timerPrevote s; c_timerPrecommit :=
  c_timerPrecommit s; c_timerBlock := c_timerBlock s; c_mem := c_mem s; c_outbox := c_outbox s;
  c_sleeping := c_sleeping s; c_blockFuncs := c_blockFuncs s; c_now := x; c_nonce := c_nonce s
|}.
Definition set_nonce (x : result bytes) (s : Consensus) : Consensus := {|
  c_chain := c_chain s; c_id := c_id s; c_signingKey := c_signingKey s; c_genesis := c_genesis
  s; c_memPool := c_memPool s; c_store := c_store s; c_validator := c_validator s; c_beacon :=
  c_beacon s; c_topics := c_topics s; c_state := c_state s; c_propsalState := c_propsalState s;
  c_timerPropose := c_timerPropose s; c_timerPrevote := c_timerPrevote s; c_timerPrecommit :=
  c_timerPrecommit s; c_timerBlock := c_timerBlock s; c_mem := c_mem s; c_outbox := c_outbox s;
  c_sleeping := c_sleeping s; c_blockFuncs := c_blockFuncs s; c_now := c_now s; c_nonce := x
|}.
End Node.
Arguments Consensus {_} H VS.
End ConsensusState.
