(* ===== verification/Consensus.v ===== *)
(** * pkg/did/consensus/consensus.go, blocks.go and options.go: the protocol

    One definition per method of [Consensus], in the state-passing monad.  A
    method runs as a whole, except [startRound], which sleeps for five seconds
    when the node is the proposer: it is the sequence of [startRound_open] and
    [startRound_wake], between which other goroutines run.  Logging and the
    tracer are left out. *)

From S2P Require Import Prelude Externals Cryptography W3cDid Tx Chain Validator MemPool.
From S2P Require Import ConsensusState.

Module Consensus.
Import Cryptography Tx Chain Validator MemPool ConsensusState.

Section Consensus.
Context `{L : Lib} {W H VS : Type} `{!Store W H} `{!MsgCodec} `{!PubSub} `{!RangeOrder}.
(** The memory of the stores within the state the validator runs in. *)
Context (get_world : VS -> W) (put_world : W -> VS -> VS).

Notation Consensus := (Consensus H VS).
Notation M := (GoM Consensus).

(** [c.propsalState = f(c.propsalState)] *)
Definition ps (f : State -> State) : M unit :=
  gmodify (fun c => set_propsalState (f (c_propsalState c)) c).
Definition get_ps {A} (f : State -> A) : M A := ggets (fun c => f (c_propsalState c)).
Definition get_st {A} (f : State -> A) : M A := ggets (fun c => f (c_state c)).

(** [c.store.Method(...)]: a call on a [nil] interface panics. *)
Definition store {A} (m : H -> GoM W A) : M A :=
  s ← ggets c_store; h ← gsome s;
  gzoom (fun c => get_world (c_mem c)) (fun w c => set_mem (put_world w (c_mem c)) c) (m h).

Definition validator {A} (m : Validator VS -> GoM VS A) : M A :=
  v ← ggets c_validator; v ← gsome v;
  gzoom c_mem set_mem (m v).

Definition pool {A} (m : GoM (list (option Tx)) A) : M A := gzoom c_memPool set_memPool m.

(** [o.Do(f)] for the [Once] at [get]/[set] *)
Definition once_Do (get : State -> bool) (set : bool -> State -> State) (f : M unit) : M unit :=
  done ← get_ps get;
  if done : bool then mret tt else gdefer f (ps (set true)).

(** [t[k] = v] for a map of the proposal state *)
Definition map_put `{Countable K} {V} (get : State -> gomap K V) (set : gomap K V -> State -> State)
    (k : K) (v : V) : M unit :=
  m ← get_ps get;
  m ← gsome (gm_set k v m);
  ps (set m).

(** ** p2p.go *)

(** [Msgs(channel)], up to the loop that delivers messages *)
Definition p2p_Msgs (channel : string) : M (option error) :=
  topics ← ggets c_topics;
  out ← ggets c_outbox;
  gcheck_e (if bool_decide (channel ∈ topics) then mret None
            else match pubsub_Join out channel with
                 | Some err => mret (Some (errorsWrap err "join data topic"))
                 | None => gmodify (fun c => set_topics ({[channel]} ∪ c_topics c) c);; mret None
                 end) (
  mret (Wrap (pubsub_Subscribe out channel) "subscribing to data topic")).

Definition PublishContext (channel : string) (m : Msg) : M (option error) :=
  topics ← ggets c_topics;
  if negb (bool_decide (channel ∈ topics)) then mret (Some (errorsNew "not subscribed"))
  else match msg_Marshal m with
  | Err err => mret (Some (errorsWrap err ""))
  | Ok b =>
      out ← ggets c_outbox;
      match pubsub_Publish out channel b with
      | Some err => mret (Some err)
      | None =>
          gmodify (fun c => set_outbox (c_outbox c ++
            [{| pub_topic := channel; pub_msg := m; pub_data := b |}]) c);; mret None
      end
  end.

(** ** Sending *)

(** The argument of [sendMsg], an interface with these dynamic types *)
Inductive Sendable :=
| SendNewRound (m : ConsensusMsgNewRound)
| SendProposal (m : ConsensusMsgProposal)
| SendVote (m : ConsensusMsgVote)
| SendEvidence (m : ConsensusMsgEvidence)
| SendBlock (m : ConsensusMsgBlock).

Definition wrapper (msg : Sendable) : ConsensusMsg :=
  match msg with
  | SendNewRound m => {| cm_Type := ConsensusMsgTypeNewRound; cm_NewRound := Some m;
      cm_Proposal := None; cm_Vote := None; cm_Block := None; cm_Evidence := None |}
  | SendProposal m => {| cm_Type := ConsensusMsgTypeProposal; cm_NewRound := None;
      cm_Proposal := Some m; cm_Vote := None; cm_Block := None; cm_Evidence := None |}
  | SendVote m => {| cm_Type := ConsensusMsgTypeVote; cm_NewRound := None;
      cm_Proposal := None; cm_Vote := Some m; cm_Block := None; cm_Evidence := None |}
  | SendEvidence m => {| cm_Type := ConsensusMsgTypeEvidence; cm_NewRound := None;
      cm_Proposal := None; cm_Vote := None; cm_Block := None; cm_Evidence := Some m |}
  | SendBlock m => {| cm_Type := ConsensusMsgTypeBlock; cm_NewRound := None;
      cm_Proposal := None; cm_Vote := None; cm_Block := Some m; cm_Evidence := None |}
  end.

(** The bytes a node signs: its identifier, then the message without a
    signature. *)
Definition signed_bytes (hl : Msg) : result bytes :=
  d ← wrap "marshaling id" (peer_MarshalBinary (msg_From hl));
  signData ← wrap "unable to create sign data" (signatureData hl);
  Ok (d ++ signData).

Definition sendMsg (msg : Sendable) : M (option error) :=
  key ← ggets c_signingKey;
  match key with
  | None => mret None
  | Some key =>
      c ← gget;
      let hl := {| msg_Type := MsgTypeConsensus; msg_From := c_id c; msg_Chain := c_chain c;
        msg_Tx := None; msg_Block := None; msg_Consensus := Some (wrapper msg);
        msg_Timestamp := c_now c; msg_Signature := []; msg_Key := [] |} in
      match signed_bytes hl with
      | Err err => mret (Some err)
      | Ok d =>
          match wrap "signing vote data" (bls_Sign key d) with
          | Err err => mret (Some err)
          | Ok sig => PublishContext pubsubMsgsChanName (msg_set_Signature sig hl)
          end
      end
  end.

Definition sendEvidence (m : ConsensusMsgVote) : M (option error) :=
  let msg := {| ev_Vote := m; ev_Accepted := true |} in
  (if bool_decide (vote_Type m = VoteTypePreVote) then
     map_put s_PreVotesEvidence set_PreVotesEvidence (vote_Validator m) msg
   else if bool_decide (vote_Type m = VoteTypePreCommit) then
     map_put s_PreCommitsEvidence set_PreCommitsEvidence (vote_Validator m) msg
   else mret tt);;
  sendMsg (SendEvidence msg).

Definition sendNewRound : M (option error) :=
  c ← gget;
  sendMsg (SendNewRound {|
    nr_Height := s_Height (c_propsalState c); nr_Round := s_Round (c_propsalState c);
    nr_LastCommitRound := s_Round (c_state c); nr_Timestamp := c_now c |}).

Definition sendVote (t : Z) (value : string) : M (option error) :=
  c ← gget;
  sendMsg (SendVote {|
    vote_Type := t; vote_Height := s_Height (c_propsalState c);
    vote_Round := s_Round (c_propsalState c); vote_BlockID := value;
    vote_Timestamp := c_now c; vote_Validator := peer_String (c_id c) |}).

Definition sendProposal : M (option error) :=
  c ← gget;
  sendMsg (SendProposal {|
    pr_Height := s_Height (c_propsalState c); pr_Round := s_Round (c_propsalState c);
    pr_BlockID := cid_String (s_Block (c_propsalState c)); pr_Timestamp := c_now c |}).

(** The body of the loop of [sendBlock] over the precommits *)
Definition collect_key (acc : list Bls12381PublicKey * list bytes) (pv : PeerID * Msg) :
  M (result (list Bls12381PublicKey * list bytes)) :=
  gtry (gwrap "finding node" (store (fun s => Node_ s (peer_String pv.1)))) (fun n =>
  n ← gsome n;
  gtry (mret (wrap "unmarshalling node key" (NewBls12381PublicKey (node_Key n)))) (fun pk =>
  mret (Ok (acc.1 ++ [pk], acc.2 ++ [msg_Signature pv.2])))).

Definition sendBlock : M (result ConsensusMsgBlock) :=
  p ← get_ps (fun s => s);
  gtry (gfold (map_range (default ∅ (s_PreCommits p))) ([], []) collect_key) (fun '(pks, sigs) =>
  gtry (mret (wrap "aggregating public keys" (point_MarshalBinary (AggregatePublicKeys pks)))) (fun v =>
  gtry (mret (wrap "aggregating signatures" (AggregateSignatures sigs))) (fun s =>
  let msg := {| cb_Height := s_Height p; cb_Round := s_lockedRound p;
    cb_CID := cid_String (s_lockedValue p); cb_Validators := v; cb_Signature := s |} in
  e ← sendMsg (SendBlock msg);
  match e with Some err => mret (Err err) | None => mret (Ok msg) end))).

(** ** blocks.go *)

(** [for n > 0 { tx := c.memPool.GetTx(); if tx == nil { break }; ... }] *)
Fixpoint take_txs (n : nat) : M (list Tx) :=
  match n with
  | 0 => mret []
  | S n =>
      t ← pool GetTx;
      match t with
      | None => mret []
      | Some t => txs ← take_txs n; mret (t :: txs)
      end
  end.

Fixpoint put_txs (txs : list Tx) : M (result (list Cid)) :=
  match txs with
  | [] => mret (Ok [])
  | t :: txs =>
      gtry (gwrap "storing tx" (store (fun s => PutTx s t))) (fun c =>
      gtry (put_txs txs) (fun cs => mret (Ok (c :: cs))))
  end.

(** [nil] when there is nothing to propose *)
Definition makeBlock : M (result (option Block)) :=
  c ← gget;
  gtry (mret (c_nonce c)) (fun nonce =>
  len ← pool pool_Len;
  let n := if decide (len < MaxBlockTxCount) then len else MaxBlockTxCount in
  if bool_decide (n = 0) then mret (Ok None)
  else
    txs ← take_txs n;
    gtry (put_txs txs) (fun txCids =>
    gtry (mret (wrap "creating block bloom filter" (MakeBloom txCids))) (fun bloom =>
    gtry (gwrap "creating tx set" (store (fun s => NewTxSet s txCids))) (fun txSet =>
    gtry (gwrap "storing tx set" (store (fun s => PutSet s txSet))) (fun txsCid =>
    mret (Ok (Some {|
      blk_Version := Version; blk_ID := cid_Undef; blk_Parent := s_Block (c_state c);
      blk_Height := s_Height (c_propsalState c); blk_CreatedAt := c_now c;
      blk_Proposer := peer_String (c_id c); blk_Signature := []; blk_Nonce := nonce;
      blk_Bloom := bloom; blk_TxRoot := txsCid |}))))))).

(** ** Rounds *)

(** [for i, ni := range n { if ni == id { n[i] = n[len(n)-1]; n = n[:len(n)-1] } }]:
    the loop ranges over the slice as it was, which shares its array with [n];
    [arr] is the array and [len] the length of [n].  [None] is an index out of
    range. *)
Fixpoint drop_self (self : string) (i todo len : nat) (arr : list string) : option nat :=
  match todo with
  | 0 => Some len
  | S todo =>
      ni ← arr !! i;
      if bool_decide (ni = self) then
        last ← (if bool_decide (0 < len) then arr !! (len - 1) else None);
        if bool_decide (i < len) then drop_self self (S i) todo (len - 1) (<[i := last]> arr)
        else None
      else drop_self self (S i) todo len arr
  end.

(** [((uint64(len(n)) / 3) * 2) + 1] *)
Definition quorum (n : nat) : Z := u64 (Z.of_nat n / 3 * 2 + 1).

(** [startRound] up to the sleep; whether the node is the proposer and goes on. *)
Definition startRound_open (inc : bool) : M bool :=
  c ← gget;
  ps (set_AmProposer (bool_decide (s_Proposer (c_state c) = peer_String (c_id c))));;
  ps (set_lockedRound 0);;
  ps (set_lockedValue cid_Undef);;
  ps (setStep propose);;
  ps (set_Height (u64 (s_Height (c_state c) + 1)));;
  ps (set_PreVotes gm_make);;
  ps (set_PreCommits gm_make);;
  ps (set_PreVotesEvidence gm_make);;
  ps (set_PreCommitsEvidence gm_make);;
  ps resetOnces;;
  (if inc then
     ps (fun s => set_Round (u32 (s_Round s + 1)) s);;
     ps (setStep prevote)
   else
     ps (set_Round 1);;
     ps (set_Block cid_Undef));;
  p ← get_ps (fun s => s);
  if s_AmProposer p then mret true
  else
    (if bool_decide (s_Block p = cid_Undef) && bool_decide (1 < s_Round p)%Z
     then ps (setStep propose) else mret tt);;
    gmodify (fun c => set_timerPropose (restartTimer (c_timerPropose c) timeoutPropose) c);;
    mret false.

(** [startRound] after the sleep *)
Definition startRound_wake : M (option error) :=
  gmodify (fun c => set_timerPrevote (restartTimer (c_timerPrevote c) timeoutPrevote) c);;
  gcheck_e (gwrap_e "sending new round" sendNewRound) (
  gtry_e (gwrap "getting nodes" (store Nodes)) (fun n =>
  c ← gget;
  len ← gsome (drop_self (peer_String (c_id c)) 0 (length n) (length n) n);
  ps (set_f (quorum len));;
  gcheck_e (
    b ← get_ps s_Block;
    if bool_decide (b = cid_Undef) then
      gtry_e (gwrap "making new block" makeBlock) (fun ob =>
      match ob with
      | None => mret None
      | Some b =>
          gtry_e (gwrap "storing new block" (store (fun s => PutBlock s b))) (fun id =>
          ps (set_Block id);; mret None)
      end)
    else mret None) (
  gcheck_e (gwrap_e "sending proposal" sendProposal) (
  ps (setStep prevote);; mret None)))).

Definition startRound (inc : bool) : M (option error) :=
  go ← startRound_open inc;
  if go : bool then startRound_wake else mret None.

(** ** Handlers *)

(** [validate(value)]; the error is only logged. *)
Definition validate (value : string) : M Cid :=
  if bool_decide (value = cid_String cid_Undef) then mret cid_Undef
  else match cid_ParseString value with
  | Err _ => mret cid_Undef
  | Ok cv =>
      r ← store (fun s => GetBlock s cv);
      match r with
      | Err _ => mret cid_Undef
      | Ok b =>
          e ← validator (fun v => @IsBlockValid L VS v b true);
          match e with Some _ => mret cid_Undef | None => mret cv end
      end
  end.

Definition onNewRound (msg : option ConsensusMsgNewRound) (from : string) : M unit :=
  proposer ← get_st s_Proposer;
  if negb (bool_decide (from = proposer)) then mret tt
  else
    msg ← gsome msg;
    ps (set_lockedRound 0);;
    ps (set_lockedValue cid_Undef);;
    ps (setStep propose);;
    ps (set_Height (nr_Height msg));;
    ps (set_Round (nr_Round msg));;
    ps (set_PreVotes gm_make);;
    ps (set_PreCommits gm_make);;
    ps (set_PreVotesEvidence gm_make);;
    ps (set_PreCommitsEvidence gm_make);;
    ps resetOnces;;
    gmodify (fun c => set_timerPropose (restartTimer (c_timerPropose c) timeoutPropose) c).

(** The closure of [onProposal] *)
Definition castPrevote (bc : Cid) (blockID : string) : M unit :=
  ps (set_Block bc);;
  gmodify (fun c => set_timerPropose (stopTimer (c_timerPropose c)) c);;
  e ← (if bool_decide (bc = cid_Undef) then sendVote VoteTypePreVote (cid_String cid_Undef)
       else sendVote VoteTypePreVote blockID);
  match e with
  | Some _ => mret tt
  | None =>
      gmodify (fun c => set_timerPrevote (restartTimer (c_timerPrevote c) timeoutPrevote) c);;
      ps (setStep prevote)
  end.

Definition onProposal (msg : option ConsensusMsgProposal) (from : string) : M unit :=
  proposer ← get_st s_Proposer;
  step ← get_ps s_Step;
  if negb (bool_decide (from = proposer)) then mret tt
  else if negb (bool_decide (step = propose)) then mret tt
  else
    msg ← gsome msg;
    bc ← validate (pr_BlockID msg);
    once_Do s_pvOnce set_pvOnce (castPrevote bc (pr_BlockID msg)).

(** The closure of [onPreVote] *)
Definition castPrecommit : M unit :=
  gmodify (fun c => set_timerPrevote (stopTimer (c_timerPrevote c)) c);;
  ps (setStep precommit);;
  ps (fun s => set_lockedValue (s_Block s) s);;
  ps (fun s => set_lockedRound (s_Round s) s);;
  b ← get_ps s_Block;
  e ← sendVote VoteTypePreCommit (cid_String b);
  match e with
  | Some _ => mret tt
  | None => gmodify (fun c => set_timerPrecommit (restartTimer (c_timerPrecommit c) timeoutPrecommit) c)
  end.

Definition onPreVote (msg : Msg) : M unit :=
  p ← get_ps (fun s => s);
  if negb (bool_decide (s_Step p = prevote)) then mret tt
  else
    gwhen (s_AmProposer p) (gmodify (fun c =>
      set_timerPrecommit (restartTimer (c_timerPrecommit c) timeoutPrecommit) c));;
    map_put s_PreVotes set_PreVotes (msg_From msg) msg;;
    p ← get_ps (fun s => s);
    if bool_decide (s_f p < Z.of_nat (gm_len (s_PreVotes p)))%Z
    then once_Do s_pcOnce set_pcOnce castPrecommit else mret tt.

(** The closure of [onPreCommit]: the proposer sends the block message after a
    grace period. *)
Definition enterBlock : M unit :=
  gmodify (fun c => set_timerPrecommit (stopTimer (c_timerPrecommit c)) c);;
  ps (setStep block);;
  am ← get_ps s_AmProposer;
  if am : bool then gmodify (fun c => set_blockFuncs (S (c_blockFuncs c)) c)
  else gmodify (fun c => set_timerBlock (restartTimer (c_timerBlock c) timeoutBlock) c).

Definition onPreCommit (msg : Msg) : M unit :=
  p ← get_ps (fun s => s);
  if negb (bool_decide (s_Step p = precommit)) then mret tt
  else
    gwhen (s_AmProposer p) (gmodify (fun c =>
      set_timerPrecommit (restartTimer (c_timerPrecommit c) timeoutPrecommit) c));;
    map_put s_PreCommits set_PreCommits (msg_From msg) msg;;
    p ← get_ps (fun s => s);
    if bool_decide (s_f p < Z.of_nat (gm_len (s_PreCommits p)))%Z
    then once_Do s_sbOnce set_sbOnce enterBlock else mret tt.

(** [vote.Height != ... || vote.BlockID != ... || vote.Round != ...] *)
Definition vote_current (vote : ConsensusMsgVote) (p : State) : bool :=
  bool_decide (vote_Height vote = s_Height p) &&
  bool_decide (vote_BlockID vote = cid_String (s_Block p)) &&
  bool_decide (vote_Round vote = s_Round p).

Definition onVote (msg : Msg) (from : string) : M unit :=
  cm ← gsome (msg_Consensus msg);
  proposer ← get_st s_Proposer;
  if bool_decide (from = proposer) then mret tt
  else
    vote ← gsome (cm_Vote cm);
    p ← get_ps (fun s => s);
    if negb (vote_current vote p) then mret tt
    else
      (if bool_decide (vote_Type vote = VoteTypePreVote) then onPreVote msg
       else if bool_decide (vote_Type vote = VoteTypePreCommit) then onPreCommit msg
       else mret tt);;
      am ← get_ps s_AmProposer;
      if am : bool then _ ← sendEvidence vote; mret tt else mret tt.

Definition onEvidence (msg : option ConsensusMsgEvidence) (from : string) : M unit :=
  proposer ← get_st s_Proposer;
  if negb (bool_decide (from = proposer)) then mret tt
  else
    msg ← gsome msg;
    if bool_decide (vote_Type (ev_Vote msg) = VoteTypePreVote) then
      map_put s_PreVotesEvidence set_PreVotesEvidence from msg
    else if bool_decide (vote_Type (ev_Vote msg) = VoteTypePreCommit) then
      map_put s_PreCommitsEvidence set_PreCommitsEvidence from msg
    else mret tt.

(** What [onBlock] does once its checks have passed *)
Definition commit : M unit :=
  v ← get_ps s_lockedValue;
  (if bool_decide (v = cid_Undef) then mret tt
   else _ ← store (fun s => MarkBlock s v BlockStateAccepted); mret tt);;
  gmodify (fun c => set_timerBlock (stopTimer (c_timerBlock c)) c);;
  _ ← store (fun s => UpdateLastApplied s v);
  gmodify (fun c => set_state (set_Height (s_Height (c_propsalState c)) (c_state c)) c);;
  gmodify (fun c => set_state (set_ParentBlock (s_Block (c_state c)) (c_state c)) c);;
  gmodify (fun c => set_state (set_Block (s_lockedValue (c_propsalState c)) (c_state c)) c).

Definition onBlock (msg : option ConsensusMsgBlock) (from : string) : M unit :=
  proposer ← get_st s_Proposer;
  p ← get_ps (fun s => s);
  if negb (bool_decide (from = proposer)) || negb (bool_decide (s_Step p = block)) then mret tt
  else
    msg ← gsome msg;
    if negb (bool_decide (cb_CID msg = cid_String (s_lockedValue p))) ||
       negb (bool_decide (s_lockedRound p = cb_Round msg)) then mret tt
    else commit.

Definition onTx (msg : option TxMsg) (from : string) : M unit :=
  msg ← gsome msg;
  _ ← pool (AddTx (txm_Tx msg) (txm_TTL msg)); mret tt.

Definition onConsensusMsg (msg : Msg) (from : string) : M unit :=
  cm ← gsome (msg_Consensus msg);
  if bool_decide (cm_Type cm = ConsensusMsgTypeNewRound) then onNewRound (cm_NewRound cm) from
  else if bool_decide (cm_Type cm = ConsensusMsgTypeProposal) then onProposal (cm_Proposal cm) from
  else if bool_decide (cm_Type cm = ConsensusMsgTypeVote) then onVote msg from
  else if bool_decide (cm_Type cm = ConsensusMsgTypeBlock) then onBlock (cm_Block cm) from
  else if bool_decide (cm_Type cm = ConsensusMsgTypeEvidence) then onEvidence (cm_Evidence cm) from
  else mret tt.

(** The checks of [onMsg]; a node key that is not a curve point is logged, and
    then dereferenced. *)
Definition authenticate (msg : Msg) : M bool :=
  chain ← ggets c_chain;
  if negb (bool_decide (msg_Chain msg = chain)) then mret false
  else
    node ← store (fun s => Node_ s (peer_String (msg_From msg)));
    match node with
    | Err _ | Ok None => mret false
    | Ok (Some node) =>
        match signed_bytes msg with
        | Err _ => mret false
        | Ok sd =>
            match multibase_Decode (string_of_bytes (node_Key node)) with
            | Err _ => mret false
            | Ok (_, rawPk) =>
                pk ← gsome (ok_opt (NewBls12381PublicKey rawPk));
                mret (match bls_Verify pk (msg_Signature msg) sd with Ok ok => ok | Err _ => false end)
            end
        end
    end.

Definition onMsg (msg : Msg) : M unit :=
  ok ← authenticate msg;
  if negb ok then mret tt
  else
    let from := peer_String (msg_From msg) in
    if bool_decide (msg_Type msg = MsgTypeConsensus) then onConsensusMsg msg from
    else if bool_decide (msg_Type msg = MsgTypeTx) then onTx (msg_Tx msg) from
    else mret tt.

(** ** Timeouts *)

Definition onTimeoutProposal : M unit :=
  c ← gget;
  if negb (bool_decide (s_Height (c_propsalState c) = s_Height (c_state c))) &&
     negb (bool_decide (s_Step (c_propsalState c) = propose)) then mret tt
  else
    ps (setStep prevote);;
    once_Do s_pvOnce set_pvOnce (
      _ ← sendVote VoteTypePreVote "";
      gmodify (fun c => set_timerPrevote (restartTimer (c_timerPrevote c) timeoutPrevote) c)).

Definition onTimeoutPrevote : M unit :=
  c ← gget;
  if negb (bool_decide (s_Height (c_propsalState c) = s_Height (c_state c))) &&
     negb (bool_decide (s_Step (c_propsalState c) = prevote)) then mret tt
  else
    ps (setStep precommit);;
    once_Do s_pcOnce set_pcOnce (
      _ ← sendVote VoteTypePreCommit "";
      gmodify (fun c => set_timerPrecommit (restartTimer (c_timerPrecommit c) timeoutPrecommit) c)).

(** Nothing follows the guard. *)
Definition onTimeoutBlock : M unit := mret tt.

(** ** Goroutines *)

(** [startRound] with its error logged: what [watchProposer] and
    [onTimeoutPrecommit] run. *)
Definition run_round (inc : bool) : M unit := _ ← startRound inc; mret tt.

(** The same cut at the sleep: the goroutine stays behind, to be woken. *)
Definition go_startRound (inc : bool) : M unit :=
  asleep ← startRound_open inc;
  if asleep : bool then gmodify (fun c => set_sleeping (S (c_sleeping c)) c) else mret tt.

Definition wake : M unit :=
  c ← gget;
  match c_sleeping c with
  | 0 => mret tt
  | S n => gmodify (set_sleeping n);; _ ← startRound_wake; mret tt
  end.

Definition onTimeoutPrecommit (round : bool -> M unit) : M unit := round true.

(** One turn of the loop of [proposer]: the node the beacon value picks.  The
    index is a division by zero if there are no nodes. *)
Definition proposer (b : Z) : M (option string) :=
  r ← store Nodes;
  match r with
  | Err _ => mret None
  | Ok nodes =>
      if bool_decide (nodes = []) then gpanic
      else p ← gsome (nodes !! Z.to_nat (u64 b mod Z.of_nat (length nodes))); mret (Some p)
  end.

(** One turn of the loop of [watchProposer] *)
Definition watchProposer (round : bool -> M unit) (b : Z) : M unit :=
  p ← proposer b;
  match p with
  | None => mret tt
  | Some id =>
      ps (setStep propose);;
      gmodify (fun c => set_state (set_Proposer id (c_state c)) c);;
      round false
  end.

(** The function given to [time.AfterFunc] *)
Definition blockFunc : M unit :=
  r ← sendBlock;
  match r with
  | Err _ => mret tt
  | Ok msg => c ← gget; onBlock (Some msg) (peer_String (c_id c))
  end.

(** ** Events

    What can happen to a running node.  A handler runs as one event: the goroutines
    of the program interleave between handlers, and, unless [atomic], at the sleep
    of [startRound], which is then cut there.  Ranging over a [nil] channel of
    beacons blocks for ever. *)

Inductive timer := timerPropose | timerPrevote | timerPrecommit | timerBlock.

Inductive event :=
| EvBeacon (b : Z)
| EvMsg (msg : Msg)
| EvFire (t : timer)
| EvTimeout (t : timer)
| EvWake
| EvBlockFunc
| EvClock (now : Z) (nonce : result bytes).

Definition get_timer (t : timer) : Consensus -> Timer :=
  match t with
  | timerPropose => c_timerPropose | timerPrevote => c_timerPrevote
  | timerPrecommit => c_timerPrecommit | timerBlock => c_timerBlock
  end.

Definition set_timer (t : timer) : Timer -> Consensus -> Consensus :=
  match t with
  | timerPropose => set_timerPropose | timerPrevote => set_timerPrevote
  | timerPrecommit => set_timerPrecommit | timerBlock => set_timerBlock
  end.

(** [select] in [watchTimeouts]: the tick is taken from the channel, then the
    handler runs. *)
Definition on_timeout (round : bool -> M unit) (t : timer) : M unit :=
  c ← gget;
  match get_timer t c with
  | TFired =>
      gmodify (set_timer t TStopped);;
      match t with
      | timerPropose => onTimeoutProposal
      | timerPrevote => onTimeoutPrevote
      | timerPrecommit => onTimeoutPrecommit round
      | timerBlock => onTimeoutBlock
      end
  | _ => mret tt
  end.

Definition fire (t : timer) : M unit :=
  gmodify (fun c => match get_timer t c with TRunning _ => set_timer t TFired c | _ => c end).

Definition handle (atomic : bool) (e : event) : M unit :=
  let round := if atomic then run_round else go_startRound in
  match e with
  | EvBeacon b => c ← gget; if c_beacon c then watchProposer round b else mret tt
  | EvMsg msg => onMsg msg
  | EvFire t => fire t
  | EvTimeout t => on_timeout round t
  | EvWake => wake
  | EvBlockFunc =>
      c ← gget;
      match c_blockFuncs c with
      | 0 => mret tt
      | S n => gmodify (set_blockFuncs n);; blockFunc
      end
  | EvClock now nonce => gmodify (fun c => set_nonce nonce (set_now now c))
  end.

(** One event, handled to its end; a panic ends the process. *)
Inductive step (atomic : bool) (c : Consensus) (e : event) (c' : Consensus) : Prop :=
| step_handle : handle atomic e c = (Ret tt, c') -> step atomic c e c'.

Inductive reach (atomic : bool) (c : Consensus) : Consensus -> Prop :=
| reach_refl : reach atomic c c
| reach_step c1 e c2 : reach atomic c c1 -> step atomic c1 e c2 -> reach atomic c c2.

(** ** Construction and start *)

Definition setupTimers : M unit :=
  gmodify (fun c => set_timerBlock (stopTimer (TRunning 60)) (
    set_timerPrecommit (stopTimer (TRunning 60)) (
    set_timerPrevote (stopTimer (TRunning 60)) (
    set_timerPropose (stopTimer (TRunning 60)) c)))).

(** options.go; of the channel a beacon comes on, whether it is not [nil]: its values
    are events *)
Inductive Option_ :=
| WithSigningKey (priv : option Bls12381PrivateKey)
| WithBlockStore (s : H)
| WithBeaconSource (s : bool)
| WithValidator (v : Validator VS)
| WithGenesis (g : GenesisInfo).

Definition apply_option (o : Option_) : M unit :=
  gmodify (fun c =>
    match o with
    | WithSigningKey priv => set_signingKey priv c
    | WithBlockStore s => set_store (Some s) c
    | WithBeaconSource s => set_beacon s c
    | WithValidator v => set_validator (Some v) c
    | WithGenesis g => set_genesis (Some g) (set_chain (bytes_of_string (gen_ChainID g)) c)
    end).

Fixpoint apply_options (l : list Option_) : M unit :=
  match l with [] => mret tt | o :: l => apply_option o;; apply_options l end.

Definition new_node (id : PeerID) (mem : VS) (now : Z) (nonce : result bytes) : Consensus := {|
  c_chain := []; c_id := id; c_signingKey := None; c_genesis := None; c_memPool := NewTxMemPool;
  c_store := None; c_validator := None; c_beacon := false; c_topics := ∅; c_state := zero_State;
  c_propsalState := zero_State; c_timerPropose := TStopped; c_timerPrevote := TStopped;
  c_timerPrecommit := TStopped; c_timerBlock := TStopped; c_mem := mem; c_outbox := [];
  c_sleeping := 0; c_blockFuncs := 0; c_now := now; c_nonce := nonce
|}.

(** [NewConsensus], on the struct it allocates *)
Definition NewConsensus (opts : list Option_) : M (option error) :=
  setupTimers;;
  apply_options opts;;
  c ← gget;
  gcheck_e (
    match c_genesis c with
    | None => mret None
    | Some g =>
        applied ← store HasGenesisApplied;
        if applied : bool then mret None
        else gwrap_e "applying genesis" (store (fun s => ApplyGenesis s g))
    end) (
  gtry_e (gwrap "fetching last applied block" (store GetLastApplied)) (fun b =>
  match b with
  | None => mret None
  | Some b =>
      gmodify (fun c => set_state (set_Block (blk_ID b) (c_state c)) c);;
      gmodify (fun c => set_state (set_Height (blk_Height b) (c_state c)) c);;
      gmodify (fun c => set_state (set_ParentBlock (blk_Parent b) (c_state c)) c);;
      mret None
  end)).

Definition subscribeMsgs : M (option error) :=
  gwrap_e "subscribing to consensus msgs" (p2p_Msgs pubsubMsgsChanName).
Definition subscribeTx : M (option error) :=
  gwrap_e "subscribing to tx msgs" (p2p_Msgs pubsubTxChanName).

Definition Start : M (option error) :=
  setupTimers;;
  gcheck_e (gwrap_e "watching msgs" subscribeMsgs) (
  gcheck_e (gwrap_e "watching tx" subscribeTx) (mret None)).
End Consensus.
End Consensus.
