(* ===== verification/ConsensusFacts.v ===== *)
(** * The invariant of the protocol state

    Every vote a node counts was verified with the key that was registered for
    its sender, who is not the proposer, and names the height and round the node
    is at; it names the block the node is at, or no block: a proposer that wakes
    up in [startRound] may have counted votes before it had a block.  When no vote
    is handled during that sleep, all name the block.  A lock and the last step
    are each backed by a quorum of such votes. *)

From S2P Require Import Prelude Externals Cryptography W3cDid Tx Chain Validator MemPool.
From S2P Require Import ConsensusState Consensus.

Module ConsensusFacts.
Import Cryptography Tx Chain Validator MemPool ConsensusState Consensus.

(** ** Nil maps *)

Section GoMaps.
Context `{Countable K} {V : Type}.

Lemma gm_set_get (k k' : K) (v : V) m m' :
  gm_set k v m = Some m' -> gm_get k' m' = if decide (k = k') then Some v else gm_get k' m.
Proof.
  destruct m as [m|]; [|done]. intros [= <-]. unfold gm_get. simpl. case_decide; subst.
  - by rewrite lookup_insert_eq.
  - by rewrite lookup_insert_ne.
Qed.

Lemma gm_set_len (k : K) (v : V) m m' : gm_set k v m = Some m' -> gm_len m <= gm_len m'.
Proof.
  destruct m as [m|]; [|done]. intros [= <-]. unfold gm_len. simpl.
  destruct (m !! k) as [v'|] eqn:Hk.
  - rewrite map_size_insert_Some by (by eexists). lia.
  - rewrite map_size_insert_None by done. lia.
Qed.

Lemma gm_make_get (k : K) : gm_get k (gm_make (V := V)) = None.
Proof. apply lookup_empty. Qed.
End GoMaps.

Section Invariant.
Context `{L : Lib} {W H VS : Type} `{!Store W H} `{!MsgCodec} `{!PubSub} `{!RangeOrder}.
Context (get_world : VS -> W) (put_world : W -> VS -> VS).

Notation Consensus := (Consensus H VS).
Notation M := (GoM Consensus).
Notation handle := (handle get_world put_world).
Notation step := (step get_world put_world).
Notation reach := (reach get_world put_world).
Implicit Types c : Consensus.

(** ** The part of a node the invariant is about *)

Definition core c := (c_chain c, c_sleeping c, c_state c, c_propsalState c).

(** [m] leaves it alone. *)
Definition keeps {A} (m : M A) : Prop := forall k, preserves (fun c => core c = k) m.

Lemma keeps_wlp {A} (m : M A) (P : Consensus -> Prop) c :
  keeps m -> (forall c', core c' = core c -> P c') -> wlp m (fun _ c' => P c') c.
Proof.
  intros Hk HP. specialize (Hk (core c) c eq_refl). unfold wlp.
  destruct (m c) as [[a|] c']; [by apply HP|done].
Qed.

Lemma keeps_bind {A B} (m : M A) (k : A -> M B) :
  keeps m -> (forall a, keeps (k a)) -> keeps (m ≫= k).
Proof. intros Hm Hk x. apply preserves_bind; [apply Hm|intros a; apply Hk]. Qed.

Lemma keeps_ret {A} (a : A) : keeps (mret a).
Proof. intros k. apply preserves_ret. Qed.

Lemma keeps_some {A} (o : option A) : keeps (gsome o).
Proof. intros k. apply preserves_some. Qed.

Lemma keeps_gets {A} (f : Consensus -> A) : keeps (ggets f).
Proof. intros k. apply preserves_gets. Qed.

Lemma keeps_get : keeps gget.
Proof. intros k. apply preserves_get. Qed.

Lemma keeps_modify (f : Consensus -> Consensus) :
  (forall c, core (f c) = core c) -> keeps (gmodify f).
Proof. intros Hf k. apply preserves_modify. intros c <-. apply Hf. Qed.

Lemma keeps_store {A} (m : H -> GoM W A) : keeps (store get_world put_world m).
Proof.
  apply keeps_bind; [apply keeps_gets|]. intros s. apply keeps_bind; [apply keeps_some|].
  intros h k. apply preserves_zoom. by intros c <-.
Qed.

Lemma keeps_validator {A} (m : Validator VS -> GoM VS A) : keeps (validator m).
Proof.
  apply keeps_bind; [apply keeps_gets|]. intros s. apply keeps_bind; [apply keeps_some|].
  intros h k. apply preserves_zoom. by intros c <-.
Qed.

Lemma keeps_pool {A} (m : GoM (list (option Tx)) A) : keeps (pool m).
Proof. intros k. apply preserves_zoom. by intros c <-. Qed.

Lemma keeps_try {A B} (m : M (result A)) (k : A -> M (result B)) :
  keeps m -> (forall a, keeps (k a)) -> keeps (gtry m k).
Proof. intros. apply keeps_bind; [done|]. intros [a|e]; [done|apply keeps_ret]. Qed.

Lemma keeps_try_e {A} (m : M (result A)) (k : A -> M (option error)) :
  keeps m -> (forall a, keeps (k a)) -> keeps (gtry_e m k).
Proof. intros. apply keeps_bind; [done|]. intros [a|e]; [done|apply keeps_ret]. Qed.

Lemma keeps_check_e (m k : M (option error)) : keeps m -> keeps k -> keeps (gcheck_e m k).
Proof. intros. apply keeps_bind; [done|]. intros [e|]; [apply keeps_ret|done]. Qed.

Lemma keeps_wrap {A} msg (m : M (result A)) : keeps m -> keeps (gwrap msg m).
Proof. intros. apply keeps_bind; [done|]. intros. apply keeps_ret. Qed.

Lemma keeps_wrap_e msg (m : M (option error)) : keeps m -> keeps (gwrap_e msg m).
Proof. intros. apply keeps_bind; [done|]. intros. apply keeps_ret. Qed.

Lemma keeps_fold {A B} (l : list A) (acc : B) (body : B -> A -> M (result B)) :
  (forall acc x, keeps (body acc x)) -> keeps (gfold l acc body).
Proof.
  intros Hb. revert acc. induction l; simpl; intros acc; [apply keeps_ret|].
  apply keeps_try; [apply Hb|]. intros; apply IHl.
Qed.

#[local] Hint Resolve keeps_ret keeps_some keeps_gets keeps_get keeps_store keeps_validator
  keeps_pool keeps_wrap keeps_wrap_e : keeps.

(** Step through a computation, closing the parts that keep the core. *)
Ltac keeps_step :=
  repeat first
    [ solve [auto with keeps]
    | apply keeps_modify; intros; reflexivity
    | apply keeps_bind | apply keeps_try | apply keeps_try_e | apply keeps_check_e
    | apply keeps_wrap | apply keeps_wrap_e | apply keeps_fold
    | lazymatch goal with |- keeps _ => fail | |- forall _, _ => intro end
    | case_match ].

Lemma keeps_publish ch m : keeps (PublishContext ch m).
Proof. unfold PublishContext. keeps_step. Qed.

#[local] Hint Resolve keeps_publish : keeps.

Lemma keeps_sendMsg msg : keeps (sendMsg msg).
Proof. unfold sendMsg. keeps_step. Qed.
#[local] Hint Resolve keeps_sendMsg : keeps.

(** Sending never panics. *)
Lemma sendMsg_returns msg c : exists r c', sendMsg msg c = (Ret r, c').
Proof.
  unfold sendMsg, PublishContext. go_unfold. destruct (c_signingKey c); [|by eexists _, _].
  repeat (case_match; simplify_eq/=); by eexists _, _.
Qed.

(** Sending a vote returns, and keeps the core. *)
Lemma sendVote_wp t v (P : Consensus -> Prop) c :
  (forall c', core c' = core c -> P c') -> wp (sendVote t v) (fun _ c' => P c') c.
Proof.
  intros HP. unfold sendVote. wp_run.
  match goal with |- wp (sendMsg ?msg) _ _ =>
    destruct (sendMsg_returns msg c) as (r&c'&Hrun);
    pose proof (keeps_sendMsg msg (core c) c eq_refl) as Hk end.
  unfold wp. rewrite Hrun in *. by apply HP.
Qed.

Lemma keeps_sendVote t v : keeps (sendVote t v).
Proof. unfold sendVote. keeps_step. Qed.
#[local] Hint Resolve keeps_sendVote : keeps.

Lemma keeps_sendNewRound : keeps sendNewRound.
Proof. unfold sendNewRound. keeps_step. Qed.
#[local] Hint Resolve keeps_sendNewRound : keeps.

Lemma keeps_sendProposal : keeps sendProposal.
Proof. unfold sendProposal. keeps_step. Qed.
#[local] Hint Resolve keeps_sendProposal : keeps.

Lemma keeps_take_txs n : keeps (take_txs n).
Proof. induction n; simpl; keeps_step. Qed.
#[local] Hint Resolve keeps_take_txs : keeps.

Lemma keeps_put_txs txs : keeps (put_txs get_world put_world txs).
Proof. induction txs; simpl; keeps_step. Qed.
#[local] Hint Resolve keeps_put_txs : keeps.

Lemma keeps_makeBlock : keeps (makeBlock get_world put_world).
Proof. unfold makeBlock. keeps_step. Qed.
#[local] Hint Resolve keeps_makeBlock : keeps.

Lemma keeps_validate v : keeps (validate get_world put_world v).
Proof. unfold validate. keeps_step. Qed.
#[local] Hint Resolve keeps_validate : keeps.

Lemma keeps_authenticate m : keeps (authenticate get_world put_world m).
Proof. unfold authenticate. keeps_step. Qed.
#[local] Hint Resolve keeps_authenticate : keeps.

Lemma keeps_sendBlock : keeps (sendBlock get_world put_world).
Proof.
  unfold sendBlock, collect_key, get_ps. keeps_step.
Qed.
#[local] Hint Resolve keeps_sendBlock : keeps.

(** ** The invariant *)

(** The key a node has registered for a peer, as [onMsg] reads it *)
Definition registered_key c (p : PeerID) : option Bls12381PublicKey :=
  match (store get_world put_world (fun s => Node_ s (peer_String p)) c).1 with
  | Ret (Ok (Some node)) =>
      match multibase_Decode (string_of_bytes (node_Key node)) with
      | Ok (_, raw) => ok_opt (NewBls12381PublicKey raw)
      | Err _ => None
      end
  | _ => None
  end.

(** The message is of this chain and its signature verifies with the key that is
    registered for its sender. *)
Definition verified c (m : Msg) : Prop :=
  msg_Chain m = c_chain c /\
  exists pk sd, registered_key c (msg_From m) = Some pk /\ signed_bytes m = Ok sd /\
    bls_Verify pk (msg_Signature m) sd = Ok true.

(** A message that passes the checks is verified. *)
Lemma authenticate_verified msg c :
  wlp (authenticate get_world put_world msg)
    (fun ok c' => core c' = core c /\ (ok = true -> verified c msg)) c.
Proof.
  unfold authenticate. rewrite wlp_bind. apply wlp_gets. case_bool_decide as Hch; simpl; [|by wlp_run].
  rewrite wlp_bind. unfold verified, registered_key.
  pose proof (keeps_store (fun s => Node_ s (peer_String (msg_From msg))) (core c) c eq_refl) as Hk.
  unfold wlp at 1. destruct (store _ _ _ c) as [[[[node|]|e]|] c1]; simpl in *; [|by wlp_run..|done].
  destruct (signed_bytes msg) as [sd|] eqn:Hsd; [|by wlp_run].
  destruct (multibase_Decode _) as [[enc rawPk]|]; [|by wlp_run].
  rewrite wlp_bind. apply wlp_some. intros pk Hpk. apply wlp_ret. split; [done|].
  intros Hok. split; [done|]. exists pk, sd. split_and!; [done..|].
  by destruct (bls_Verify pk (msg_Signature msg) sd) as [[]|].
Qed.

(** [lax]: whether a vote for no block counts as well; [Ver]: the messages that were
    verified; [F]: the thresholds the node has had. *)
Section Rules.
Context (lax : bool) (Ver : Msg -> Prop) (F : Z -> Prop).

Definition vote_block (v : ConsensusMsgVote) (s : State) : Prop :=
  vote_BlockID v = cid_String (s_Block s) \/ (lax = true /\ vote_BlockID v = cid_String cid_Undef).

(** [m] is a vote of type [kind] from [p], who is not the proposer, for the
    height, round and block of [s]. *)
Definition vote_of (proposer : string) (kind : Z) (s : State) (p : PeerID) (m : Msg) : Prop :=
  msg_From m = p /\ peer_String p <> proposer /\ Ver m /\
  exists cm v, msg_Consensus m = Some cm /\ cm_Vote cm = Some v /\ vote_Type v = kind /\
    vote_Height v = s_Height s /\ vote_Round v = s_Round s /\ vote_block v s.

Definition votes_ok (proposer : string) (kind : Z) (s : State) (m : gomap PeerID Msg) : Prop :=
  forall p v, gm_get p m = Some v -> vote_of proposer kind s p v.

(** No vote was counted and nothing is locked. *)
Definition fresh_round (s : State) : Prop :=
  gm_len (s_PreVotes s) = 0 /\ gm_len (s_PreCommits s) = 0 /\
  s_lockedValue s = cid_Undef /\ s_lockedRound s = 0%Z /\ s_Step s <> block.

(** More votes than a threshold the node has had, which is the present one
    unless the node is woken in between. *)
Definition enough (s : State) (m : gomap PeerID Msg) : Prop :=
  exists f, F f /\ (lax = false -> f = s_f s) /\ (f < Z.of_nat (gm_len m))%Z.

Record round_inv (proposer : string) (s : State) : Prop := {
  ri_prevotes : votes_ok proposer VoteTypePreVote s (s_PreVotes s);
  ri_precommits : votes_ok proposer VoteTypePreCommit s (s_PreCommits s);
  ri_propose : s_Step s = propose -> fresh_round s;
  ri_lock : s_lockedValue s = cid_Undef \/
    (s_lockedValue s = s_Block s /\ s_lockedRound s = s_Round s /\ enough s (s_PreVotes s));
  ri_block : s_Step s = block -> enough s (s_PreCommits s)
}.

Definition Inv c : Prop :=
  (lax = false -> c_sleeping c <> 0 -> fresh_round (c_propsalState c)) /\
  round_inv (s_Proposer (c_state c)) (c_propsalState c).

(** Votes may be counted: nobody sleeps, or it does not matter. *)
Definition awake c : Prop := lax = false -> c_sleeping c = 0.

Lemma awake_core c c' : core c' = core c -> awake c -> awake c'.
Proof. unfold core, awake. intros Hc. injection Hc as E1 E2 E3 E4. by rewrite E2. Qed.

Lemma gm_len_0_get (m : gomap PeerID Msg) p : gm_len m = 0 -> gm_get p m = None.
Proof.
  destruct m as [m|]; [|done]. unfold gm_len, gm_get. simpl. intros Hm%map_size_empty_inv.
  by rewrite Hm, lookup_empty.
Qed.

Lemma fresh_round_inv proposer s : fresh_round s -> round_inv proposer s.
Proof.
  intros (Hv&Hc&Hl&Hr&Hs). split.
  - intros p m Hm. by rewrite gm_len_0_get in Hm.
  - intros p m Hm. by rewrite gm_len_0_get in Hm.
  - done.
  - by left.
  - done.
Qed.

Lemma Inv_core c c' : core c' = core c -> Inv c -> Inv c'.
Proof.
  unfold core, Inv. intros Hc. injection Hc as E1 E2 E3 E4. by rewrite E2, E3, E4.
Qed.

Lemma keeps_Inv {A} (m : M A) c : keeps m -> Inv c -> wlp m (fun _ c' => Inv c') c.
Proof. intros Hk Hi. apply keeps_wlp; [done|]. intros c' Hc. by eapply Inv_core. Qed.

(** A round with no vote in it, of which the step can be anything but [block]. *)
Definition Fresh c : Prop := fresh_round (c_propsalState c).

Lemma Fresh_Inv c : Fresh c -> Inv c.
Proof. intros Hf. split; [done|]. by apply fresh_round_inv. Qed.

Lemma Fresh_core c c' : core c' = core c -> Fresh c -> Fresh c'.
Proof. unfold core, Fresh. intros Hc. injection Hc as E1 E2 E3 E4. by rewrite E4. Qed.

Lemma keeps_Fresh {A} (m : M A) : keeps m -> preserves Fresh m.
Proof. intros Hk c Hf. eapply Fresh_core; [|exact Hf]. exact (Hk (core c) c eq_refl). Qed.

Lemma preserves_wlp {A} (I : Consensus -> Prop) (m : M A) c :
  preserves I m -> I c -> wlp m (fun _ c' => I c') c.
Proof. intros Hp Hc. specialize (Hp c Hc). unfold wlp. by destruct (m c) as [[a|] c']. Qed.

(** Changing a part of the proposal state *)
Lemma Fresh_ps f : (forall s, fresh_round s -> fresh_round (f s)) -> preserves Fresh (ps f).
Proof. intros Hf. apply preserves_modify. intros c Hc. by apply Hf. Qed.

Lemma castPrevote_Fresh bc id : preserves Fresh (castPrevote bc id).
Proof.
  unfold castPrevote. apply preserves_bind; [by apply Fresh_ps|]. intros _.
  apply preserves_bind; [by apply preserves_modify|]. intros _.
  apply preserves_bind.
  { apply keeps_Fresh. case_match; apply keeps_sendVote. }
  intros [e|]; [apply preserves_ret|].
  apply preserves_bind; [by apply preserves_modify|]. intros _.
  apply Fresh_ps. intros s (?&?&?&?&?). by split_and!.
Qed.

Lemma once_Fresh get set f :
  (forall b s, fresh_round s -> fresh_round (set b s)) ->
  preserves Fresh f -> preserves Fresh (once_Do get set f).
Proof.
  intros Hset Hf. unfold once_Do. apply preserves_bind; [apply preserves_gets|].
  intros []; [apply preserves_ret|]. intros c Hc. unfold gdefer. specialize (Hf c Hc).
  destruct (f c) as [r c1]. simpl in Hf. pose proof (Fresh_ps (set true) (Hset true) c1 Hf) as Hp.
  by destruct (ps (set true) c1) as [[] c2].
Qed.

Lemma startRound_wake_Fresh : preserves Fresh (startRound_wake get_world put_world).
Proof.
  unfold startRound_wake.
  apply preserves_bind; [by apply preserves_modify|]. intros _.
  apply preserves_check_e; [apply keeps_Fresh, keeps_wrap_e, keeps_sendNewRound|].
  apply preserves_try_e; [apply keeps_Fresh, keeps_wrap, keeps_store|]. intros n.
  apply preserves_bind; [apply preserves_get|]. intros c.
  apply preserves_bind; [apply preserves_some|]. intros len.
  apply preserves_bind; [by apply Fresh_ps|]. intros _.
  apply preserves_check_e.
  - apply preserves_bind; [apply preserves_gets|]. intros b. case_match; [|apply preserves_ret].
    apply preserves_try_e; [apply keeps_Fresh, keeps_wrap, keeps_makeBlock|].
    intros [blk|]; [|apply preserves_ret].
    apply preserves_try_e; [apply keeps_Fresh, keeps_wrap, keeps_store|]. intros id.
    apply preserves_bind; [by apply Fresh_ps|]. intros _. apply preserves_ret.
  - apply preserves_check_e; [apply keeps_Fresh, keeps_wrap_e, keeps_sendProposal|].
    apply preserves_bind; [|intros; apply preserves_ret].
    apply Fresh_ps. intros s (?&?&?&?&?). by split_and!.
Qed.

(** Opening a round forgets the votes and the lock. *)
Lemma startRound_open_run inc c :
  exists b c', startRound_open inc c = (Ret b, c') /\ fresh_round (c_propsalState c') /\
    c_sleeping c' = c_sleeping c /\ c_state c' = c_state c /\ c_chain c' = c_chain c.
Proof.
  unfold startRound_open, ps, get_ps. go_unfold.
  destruct inc; simpl; repeat (case_match; simplify_eq/=); eexists _, _; split_and!; try done;
    by unfold fresh_round, gm_make, gm_len.
Qed.

Lemma round_Inv (atomic : bool) inc c :
  wlp ((if atomic then run_round get_world put_world else go_startRound) inc) (fun _ c' => Inv c') c.
Proof.
  destruct (startRound_open_run inc c) as (b&c'&Hrun&HF&_).
  destruct atomic; unfold run_round, startRound, go_startRound; rewrite !wlp_bind; unfold wlp at 1; rewrite Hrun.
  - destruct b; [|by apply wlp_ret, wlp_ret, Fresh_Inv].
    eapply wlp_mono; [by apply preserves_wlp; [apply startRound_wake_Fresh|]|].
    intros e c'' HF'. by apply wlp_ret, Fresh_Inv.
  - destruct b; wlp_run; by apply Fresh_Inv.
Qed.

Lemma onNewRound_Inv msg from c : Inv c -> wlp (onNewRound msg from) (fun _ c' => Inv c') c.
Proof.
  intros Hi. unfold onNewRound, get_st. wlp_run. case_match; wlp_run; [done|].
  unfold ps. wlp_run. apply Fresh_Inv.
  by unfold Fresh, fresh_round, gm_make, gm_len.
Qed.

Lemma onProposal_Inv msg from c :
  Inv c -> wlp (onProposal get_world put_world msg from) (fun _ c' => Inv c') c.
Proof.
  intros Hi. unfold onProposal, get_st, get_ps. wlp_run.
  case_bool_decide; simpl; [|by wlp_run]. case_bool_decide as Hstep; simpl; [|by wlp_run]. wlp_run.
  assert (Fresh c) as HF by (destruct Hi as [_ Hr]; exact (ri_propose _ _ Hr Hstep)).
  eapply wlp_mono; [apply keeps_wlp with (P := Fresh); [apply keeps_validate|]|].
  { intros c' Hc. by eapply Fresh_core. }
  intros bc c' HF'. eapply wlp_mono; [apply preserves_wlp; [apply once_Fresh|exact HF']|].
  - by intros b s Hf.
  - apply castPrevote_Fresh.
  - intros ? c''. apply Fresh_Inv.
Qed.

(** Counting a vote that was checked. *)
Lemma votes_ok_put proposer kind s p m v m' :
  votes_ok proposer kind s m -> gm_set p v m = Some m' ->
  vote_of proposer kind s p v -> votes_ok proposer kind s m'.
Proof.
  intros Hok Hset Hv q w. rewrite (gm_set_get _ _ _ _ _ Hset). case_decide; [|by apply Hok].
  intros [= <-]. by subst.
Qed.

Definition checked (kind : Z) (msg : Msg) c : Prop :=
  vote_of (s_Proposer (c_state c)) kind (c_propsalState c) (msg_From msg) msg.

Lemma checked_core kind msg c c' : core c' = core c -> checked kind msg c -> checked kind msg c'.
Proof.
  unfold core, checked. intros Hc. injection Hc as E1 E2 E3 E4. by rewrite E3, E4.
Qed.

(** Restarting a timer in between changes nothing of this. *)
Lemma keeps_restart (b : bool) f :
  (forall c, core (f c) = core c) -> keeps (gwhen b (gmodify f)).
Proof. intros Hf. destruct b; [by apply keeps_modify|apply keeps_ret]. Qed.

(** The maps of evidence, the timers and the [Once]s are not part of it. *)
Lemma Inv_set_other (f : State -> State) c :
  (forall s, s_PreVotes (f s) = s_PreVotes s /\ s_PreCommits (f s) = s_PreCommits s /\
    s_Step (f s) = s_Step s /\ s_lockedValue (f s) = s_lockedValue s /\
    s_lockedRound (f s) = s_lockedRound s /\ s_Block (f s) = s_Block s /\
    s_Round (f s) = s_Round s /\ s_Height (f s) = s_Height s /\ s_f (f s) = s_f s) ->
  Inv c -> Inv (set_propsalState (f (c_propsalState c)) c).
Proof.
  intros Hf [Hs [Hpv Hpc Hp Hl Hb]].
  destruct (Hf (c_propsalState c)) as (E1&E2&E3&E4&E5&E6&E7&E8&E9).
  split; [|split]; simpl; unfold votes_ok, vote_of, vote_block, fresh_round, enough in *;
    rewrite ?E1, ?E2, ?E3, ?E4, ?E5, ?E6, ?E7, ?E8, ?E9; done.
Qed.

Lemma Inv_put_prevote msg m c :
  Inv c -> awake c -> checked VoteTypePreVote msg c -> s_Step (c_propsalState c) = prevote ->
  gm_set (msg_From msg) msg (s_PreVotes (c_propsalState c)) = Some m ->
  Inv (set_propsalState (set_PreVotes m (c_propsalState c)) c).
Proof.
  intros [Hs [Hpv Hpc Hp Hl Hb]] Haw Hv Hstep Hset. pose proof (gm_set_len _ _ _ _ Hset).
  split; [by intros Hlax []; apply Haw|]. split; simpl.
  - by eapply votes_ok_put.
  - done.
  - by rewrite Hstep.
  - destruct Hl as [?|(?&?&f&?&?&He)]; [by left|right]. split_and!; [done..|].
    exists f. split_and!; [done..|]. simpl. lia.
  - by rewrite Hstep.
Qed.

Lemma Inv_put_precommit msg m c :
  Inv c -> awake c -> checked VoteTypePreCommit msg c -> s_Step (c_propsalState c) = precommit ->
  gm_set (msg_From msg) msg (s_PreCommits (c_propsalState c)) = Some m ->
  Inv (set_propsalState (set_PreCommits m (c_propsalState c)) c).
Proof.
  intros [Hs [Hpv Hpc Hp Hl Hb]] Haw Hv Hstep Hset.
  split; [by intros Hlax []; apply Haw|]. split; simpl.
  - done.
  - by eapply votes_ok_put.
  - by rewrite Hstep.
  - done.
  - by rewrite Hstep.
Qed.

(** Locking on a quorum of prevotes. *)
Lemma castPrecommit_Inv c :
  Inv c -> awake c -> enough (c_propsalState c) (s_PreVotes (c_propsalState c)) ->
  wlp castPrecommit (fun _ c' => Inv c') c.
Proof.
  intros [Hs [Hpv Hpc Hp Hl Hb]] Haw He. unfold castPrecommit, ps, get_ps. wlp_run.
  eapply wlp_mono; [apply keeps_Inv; [apply keeps_sendVote|]|].
  - split; [by intros Hlax []; apply Haw|]. split; simpl; [done..|by right|done].
  - intros [e|] c' Hi; by wlp_run.
Qed.

(** The threshold that was passed is one the node has. *)
Lemma enough_now s m : F (s_f s) -> (s_f s < Z.of_nat (gm_len m))%Z -> enough s m.
Proof. intros. by exists (s_f s). Qed.

(** A step of a [Once] that keeps the invariant *)
Lemma once_Inv get set f c :
  (forall b c, Inv c -> Inv (set_propsalState (set b (c_propsalState c)) c)) ->
  Inv c -> wlp f (fun _ c' => Inv c') c ->
  wlp (once_Do get set f) (fun _ c' => Inv c') c.
Proof.
  intros Hset Hi Hf. unfold once_Do, get_ps, ps. wlp_run. case_match; [by wlp_run|].
  apply wlp_defer. eapply wlp_mono; [exact Hf|]. intros ? c' Hi'. by apply Hset.
Qed.

Lemma onPreVote_Inv msg c :
  Inv c -> awake c -> F (s_f (c_propsalState c)) -> checked VoteTypePreVote msg c ->
  wlp (onPreVote msg) (fun _ c' => Inv c') c.
Proof.
  intros Hi Haw HF Hv. unfold onPreVote, get_ps, map_put. wlp_run.
  case_bool_decide as Hstep; simpl; [|by wlp_run]. rewrite wlp_bind.
  eapply wlp_mono; [apply keeps_wlp with (P := fun c1 => core c1 = core c)|]; [by apply keeps_restart|done|].
  intros ? c1 Hc1. pose proof (Inv_core _ _ Hc1 Hi) as Hi1. pose proof (checked_core _ _ _ _ Hc1 Hv) as Hv1.
  assert (c_propsalState c1 = c_propsalState c) as Hps by (by injection Hc1).
  rewrite <- Hps in Hstep, HF. pose proof (awake_core _ _ Hc1 Haw) as Haw1.
  rewrite !wlp_bind. apply wlp_gets. rewrite wlp_bind. apply wlp_some. intros m Hm.
  unfold ps. wlp_run. pose proof (Inv_put_prevote msg m c1 Hi1 Haw1 Hv1 Hstep Hm) as Hi2.
  case_bool_decide as He; [|by wlp_run]. apply once_Inv; [|done|].
  { intros b c'. by apply (Inv_set_other (set_pcOnce b)). }
  apply castPrecommit_Inv; [done..|]. by apply enough_now.
Qed.

Lemma onPreCommit_Inv msg c :
  Inv c -> awake c -> F (s_f (c_propsalState c)) -> checked VoteTypePreCommit msg c ->
  wlp (onPreCommit msg) (fun _ c' => Inv c') c.
Proof.
  intros Hi Haw HF Hv. unfold onPreCommit, get_ps, map_put. wlp_run.
  case_bool_decide as Hstep; simpl; [|by wlp_run]. rewrite wlp_bind.
  eapply wlp_mono; [apply keeps_wlp with (P := fun c1 => core c1 = core c)|]; [by apply keeps_restart|done|].
  intros ? c1 Hc1. pose proof (Inv_core _ _ Hc1 Hi) as Hi1. pose proof (checked_core _ _ _ _ Hc1 Hv) as Hv1.
  assert (c_propsalState c1 = c_propsalState c) as Hps by (by injection Hc1).
  rewrite <- Hps in Hstep, HF. pose proof (awake_core _ _ Hc1 Haw) as Haw1.
  rewrite !wlp_bind. apply wlp_gets. rewrite wlp_bind. apply wlp_some. intros m Hm.
  unfold ps. wlp_run. pose proof (Inv_put_precommit msg m c1 Hi1 Haw1 Hv1 Hstep Hm) as Hi2.
  case_bool_decide as He; [|by wlp_run]. apply once_Inv; [|done|].
  { intros b c'. by apply (Inv_set_other (set_sbOnce b)). }
  unfold enterBlock, ps, get_ps. wlp_run. destruct Hi2 as [Hs2 [Hpv Hpc Hp Hl Hb]].
  case_match; wlp_run; (split; [by intros Hlax []; apply Haw1|]); split; simpl; try done; intros _;
    by apply enough_now.
Qed.

Lemma keeps_once_Inv get set f c :
  (forall b c, Inv c -> Inv (set_propsalState (set b (c_propsalState c)) c)) ->
  Inv c -> keeps f -> wlp (once_Do get set f) (fun _ c' => Inv c') c.
Proof. intros. apply once_Inv; [done..|by apply keeps_Inv]. Qed.

Lemma map_put_Inv `{Countable K} {V} get set (k : K) (v : V) c :
  (forall m s, s_PreVotes (set m s) = s_PreVotes s /\ s_PreCommits (set m s) = s_PreCommits s /\
    s_Step (set m s) = s_Step s /\ s_lockedValue (set m s) = s_lockedValue s /\
    s_lockedRound (set m s) = s_lockedRound s /\ s_Block (set m s) = s_Block s /\
    s_Round (set m s) = s_Round s /\ s_Height (set m s) = s_Height s /\ s_f (set m s) = s_f s) ->
  Inv c -> wlp (map_put get set k v) (fun _ c' => Inv c') c.
Proof.
  intros Hset Hi. unfold map_put, get_ps, ps. wlp_run. apply Inv_set_other; [|done].
  intros s. apply Hset.
Qed.

Lemma Inv_wlp_seq {A B} (m : M A) (k : A -> M B) c :
  wlp m (fun _ c' => Inv c') c -> (forall a c', Inv c' -> wlp (k a) (fun _ c'' => Inv c'') c') ->
  wlp (m ≫= k) (fun _ c' => Inv c') c.
Proof.
  intros Hm Hk. rewrite wlp_bind. eapply wlp_mono; [exact Hm|]. intros a c' Hi. by apply Hk.
Qed.

Lemma sendEvidence_Inv v c : Inv c -> wlp (sendEvidence v) (fun _ c' => Inv c') c.
Proof.
  intros Hi. unfold sendEvidence. apply Inv_wlp_seq.
  - repeat case_match; [apply map_put_Inv; done..|by wlp_run].
  - intros _ c' Hi'. apply keeps_Inv; [apply keeps_sendMsg|done].
Qed.

Lemma onEvidence_Inv msg from c : Inv c -> wlp (onEvidence msg from) (fun _ c' => Inv c') c.
Proof.
  intros Hi. unfold onEvidence, get_st. wlp_run. case_match; wlp_run; [done|].
  repeat case_match; [apply map_put_Inv; done..|by wlp_run].
Qed.

Lemma onVote_Inv msg c :
  Inv c -> awake c -> F (s_f (c_propsalState c)) -> Ver msg ->
  wlp (onVote msg (peer_String (msg_From msg))) (fun _ c' => Inv c') c.
Proof.
  intros Hi Haw HF HA. unfold onVote, get_st, get_ps. rewrite wlp_bind. apply wlp_some. intros cm Hcm.
  wlp_run. case_bool_decide as Hfrom; [by wlp_run|].
  rewrite wlp_bind. apply wlp_some. intros v Hv. wlp_run.
  destruct (vote_current v (c_propsalState c)) eqn:Hcur; simpl; [|by wlp_run].
  assert (forall k, vote_Type v = k -> checked k msg c) as Hck.
  { intros k Hk. unfold checked, vote_of. split_and!; [done..|]. exists cm, v.
    unfold vote_current in Hcur. apply andb_true_iff in Hcur as [Hcur Hr%bool_decide_eq_true].
    apply andb_true_iff in Hcur as [Hh%bool_decide_eq_true Hb%bool_decide_eq_true].
    split_and!; [done..|]. by left. }
  apply Inv_wlp_seq.
  - case_bool_decide as Hk; [apply onPreVote_Inv; auto|].
    case_bool_decide as Hk2; [apply onPreCommit_Inv; auto|by wlp_run].
  - intros _ c' Hi'. wlp_run. case_match; [|by wlp_run].
    apply Inv_wlp_seq; [by apply sendEvidence_Inv|]. intros. by wlp_run.
Qed.

Lemma Inv_set_state (f : State -> State) c :
  (forall s, s_Proposer (f s) = s_Proposer s) -> Inv c -> Inv (set_state (f (c_state c)) c).
Proof. intros Hf [Hs Hr]. split; [done|]. simpl. by rewrite Hf. Qed.

Lemma commit_Inv c : Inv c -> wlp (commit get_world put_world) (fun _ c' => Inv c') c.
Proof.
  intros Hi. unfold commit, get_ps. rewrite wlp_bind. apply wlp_gets. apply Inv_wlp_seq.
  { case_match; [by wlp_run|]. apply keeps_Inv; [|done]. keeps_step. }
  intros _ c1 Hi1. apply Inv_wlp_seq; [by apply keeps_Inv; [apply keeps_modify|]|].
  intros _ c2 Hi2. apply Inv_wlp_seq; [by apply keeps_Inv; [apply keeps_store|]|].
  intros _ c3 Hi3. wlp_run. by repeat apply Inv_set_state.
Qed.

Lemma onBlock_Inv msg from c : Inv c -> wlp (onBlock get_world put_world msg from) (fun _ c' => Inv c') c.
Proof.
  intros Hi. unfold onBlock, get_st, get_ps. wlp_run. case_match; wlp_run; [done|].
  case_match; [by wlp_run|]. by apply commit_Inv.
Qed.

(** A vote for the consensus engine *)
Definition vote_msg (msg : Msg) : bool :=
  match msg_Consensus msg with
  | Some cm => bool_decide (cm_Type cm = ConsensusMsgTypeVote)
  | None => false
  end.

Lemma onMsg_Inv msg c :
  Inv c -> (vote_msg msg = true -> awake c) -> F (s_f (c_propsalState c)) -> (verified c msg -> Ver msg) ->
  wlp (onMsg get_world put_world msg) (fun _ c' => Inv c') c.
Proof.
  intros Hi Haw HF HA. unfold onMsg. rewrite wlp_bind.
  eapply wlp_mono with (Q := fun ok c' => core c' = core c /\ (ok = true -> verified c msg)).
  { apply authenticate_verified. }
  intros [] c' [Hc Hsg]; simpl; [|apply wlp_ret; by eapply Inv_core].
  specialize (HA (Hsg eq_refl)). pose proof (Inv_core _ _ Hc Hi) as Hi'.
  case_match; [|case_match; [|by wlp_run]].
  - unfold onConsensusMsg. rewrite wlp_bind. apply wlp_some. intros cm Hcm. repeat case_match.
    + by apply onNewRound_Inv.
    + by apply onProposal_Inv.
    + apply onVote_Inv; [done| |by injection Hc as _ _ _ ->|done].
      eapply awake_core; [exact Hc|]. apply Haw. unfold vote_msg. by rewrite Hcm.
    + by apply onBlock_Inv.
    + by apply onEvidence_Inv.
    + by wlp_run.
  - apply keeps_Inv; [|done]. unfold onTx. keeps_step.
Qed.

(** Moving to a step between [propose] and [block] *)
Lemma Inv_setStep st c :
  st = prevote \/ st = precommit -> Inv c ->
  Inv (set_propsalState (setStep st (c_propsalState c)) c).
Proof.
  intros Hst [Hs [Hpv Hpc Hp Hl Hb]]. split.
  - intros Hlax Hsl. destruct (Hs Hlax Hsl) as (?&?&?&?&?). split_and!; try done. by destruct Hst as [-> | ->].
  - split; simpl; try done; by destruct Hst as [-> | ->].
Qed.

Lemma onTimeoutProposal_Inv c : Inv c -> wlp onTimeoutProposal (fun _ c' => Inv c') c.
Proof.
  intros Hi. unfold onTimeoutProposal, ps. wlp_run. case_match; wlp_run; [done|].
  apply keeps_once_Inv; [by intros b c'; apply (Inv_set_other (set_pvOnce b))| |].
  - apply Inv_setStep; [by left|done].
  - keeps_step.
Qed.

Lemma onTimeoutPrevote_Inv c : Inv c -> wlp onTimeoutPrevote (fun _ c' => Inv c') c.
Proof.
  intros Hi. unfold onTimeoutPrevote, ps. wlp_run. case_match; wlp_run; [done|].
  apply keeps_once_Inv; [by intros b c'; apply (Inv_set_other (set_pcOnce b))| |].
  - apply Inv_setStep; [by right|done].
  - keeps_step.
Qed.

Lemma on_timeout_Inv (atomic : bool) t c :
  Inv c -> wlp (on_timeout (if atomic then run_round get_world put_world else go_startRound) t)
    (fun _ c' => Inv c') c.
Proof.
  intros Hi. unfold on_timeout. wlp_run. case_match; wlp_run; try done.
  assert (Inv (set_timer t TStopped c)) as Hi' by (destruct t; by eapply Inv_core, Hi).
  destruct t; simpl.
  - by apply onTimeoutProposal_Inv.
  - by apply onTimeoutPrevote_Inv.
  - apply round_Inv.
  - by apply wlp_ret.
Qed.

Lemma watchProposer_Inv (atomic : bool) b c :
  Inv c -> wlp (watchProposer get_world put_world
    (if atomic then run_round get_world put_world else go_startRound) b) (fun _ c' => Inv c') c.
Proof.
  intros Hi. unfold watchProposer. apply Inv_wlp_seq.
  - apply keeps_Inv; [|done]. unfold proposer. keeps_step.
  - intros [id|] c' Hi'; [|by wlp_run]. unfold ps. wlp_run. apply round_Inv.
Qed.

Lemma blockFunc_Inv c : Inv c -> wlp (blockFunc get_world put_world) (fun _ c' => Inv c') c.
Proof.
  intros Hi. unfold blockFunc. apply Inv_wlp_seq; [by apply keeps_Inv; [apply keeps_sendBlock|]|].
  intros [msg|e] c' Hi'; wlp_run; [|done]. by apply onBlock_Inv.
Qed.

(** ** Waking up in a round that has votes *)

Lemma Inv_set_f f c : lax = true -> Inv c -> Inv (set_propsalState (set_f f (c_propsalState c)) c).
Proof.
  intros Hlax [Hs [Hpv Hpc Hp Hl Hb]]. split; [congruence|].
  assert (forall m, enough (c_propsalState c) m -> enough (set_f f (c_propsalState c)) m) as He.
  { intros m (f'&HF&_&Hm). exists f'. split_and!; [done|congruence|done]. }
  split; simpl; [done..| |auto]. destruct Hl as [?|(?&?&?)]; [by left|right; auto].
Qed.

(** The votes that were counted when there was no block are for no block. *)
Lemma Inv_set_Block b c :
  lax = true -> s_Block (c_propsalState c) = cid_Undef -> Inv c ->
  Inv (set_propsalState (set_Block b (c_propsalState c)) c).
Proof.
  intros Hlax Hu [Hs [Hpv Hpc Hp Hl Hb]]. split; [congruence|].
  assert (forall kind p m, vote_of (s_Proposer (c_state c)) kind (c_propsalState c) p m ->
    vote_of (s_Proposer (c_state c)) kind (set_Block b (c_propsalState c)) p m) as Hv.
  { intros kind p m (?&?&?&cm&v&?&?&?&?&?&Hvb). split_and!; [done..|]. exists cm, v. split_and!; [done..|].
    right. split; [done|]. unfold vote_block in Hvb. rewrite Hu in Hvb. by destruct Hvb as [|[]]. }
  split; simpl.
  - intros p m Hm. by apply Hv, Hpv.
  - intros p m Hm. by apply Hv, Hpc.
  - exact Hp.
  - destruct Hl as [?|(Hl&_)]; left; congruence.
  - exact Hb.
Qed.

Lemma Inv_check_e (m k : M (option error)) c :
  wlp m (fun _ c' => Inv c') c -> (forall c', Inv c' -> wlp k (fun _ c'' => Inv c'') c') ->
  wlp (gcheck_e m k) (fun _ c' => Inv c') c.
Proof. intros Hm Hk. apply Inv_wlp_seq; [done|]. intros [e|] c' Hi; [by apply wlp_ret|by apply Hk]. Qed.

(** The block a proposer makes when it wakes up without one *)
Lemma make_Inv c :
  lax = true -> Inv c -> s_Block (c_propsalState c) = cid_Undef ->
  wlp (gtry_e (gwrap "making new block" (makeBlock get_world put_world)) (fun ob =>
    match ob with
    | None => mret None
    | Some b => gtry_e (gwrap "storing new block" (store get_world put_world (fun s => PutBlock s b)))
        (fun id => ps (set_Block id);; mret None)
    end)) (fun _ c' => Inv c') c.
Proof.
  intros Hlax Hi Hu. unfold gtry_e at 1. rewrite wlp_bind.
  eapply wlp_mono; [apply keeps_wlp with (P := fun c1 => core c1 = core c); [apply keeps_wrap, keeps_makeBlock|done]|].
  intros [[b|]|e] c1 Hc1; try (apply wlp_ret; by eapply Inv_core).
  unfold gtry_e. rewrite wlp_bind.
  eapply wlp_mono; [apply keeps_wlp with (P := fun c2 => core c2 = core c); [apply keeps_wrap, keeps_store|]|].
  { intros c2 Hc2. by rewrite Hc2. }
  intros [id|e] c2 Hc2; [|apply wlp_ret; by eapply Inv_core].
  unfold ps. wlp_run. apply Inv_set_Block; [done|by injection Hc2 as _ _ _ ->|by eapply Inv_core].
Qed.

Lemma startRound_wake_Inv c :
  lax = true -> Inv c -> wlp (startRound_wake get_world put_world) (fun _ c' => Inv c') c.
Proof.
  intros Hlax Hi. unfold startRound_wake. wlp_run.
  apply Inv_check_e; [apply keeps_Inv; [apply keeps_wrap_e, keeps_sendNewRound|by eapply Inv_core, Hi]|].
  intros c1 Hi1. apply Inv_wlp_seq; [by apply keeps_Inv; [apply keeps_wrap, keeps_store|]|].
  intros [n|e] c2 Hi2; [|by apply wlp_ret]. unfold ps at 1. wlp_run.
  apply Inv_check_e; [|intros c3 Hi3; apply Inv_check_e].
  - unfold get_ps. wlp_run. case_bool_decide as Hu; [|apply wlp_ret; by apply Inv_set_f].
    apply make_Inv; [done|by apply Inv_set_f|exact Hu].
  - apply keeps_Inv; [apply keeps_wrap_e, keeps_sendProposal|done].
  - intros c4 Hi4. unfold ps. wlp_run. apply Inv_setStep; [by left|done].
Qed.

Lemma wake_Inv c : Inv c -> wlp (wake get_world put_world) (fun _ c' => Inv c') c.
Proof.
  intros Hi. unfold wake. wlp_run. destruct (c_sleeping c) as [|n] eqn:Hn; [by apply wlp_ret|]. wlp_run.
  destruct (Sumbool.sumbool_of_bool lax) as [Hlax|Hlax].
  - eapply wlp_mono; [apply startRound_wake_Inv; [done|]|intros; by apply wlp_ret].
    destruct Hi as [_ Hr]. split; [congruence|done].
  - eapply wlp_mono; [apply preserves_wlp; [apply startRound_wake_Fresh|]|intros; by apply wlp_ret, Fresh_Inv].
    refine (proj1 Hi Hlax _). congruence.
Qed.

(** ** Events *)

Definition vote_event (e : event) : bool := match e with EvMsg msg => vote_msg msg | _ => false end.

Lemma handle_Inv (atomic : bool) e c :
  Inv c -> (vote_event e = true -> awake c) -> F (s_f (c_propsalState c)) ->
  (forall m, e = EvMsg m -> verified c m -> Ver m) ->
  wlp (handle atomic e) (fun _ c' => Inv c') c.
Proof.
  intros Hi Haw HF HA. destruct e; cbn [Consensus.handle].
  - wlp_run. destruct (c_beacon c); [by apply watchProposer_Inv|by apply wlp_ret].
  - by apply onMsg_Inv; auto.
  - unfold fire. wlp_run. case_match; try done. destruct t; by eapply Inv_core, Hi.
  - by apply on_timeout_Inv.
  - by apply wake_Inv.
  - wlp_run. case_match; [by apply wlp_ret|]. wlp_run. apply blockFunc_Inv. by eapply Inv_core, Hi.
  - wlp_run. by eapply Inv_core, Hi.
Qed.
End Rules.

Lemma Inv_mono lax (A A' : Msg -> Prop) (F F' : Z -> Prop) c :
  (forall m, A m -> A' m) -> (forall f, F f -> F' f) -> Inv lax A F c -> Inv lax A' F' c.
Proof.
  intros HA HF [Hs [Hpv Hpc Hp Hl Hb]]. split; [done|].
  assert (forall kind m, votes_ok lax A (s_Proposer (c_state c)) kind (c_propsalState c) m ->
    votes_ok lax A' (s_Proposer (c_state c)) kind (c_propsalState c) m) as Hv.
  { intros kind m Hm p v Hpm. destruct (Hm p v Hpm) as (?&?&?&?). split_and!; auto. }
  assert (forall m, enough lax F (c_propsalState c) m -> enough lax F' (c_propsalState c) m) as He.
  { intros m (f&?&?&?). exists f. auto. }
  split; [by apply Hv..|done| |auto]. destruct Hl as [?|(?&?&?)]; [by left|right; auto].
Qed.

(** ** Runs *)

Section Runs.
Context (atomic : bool).

Lemma reach_trans c1 c2 c3 : reach atomic c1 c2 -> reach atomic c2 c3 -> reach atomic c1 c3.
Proof. intros H12. induction 1; [done|]. by econstructor. Qed.

(** [m] was received in the run from [c0] to [c], and verified with the key that
    was registered for its sender then. *)
Definition authentic c0 c (m : Msg) : Prop :=
  exists c1 c2, reach atomic c0 c1 /\ step atomic c1 (EvMsg m) c2 /\ reach atomic c2 c /\ verified c1 m.

(** [f] was the threshold in some state of the run. *)
Definition threshold c0 c (f : Z) : Prop :=
  exists c1, reach atomic c0 c1 /\ reach atomic c1 c /\ s_f (c_propsalState c1) = f.

(** A run in which no vote is handled while [startRound] sleeps *)
Inductive calm c : Consensus -> Prop :=
| calm_refl : calm c c
| calm_step c1 e c2 : calm c c1 -> step atomic c1 e c2 ->
    c_sleeping c1 = 0 \/ vote_event e = false -> calm c c2.

Lemma calm_reach c c' : calm c c' -> reach atomic c c'.
Proof. induction 1; [constructor|by econstructor]. Qed.

Lemma step_Inv lax c0 c1 e c2 :
  reach atomic c0 c1 -> step atomic c1 e c2 -> (lax = false -> c_sleeping c1 = 0 \/ vote_event e = false) ->
  Inv lax (authentic c0 c1) (threshold c0 c1) c1 -> Inv lax (authentic c0 c2) (threshold c0 c2) c2.
Proof.
  intros Hr Hst Hcalm Hi. assert (reach atomic c1 c2) as Hr12 by (econstructor; [constructor|done]).
  assert (Inv lax (authentic c0 c2) (threshold c0 c2) c1) as Hi'.
  { eapply Inv_mono; [..|exact Hi].
    - intros m (c&c'&?&?&?&?). exists c, c'. split_and!; [done..|by eapply reach_trans|done].
    - intros f (c&?&?&?). exists c. split_and!; [done|by eapply reach_trans|done]. }
  assert (wlp (handle atomic e) (fun _ c' => Inv lax (authentic c0 c2) (threshold c0 c2) c') c1) as Hw.
  { apply handle_Inv; [done|..].
    - intros Hv Hlax. destruct (Hcalm Hlax) as [?|?]; [done|congruence].
    - by exists c1.
    - intros m -> Hm. exists c1, c2. split_and!; [done..|constructor|done]. }
  destruct Hst as [Hst]. unfold wlp in Hw. by rewrite Hst in Hw.
Qed.

Lemma reach_Inv c c' :
  fresh_round (c_propsalState c) -> reach atomic c c' -> Inv true (authentic c c') (threshold c c') c'.
Proof.
  intros Hf. induction 1 as [|c1 e c2 Hr IH Hst]; [by apply Fresh_Inv|]. by eapply step_Inv.
Qed.

Lemma calm_Inv c c' :
  fresh_round (c_propsalState c) -> calm c c' -> Inv false (authentic c c') (threshold c c') c'.
Proof.
  intros Hf. induction 1 as [|c1 e c2 Hr IH Hst Hq]; [by apply Fresh_Inv|].
  eapply step_Inv; [by apply calm_reach|done|done|done].
Qed.
End Runs.
End Invariant.
End ConsensusFacts.
