(* ===== verification/ConsensusProps.v ===== *)
(** * Theorems on the protocol

    What backs a commit, what two conflicting commits prove about the voters,
    when a node votes, whom it listens to, and how the proposer is chosen. *)

From S2P Require Import Prelude Externals Cryptography W3cDid Tx Chain Validator MemPool.
From S2P Require Import ConsensusState Consensus ConsensusFacts.

Module ConsensusProps.
Import Cryptography Tx Chain Validator MemPool ConsensusState Consensus ConsensusFacts.

Section Props.
Context `{L : Lib} {W H VS : Type} `{!Store W H} `{!MsgCodec} `{!PubSub} `{!RangeOrder}.
Context (get_world : VS -> W) (put_world : W -> VS -> VS).

Notation Consensus := (Consensus H VS).
Notation M := (GoM Consensus).
Notation handle := (handle get_world put_world).
Notation step := (step get_world put_world).
Notation reach := (reach get_world put_world).
Implicit Types c : Consensus.

(** ** Frames *)

#[local] Create HintDb tip discriminated.

Ltac frame_step := preserves_walk ltac:(solve [auto 1 with tip]).

(** The tip of the chain a node has committed. *)
Definition tip c := (s_Block (c_state c), s_Height (c_state c), s_ParentBlock (c_state c)).

Notation keeps_tip m := (forall k, preserves (fun c => tip c = k) m).

Lemma tip_store {A} (m : H -> GoM W A) : keeps_tip (store get_world put_world m).
Proof. intros k. unfold store. frame_step. Qed.

Lemma tip_sendMsg msg : keeps_tip (sendMsg msg).
Proof. intros k. unfold sendMsg, PublishContext. frame_step. Qed.

#[local] Hint Resolve tip_store tip_sendMsg : tip.

Lemma tip_take_txs n : keeps_tip (take_txs n).
Proof. intros k. induction n; simpl; unfold pool; frame_step. Qed.

Lemma tip_put_txs txs : keeps_tip (put_txs get_world put_world txs).
Proof. intros k. induction txs; simpl; frame_step. Qed.

#[local] Hint Resolve tip_take_txs tip_put_txs : tip.

Lemma tip_round (atomic : bool) inc :
  keeps_tip ((if atomic then run_round get_world put_world else go_startRound) inc).
Proof.
  intros k. destruct atomic; unfold run_round, go_startRound, startRound, startRound_open, startRound_wake, sendNewRound, sendProposal,
    makeBlock, pool, ps, get_ps; frame_step.
Qed.
#[local] Hint Resolve tip_round : tip.

(** A commit: the node was at the last step, and the value it had locked is now
    the tip, at the height of the round. *)
Definition commits c c' : Prop :=
  s_Step (c_propsalState c) = block /\ c_propsalState c' = c_propsalState c /\
  tip c' = (s_lockedValue (c_propsalState c), s_Height (c_propsalState c), s_Block (c_state c)).

Lemma tip_ne c c' : s_Block (c_state c') <> s_Block (c_state c) -> tip c' <> tip c.
Proof. unfold tip. congruence. Qed.

Definition tip_rule c c' : Prop := tip c' = tip c \/ commits c c'.

Lemma tip_wlp {A} (m : M A) c :
  (forall k, preserves (fun c => tip c = k) m) -> wlp m (fun _ c' => tip_rule c c') c.
Proof.
  intros Hm. specialize (Hm (tip c) c eq_refl). unfold wlp.
  destruct (m c) as [[a|] c']; [by left|done].
Qed.

Lemma tip_rule_core c c1 c' : core c1 = core c -> tip_rule c1 c' -> tip_rule c c'.
Proof.
  unfold core, tip_rule, commits, tip. intros Hc. injection Hc as E1 E2 E3 E4. by rewrite E3, E4.
Qed.

Lemma commit_tip c :
  s_Step (c_propsalState c) = block ->
  wlp (commit get_world put_world) (fun _ c' => tip_rule c c') c.
Proof.
  intros Hstep. unfold commit, get_ps. rewrite wlp_bind. apply wlp_gets. rewrite wlp_bind.
  eapply wlp_mono with (Q := fun _ c1 => core c1 = core c).
  { case_match; [by wlp_run|]. apply keeps_wlp with (P := fun c1 => core c1 = core c); [|done].
    apply keeps_bind; [apply keeps_store|intros; apply keeps_ret]. }
  intros ? c1 Hc1. wlp_run.
  eapply wlp_mono; [apply keeps_wlp with (P := fun c2 => core c2 = core c); [apply keeps_store|]|].
  { intros c2 Hc2. by rewrite Hc2. }
  intros ? c2 Hc2. wlp_run. right. unfold core in Hc2. injection Hc2 as E1 E2 E3 E4.
  split_and!; [done|done|]. unfold tip. simpl. by rewrite E3, E4.
Qed.

Lemma onBlock_tip msg from c :
  wlp (onBlock get_world put_world msg from) (fun _ c' => tip_rule c c') c.
Proof.
  unfold onBlock, get_st, get_ps. wlp_run.
  case_bool_decide; simpl; [|by apply wlp_ret; left].
  case_bool_decide; simpl; [|by apply wlp_ret; left]. wlp_run.
  case_match; [by apply wlp_ret; left|]. by apply commit_tip.
Qed.

(** The handlers other than [onBlock] *)
Lemma tip_handlers :
  (forall m from, keeps_tip (onNewRound m from)) /\
  (forall m from, keeps_tip (onProposal get_world put_world m from)) /\
  (forall m from, keeps_tip (onVote m from)) /\
  (forall m from, keeps_tip (onEvidence m from)) /\
  (forall m from, keeps_tip (onTx m from)).
Proof.
  split_and!; intros m from k.
  - unfold onNewRound, get_st, ps. frame_step.
  - unfold onProposal, validate, validator, once_Do, castPrevote, sendVote, get_st, get_ps, ps. frame_step.
  - unfold onVote, onPreVote, onPreCommit, sendEvidence, once_Do, castPrecommit, enterBlock, sendVote,
      map_put, get_st, get_ps, ps. frame_step.
  - unfold onEvidence, map_put, get_st, get_ps, ps. frame_step.
  - unfold onTx, pool. frame_step.
Qed.

Lemma onMsg_tip msg c : wlp (onMsg get_world put_world msg) (fun _ c' => tip_rule c c') c.
Proof.
  unfold onMsg. rewrite wlp_bind.
  eapply wlp_mono; [apply keeps_wlp with (P := fun c1 => core c1 = core c); [apply keeps_authenticate|done]|].
  intros ok c1 Hc1. eapply wlp_mono with (Q := fun _ c' => tip_rule c1 c');
    [|intros ? c'; by apply tip_rule_core].
  destruct tip_handlers as (T1&T2&T3&T4&T5).
  destruct ok; simpl; [|by apply wlp_ret; left].
  case_match; [|case_match; [by apply tip_wlp|by apply wlp_ret; left]].
  unfold onConsensusMsg. rewrite wlp_bind. apply wlp_some. intros cm Hcm.
  repeat case_match; try (by apply tip_wlp); [apply onBlock_tip|by apply wlp_ret; left].
Qed.

Lemma handle_tip atomic e c : wlp (handle atomic e) (fun _ c' => tip_rule c c') c.
Proof.
  destruct e; cbn [Consensus.handle]; cbv zeta.
  - apply tip_wlp. intros k. unfold watchProposer, proposer, ps. frame_step.
  - apply onMsg_tip.
  - apply tip_wlp. intros k. unfold fire. apply preserves_modify. intros c0 <-. by destruct t, (get_timer _ c0).
  - apply tip_wlp. intros k. unfold on_timeout, onTimeoutPrecommit, onTimeoutProposal, onTimeoutPrevote,
      onTimeoutBlock, once_Do, sendVote, get_ps, ps. destruct t; simpl; frame_step.
  - apply tip_wlp. intros k. unfold wake, startRound_wake, sendNewRound, sendProposal, makeBlock, pool, ps,
      get_ps. frame_step.
  - wlp_run. case_match; [by apply wlp_ret; left|]. wlp_run. unfold blockFunc. rewrite wlp_bind.
    eapply wlp_mono; [apply keeps_wlp with (P := fun c1 => core c1 = core c); [apply keeps_sendBlock|done]|].
    intros [msg|err] c1 Hc1; [|apply wlp_ret; by eapply tip_rule_core; [exact Hc1|left]].
    wlp_run. eapply wlp_mono; [apply onBlock_tip|]. intros ? c'. by apply tip_rule_core.
  - apply tip_wlp. intros k. frame_step.
Qed.

(** ** Commits *)

(** A node that was constructed and has handled nothing yet. *)
Definition started c : Prop := c_sleeping c = 0 /\ c_propsalState c = zero_State.

Lemma started_fresh c : started c -> fresh_round (c_propsalState c).
Proof. intros [_ ->]. by split_and!. Qed.

(** The invariant in every run, or without stale votes in a calm one *)
Lemma run_Inv atomic lax c0 c :
  started c0 -> reach atomic c0 c -> (lax = false -> calm get_world put_world atomic c0 c) ->
  Inv lax (authentic get_world put_world atomic c0 c) (threshold get_world put_world atomic c0 c) c.
Proof.
  intros Hst%started_fresh Hr Hc. destruct lax; [by apply reach_Inv|by apply calm_Inv; [|apply Hc]].
Qed.

(** [NewConsensus] and [Start] give a started node. *)
Lemma NewConsensus_started opts id mem now nonce :
  wlp (NewConsensus get_world put_world opts ≫= fun _ => Start) (fun _ c' => started c')
    (new_node id mem now nonce).
Proof.
  assert (preserves started (NewConsensus get_world put_world opts ≫= fun _ => Start)) as Hp.
  { unfold NewConsensus, Start, subscribeMsgs, subscribeTx, p2p_Msgs, setupTimers, store.
    assert (preserves started (apply_options opts)) as Hopts.
    { induction opts as [|o opts IH]; simpl; [apply preserves_ret|].
      apply preserves_bind; [|by intros]. apply preserves_modify. by destruct o. }
    preserves_walk ltac:(exact Hopts). }
  apply preserves_wlp; [done|]. by split.
Qed.

(** The senders of the counted messages, as a set *)
Definition voters (m : gomap PeerID Msg) : gset PeerID := dom (default ∅ m).

Lemma voters_size m : size (voters m) = gm_len m.
Proof. unfold voters, gm_len. rewrite size_dom. by destruct m. Qed.

Lemma elem_of_voters p m : p ∈ voters m <-> is_Some (gm_get p m).
Proof.
  unfold voters, gm_get. rewrite elem_of_dom. destruct m as [m|]; simpl; [done|].
  by rewrite lookup_empty.
Qed.

(** A vote of [p] for the block [b] at height [h] and round [r], among the
    messages [Ver]; when [lax], also one for no block *)
Definition votes_for (lax : bool) (Ver : Msg -> Prop) (kind h r : Z) (b : Cid) (p : PeerID) : Prop :=
  exists m cm v, msg_From m = p /\ Ver m /\ msg_Consensus m = Some cm /\
    cm_Vote cm = Some v /\ vote_Type v = kind /\ vote_Height v = h /\ vote_Round v = r /\
    (vote_BlockID v = cid_String b \/ (lax = true /\ vote_BlockID v = cid_String cid_Undef)).

Lemma vote_of_votes_for lax Ver proposer kind s p m :
  vote_of lax Ver proposer kind s p m ->
  votes_for lax Ver kind (s_Height s) (s_Round s) (s_Block s) p /\ peer_String p <> proposer.
Proof.
  intros (Hp&Hne&Hs&cm&v&Hcm&Hv&Hk&Hh&Hr&Hb). split; [|done]. exists m, cm, v. by split_and!.
Qed.

(** A set of more than [f] peers, none of them the proposer, that voted. *)
Definition quorum_of (lax : bool) (Ver : Msg -> Prop) (proposer : string) (kind f h r : Z) (b : Cid)
    (Q : gset PeerID) : Prop :=
  (f < Z.of_nat (size Q))%Z /\
  forall p, p ∈ Q -> votes_for lax Ver kind h r b p /\ peer_String p <> proposer.

Lemma counted_quorum lax Ver F proposer kind s m :
  votes_ok lax Ver proposer kind s m -> enough lax F s m ->
  exists f, F f /\ (lax = false -> f = s_f s) /\
    quorum_of lax Ver proposer kind f (s_Height s) (s_Round s) (s_Block s) (voters m).
Proof.
  intros Hok (f&HF&Hf&He). exists f. split_and!; [done..|]. split; [by rewrite voters_size|].
  intros p [v Hv]%elem_of_voters. by eapply vote_of_votes_for, Hok.
Qed.

(** What two quorums for the tip of [c'] are, counted in the run from [c0] to [c] *)
Definition backed (lax : bool) c0 c c' : Prop :=
  exists r f1 f2 PV PC,
    threshold get_world put_world false c0 c f1 /\ threshold get_world put_world false c0 c f2 /\
    (lax = false -> f1 = s_f (c_propsalState c) /\ f2 = s_f (c_propsalState c)) /\
    quorum_of lax (authentic get_world put_world false c0 c) (s_Proposer (c_state c)) VoteTypePreVote f1
      (s_Height (c_state c')) r (s_Block (c_state c')) PV /\
    quorum_of lax (authentic get_world put_world false c0 c) (s_Proposer (c_state c)) VoteTypePreCommit f2
      (s_Height (c_state c')) r (s_Block (c_state c')) PC.

(** C1. A block is committed only on two quorums.  Whenever an event moves the
    chain of a node to a block that is not nil, the new tip extends the old one,
    and more peers than the threshold of the node, none of them the proposer, have
    sent a prevote, and more than the threshold a precommit, each received in the
    run and verified with the key that was registered for its sender then, for the
    committed height and one and the same round.  In a run in which no vote is handled while [startRound]
    sleeps, every one of these votes is for that block, and the threshold is the
    one the node has when it commits; in any other run the votes are for that
    block or for no block, and the threshold is one the node had on the way. *)
Theorem commit_quorum lax c0 c e c' :
  started c0 -> reach false c0 c -> step false c e c' ->
  (lax = false -> calm get_world put_world false c0 c) ->
  tip c' <> tip c -> s_Block (c_state c') <> cid_Undef ->
  s_ParentBlock (c_state c') = s_Block (c_state c) /\ backed lax c0 c c'.
Proof.
  intros Hst Hreach [Hstep] Hcalm Htip Hdef.
  pose proof (run_Inv _ _ _ _ Hst Hreach Hcalm) as [_ [Hpv Hpc _ Hl Hb]].
  pose proof (handle_tip false e c) as Hw. unfold wlp in Hw. rewrite Hstep in Hw.
  destruct Hw as [Hw|(Hblk&_&Htip')]; [done|].
  unfold tip in Htip'. injection Htip' as E1 E2 E3. split; [done|].
  destruct Hl as [Hu|(Hlv&Hlr&He)]; [congruence|].
  destruct (counted_quorum _ _ _ _ _ _ _ Hpv He) as (f1&?&?&?).
  destruct (counted_quorum _ _ _ _ _ _ _ Hpc (Hb Hblk)) as (f2&?&?&?).
  exists (s_Round (c_propsalState c)), f1, f2, (voters (s_PreVotes (c_propsalState c))),
    (voters (s_PreCommits (c_propsalState c))).
  rewrite E1, E2, Hlv. split_and!; auto.
Qed.

(** C2. Counting is never stale but for the sleep of [startRound].  In every state
    a node reaches, each prevote and each precommit it has counted was received and
    verified with the key that was registered for the peer it is counted for, who is not
    the proposer, and names the height and round the node is at; it names the
    block the node is at or no block, and no vote of the second kind is counted in
    a run in which no vote is handled during the sleep.  A locked value is the
    current block of the current round with more than a threshold of prevotes
    counted; no vote is counted in the propose step; and the last step has more
    than a threshold of precommits. *)
Theorem counted_votes_current lax c0 c :
  started c0 -> reach false c0 c -> (lax = false -> calm get_world put_world false c0 c) ->
  let s := c_propsalState c in
  let Ver := authentic get_world put_world false c0 c in
  let F := threshold get_world put_world false c0 c in
  (forall p m, gm_get p (s_PreVotes s) = Some m ->
     vote_of lax Ver (s_Proposer (c_state c)) VoteTypePreVote s p m) /\
  (forall p m, gm_get p (s_PreCommits s) = Some m ->
     vote_of lax Ver (s_Proposer (c_state c)) VoteTypePreCommit s p m) /\
  (s_lockedValue s <> cid_Undef ->
     s_lockedValue s = s_Block s /\ s_lockedRound s = s_Round s /\ enough lax F s (s_PreVotes s)) /\
  (s_Step s = propose -> gm_len (s_PreVotes s) = 0 /\ gm_len (s_PreCommits s) = 0) /\
  (s_Step s = block -> enough lax F s (s_PreCommits s)).
Proof.
  intros Hst Hreach Hcalm. pose proof (run_Inv _ _ _ _ Hst Hreach Hcalm) as [_ [Hpv Hpc Hp Hl Hb]].
  simpl. split_and!; [done|done| | |done].
  - intros Hne. by destruct Hl.
  - intros Hs. destruct (Hp Hs) as (?&?&_). done.
Qed.

(** ** Two quorums *)

Lemma quorum_value n : (Z.of_nat n < 2 ^ 63)%Z -> quorum n = (Z.of_nat n / 3 * 2 + 1)%Z.
Proof.
  intros Hn. unfold quorum. apply u64_small. pose proof (Z.div_mod (Z.of_nat n) 3 ltac:(lia)).
  pose proof (Z.mod_pos_bound (Z.of_nat n) 3 ltac:(lia)). lia.
Qed.

(** Two sets of more than [f1] and more than [f2] peers out of [N] overlap. *)
Lemma quorum_overlap (N A B : gset PeerID) f1 f2 :
  A ⊆ N -> B ⊆ N -> (f1 < Z.of_nat (size A))%Z -> (f2 < Z.of_nat (size B))%Z ->
  (f1 + f2 + 2 <= Z.of_nat (size N) + Z.of_nat (size (A ∩ B)))%Z.
Proof.
  intros HA HB Ha Hb.
  assert (size (A ∪ B) <= size N) as Hu by (apply subseteq_size; set_solver).
  pose proof (size_union_alt A B) as Hua.
  assert (size B = size (A ∩ B) + size (B ∖ A)) as Hsb.
  { rewrite <- size_union by set_solver. f_equal. apply set_eq. intros x.
    destruct (decide (x ∈ A)); set_solver. }
  lia.
Qed.

Lemma quorum_third n e :
  (Z.of_nat n < 2 ^ 63)%Z -> (quorum n + quorum n + 2 <= Z.of_nat n + Z.of_nat e)%Z -> n / 3 + 2 <= e.
Proof.
  intros Hn. rewrite quorum_value by done. intros He.
  assert (Z.of_nat (n / 3) = Z.of_nat n / 3)%Z as Hd by (by rewrite Nat2Z.inj_div).
  pose proof (Z.div_mod (Z.of_nat n) 3 ltac:(lia)).
  pose proof (Z.mod_pos_bound (Z.of_nat n) 3 ltac:(lia)). lia.
Qed.

(** C3. Conflicting commits expose the voters: if two nodes, in whose runs no vote
    is handled while [startRound] sleeps, count the votes of the same [n] peers
    only, and both reach the last step at the same height and round with different
    blocks, then there is a set of peers of each of whom the one node has received
    and verified a precommit for the one block and the other node a precommit for
    the other block, with the key registered for the peer.  With thresholds [f1]
    and [f2] of the two nodes it has at least [f1 + f2 + 2 - n] peers, and so at
    least [n / 3 + 2] when both have the threshold that [startRound] computes for
    [n] peers, which a node has only once it was the proposer.  So as long as fewer
    peers equivocate, no two such nodes commit different blocks in a round. *)
Theorem conflict_exposes c1 c1' c2 c2' (N : gset PeerID) :
  started c1 -> calm get_world put_world false c1 c1' ->
  started c2 -> calm get_world put_world false c2 c2' ->
  let s1 := c_propsalState c1' in let s2 := c_propsalState c2' in
  voters (s_PreCommits s1) ⊆ N -> voters (s_PreCommits s2) ⊆ N ->
  s_Step s1 = block -> s_Step s2 = block ->
  s_Height s1 = s_Height s2 -> s_Round s1 = s_Round s2 -> s_Block s1 <> s_Block s2 ->
  exists E : gset PeerID, E ⊆ N /\
    (forall p, p ∈ E ->
      votes_for false (authentic get_world put_world false c1 c1') VoteTypePreCommit
        (s_Height s1) (s_Round s1) (s_Block s1) p /\
      votes_for false (authentic get_world put_world false c2 c2') VoteTypePreCommit
        (s_Height s1) (s_Round s1) (s_Block s2) p) /\
    (s_f s1 + s_f s2 + 2 <= Z.of_nat (size N) + Z.of_nat (size E))%Z /\
    ((Z.of_nat (size N) < 2 ^ 63)%Z -> s_f s1 = quorum (size N) -> s_f s2 = quorum (size N) ->
     size N / 3 + 2 <= size E).
Proof.
  intros Hst1 Hr1 Hst2 Hr2 s1 s2 HV1 HV2 Hb1 Hb2 Hh Hr Hne.
  pose proof (calm_Inv _ _ _ _ _ (started_fresh _ Hst1) Hr1) as [_ Hi1].
  pose proof (calm_Inv _ _ _ _ _ (started_fresh _ Hst2) Hr2) as [_ Hi2].
  destruct (counted_quorum _ _ _ _ _ _ _ (ri_precommits _ _ _ _ _ Hi1) (ri_block _ _ _ _ _ Hi1 Hb1))
    as (f1&_&Ef1&Hq1&Hv1).
  destruct (counted_quorum _ _ _ _ _ _ _ (ri_precommits _ _ _ _ _ Hi2) (ri_block _ _ _ _ _ Hi2 Hb2))
    as (f2&_&Ef2&Hq2&Hv2).
  fold s1 in Hq1, Hv1. fold s2 in Hq2, Hv2.
  rewrite (Ef1 eq_refl : f1 = s_f s1) in Hq1. rewrite (Ef2 eq_refl : f2 = s_f s2) in Hq2.
  pose proof (quorum_overlap N _ _ _ _ HV1 HV2 Hq1 Hq2) as Ho.
  exists (voters (s_PreCommits s1) ∩ voters (s_PreCommits s2)). split_and!; [set_solver| |exact Ho|].
  - intros p [Hp1 Hp2]%elem_of_intersection. rewrite Hh, Hr at 2. split; [by apply Hv1|by apply Hv2].
  - intros HN Hf1 Hf2. apply quorum_third; [done|]. by rewrite <- Hf1 at 1; rewrite <- Hf2.
Qed.
End Props.
End ConsensusProps.
