(* ===== verification/ConsensusVotes.v ===== *)
(** * When a node votes

    A node sends a prevote or a precommit only by using up the [Once] of its
    kind, which only the opening of a round resets; and a node that is never
    proposer never learns how many votes a quorum takes. *)

From S2P Require Import Prelude Externals Cryptography W3cDid Tx Chain Validator MemPool.
From S2P Require Import ConsensusState Consensus ConsensusFacts ConsensusProps.

Module ConsensusVotes.
Import Cryptography Tx Chain Validator MemPool ConsensusState Consensus ConsensusFacts ConsensusProps.

Section Votes.
Context `{L : Lib} {W H VS : Type} `{!Store W H} `{!MsgCodec} `{!PubSub} `{!RangeOrder}.
Context (get_world : VS -> W) (put_world : W -> VS -> VS).

Notation Consensus := (Consensus H VS).
Notation M := (GoM Consensus).
Notation handle := (handle get_world put_world).
Implicit Types c : Consensus.

(** ** The votes a node has sent *)

Definition is_vote (kind : Z) (p : Published) : bool :=
  match msg_Consensus (pub_msg p) with
  | Some cm => match cm_Vote cm with Some v => bool_decide (vote_Type v = kind) | None => false end
  | None => false
  end.

Definition sent (kind : Z) c : nat := length (List.filter (is_vote kind) (c_outbox c)).

(** The two kinds of votes, with the [Once] that guards each *)
Inductive guard : Z -> (State -> bool) -> Prop :=
| guard_prevote : guard VoteTypePreVote s_pvOnce
| guard_precommit : guard VoteTypePreCommit s_pcOnce.

(** One event sends no such vote, or one, and then it uses up the [Once]. *)
Definition once_rule (kind : Z) (once : State -> bool) c c' : Prop :=
  sent kind c' = sent kind c \/
  (sent kind c' = S (sent kind c) /\ once (c_propsalState c) = false /\ once (c_propsalState c') = true).

Definition vcore (kind : Z) (once : State -> bool) c := (sent kind c, once (c_propsalState c)).

Definition sends (kind : Z) (msg : Sendable) : bool :=
  match msg with SendVote v => bool_decide (vote_Type v = kind) | _ => false end.

Lemma sent_app kind c p :
  length (List.filter (is_vote kind) (c_outbox c ++ [p])) =
  sent kind c + if is_vote kind p then 1 else 0.
Proof. unfold sent. rewrite List.filter_app, length_app. simpl. by destruct (is_vote kind p). Qed.

(** Sending a message adds at most that message. *)
Lemma sendMsg_sent kind once msg c :
  c_propsalState (sendMsg msg c).2 = c_propsalState c /\
  (sent kind (sendMsg msg c).2 = sent kind c \/
   sends kind msg = true /\ sent kind (sendMsg msg c).2 = S (sent kind c)) /\
  vcore kind once (sendMsg msg c).2 = (sent kind (sendMsg msg c).2, once (c_propsalState c)).
Proof.
  assert (c_propsalState (sendMsg msg c).2 = c_propsalState c) as Hps.
  { pose proof (keeps_sendMsg msg (core c) c eq_refl) as Hk. by injection Hk. }
  split; [done|]. split; [|unfold vcore; by rewrite Hps].
  unfold sendMsg, PublishContext. go_unfold. destruct (c_signingKey c) as [key|]; [|by left].
  destruct (signed_bytes _) as [d|]; [|by left]. destruct (wrap _ _) as [sig|]; [|by left].
  destruct (negb _); [by left|]. destruct (msg_Marshal _) as [b|]; [|by left].
  destruct (pubsub_Publish _ _ _); [by left|]. simpl.
  unfold sent at 1 3. simpl. rewrite !sent_app. unfold is_vote, sends. simpl.
  destruct msg; simpl; try (left; lia). case_bool_decide; [right; split; [done|lia]|left; lia].
Qed.

Lemma frame_sendMsg kind once msg k :
  sends kind msg = false -> preserves (fun c => vcore kind once c = k) (sendMsg msg).
Proof.
  intros Hs c <-. destruct (sendMsg_sent kind once msg c) as (Hps&[Hc|[? _]]&_); [|congruence].
  unfold vcore. by rewrite Hps, Hc.
Qed.

Lemma frame_store kind once {A} (m : H -> GoM W A) k :
  preserves (fun c => vcore kind once c = k) (store get_world put_world m).
Proof. unfold store. apply preserves_bind; [apply preserves_gets|]. intros s.
  apply preserves_bind; [apply preserves_some|]. intros h. apply preserves_zoom. by intros c <-. Qed.

#[local] Create HintDb vframe discriminated.
#[local] Hint Resolve frame_store : vframe.
#[local] Hint Extern 1 (preserves _ (sendMsg _)) => (apply frame_sendMsg; reflexivity) : vframe.

Ltac vote_step := preserves_walk ltac:(solve [auto 1 with vframe]).

Lemma frame_rule {A} kind once (m : M A) c :
  (forall k, preserves (fun c => vcore kind once c = k) m) ->
  wlp m (fun _ c' => once_rule kind once c c') c.
Proof.
  intros Hm. specialize (Hm (vcore kind once c) c eq_refl). unfold wlp.
  destruct (m c) as [[a|] c']; [|done]. left. by injection Hm.
Qed.

(** What happens before and after the guarded send does not send or reset. *)
Lemma rule_seq {A B} kind once (m : M A) (k : A -> M B) c :
  (forall x, preserves (fun c => vcore kind once c = x) m) ->
  (forall a c1, wlp (k a) (fun _ c' => once_rule kind once c1 c') c1) ->
  wlp (m ≫= k) (fun _ c' => once_rule kind once c c') c.
Proof.
  intros Hm Hk. rewrite wlp_bind. specialize (Hm (vcore kind once c) c eq_refl). unfold wlp at 1.
  destruct (m c) as [[a|] c1]; [|done]. eapply wlp_mono; [apply Hk|]. intros ? c'.
  unfold once_rule. injection Hm as E1 E2. by rewrite E1, E2.
Qed.

Lemma rule_seq_r {A B} kind once (m : M A) (k : A -> M B) c :
  wlp m (fun _ c' => once_rule kind once c c') c ->
  (forall a x, preserves (fun c => vcore kind once c = x) (k a)) ->
  wlp (m ≫= k) (fun _ c' => once_rule kind once c c') c.
Proof.
  intros Hm Hk. rewrite wlp_bind. eapply wlp_mono; [exact Hm|]. intros a c1 Hr.
  specialize (Hk a (vcore kind once c1) c1 eq_refl). unfold wlp.
  destruct (k a c1) as [[b|] c']; [|done]. unfold once_rule. injection Hk as E1 E2.
  by rewrite E1, E2.
Qed.

(** At most one vote is sent. *)
Definition bump (kind : Z) c c' : Prop :=
  sent kind c' = sent kind c \/ sent kind c' = S (sent kind c).

Lemma once_bump kind once set f c :
  (forall s, once (set true s) = true) ->
  wlp f (fun _ c' => bump kind c c') c ->
  wlp (once_Do once set f) (fun _ c' => once_rule kind once c c') c.
Proof.
  intros Hset Hf. unfold once_Do, get_ps, ps. rewrite wlp_bind. apply wlp_gets.
  destruct (once (c_propsalState c)) eqn:Ho; [apply wlp_ret; by left|].
  apply wlp_defer. eapply wlp_mono; [exact Hf|]. intros ? c' [Hb|Hb]; [left; exact Hb|right].
  split_and!; [exact Hb|done|]. simpl. apply Hset.
Qed.

(** The vote comes between two parts that send nothing. *)
Lemma bump_seq {A B} kind (m : M A) t v (k : option error -> M B) c0 c :
  sent kind c0 = sent kind c ->
  (forall x, preserves (fun c => sent kind c = x) m) ->
  (forall e x, preserves (fun c => sent kind c = x) (k e)) ->
  wlp (m ≫= fun _ => sendVote t v ≫= k) (fun _ c' => bump kind c0 c') c.
Proof.
  intros Hc0 Hm Hk. rewrite wlp_bind. specialize (Hm (sent kind c) c eq_refl). unfold wlp at 1.
  destruct (m c) as [[a|] c1]; [|done]. rewrite wlp_bind. unfold sendVote at 1. wlp_run.
  unfold wlp at 1.
  match goal with |- context [sendMsg ?msg c1] =>
    destruct (sendMsg_sent kind s_pvOnce msg c1) as (_&Hs&_); destruct (sendMsg msg c1) as [[e|] c2] end;
    [|done].
  specialize (Hk e (sent kind c2) c2 eq_refl). unfold wlp. destruct (k e c2) as [[b|] c3]; [|done].
  simpl in *. unfold bump. destruct Hs as [Hs|[_ Hs]]; [left|right]; congruence.
Qed.

Lemma castPrevote_bump kind bc id c :
  wlp (castPrevote bc id) (fun _ c' => bump kind c c') c.
Proof.
  unfold castPrevote, ps. rewrite wlp_bind. apply wlp_modify.
  case_bool_decide; (apply bump_seq; [done|vote_step..]).
Qed.

Lemma castPrecommit_bump kind c : wlp castPrecommit (fun _ c' => bump kind c c') c.
Proof.
  unfold castPrecommit, ps, get_ps.
  do 4 (rewrite wlp_bind; apply wlp_modify). rewrite wlp_bind. apply wlp_gets.
  match goal with |- wlp ?m ?Q ?c1 => change (wlp (mret tt ≫= fun _ => m) Q c1) end.
  apply bump_seq; [done|vote_step..].
Qed.

(** Resetting the [Once] without sending. *)
Lemma reset_rule {A} kind once (m : M A) c :
  (forall k, preserves (fun c => vcore kind (fun _ => true) c = k) m) ->
  wlp m (fun _ c' => once_rule kind once c c') c.
Proof.
  intros Hm. specialize (Hm (vcore kind (fun _ => true) c) c eq_refl). unfold wlp.
  destruct (m c) as [[a|] c']; [|done]. left. by injection Hm.
Qed.

Lemma vframe_take_txs kind once n k : preserves (fun c => vcore kind once c = k) (take_txs n).
Proof. induction n; simpl; unfold pool; vote_step. Qed.

Lemma vframe_put_txs kind once txs k :
  preserves (fun c => vcore kind once c = k) (put_txs get_world put_world txs).
Proof. induction txs; simpl; vote_step. Qed.

#[local] Hint Resolve vframe_take_txs vframe_put_txs : vframe.

Lemma vframe_wake kind k :
  preserves (fun c => vcore kind (fun _ => true) c = k) (startRound_wake get_world put_world).
Proof.
  unfold startRound_wake, sendNewRound, sendProposal, makeBlock, pool, ps, get_ps. vote_step.
Qed.

Lemma vframe_open kind inc k :
  preserves (fun c => vcore kind (fun _ => true) c = k) (startRound_open inc).
Proof. unfold startRound_open, ps, get_ps. vote_step. Qed.

Lemma vframe_authenticate kind once msg k :
  preserves (fun c => vcore kind once c = k) (authenticate get_world put_world msg).
Proof. unfold authenticate. vote_step. Qed.

#[local] Hint Resolve vframe_wake vframe_open vframe_authenticate : vframe.

Lemma onProposal_rule kind once msg from c :
  guard kind once -> wlp (onProposal get_world put_world msg from) (fun _ c' => once_rule kind once c c') c.
Proof.
  intros Hg. unfold onProposal, get_st, get_ps.
  apply rule_seq; [vote_step|]. intros pr c1. apply rule_seq; [vote_step|]. intros st c2.
  case_match; [by apply wlp_ret; left|]. case_match; [by apply wlp_ret; left|].
  apply rule_seq; [vote_step|]. intros m c3.
  apply rule_seq; [unfold validate, validator; vote_step|]. intros bc c4.
  destruct Hg.
  - apply once_bump; [done|apply castPrevote_bump].
  - apply frame_rule. intros k. unfold once_Do, castPrevote, sendVote, get_ps, ps. vote_step.
Qed.

Lemma onTimeoutProposal_rule kind once c :
  guard kind once -> wlp onTimeoutProposal (fun _ c' => once_rule kind once c c') c.
Proof.
  intros Hg. unfold onTimeoutProposal, ps. apply rule_seq; [vote_step|]. intros x c1.
  case_match; [by apply wlp_ret; left|]. apply rule_seq; [destruct Hg; vote_step|]. intros ? c2.
  destruct Hg.
  - apply once_bump; [done|].
    match goal with |- wlp ?m ?Q ?c0 => change (wlp (mret tt ≫= fun _ => m) Q c0) end.
    apply bump_seq; [done|vote_step..].
  - apply frame_rule. intros k. unfold once_Do, sendVote, get_ps, ps. vote_step.
Qed.

Lemma onTimeoutPrevote_rule kind once c :
  guard kind once -> wlp onTimeoutPrevote (fun _ c' => once_rule kind once c c') c.
Proof.
  intros Hg. unfold onTimeoutPrevote, ps. apply rule_seq; [vote_step|]. intros x c1.
  case_match; [by apply wlp_ret; left|]. apply rule_seq; [destruct Hg; vote_step|]. intros ? c2.
  destruct Hg.
  - apply frame_rule. intros k. unfold once_Do, sendVote, get_ps, ps. vote_step.
  - apply once_bump; [done|].
    match goal with |- wlp ?m ?Q ?c0 => change (wlp (mret tt ≫= fun _ => m) Q c0) end.
    apply bump_seq; [done|vote_step..].
Qed.

Lemma onPreVote_rule kind once msg c :
  guard kind once -> wlp (onPreVote msg) (fun _ c' => once_rule kind once c c') c.
Proof.
  intros Hg. unfold onPreVote, map_put, get_ps, ps. apply rule_seq; [vote_step|]. intros p c1.
  case_match; [by apply wlp_ret; left|]. apply rule_seq; [vote_step|]. intros ? c2.
  apply rule_seq; [destruct Hg; vote_step|]. intros ? c3. apply rule_seq; [vote_step|]. intros p' c4.
  case_match; [|by apply wlp_ret; left]. destruct Hg.
  - apply frame_rule. intros k. unfold once_Do, castPrecommit, sendVote, get_ps, ps. vote_step.
  - apply once_bump; [done|apply castPrecommit_bump].
Qed.

Lemma onPreCommit_frame kind once msg k :
  guard kind once -> preserves (fun c => vcore kind once c = k) (onPreCommit msg).
Proof.
  intros Hg. unfold onPreCommit, once_Do, enterBlock, map_put, get_ps, ps. destruct Hg; vote_step.
Qed.

Lemma sendEvidence_frame kind once v k :
  guard kind once -> preserves (fun c => vcore kind once c = k) (sendEvidence v).
Proof. intros Hg. unfold sendEvidence, map_put, get_ps, ps. destruct Hg; vote_step. Qed.

Lemma onVote_rule kind once msg from c :
  guard kind once -> wlp (onVote msg from) (fun _ c' => once_rule kind once c c') c.
Proof.
  intros Hg. unfold onVote, get_st, get_ps. apply rule_seq; [vote_step|]. intros cm c1.
  apply rule_seq; [vote_step|]. intros pr c2. case_match; [by apply wlp_ret; left|].
  apply rule_seq; [vote_step|]. intros v c3. apply rule_seq; [vote_step|]. intros p c4.
  case_match; [by apply wlp_ret; left|]. apply rule_seq_r.
  - case_match; [by apply onPreVote_rule|]. case_match; [|by apply wlp_ret; left].
    apply frame_rule. intros k. by apply onPreCommit_frame.
  - intros ? x. apply preserves_bind; [vote_step|]. intros []; [|vote_step].
    apply preserves_bind; [by apply sendEvidence_frame|]. intros; vote_step.
Qed.

Lemma onBlock_frame kind once msg from k :
  preserves (fun c => vcore kind once c = k) (onBlock get_world put_world msg from).
Proof. unfold onBlock, commit, get_st, get_ps. vote_step. Qed.

Lemma onMsg_rule kind once msg c :
  guard kind once -> wlp (onMsg get_world put_world msg) (fun _ c' => once_rule kind once c c') c.
Proof.
  intros Hg. unfold onMsg. apply rule_seq; [vote_step|]. intros [] c1; [|by apply wlp_ret; left].
  simpl. case_match; [|case_match; [|by apply wlp_ret; left]].
  - unfold onConsensusMsg. apply rule_seq; [vote_step|]. intros cm c2. repeat case_match.
    + apply reset_rule. intros k. unfold onNewRound, get_st, ps. vote_step.
    + by apply onProposal_rule.
    + by apply onVote_rule.
    + apply frame_rule. intros k. apply onBlock_frame.
    + apply frame_rule. intros k. unfold onEvidence, map_put, get_st, get_ps, ps. destruct Hg; vote_step.
    + by apply wlp_ret; left.
  - apply frame_rule. intros k. unfold onTx, pool. vote_step.
Qed.

Lemma vframe_round (atomic : bool) kind inc k :
  preserves (fun c => vcore kind (fun _ => true) c = k)
    ((if atomic then run_round get_world put_world else go_startRound) inc).
Proof. destruct atomic; unfold run_round, startRound, go_startRound; vote_step. Qed.

Lemma handle_rule atomic kind once e c :
  guard kind once -> wlp (handle atomic e) (fun _ c' => once_rule kind once c c') c.
Proof.
  intros Hg.
  destruct e; cbn [Consensus.handle].
  - apply reset_rule. intros k. unfold watchProposer, proposer, ps.
    preserves_walk ltac:(solve [apply vframe_round | auto 1 with vframe]).
  - by apply onMsg_rule.
  - apply frame_rule. intros k. unfold fire. apply preserves_modify. intros c0 <-.
    destruct t; simpl; case_match; reflexivity.
  - unfold on_timeout, onTimeoutPrecommit. apply rule_seq; [vote_step|]. intros c0 c1.
    destruct (get_timer t c0); [by apply wlp_ret; left..|].
    apply rule_seq; [destruct t; vote_step|]. intros ? c2. destruct t.
    + by apply onTimeoutProposal_rule.
    + by apply onTimeoutPrevote_rule.
    + apply reset_rule. intros k. apply vframe_round.
    + by apply wlp_ret; left.
  - apply reset_rule. intros k. unfold wake. vote_step.
  - apply rule_seq; [vote_step|]. intros c0 c1. case_match; [by apply wlp_ret; left|].
    apply rule_seq; [vote_step|]. intros ? c2. unfold blockFunc. apply frame_rule. intros k.
    unfold sendBlock, collect_key, get_ps. preserves_walk ltac:(solve [apply onBlock_frame | auto 1 with vframe]).
  - apply frame_rule. intros k. vote_step.
Qed.

(** A run in which no step resets the [Once]: no round is opened. *)
Inductive same_round (atomic : bool) (once : State -> bool) : Consensus -> Consensus -> Prop :=
| same_refl c : same_round atomic once c c
| same_step c1 e c2 c3 :
    step get_world put_world atomic c1 e c2 ->
    (once (c_propsalState c1) = true -> once (c_propsalState c2) = true) ->
    same_round atomic once c2 c3 -> same_round atomic once c1 c3.

(** C5. A node votes once per round: while no round is opened, it sends at most
    one prevote and at most one precommit, whatever messages and timeouts it
    handles in whatever order, and none of a kind whose [Once] is already used;
    also when [startRound] is interleaved with other handlers. *)
Theorem one_vote_per_round atomic kind once c c' :
  guard kind once -> same_round atomic once c c' ->
  sent kind c <= sent kind c' <= sent kind c + (if once (c_propsalState c) then 0 else 1).
Proof.
  intros Hg. induction 1 as [c|c1 e c2 c3 [Hst] Hkeep _ IH]; [case_match; lia|].
  pose proof (handle_rule atomic kind once e c1 Hg) as Hr. unfold wlp in Hr. rewrite Hst in Hr.
  destruct Hr as [Hr|(Hr&Ho1&Ho2)].
  - destruct (once (c_propsalState c1)); [rewrite Hkeep in IH by done; lia|].
    destruct (once (c_propsalState c2)); lia.
  - rewrite Ho1. rewrite Ho2 in IH. lia.
Qed.

(** ** The threshold of a node that never proposes *)

(** A run in which the node is never the proposer. *)
Inductive follows (atomic : bool) : Consensus -> Consensus -> Prop :=
| follows_refl c : follows atomic c c
| follows_step c1 c2 e c3 :
    follows atomic c1 c2 -> step get_world put_world atomic c2 e c3 ->
    s_AmProposer (c_propsalState c3) = false -> follows atomic c1 c3.

Definition fam c := (s_f (c_propsalState c), s_AmProposer (c_propsalState c), c_sleeping c).

Lemma fam_store {A} (m : H -> GoM W A) k :
  preserves (fun c => fam c = k) (store get_world put_world m).
Proof. unfold store. preserves_walk fail. Qed.

Lemma fam_sendMsg msg k : preserves (fun c => fam c = k) (sendMsg msg).
Proof. unfold sendMsg, PublishContext. preserves_walk fail. Qed.

#[local] Create HintDb fam discriminated.
#[local] Hint Resolve fam_store fam_sendMsg : fam.
Ltac fam_step := preserves_walk ltac:(solve [auto 1 with fam]).

(** Either the threshold is kept and nobody falls asleep, or the node is proposer
    afterwards. *)
Definition f_rule c c' : Prop :=
  (s_f (c_propsalState c') = s_f (c_propsalState c) /\ c_sleeping c' = c_sleeping c) \/
  s_AmProposer (c_propsalState c') = true.

Lemma fam_rule {A} (m : M A) c :
  (forall k, preserves (fun c => fam c = k) m) -> wlp m (fun _ c' => f_rule c c') c.
Proof.
  intros Hm. specialize (Hm (fam c) c eq_refl). unfold wlp.
  destruct (m c) as [[a|] c']; [|done]. left. by injection Hm.
Qed.

Notation am m := (preserves (fun c => s_AmProposer (c_propsalState c) = true) m).

Lemma am_wake : am (startRound_wake get_world put_world).
Proof.
  assert (forall A (m : H -> GoM W A), am (store get_world put_world m)) as Hs
    by (intros; unfold store; preserves_walk fail).
  assert (forall msg, am (sendMsg msg)) as Hm
    by (intros; unfold sendMsg, PublishContext; preserves_walk fail).
  assert (forall n, am (take_txs n)) as Ht by (induction n; simpl; unfold pool; preserves_walk ltac:(exact IHn)).
  assert (forall l, am (put_txs get_world put_world l)) as Hp
    by (induction l; simpl; preserves_walk ltac:(solve [apply Hs | exact IHl])).
  unfold startRound_wake, sendNewRound, sendProposal, makeBlock, pool, ps, get_ps.
  preserves_walk ltac:(solve [apply Hs | apply Hm | apply Ht | apply Hp]).
Qed.

Lemma round_f (atomic : bool) inc c :
  wlp ((if atomic then run_round get_world put_world else go_startRound) inc) (fun _ c' => f_rule c c') c.
Proof.
  assert (wlp (startRound_open inc) (fun b c1 => (s_f (c_propsalState c1) = s_f (c_propsalState c) /\
    c_sleeping c1 = c_sleeping c) /\ (b = true -> s_AmProposer (c_propsalState c1) = true)) c) as Hopen.
  { unfold startRound_open, ps, get_ps. wlp_run. destruct inc; wlp_run; simpl; case_match;
      repeat (case_match; wlp_run); wlp_run; done. }
  destruct atomic; unfold run_round, startRound, go_startRound; rewrite !wlp_bind;
    (eapply wlp_mono; [exact Hopen|]); intros b c1 [Hf Ham].
  - destruct b; [|apply wlp_ret, wlp_ret; by left].
    eapply wlp_mono; [apply (preserves_wlp _ _ c1 am_wake); auto|].
    intros ? c2 Ham2. apply wlp_ret. by right.
  - destruct b; wlp_run; [by right; apply Ham|by left].
Qed.

Lemma fam_onBlock msg from k : preserves (fun c => fam c = k) (onBlock get_world put_world msg from).
Proof. unfold onBlock, commit, get_st, get_ps. fam_step. Qed.

Lemma fam_onMsg msg k : preserves (fun c => fam c = k) (onMsg get_world put_world msg).
Proof.
  unfold onMsg, authenticate, onConsensusMsg, onNewRound, onProposal, validate, validator, castPrevote,
    onVote, onPreVote, onPreCommit, castPrecommit, enterBlock, sendEvidence, onEvidence, onTx, once_Do,
    sendVote, map_put, pool, get_st, get_ps, ps.
  preserves_walk ltac:(solve [apply fam_onBlock | auto 1 with fam]).
Qed.

Lemma handle_f atomic e c : c_sleeping c = 0 -> wlp (handle atomic e) (fun _ c' => f_rule c c') c.
Proof.
  intros Hs. destruct e; cbn [Consensus.handle]; cbv zeta.
  - wlp_run. destruct (c_beacon c); [|by apply wlp_ret; left]. unfold watchProposer. rewrite wlp_bind.
    eapply wlp_mono; [apply keeps_wlp with (P := fun c1 => core c1 = core c); [|done]|].
    { intros k. unfold proposer, store. preserves_walk fail. }
    intros [id|] c1 Hc1; [|apply wlp_ret; left; by injection Hc1 as _ -> _ ->].
    unfold ps. wlp_run. eapply wlp_mono; [apply round_f|]. intros ? c2. unfold f_rule. simpl.
    by injection Hc1 as _ -> _ ->.
  - apply fam_rule, fam_onMsg.
  - apply fam_rule. intros k. unfold fire. apply preserves_modify. intros c0 <-.
    destruct t; simpl; case_match; reflexivity.
  - unfold on_timeout, onTimeoutPrecommit. rewrite wlp_bind. apply wlp_get.
    destruct (get_timer t c); [by apply wlp_ret; left..|].
    destruct t; simpl; rewrite wlp_bind; apply wlp_modify.
    + apply (fam_rule onTimeoutProposal (set_timerPropose TStopped c)). intros k.
      unfold onTimeoutProposal, once_Do, sendVote, get_ps, ps. fam_step.
    + apply (fam_rule onTimeoutPrevote (set_timerPrevote TStopped c)). intros k.
      unfold onTimeoutPrevote, once_Do, sendVote, get_ps, ps. fam_step.
    + apply (round_f atomic true (set_timerPrecommit TStopped c)).
    + by apply wlp_ret; left.
  - unfold wake. rewrite wlp_bind. apply wlp_get. rewrite Hs. by apply wlp_ret; left.
  - apply fam_rule. intros k. unfold blockFunc, sendBlock, collect_key, get_ps.
    preserves_walk ltac:(solve [apply fam_onBlock | auto 1 with fam]).
  - apply fam_rule. intros k. fam_step.
Qed.

Lemma follows_f atomic c0 c :
  started c0 -> follows atomic c0 c -> s_f (c_propsalState c) = 0%Z /\ c_sleeping c = 0.
Proof.
  intros Hst. induction 1 as [c|c1 c2 e c3 Hf IH Hstep Ham]; [by destruct Hst as [? ->]|].
  destruct (IH Hst) as [Hf0 Hs], Hstep as [Hh]. pose proof (handle_f atomic e c2 Hs) as Hr. unfold wlp in Hr.
  rewrite Hh in Hr. destruct Hr as [[-> ->]|Hr]; [done|congruence].
Qed.

(** C40. A node that has never been proposer takes any single vote for a quorum:
    the threshold is computed only in the proposer's part of [startRound], so it
    is still 0, and the first current prevote makes the node lock the block and
    move to the precommit step; whether or not [startRound] is cut at its sleep. *)
Theorem follower_locks_on_one atomic c0 c msg cm v m :
  started c0 -> follows atomic c0 c ->
  msg_Consensus msg = Some cm -> cm_Vote cm = Some v -> vote_Type v = VoteTypePreVote ->
  peer_String (msg_From msg) <> s_Proposer (c_state c) ->
  vote_current v (c_propsalState c) = true -> s_AmProposer (c_propsalState c) = false ->
  s_Step (c_propsalState c) = prevote -> s_pcOnce (c_propsalState c) = false ->
  s_PreVotes (c_propsalState c) = Some m ->
  exists c', onVote msg (peer_String (msg_From msg)) c = (Ret tt, c') /\
    s_Step (c_propsalState c') = precommit /\
    s_lockedValue (c_propsalState c') = s_Block (c_propsalState c) /\
    s_lockedRound (c_propsalState c') = s_Round (c_propsalState c).
Proof.
  intros Hst Hf Hcm Hv Hk Hfrom Hcur Ham Hstep Hpc Hm. destruct (follows_f _ _ _ Hst Hf) as [Hf0 _].
  enough (wp (onVote msg (peer_String (msg_From msg))) (fun _ c' =>
    s_Step (c_propsalState c') = precommit /\
    s_lockedValue (c_propsalState c') = s_Block (c_propsalState c) /\
    s_lockedRound (c_propsalState c') = s_Round (c_propsalState c)) c) as Hwp.
  { apply wp_ret_inv in Hwp as ([]&c'&?&?). by exists c'. }
  unfold onVote, get_st, get_ps. rewrite Hcm. wp_run. apply (wp_some _ cm); [done|]. wp_run.
  rewrite bool_decide_false by done. wp_run. apply (wp_some _ v); [done|].
  wp_run. rewrite Hcur. simpl. rewrite Hk. simpl. wp_run.
  unfold onPreVote, map_put, get_ps, ps. wp_run. rewrite Hstep, Ham. simpl. wp_run.
  eapply wp_some; [by rewrite Hm|]. wp_run. simpl. rewrite bool_decide_true.
  2: { rewrite Hf0. unfold gm_len. simpl.
       assert (size (<[msg_From msg := msg]> m) <> 0) by (apply map_size_ne_0_lookup_2 with (msg_From msg);
         rewrite lookup_insert_eq; by eexists). lia. }
  unfold once_Do, get_ps, ps. wp_run. simpl. rewrite Hpc.
  apply wp_defer. unfold castPrecommit, ps, get_ps. wp_run.
  eapply wp_mono; [apply sendVote_wp with (P := fun c1 => s_AmProposer (c_propsalState c1) = false /\
    s_Step (c_propsalState c1) = precommit /\ s_lockedValue (c_propsalState c1) = s_Block (c_propsalState c) /\
    s_lockedRound (c_propsalState c1) = s_Round (c_propsalState c))|].
  { intros c1 Hc1. injection Hc1 as _ _ _ ->. by split_and!. }
  intros [err|] c1 (Hp1&Hp2&Hp3&Hp4); wp_run; simpl; rewrite Hp1; by wp_run.
Qed.
End Votes.
End ConsensusVotes.
