(* ===== verification/ConsensusNet.v ===== *)
(** * Whom a node listens to, and who proposes

    Messages that the registered key of their sender does not verify change nothing; a message
    sent by a node whose key is registered passes the checks of every other
    node; all nodes with the same register pick the same proposer; and the
    proposer counts the other nodes right. *)

From S2P Require Import Prelude Externals Cryptography W3cDid Tx Chain ChainFacts MemStore.
From S2P Require Import MemStoreFacts Validator MemPool ConsensusState Consensus.
From S2P Require Import ConsensusFacts ConsensusProps.

Module ConsensusNet.
Import Cryptography Tx Chain ChainFacts MemStore MemStoreFacts Validator MemPool ConsensusState Consensus
  ConsensusFacts ConsensusProps.

(** ** Counting the other nodes *)

Section DropSelf.
Implicit Types (self : string) (arr : list string).

(** Where the node is not in what is left to scan, nothing is removed. *)
Lemma drop_self_absent self i todo len arr :
  i + todo <= length arr -> (forall k, i <= k < i + todo -> arr !! k <> Some self) ->
  drop_self self i todo len arr = Some len.
Proof.
  revert i. induction todo as [|todo IH]; intros i Hlen Habs; simpl; [done|].
  destruct (lookup_lt_is_Some_2 arr i) as [ni Hni]; [lia|]. rewrite Hni. simpl.
  rewrite bool_decide_false.
  - apply IH; [lia|]. intros k Hk. apply Habs. lia.
  - intros ->. apply (Habs i); [lia|done].
Qed.

Lemma drop_self_found self j i todo arr :
  NoDup arr -> arr !! j = Some self -> i <= j -> i + todo = length arr ->
  drop_self self i todo (length arr) arr = Some (length arr - 1).
Proof.
  intros Hnd Hj. revert i. induction todo as [|todo IH]; intros i Hij Hlen.
  { apply lookup_lt_Some in Hj. lia. }
  simpl. pose proof (lookup_lt_Some _ _ _ Hj) as Hjl.
  destruct (lookup_lt_is_Some_2 arr i) as [ni Hni]; [lia|]. rewrite Hni. simpl.
  case_bool_decide as Heq; subst.
  - assert (i = j) as -> by (by eapply NoDup_lookup).
    rewrite bool_decide_true by lia.
    destruct (lookup_lt_is_Some_2 arr (length arr - 1)) as [x Hx]; [lia|]. rewrite Hx. simpl.
    rewrite bool_decide_true by lia. apply drop_self_absent; [rewrite length_insert; lia|].
    intros k Hk. rewrite list_lookup_insert_ne by lia. intros Hks.
    assert (k = j) by (by eapply NoDup_lookup). lia.
  - apply IH; [|lia]. destruct (decide (i = j)) as [->|]; [congruence|lia].
Qed.

(** The loop of [startRound] that takes the node out of the list of nodes,
    which overwrites the slice it ranges over, never indexes out of range and
    leaves exactly the other nodes, for a list without duplicates. *)
Lemma drop_self_others self l :
  NoDup l ->
  drop_self self 0 (length l) (length l) l = Some (length (filter (fun n => n <> self) l)).
Proof.
  intros Hnd. destruct (decide (self ∈ l)) as [Hin|Hin].
  - apply list_elem_of_lookup in Hin as Hj. destruct Hj as [j Hj].
    rewrite (drop_self_found self j) by (done || lia). f_equal.
    apply elem_of_Permutation in Hin as [k Hk].
    assert (self ∉ k) as Hnk by (rewrite Hk in Hnd; by inversion Hnd).
    rewrite Hk. simpl. rewrite filter_cons_False by naive_solver.
    rewrite filter_all; [lia|]. naive_solver.
  - rewrite drop_self_absent; [|done|].
    + f_equal. rewrite filter_all; [done|]. naive_solver.
    + intros k Hk Hks. apply Hin. by eapply list_elem_of_lookup_2.
Qed.
End DropSelf.

(** ** Authentication *)

Section Net.
Context `{L : Lib} {W H VS : Type} `{!Store W H} `{!MsgCodec} `{!PubSub} `{!RangeOrder}.
Context (get_world : VS -> W) (put_world : W -> VS -> VS).

Notation Consensus := (Consensus H VS).
Notation M := (GoM Consensus).
Implicit Types c : Consensus.

(** Only the memory of the store differs. *)
Definition only_mem c c' : Prop := c' = set_mem (c_mem c') c.

Lemma store_only_mem {A} (m : H -> GoM W A) c :
  preserves (only_mem c) (store get_world put_world m).
Proof.
  unfold store. preserves_walk fail. apply preserves_zoom. unfold only_mem. intros c1 Hc1.
  by rewrite Hc1.
Qed.

(** C7. A message that does not verify is ignored: when it is of another chain, or
    its sender is not registered, or the signature does not verify with the key
    that is registered for the sender, whichever other key it verifies with,
    handling it leaves the node as it was, with its states, timers, pool and
    outbox, up to what reading the store does to the store; also when the handler
    panics, which it does for a registered key that is no curve point. *)
Theorem onMsg_unsigned msg c :
  ~ verified get_world put_world c msg -> only_mem c (onMsg get_world put_world msg c).2.
Proof.
  intros Hns. unfold onMsg, mbind, GoM_bind.
  pose proof (authenticate_verified get_world put_world msg c) as Ha.
  assert (preserves (only_mem c) (authenticate get_world put_world msg)) as Hp.
  { unfold authenticate. preserves_walk ltac:(solve [apply store_only_mem]). }
  assert (only_mem c c) as Hc by (unfold only_mem; by destruct c).
  specialize (Hp c Hc). unfold wlp in Ha.
  destruct (authenticate _ _ msg c) as [[[]|] c1]; [|done..].
  exfalso. apply Hns. by apply Ha.
Qed.

(** A message with a signature of the key that is registered for its sender
    passes the checks of a node of its chain. *)
Lemma authenticate_registered `{!BlsLaws} `{!MultibaseLaws} msg key mb node d (b : Consensus) :
  EncodeMultibase (PkBls12381 (bls_Point (bls_Public key))) = Ok mb ->
  msg_Chain msg = c_chain b -> signed_bytes msg = Ok d -> bls_Sign key d = Ok (msg_Signature msg) ->
  wp (store get_world put_world (fun s => Node_ s (peer_String (msg_From msg))))
     (fun r _ => r = Ok (Some node)) b ->
  node_Key node = bytes_of_string mb ->
  wp (authenticate get_world put_world msg) (fun ok _ => ok = true) b.
Proof.
  intros Hmb Hch Hd Hsig Hnode Hnk. unfold authenticate. wp_run. rewrite bool_decide_true by done.
  cbn [negb]. wp_run. eapply wp_mono; [exact Hnode|]. intros r b' ->.
  rewrite Hd, Hnk, string_of_bytes_of_string. unfold EncodeMultibase in Hmb.
  destruct (point_MarshalBinary _) as [pkb|] eqn:Hpk; [|done]. simpl in Hmb.
  rewrite (multibase_Decode_Encode _ _ _ Hmb). wp_run. eapply wp_some.
  { unfold NewBls12381PublicKey. by rewrite (point_Unmarshal_Marshal _ _ Hpk). }
  apply wp_mret. unfold bls_Verify. simpl. by rewrite (scheme_Verify_Sign _ _ _ Hsig).
Qed.

(** C6. What a node sends, the others accept: if [sendMsg] succeeds, one message
    is published, and any other node of the chain that has the sender's public
    key registered decodes it to the same payload from the same sender, and its
    checks pass. *)
Theorem send_receive `{!MsgCodecLaws} `{!BlsLaws} `{!MultibaseLaws}
    (payload : Sendable) (a a' : Consensus) key mb :
  c_signingKey a = Some key ->
  EncodeMultibase (PkBls12381 (bls_Point (bls_Public key))) = Ok mb ->
  sendMsg payload a = (Ret None, a') ->
  exists pub, c_outbox a' = c_outbox a ++ [pub] /\
  forall (b : Consensus) from node self,
    c_chain b = c_chain a -> peer_MarshalBinary (c_id b) = Ok self -> from <> self ->
    wp (store get_world put_world (fun s => Node_ s (peer_String (c_id a))))
       (fun r _ => r = Ok (Some node)) b ->
    node_Key node = bytes_of_string mb ->
    exists m, p2p_receive (c_id b)
        {| pm_From := from; pm_Data := pub_data pub; pm_Key := [] |} = Some m /\
      msg_From m = c_id a /\ msg_Consensus m = Some (wrapper payload) /\
      wp (authenticate get_world put_world m) (fun ok _ => ok = true) b.
Proof.
  intros Hkey Hmb Hsend. unfold sendMsg in Hsend. go_unfold. rewrite Hkey in Hsend.
  set (hl := {| msg_Type := MsgTypeConsensus; msg_From := c_id a |}) in *.
  destruct (signed_bytes hl) as [d|] eqn:Hd; [|done].
  destruct (wrap "signing vote data" (bls_Sign key d)) as [sig|] eqn:Hsig; [|done].
  assert (bls_Sign key d = Ok sig) as Hsig' by (by destruct (bls_Sign key d)).
  unfold PublishContext in Hsend. go_unfold. destruct (negb _); [done|].
  destruct (msg_Marshal (msg_set_Signature sig hl)) as [data|] eqn:Hdata; [|done].
  destruct (pubsub_Publish _ _ _); [done|]. injection Hsend as <-.
  eexists. split; [done|]. intros b from node self Hch Hself Hfrom Hnode Hnk.
  exists (msg_set_Signature sig hl). split_and!; [|done|done|].
  - unfold p2p_receive. rewrite Hself. rewrite bool_decide_false by done. simpl.
    by rewrite (msgpack_Msg_roundtrip (msg_set_Signature sig hl) data).
  - by eapply authenticate_registered.
Qed.
End Net.

(** ** The proposer *)

Section Proposer.
Context `{L : Lib} {VS : Type} `{!TxCodec} `{!ChainCodec}.
Context (get_world : VS -> gmap nat MemStore) (put_world : gmap nat MemStore -> VS -> VS).

Lemma range_keys (r : RangeOrder) (m : gmap string Cid) n :
  n ∈ (@map_range r _ _ _ _ m).*1 <-> is_Some (m !! n).
Proof.
  rewrite list_elem_of_fmap. split.
  - intros ([? c]&->&Hc%elem_of_map_range). by eexists.
  - intros [c Hc]. exists (n, c). by rewrite elem_of_map_range.
Qed.

Lemma mem_Nodes_same (r1 r2 : RangeOrder) (m1 m2 : MemStore) :
  (forall n, is_Some (nodes m1 !! n) <-> is_Some (nodes m2 !! n)) ->
  sort_strings (@map_range r1 _ _ _ _ (nodes m1)).*1 = sort_strings (@map_range r2 _ _ _ _ (nodes m2)).*1.
Proof.
  intros Hn. apply (StronglySorted_unique string_le); [apply sort_strings_sorted..|].
  rewrite !sort_strings_perm. apply NoDup_Permutation; [apply map_range_nodup_fst..|].
  intros n. by rewrite !range_keys.
Qed.

(** the list [Nodes] gives: the registered names in byte order, each once *)
Definition node_list (l : list string) (m : MemStore) : Prop :=
  StronglySorted string_le l /\ NoDup l /\ forall n, n ∈ l <-> is_Some (nodes m !! n).

Lemma range_node_list (r : RangeOrder) m : node_list (sort_strings (@map_range r _ _ _ _ (nodes m)).*1) m.
Proof.
  split_and!; [apply sort_strings_sorted|rewrite sort_strings_perm; apply map_range_nodup_fst|].
  intros n. by rewrite sort_strings_perm, range_keys.
Qed.

(** [b % uint64(len(nodes))] is an index of the list *)
Lemma proposer_index (l : list string) b :
  l <> [] -> is_Some (l !! Z.to_nat (u64 b mod Z.of_nat (length l))).
Proof.
  intros Hl. apply lookup_lt_is_Some. destruct l; [done|].
  pose proof (Z.mod_pos_bound (u64 b) (Z.of_nat (length (s :: l))) ltac:(simpl; lia)). lia.
Qed.

(** C8. All nodes agree on the proposer: for the same beacon value, two nodes
    whose registers hold the same nodes, at least one, pick the same one,
    whatever order the runtime iterates their maps in: the node at the position
    of the beacon value modulo the number of nodes in the sorted list. *)
Theorem proposer_agree (r1 r2 : RangeOrder) b (c1 c2 : Consensus nat VS) h1 h2 m1 m2 n0 :
  c_store c1 = Some h1 -> c_store c2 = Some h2 ->
  get_world (c_mem c1) !! h1 = Some m1 -> get_world (c_mem c2) !! h2 = Some m2 ->
  (forall n, is_Some (nodes m1 !! n) <-> is_Some (nodes m2 !! n)) -> is_Some (nodes m1 !! n0) ->
  exists l p, node_list l m1 /\ l !! Z.to_nat (u64 b mod Z.of_nat (length l)) = Some p /\
    (@proposer _ _ _ _ (@MemStore_Store L _ _ r1) get_world put_world b c1).1 = Ret (Some p) /\
    (@proposer _ _ _ _ (@MemStore_Store L _ _ r2) get_world put_world b c2).1 = Ret (Some p).
Proof.
  intros Hs1 Hs2 Hm1 Hm2 Hn Hn0. pose proof (range_node_list r1 m1) as Hl.
  eexists. assert (sort_strings (@map_range r1 _ _ _ _ (nodes m1)).*1 <> []) as Hne.
  { intros Hnil. rewrite Hnil in Hl. apply (proj2 (proj2 Hl)) in Hn0. set_solver. }
  destruct (proposer_index _ b Hne) as [p Hp]. exists p. split; [exact Hl|]. split; [exact Hp|].
  unfold proposer, store. go_unfold. unfold ggets. rewrite Hs1, Hs2.
  unfold gzoom. cbn [Nodes MemStore_Store]. rewrite (on_run h1 _ _ m1 Hm1), (on_run h2 _ _ m2 Hm2).
  simpl. rewrite <- (mem_Nodes_same r1 r2 m1 m2 Hn), bool_decide_false, Hp by done. done.
Qed.
End Proposer.
End ConsensusNet.
