(* ===== verification/ConsensusBlock.v ===== *)
(** * The block a proposer makes (pkg/did/consensus/blocks.go)

    [makeBlock] takes the oldest transactions out of the pool, at most 1000 of
    them, and stores a block over exactly these.  Proved for any store with the
    promises of [ContentStore]. *)

From S2P Require Import Prelude Externals Cryptography W3cDid Tx Chain ChainFacts Validator.
From S2P Require Import MemPool ConsensusState Consensus.

Module ConsensusBlock.
Import Cryptography Tx Chain ChainFacts Validator MemPool ConsensusState Consensus.

Section Block.
Context `{L : Lib} {W H VS : Type} `{!Store W H} `{!ContentStore W H}.
Context (get_world : VS -> W) (put_world : W -> VS -> VS).
Hypothesis get_put : forall w v, get_world (put_world w v) = w.

Notation Consensus := (Consensus H VS).
Implicit Types c : Consensus.

Lemma store_run {A} (m : H -> GoM W A) c h :
  c_store c = Some h ->
  store get_world put_world m c =
    ((m h (get_world (c_mem c))).1, set_mem (put_world (m h (get_world (c_mem c))).2 (c_mem c)) c).
Proof. intros Hh. unfold store, gzoom. go_unfold. unfold ggets. rewrite Hh. by destruct (m h _). Qed.

(** The transactions taken are the oldest ones, in order. *)
Lemma take_txs_run n c :
  is_heap (c_memPool c) -> n <= length (c_memPool c) ->
  exists ts l', take_txs n c = (Ret ts, set_memPool l' c) /\ is_heap l' /\
    c_memPool c ≡ₚ (Some <$> ts) ++ l' /\ length ts = n /\ StronglySorted ts_le ts /\
    (forall t u, t ∈ ts -> Some u ∈ l' -> ts_le t u).
Proof.
  revert c. induction n as [|n IH]; intros c Hh Hn; simpl.
  { exists [], (c_memPool c). split_and!; [by destruct c|done|done|done|constructor|set_solver]. }
  destruct (GetTx_run (c_memPool c) Hh) as (t&l1&Hget&Hh1&Hp1&Hmin).
  { intros Hnil. rewrite Hnil in Hn. simpl in Hn. lia. }
  destruct (IH (set_memPool l1 c)) as (ts&l2&Htake&Hh2&Hp2&Hlen&Hs&Hrest); [done| |].
  { simpl. rewrite Hp1 in Hn. simpl in Hn. lia. }
  exists (t :: ts), l2. simpl in Hp2. split_and!.
  - unfold pool, gzoom. go_unfold. by rewrite Hget, Htake.
  - done.
  - by rewrite Hp1, Hp2.
  - simpl. by rewrite Hlen.
  - constructor; [done|]. apply Forall_forall. intros u Hu%list_elem_of_In. apply Hmin.
    rewrite Hp1, Hp2. right. apply elem_of_app. left. by apply list_elem_of_fmap_2.
  - intros u v [->|Hu]%list_elem_of_In Hv.
    + apply Hmin. rewrite Hp1, Hp2. right. apply elem_of_app. by right.
    + apply Hrest; [by apply list_elem_of_In|done].
Qed.

(** The store takes every transaction and set. *)
Definition tx_total (h : H) : Prop :=
  forall t (w : W), store_wf w h -> tx_typed t = true -> exists id w', PutTx h t w = (Ret (Ok id), w').

Lemma put_txs_run h txs c :
  c_store c = Some h -> tx_total h -> store_wf (get_world (c_mem c)) h ->
  Forall (fun t => tx_typed t = true) txs ->
  exists cs v, put_txs get_world put_world txs c = (Ret (Ok cs), set_mem v c) /\
    store_wf (get_world v) h /\ store_ext (get_world (c_mem c)) (get_world v) h /\
    Forall2 (fun cid t => view_tx (get_world v) h cid = Ok t) cs txs.
Proof.
  intros Hh Htot Hwf Hty. revert c Hh Hwf. induction Hty as [|t txs Ht _ IH]; intros c Hh Hwf; simpl.
  { exists [], (c_mem c). split_and!; [by destruct c|done|apply store_ext_refl|constructor]. }
  destruct (PutTx_view h t _ Hwf Ht) as (r&w1&Hput&Hwf1&Hext1&Hview).
  destruct (Htot t _ Hwf Ht) as (cid&w2&Hput'). rewrite Hput in Hput'. injection Hput' as -> <-.
  specialize (Hview cid eq_refl). set (v1 := put_world w1 (c_mem c)).
  destruct (IH (set_mem v1 c)) as (cs&v&Hrun&Hwf2&Hext2&Hall); [done| |].
  { simpl. unfold v1. by rewrite get_put. }
  simpl in Hext2. unfold v1 in Hext2. rewrite get_put in Hext2.
  exists (cid :: cs), v. split_and!.
  - unfold gwrap, gtry. unfold mbind, GoM_bind. rewrite (store_run _ c h Hh), Hput. simpl.
    fold v1. by rewrite Hrun.
  - done.
  - by eapply store_ext_trans.
  - constructor; [|done]. rewrite (proj2 Hext2); [done|]. by rewrite Hview.
Qed.

(** The walk over a tree of stored transactions, by value *)
Lemma walk_values h w b cs txs root :
  length cs <= MaxBlockTxCount -> store_wf w h ->
  Forall2 (fun cid t => view_tx w h cid = Ok t) cs txs ->
  node_ok w h root (list_to_set cs) -> view_set w h (blk_TxRoot b) = Ok (ts_set_cid cid_Undef root) ->
  exists m, AllTx h b w = (Ret (Ok m), w) /\ forall t, (exists id, m !! id = Some t) <-> t ∈ txs.
Proof.
  intros Hlen Hwf Hcs (Hroot&Hrv&_) Hb. destruct (AllTx_view h b w Hwf) as (r&Hall&Hwalk).
  assert (holds (view_set w h) (blk_TxRoot b) (list_to_set cs)) as Hh.
  { inversion Hroot as [? t s Hs Hk Ht|? x y A B s Hs Hk Ht HA HB]; subst;
      rewrite Hrv in Hs; injection Hs as <-; [by eapply holds_leaf|by eapply holds_node]. }
  destruct (walks_to_holds (view_set w h) (view_tx w h) (list_to_set cs) (blk_TxRoot b) r)
    as (m&->&Hdom&Hm); [|..|done|done|].
  - pose proof (list_to_set_size cs). lia.
  - intros id [i Hi]%elem_of_list_to_set%list_elem_of_lookup.
    destruct (Forall2_lookup_l _ _ _ _ _ Hcs Hi) as (t&_&->). done.
  - exists m. split; [done|]. intros t. split.
    + intros [id Hid]. assert (id ∈ cs) as [i Hi]%list_elem_of_lookup.
      { apply (elem_of_list_to_set (C := gset Cid)). rewrite <- Hdom. apply elem_of_dom. by eexists. }
      destruct (Forall2_lookup_l _ _ _ _ _ Hcs Hi) as (t'&Ht'&Hv). rewrite (Hm id t Hid) in Hv.
      injection Hv as ->. by eapply list_elem_of_lookup_2.
    + intros [i Hi]%list_elem_of_lookup. destruct (Forall2_lookup_r _ _ _ _ _ Hcs Hi) as (id&Hid&Hv).
      exists id. assert (id ∈ dom m) as [t' Ht']%elem_of_dom.
      { rewrite Hdom. apply elem_of_list_to_set. by eapply list_elem_of_lookup_2. }
      rewrite Ht'. rewrite (Hm id t' Ht') in Hv. congruence.
Qed.

(** C11. A proposer with a non-empty pool makes a block on its tip, at the height
    of the round, of the oldest transactions of the pool and no others, at most
    1000 of them; they leave the pool, and [AllTx] on the block finds exactly
    them. *)
Theorem makeBlock_oldest h c nonce :
  c_store c = Some h -> store_wf (get_world (c_mem c)) h -> put_total h -> tx_total h ->
  is_heap (c_memPool c) -> c_memPool c <> [] ->
  Forall (fun o => from_option tx_typed false o = true) (c_memPool c) ->
  c_nonce c = Ok nonce -> (forall cs, is_ok (MakeBloom cs) = true) ->
  exists b c' ts, makeBlock get_world put_world c = (Ret (Ok (Some b)), c') /\
    blk_Parent b = s_Block (c_state c) /\ blk_Height b = s_Height (c_propsalState c) /\
    length ts = Nat.min (length (c_memPool c)) MaxBlockTxCount /\
    c_memPool c ≡ₚ (Some <$> ts) ++ c_memPool c' /\
    (forall t u, t ∈ ts -> Some u ∈ c_memPool c' -> ts_le t u) /\
    exists m, AllTx h b (get_world (c_mem c')) = (Ret (Ok m), get_world (c_mem c')) /\
      forall t, (exists id, m !! id = Some t) <-> t ∈ ts.
Proof.
  intros Hh Hwf Hput Htx Hheap Hne Hty Hnonce Hbloom.
  set (n := Nat.min (length (c_memPool c)) MaxBlockTxCount).
  assert (n <= MaxBlockTxCount /\ n <= length (c_memPool c) /\ n <> 0) as (Hn1&Hn2&Hn0).
  { unfold n, MaxBlockTxCount. destruct (c_memPool c); simpl; [done|lia]. }
  destruct (take_txs_run n c Hheap Hn2) as (ts&l'&Htake&_&Hperm&Hlen&_&Hmin).
  assert (Forall (fun t => tx_typed t = true) ts) as Hts.
  { rewrite Hperm, Forall_app, Forall_fmap in Hty. by destruct Hty as [Hty _]. }
  destruct (put_txs_run h ts (set_memPool l' c) Hh Htx Hwf Hts) as (cs&v1&Hcs&Hwf1&_&Hall).
  pose proof (Forall2_length Hall) as Hcl.
  destruct (MakeBloom cs) as [bl|] eqn:Hbl; [|by specialize (Hbloom cs); rewrite Hbl in Hbloom].
  assert (wp (NewTxSet h cs) (built h (get_world v1) (fun w' root => node_ok w' h root (list_to_set cs)))
    (get_world v1)) as Hset.
  { apply NewTxSet_wp; [|lia| |done]; [intros ->; simpl in Hcl; lia|].
    apply list.Forall_forall. intros id [i Hi]%list_elem_of_lookup.
    destruct (Forall2_lookup_l _ _ _ _ _ Hall Hi) as (t&_&Hv).
    eapply view_tx_defined; [exact Hwf1|]. by rewrite Hv. }
  apply wp_ret_inv in Hset as (r&w2&Hset&Hwf2&Hext2&Hroot&Hok). specialize (Hok Hput).
  destruct r as [root|]; [|done]. specialize (Hroot root eq_refl).
  destruct (PutSet_view h root w2 Hwf2) as (r&w3&Hps&Hwf3&Hext3&Hview).
  destruct (Hput root w2 Hwf2) as (id&w3'&Hps'). rewrite Hps in Hps'. injection Hps' as -> <-.
  destruct (Hview id eq_refl) as [_ Hview']. specialize (Hview' ltac:(apply Hroot)).
  eexists _, _, ts. split.
  { unfold makeBlock. go_unfold. unfold gget. rewrite Hnonce.
    unfold pool at 1, pool_Len, gzoom, ggets. simpl.
    replace (if decide (length (c_memPool c) < MaxBlockTxCount) then length (c_memPool c)
      else MaxBlockTxCount) with n by (unfold n; case_decide; lia).
    rewrite bool_decide_false by done.
    replace (set_memPool (c_memPool c) c) with c by (by destruct c). rewrite Htake, Hcs. simpl.
    rewrite Hbl. simpl. rewrite (store_run _ _ h) by done. simpl. rewrite Hset. simpl.
    rewrite (store_run _ _ h) by done. simpl. rewrite get_put, Hps. simpl. done. }
  split_and!; try done. simpl. rewrite get_put.
  apply walk_values with cs root; [simpl; lia|done| |by eapply node_ok_mono|done].
  eapply Forall2_impl; [|exact Hall]. intros cid t Hv. simpl in *.
  rewrite (proj2 Hext3), (proj2 Hext2); rewrite ?Hv; try done.
  rewrite (proj2 Hext2); by rewrite Hv.
Qed.
End Block.
End ConsensusBlock.
