(* ===== verification/ConsensusLive.v ===== *)
(** * Progress of a round

    A node that is not the proposer and has prevoted commits the block of the
    round when the votes of two quorums and the block message of the proposer
    reach it, whatever else its state holds. *)

From S2P Require Import Prelude Externals Cryptography W3cDid Tx Chain Validator MemPool.
From S2P Require Import ConsensusState Consensus ConsensusFacts ConsensusProps.

Module ConsensusLive.
Import Cryptography Tx Chain Validator MemPool ConsensusState Consensus ConsensusFacts ConsensusProps.

Section Live.
Context `{L : Lib} {W H VS : Type} `{!Store W H} `{!MsgCodec} `{!PubSub} `{!RangeOrder}.
Context (get_world : VS -> W) (put_world : W -> VS -> VS).

Notation Consensus := (Consensus H VS).
Notation M := (GoM Consensus).
Notation onMsg := (onMsg get_world put_world).
Implicit Types (c : Consensus) (m : Msg).

(** Messages, handled one after the other *)
Fixpoint deliver (l : list Msg) : M unit :=
  match l with [] => mret tt | m :: l => onMsg m;; deliver l end.

Lemma deliver_app l1 l2 Q c :
  wp (deliver l1) (fun _ => wp (deliver l2) Q) c -> wp (deliver (l1 ++ l2)) Q c.
Proof.
  revert c. induction l1 as [|m l1 IH]; intros c; simpl; [by rewrite wp_ret|].
  rewrite !wp_bind. intros Hw. eapply wp_mono; [exact Hw|]. intros ? c'. apply IH.
Qed.

(** ** What a round in progress leaves alone *)

Definition frame c :=
  (c_chain c, c_store c, c_mem c, c_state c,
   (let s := c_propsalState c in (s_Height s, s_Round s, s_Block s, s_f s, s_AmProposer s)),
   (c_id c, c_signingKey c, c_topics c, c_now c)).

(** The checks pass, and reading the store changes nothing. *)
Definition heard c m : Prop := authenticate get_world put_world m c = (Ret true, c).

Lemma store_frame {A} (f : H -> GoM W A) c c' :
  c_store c' = c_store c -> c_mem c' = c_mem c ->
  exists r w, store get_world put_world f c = (r, set_mem w c) /\
    store get_world put_world f c' = (r, set_mem w c').
Proof.
  intros Hs Hm. unfold store. go_unfold. unfold ggets, gzoom. rewrite Hs.
  destruct (c_store c) as [h|].
  - simpl. rewrite Hm. destruct (f h _) as [r w]. by eexists _, _.
  - eexists _, (c_mem c). split; [by destruct c|]. rewrite <- Hm. by destruct c'.
Qed.

Lemma set_mem_id w c : set_mem w c = c -> w = c_mem c.
Proof. intros He. by apply (f_equal c_mem) in He. Qed.

Lemma heard_frame m c c' : frame c' = frame c -> heard c m -> heard c' m.
Proof.
  unfold frame. intros [= Hch Hs Hm _ _ _ _ _ _ _ _ _ _]. unfold heard, authenticate.
  unfold mbind, GoM_bind, ggets. rewrite Hch. destruct (negb _); [done|].
  destruct (store_frame (fun s => Node_ s (peer_String (msg_From m))) c c' Hs Hm) as (r&w&->&->).
  assert (forall b : bool, (Ret b, set_mem w c) = (Ret true, c) -> (Ret b, set_mem w c') = (Ret true, c')) as Hk.
  { intros b Hb. injection Hb as -> Hw%set_mem_id. rewrite Hw, <- Hm. by destruct c'. }
  destruct r as [[[node|]|e]|]; [|by apply Hk..|done].
  destruct (signed_bytes m) as [sd|]; [|by apply Hk].
  destruct (multibase_Decode _) as [[? rawPk]|]; [|by apply Hk].
  destruct (ok_opt (NewBls12381PublicKey rawPk)) as [pk|]; [|done]. apply Hk.
Qed.

Lemma heard_reads m c r :
  store get_world put_world (fun s => Node_ s (peer_String (msg_From m))) c = (Ret r, c) ->
  (authenticate get_world put_world m c).1 = Ret true -> heard c m.
Proof.
  intros Hs. unfold heard, authenticate. unfold mbind, GoM_bind, ggets. destruct (negb _); [done|].
  rewrite Hs. destruct r as [[node|]|e]; [|done..]. destruct (signed_bytes m) as [sd|]; [|done].
  destruct (multibase_Decode _) as [[? rawPk]|]; [|done].
  destruct (ok_opt (NewBls12381PublicKey rawPk)) as [pk|]; [|done]. simpl. by intros [= ->].
Qed.

Lemma sendMsg_total payload c : exists r out, sendMsg payload c = (Ret r, set_outbox out c).
Proof.
  assert (forall r, exists r' out, (Ret (r : option error), c) = (Ret r', set_outbox out c)) as Hid.
  { intros r. exists r, (c_outbox c). by destruct c. }
  unfold sendMsg, PublishContext. go_unfold. unfold ggets.
  repeat first [apply Hid | by eexists _, _ | case_match].
Qed.

(** What a node has published once it has voted for its block *)
Definition vote_out (kind : Z) c : list Published :=
  c_outbox (sendVote kind (cid_String (s_Block (c_propsalState c))) c).2.

Lemma wp_sendVote t (Q : option error -> Consensus -> Prop) c :
  (forall r, Q r (set_outbox (vote_out t c) c)) ->
  wp (sendVote t (cid_String (s_Block (c_propsalState c)))) Q c.
Proof.
  intros HQ. unfold vote_out in HQ. unfold wp, sendVote, mbind, GoM_bind, gget in *.
  match goal with |- context [sendMsg ?p c] => destruct (sendMsg_total p c) as (r&out&Hs) end.
  rewrite Hs in *. exact (HQ r).
Qed.

Lemma vote_out_frame kind c c' :
  frame c' = frame c -> c_outbox c' = c_outbox c -> vote_out kind c' = vote_out kind c.
Proof.
  unfold frame. intros [= Hch _ _ _ Hh Hr Hb _ _ Hid Hk Ht Hn] Ho.
  unfold vote_out, sendVote, sendMsg, PublishContext. go_unfold. unfold ggets.
  cbv beta iota zeta. rewrite Hk. destruct (c_signingKey c) as [key|]; [|done].
  cbv beta iota zeta. rewrite Hch, Hh, Hr, Hb, Hid, Hn. destruct (signed_bytes _) as [d|]; [|done].
  destruct (wrap _ _) as [sig|]; [|done]. rewrite Ht. destruct (negb _); [done|].
  destruct (msg_Marshal _) as [data|]; [|done]. rewrite Ho. destruct (pubsub_Publish _ _ _); [done|]. simpl.
  by rewrite Ho.
Qed.

(** ** Votes *)

(** A vote for the block, the height and the round a node is at, not of the
    proposer *)
Definition counts (kind : Z) c m : Prop :=
  msg_Type m = MsgTypeConsensus /\ peer_String (msg_From m) <> s_Proposer (c_state c) /\
  exists cm v, msg_Consensus m = Some cm /\ cm_Type cm = ConsensusMsgTypeVote /\ cm_Vote cm = Some v /\
    vote_Type v = kind /\ vote_current v (c_propsalState c) = true.

Lemma counts_frame kind m c c' : frame c' = frame c -> counts kind c m -> counts kind c' m.
Proof.
  unfold frame, counts, vote_current. by intros [= _ _ _ -> -> -> -> _ _ _ _ _ _].
Qed.

(** The handler a counted vote comes to *)
Definition on_kind (kind : Z) m : M unit :=
  if bool_decide (kind = VoteTypePreVote) then onPreVote m
  else if bool_decide (kind = VoteTypePreCommit) then onPreCommit m else mret tt.

Lemma wp_onMsg_vote kind m c (Q : unit -> Consensus -> Prop) :
  heard c m -> counts kind c m ->
  wp (on_kind kind m)
    (fun _ c' => s_AmProposer (c_propsalState c') = false /\ Q tt c') c ->
  wp (onMsg m) Q c.
Proof.
  intros Hh (Hty&Hne&cm&v&Hcm&Hct&Hv&Hk&Hcur) Hw. unfold Consensus.onMsg. rewrite wp_bind.
  unfold wp at 1. rewrite Hh. simpl. rewrite bool_decide_true by done.
  unfold onConsensusMsg. rewrite wp_bind. eapply wp_some; [exact Hcm|]. rewrite Hct. simpl.
  unfold onVote, get_st, get_ps. rewrite wp_bind. eapply wp_some; [exact Hcm|]. wp_run.
  rewrite bool_decide_false by done. rewrite wp_bind. eapply wp_some; [exact Hv|]. wp_run.
  rewrite Hcur. simpl. rewrite wp_bind, Hk. eapply wp_mono; [exact Hw|].
  intros [] c' [Ham HQ]. wp_run. rewrite Ham. by apply wp_mret.
Qed.

(** [m] counts for [S], the peers heard so far: the votes are kept, or the
    threshold is passed. *)
Definition counted (f : Z) (votes : gomap PeerID Msg) (S : gset PeerID) : Prop :=
  exists mp, votes = Some mp /\ S ⊆ dom mp /\ (S = ∅ \/ (Z.of_nat (size mp) <= f)%Z).

Lemma counted_few f votes S : (0 <= f)%Z -> counted f votes S -> (Z.of_nat (size S) <= f)%Z.
Proof.
  intros Hf (mp&_&Hsub&[->|Hle]); [by rewrite size_empty|].
  apply subseteq_size in Hsub. rewrite size_dom in Hsub. lia.
Qed.

(** The lock a node has after the prevotes *)
Definition holds_lock c : Prop :=
  let s := c_propsalState c in s_lockedValue s = s_Block s /\ s_lockedRound s = s_Round s.

Definition polling (S : gset PeerID) c : Prop :=
  let s := c_propsalState c in
  s_Step s = prevote /\ s_pcOnce s = false /\ s_sbOnce s = false /\ is_Some (s_PreCommits s) /\
  counted (s_f s) (s_PreVotes s) S.

Definition committing (S : gset PeerID) c : Prop :=
  let s := c_propsalState c in
  s_Step s = precommit /\ s_sbOnce s = false /\ holds_lock c /\ counted (s_f s) (s_PreCommits s) S.

Definition at_block c : Prop := s_Step (c_propsalState c) = block /\ holds_lock c.

(** [map_put] on a map that was made *)
Lemma wp_map_put `{Countable K} {V} (get : State -> gomap K V) set k v mp c (Q : unit -> Consensus -> Prop) :
  get (c_propsalState c) = Some mp ->
  Q tt (set_propsalState (set (Some (<[k := v]> mp)) (c_propsalState c)) c) ->
  wp (map_put get set k v) Q c.
Proof.
  intros Hm HQ. unfold map_put, get_ps, ps. wp_run. rewrite Hm. eapply wp_some; [done|]. by wp_run.
Qed.

Lemma counted_insert f k m mp S :
  S ⊆ dom mp -> (Z.of_nat (size (<[k := m]> mp)) <= f)%Z ->
  counted f (Some (<[k := m]> mp)) ({[k]} ∪ S).
Proof. intros Hsub Hle. exists (<[k := m]> mp). split_and!; [done|set_solver|by right]. Qed.

Lemma castPrecommit_locks c :
  s_sbOnce (c_propsalState c) = false -> is_Some (s_PreCommits (c_propsalState c)) ->
  wp castPrecommit (fun _ c' =>
    frame c' = frame c /\ c_outbox c' = vote_out VoteTypePreCommit c /\
    committing ∅ (set_propsalState (set_pcOnce true (c_propsalState c')) c')) c.
Proof.
  intros Hsb [mp Hmp]. unfold castPrecommit, ps, get_ps. wp_run.
  set (c1 := set_propsalState _ _). change (s_Block (c_propsalState c)) with (s_Block (c_propsalState c1)).
  apply wp_sendVote. intros r. rewrite (vote_out_frame _ c c1) by done.
  assert (counted (s_f (c_propsalState c)) (s_PreCommits (c_propsalState c)) ∅) as Hc
    by (exists mp; split_and!; [done|set_solver|by left]).
  destruct r; wp_run; split_and!; done.
Qed.

Lemma onPreVote_counts m S c :
  s_AmProposer (c_propsalState c) = false -> polling S c ->
  wp (onPreVote m) (fun _ c' => frame c' = frame c /\
    (polling ({[msg_From m]} ∪ S) c' /\ c_outbox c' = c_outbox c \/
     committing ∅ c' /\ c_outbox c' = vote_out VoteTypePreCommit c)) c.
Proof.
  intros Ham (Hst&Hpc&Hsb&Hpcm&mp&Hmp&Hsub&Hle). unfold onPreVote, get_ps. wp_run.
  rewrite bool_decide_true, Ham by done. simpl. wp_run. eapply wp_map_put; [exact Hmp|]. wp_run. simpl.
  case_bool_decide as Hen.
  - unfold once_Do, get_ps. wp_run. simpl. rewrite Hpc. apply wp_defer.
    eapply wp_mono; [by apply castPrecommit_locks|]. intros ? c' (Hf&Ho&Hc). split; [exact Hf|]. right. split; [exact Hc|].
    simpl. rewrite Ho. by apply vote_out_frame.
  - apply wp_mret. split; [done|]. left. split; [|done]. split_and!; simpl; try done.
    apply counted_insert; [done|lia].
Qed.

(** A prevote that comes late is dropped. *)
Lemma onPreVote_late m c : s_Step (c_propsalState c) <> prevote -> onPreVote m c = (Ret tt, c).
Proof. intros Hst. unfold onPreVote, get_ps. go_unfold. unfold ggets. by rewrite bool_decide_false. Qed.

Lemma onPreCommit_late m c : s_Step (c_propsalState c) <> precommit -> onPreCommit m c = (Ret tt, c).
Proof. intros Hst. unfold onPreCommit, get_ps. go_unfold. unfold ggets. by rewrite bool_decide_false. Qed.

Lemma onPreCommit_counts m S c :
  s_AmProposer (c_propsalState c) = false -> committing S c ->
  wp (onPreCommit m) (fun _ c' => frame c' = frame c /\
    (committing ({[msg_From m]} ∪ S) c' \/ at_block c')) c.
Proof.
  intros Ham (Hst&Hsb&Hl&mp&Hmp&Hsub&Hle). unfold onPreCommit, get_ps. wp_run.
  rewrite bool_decide_true, Ham by done. simpl. wp_run. eapply wp_map_put; [exact Hmp|]. wp_run. simpl.
  case_bool_decide as Hen.
  - unfold once_Do, get_ps. wp_run. simpl. rewrite Hsb. apply wp_defer.
    unfold enterBlock, ps, get_ps. wp_run. simpl. rewrite Ham. wp_run. split; [done|]. by right.
  - apply wp_mret. split; [done|]. left. split_and!; simpl; try done. apply counted_insert; [done|lia].
Qed.

(** Votes are collected one by one: [A S] while those of [S] are counted, [D]
    once there are enough. *)
Lemma collect (ok : Msg -> Prop) (A : gset PeerID -> Consensus -> Prop) (D : Consensus -> Prop) l S c :
  (forall m S c, ok m -> A S c -> wp (onMsg m) (fun _ c' => A ({[msg_From m]} ∪ S) c' \/ D c') c) ->
  (forall m c, ok m -> D c -> wp (onMsg m) (fun _ c' => D c') c) ->
  Forall ok l -> A S c \/ D c ->
  wp (deliver l) (fun _ c' => A (list_to_set (msg_From <$> l) ∪ S) c' \/ D c') c.
Proof.
  intros HA HD. revert S c. induction l as [|m l IH]; intros S c Hl Hc; simpl.
  { apply wp_mret. by rewrite (left_id_L ∅ (∪)). }
  apply Forall_cons_1 in Hl as [Hm Hl]. rewrite wp_bind.
  assert (wp (onMsg m) (fun _ c' => A ({[msg_From m]} ∪ S) c' \/ D c') c) as Hw.
  { destruct Hc as [Hc|Hc]; [by apply HA|]. eapply wp_mono; [by apply HD|]. by right. }
  eapply wp_mono; [exact Hw|]. intros ? c' Hc'. eapply wp_mono; [by apply (IH ({[msg_From m]} ∪ S))|].
  intros ? c''. by rewrite (assoc_L (∪)), (comm_L (∪) (list_to_set _)).
Qed.

(** The messages of a phase: heard, and counted at a node with this frame *)
Definition vote_at (kind : Z) c0 m : Prop := heard c0 m /\ counts kind c0 m.

Lemma frame_follower c0 c :
  s_AmProposer (c_propsalState c0) = false -> frame c = frame c0 -> s_AmProposer (c_propsalState c) = false.
Proof. unfold frame. by intros Ha [= _ _ _ _ _ _ _ _ -> _ _ _ _]. Qed.

Lemma wp_vote_at kind c0 m c (Q : Consensus -> Prop) :
  s_AmProposer (c_propsalState c0) = false -> frame c = frame c0 -> vote_at kind c0 m ->
  wp (on_kind kind m)
    (fun _ c' => frame c' = frame c /\ Q c') c ->
  wp (onMsg m) (fun _ c' => frame c' = frame c0 /\ Q c') c.
Proof.
  intros Ham Hf [Hh Hc] Hw. apply (wp_onMsg_vote kind); [by apply (heard_frame m c0)|by apply (counts_frame kind m c0)|].
  eapply wp_mono; [exact Hw|]. intros ? c' [Hf' HQ]. rewrite Hf in Hf'.
  split_and!; [by apply (frame_follower c0)|done|done].
Qed.

(** A phase of votes of one kind ends when more than [f] peers are heard. *)
Lemma phase kind (A : gset PeerID -> Consensus -> Prop) (D : Consensus -> Prop) c0 l c :
  (forall m S c, s_AmProposer (c_propsalState c) = false -> A S c ->
    wp (on_kind kind m) (fun _ c' => frame c' = frame c /\ (A ({[msg_From m]} ∪ S) c' \/ D c')) c) ->
  (forall m c, D c -> on_kind kind m c = (Ret tt, c)) ->
  (forall S c, A S c -> exists votes, counted (s_f (c_propsalState c)) votes S) ->
  s_AmProposer (c_propsalState c0) = false -> (0 <= s_f (c_propsalState c0))%Z ->
  Forall (vote_at kind c0) l ->
  (s_f (c_propsalState c0) < Z.of_nat (size (list_to_set (C := gset PeerID) (msg_From <$> l))))%Z ->
  frame c = frame c0 -> A ∅ c ->
  wp (deliver l) (fun _ c' => frame c' = frame c0 /\ D c') c.
Proof.
  intros Hcount Hlate Hfew Ham Hpos Hl Hq Hf Hp.
  eapply wp_mono; [eapply (collect (vote_at kind c0)
    (fun S c => frame c = frame c0 /\ A S c) (fun c => frame c = frame c0 /\ D c) l ∅)|].
  - intros m S c1 Hm [Hf1 Hp1]. eapply wp_mono; [eapply wp_vote_at; [done..|];
      apply Hcount; [by apply (frame_follower c0)|exact Hp1]|].
    intros ? c' [Hf' [?|?]]; [left|right]; done.
  - intros m c1 Hm [Hf1 Hp1]. eapply wp_vote_at; [done..|]. unfold wp. by rewrite Hlate.
  - done.
  - by left.
  - intros ? c' [[Hf' [votes Hc]%Hfew]|?]; [exfalso|done].
    assert (s_f (c_propsalState c') = s_f (c_propsalState c0)) as He by (unfold frame in Hf'; congruence).
    rewrite He in Hc. apply counted_few in Hc; [|done]. rewrite (right_id_L ∅ (∪)) in Hc. lia.
Qed.

(** ** The block message *)

(** The proposer's message for the block of the round *)
Definition announces c m : Prop :=
  msg_Type m = MsgTypeConsensus /\ peer_String (msg_From m) = s_Proposer (c_state c) /\
  exists cm b, msg_Consensus m = Some cm /\ cm_Type cm = ConsensusMsgTypeBlock /\ cm_Block cm = Some b /\
    cb_CID b = cid_String (s_Block (c_propsalState c)) /\ cb_Round b = s_Round (c_propsalState c).

(** The store takes the block: its calls return, with or without an error. *)
Definition settle (h : H) (b : Cid) : GoM W unit :=
  _ ← MarkBlock h b BlockStateAccepted; _ ← UpdateLastApplied h b; mret tt.

Lemma wp_commit h c :
  (forall w s, get_world (put_world w s) = w) ->
  c_store c = Some h -> s_lockedValue (c_propsalState c) <> cid_Undef ->
  wp (settle h (s_lockedValue (c_propsalState c))) (fun _ _ => True) (get_world (c_mem c)) ->
  wp (commit get_world put_world) (fun _ c' => tip c' =
    (s_lockedValue (c_propsalState c), s_Height (c_propsalState c), s_Block (c_state c))) c.
Proof.
  intros Hgp Hs Hne Hw. unfold settle in Hw. rewrite wp_bind in Hw. unfold commit, get_ps. wp_run.
  rewrite bool_decide_false by done. unfold store. wp_run. rewrite Hs. eapply wp_some; [done|].
  unfold wp, gzoom in *. destruct (MarkBlock _ _ _ _) as [[e|] w1]; [|done].
  unfold mret, GoM_ret, gmodify, ggets, gsome, mbind, GoM_bind in *. simpl. rewrite Hs. simpl.
  rewrite Hgp. destruct (UpdateLastApplied _ _ _) as [[e'|] w2]; done.
Qed.

Lemma wp_announced h c0 m c :
  (forall w s, get_world (put_world w s) = w) ->
  c_store c0 = Some h -> s_Block (c_propsalState c0) <> cid_Undef ->
  wp (settle h (s_Block (c_propsalState c0))) (fun _ _ => True) (get_world (c_mem c0)) ->
  heard c0 m -> announces c0 m -> frame c = frame c0 -> at_block c ->
  wp (deliver [m]) (fun _ c' => tip c' =
    (s_Block (c_propsalState c0), s_Height (c_propsalState c0), s_Block (c_state c0))) c.
Proof.
  intros Hgp Hs Hne Hw Hh (Hty&Hfrom&cm&b&Hcm&Hct&Hb&Hcid&Hr) Hf [Hst [Hlv Hlr]].
  pose proof (heard_frame m c0 c Hf Hh) as Hh'. unfold frame in Hf.
  injection Hf as Ech Es Em Est Eh Er Eb Ef Ea _ _ _ _. simpl. rewrite wp_bind. unfold Consensus.onMsg.
  rewrite wp_bind. unfold wp at 1. rewrite Hh'. simpl. rewrite bool_decide_true by done.
  unfold onConsensusMsg. rewrite wp_bind. eapply wp_some; [exact Hcm|]. rewrite Hct. simpl.
  unfold onBlock, get_st, get_ps. wp_run. rewrite Est, Hst, bool_decide_true by done. simpl. rewrite wp_bind.
  eapply wp_some; [exact Hb|]. rewrite Hcid, Hr, Hlv, Hlr, Eb, Er, !bool_decide_true by done. simpl.
  assert (s_lockedValue (c_propsalState c) = s_Block (c_propsalState c0)) as El by congruence.
  eapply wp_mono; [apply (wp_commit h); rewrite ?El, ?Em; try done; congruence|].
  intros ? c' Ht. apply wp_mret. rewrite Ht. congruence.
Qed.

(** A node that has prevoted in this round and is not its proposer *)
Definition prevoted c : Prop :=
  let s := c_propsalState c in
  s_AmProposer s = false /\ (0 <= s_f s)%Z /\ s_Step s = prevote /\ s_pcOnce s = false /\
  s_sbOnce s = false /\ is_Some (s_PreVotes s) /\ is_Some (s_PreCommits s).

(** More than [f] senders *)
Definition enough_of (f : Z) (l : list Msg) : Prop :=
  (f < Z.of_nat (size (list_to_set (C := gset PeerID) (msg_From <$> l))))%Z.

(** With the prevotes of a quorum the node locks, and publishes its precommit. *)
Lemma prevote_phase c l :
  prevoted c -> Forall (vote_at VoteTypePreVote c) l -> enough_of (s_f (c_propsalState c)) l ->
  wp (deliver l) (fun _ c' => frame c' = frame c /\ committing ∅ c' /\
    c_outbox c' = vote_out VoteTypePreCommit c) c.
Proof.
  intros (Ham&Hpos&Hst&Hpc&Hsb&[mp Hmp]&Hcm) Hl Hq.
  eapply wp_mono; [apply (phase VoteTypePreVote
    (fun S c1 => frame c1 = frame c /\ polling S c1 /\ c_outbox c1 = c_outbox c)
    (fun c1 => committing ∅ c1 /\ c_outbox c1 = vote_out VoteTypePreCommit c) c); try done|done].
  - intros m S c1 Ham1 (Hf1&Hp1&Ho1). eapply wp_mono; [by apply onPreVote_counts|].
    intros ? c' [Hf [[Hp Ho]|[Hc Ho]]]; (split; [done|]); [left|right].
    + split_and!; [congruence|done|congruence].
    + split; [done|]. rewrite Ho. by apply vote_out_frame.
  - intros m c1 [[Hs1 _] _]. apply onPreVote_late. by rewrite Hs1.
  - intros S c1 (_&(_&_&_&_&Hc)&_). by eexists.
  - split_and!; [done| |done]. split_and!; [done..|]. exists mp. split_and!; [done|set_solver|by left].
Qed.

Lemma precommit_phase c0 c l :
  s_AmProposer (c_propsalState c0) = false -> (0 <= s_f (c_propsalState c0))%Z ->
  frame c = frame c0 -> committing ∅ c -> Forall (vote_at VoteTypePreCommit c0) l ->
  enough_of (s_f (c_propsalState c0)) l ->
  wp (deliver l) (fun _ c' => frame c' = frame c0 /\ at_block c') c.
Proof.
  intros Ham Hpos Hf Hc Hl Hq. apply (phase VoteTypePreCommit committing at_block c0); try done.
  - apply onPreCommit_counts.
  - intros m c2 [Hs2 _]. apply onPreCommit_late. by rewrite Hs2.
  - intros S c2 (_&_&_&Hc2). by eexists.
Qed.

(** Two quorums and the proposer's message commit the block: a node that has
    prevoted, whose store takes the block, and that hears prevotes of more than
    [f] peers other than the proposer for its block, height and round, then
    precommits of more than [f] such peers, then the block message of the
    proposer, handles all of them and ends with the block as its tip, at the
    height of the round, whatever votes it has counted before, whatever order
    the votes of a phase come in and however many come too late. *)
Lemma quorum_commits h c pvs pcs bm :
  (forall w s, get_world (put_world w s) = w) ->
  c_store c = Some h -> s_Block (c_propsalState c) <> cid_Undef ->
  wp (settle h (s_Block (c_propsalState c))) (fun _ _ => True) (get_world (c_mem c)) ->
  prevoted c ->
  Forall (vote_at VoteTypePreVote c) pvs -> Forall (vote_at VoteTypePreCommit c) pcs ->
  enough_of (s_f (c_propsalState c)) pvs ->
  enough_of (s_f (c_propsalState c)) pcs ->
  heard c bm -> announces c bm ->
  exists c', deliver (pvs ++ pcs ++ [bm]) c = (Ret tt, c') /\
    tip c' = (s_Block (c_propsalState c), s_Height (c_propsalState c), s_Block (c_state c)).
Proof.
  intros Hgp Hs Hne Hw Hp Hpvs Hpcs Hq1 Hq2 Hh Ha. pose proof Hp as (Ham&Hpos&_).
  assert (wp (deliver (pvs ++ pcs ++ [bm])) (fun _ c' => tip c' =
    (s_Block (c_propsalState c), s_Height (c_propsalState c), s_Block (c_state c))) c) as Hwp.
  { apply deliver_app. eapply wp_mono; [by apply prevote_phase|]. intros ? c1 (Hf1&Hc1&_).
    apply deliver_app. eapply wp_mono; [by apply (precommit_phase c)|]. intros ? c2 [Hf2 Hc2].
    by apply (wp_announced h c). }
  unfold wp in Hwp. destruct (deliver _ c) as [[[]|] c'] eqn:Hd; [|done]. by exists c'.
Qed.
End Live.
End ConsensusLive.
