(* ===== verification/ConsensusRound.v ===== *)
(** * A round of a network

    The followers of a proposer, each with its own state, exchange what they
    publish: after the proposal of a block that all of them find valid, every
    one of them prevotes, precommits and, when the proposer's block message comes,
    commits the block. *)

From S2P Require Import Prelude Externals Cryptography W3cDid Tx Chain Validator MemPool.
From S2P Require Import ConsensusState Consensus ConsensusFacts ConsensusProps ConsensusNet ConsensusLive.

Module ConsensusRound.
Import Cryptography Tx Chain Validator MemPool ConsensusState Consensus ConsensusFacts ConsensusProps.
Import ConsensusNet ConsensusLive.

(** The libraries a message goes through do not fail. *)
Class Reliable `{L : Lib} `{!MsgCodec} `{!PubSub} : Prop := {
  rel_Marshal : forall m, exists d, msg_Marshal m = Ok d;
  rel_id : forall p, exists d, peer_MarshalBinary p = Ok d;
  rel_sign : forall k d, exists sig, bls_Sign k d = Ok sig;
  rel_publish : forall out ch d, pubsub_Publish out ch d = None
}.

Section Round.
Context `{L : Lib} {W H VS : Type} `{!Store W H} `{!MsgCodec} `{!PubSub} `{!RangeOrder}.
Context (get_world : VS -> W) (put_world : W -> VS -> VS).

Notation Consensus := (Consensus H VS).
Notation M := (GoM Consensus).
Notation onMsg := (onMsg get_world put_world).
Notation deliver := (deliver get_world put_world).
Implicit Types (c : Consensus) (m : Msg).

(** ** What a node says *)

(** A vote of node [c], signed with its key *)
Definition vote_by (kind h r : Z) (b : Cid) c m : Prop :=
  msg_Type m = MsgTypeConsensus /\ msg_Chain m = c_chain c /\ msg_From m = c_id c /\
  (exists cm v, msg_Consensus m = Some cm /\ cm_Type cm = ConsensusMsgTypeVote /\ cm_Vote cm = Some v /\
    vote_Type v = kind /\ vote_Height v = h /\ vote_Round v = r /\ vote_BlockID v = cid_String b) /\
  exists key d, c_signingKey c = Some key /\ signed_bytes m = Ok d /\ bls_Sign key d = Ok (msg_Signature m).

(** A member of the network: it has a key and has joined the topic. *)
Definition member c : Prop := is_Some (c_signingKey c) /\ pubsubMsgsChanName ∈ c_topics c.

Lemma sendVote_says `{!Reliable} kind c :
  member c -> exists pub,
    sendVote kind (cid_String (s_Block (c_propsalState c))) c = (Ret None, set_outbox (c_outbox c ++ [pub]) c) /\
    vote_by kind (s_Height (c_propsalState c)) (s_Round (c_propsalState c)) (s_Block (c_propsalState c)) c
      (pub_msg pub).
Proof.
  intros [[key Hk] Ht]. unfold sendVote, sendMsg, PublishContext. go_unfold. unfold ggets.
  cbv beta iota zeta. rewrite Hk.
  set (hl := {| msg_Type := MsgTypeConsensus; msg_From := c_id c |}).
  destruct (rel_id (msg_From hl)) as [i Hi]. destruct (rel_Marshal (msg_set_Signature [] hl)) as [sd Hsd].
  assert (signed_bytes hl = Ok (i ++ sd)) as Hd by (unfold signed_bytes, signatureData; by rewrite Hi, Hsd).
  rewrite Hd. destruct (rel_sign key (i ++ sd)) as [sig Hsig]. rewrite Hsig. cbn [wrap].
  rewrite bool_decide_true by done. cbn [negb].
  destruct (rel_Marshal (msg_set_Signature sig hl)) as [data Hdata]. rewrite Hdata, rel_publish.
  eexists. split; [done|]. split_and!; [done..| |].
  - by eexists _, _.
  - exists key, (i ++ sd). by split_and!.
Qed.

Lemma vote_out_says `{!Reliable} kind c :
  member c -> exists pub, vote_out kind c = c_outbox c ++ [pub] /\
    vote_by kind (s_Height (c_propsalState c)) (s_Round (c_propsalState c)) (s_Block (c_propsalState c)) c
      (pub_msg pub).
Proof.
  intros (pub&Hs&Hv)%(sendVote_says kind). exists pub. unfold vote_out. by rewrite Hs.
Qed.

(** ** Whom a node knows *)

(** The key of [p] is registered in the store of [c], and reading it changes
    nothing. *)
Definition knows c (p : Consensus) : Prop :=
  exists key mb node, c_signingKey p = Some key /\
    EncodeMultibase (PkBls12381 (bls_Point (bls_Public key))) = Ok mb /\
    store get_world put_world (fun s => Node_ s (peer_String (c_id p))) c = (Ret (Ok (Some node)), c) /\
    node_Key node = bytes_of_string mb.

Lemma knows_hears `{!BlsLaws} `{!MultibaseLaws} kind h r b c p m :
  knows c p -> c_chain p = c_chain c -> vote_by kind h r b p m -> heard get_world put_world c m.
Proof.
  intros (key&mb&node&Hk&Hmb&Hn&Hnk) Hch (_&Hc&Hf&_&key'&d&Hk'&Hd&Hsig). simplify_eq.
  rewrite <- Hf in Hn. eapply heard_reads; [exact Hn|].
  assert (wp (authenticate get_world put_world m) (fun ok _ => ok = true) c) as Ha.
  { apply (authenticate_registered get_world put_world m key mb node d c); [done|congruence|done|done| |done].
    unfold wp. by rewrite Hn. }
  unfold wp in Ha. destruct (authenticate _ _ m c) as [[ok|] c1]; [by rewrite Ha|done].
Qed.

(** The vote of a peer counts at a node that is at the same block. *)
Lemma vote_by_counts `{!BlsLaws} `{!MultibaseLaws} kind c p m :
  let s := c_propsalState c in
  knows c p -> c_chain p = c_chain c -> peer_String (c_id p) <> s_Proposer (c_state c) ->
  vote_by kind (s_Height s) (s_Round s) (s_Block s) p m -> vote_at get_world put_world kind c m.
Proof.
  intros s Hk Hch Hp Hv. split; [by eapply knows_hears|].
  destruct Hv as (Hty&_&Hf&(cm&v&Hcm&Hct&Hcv&Hvk&Hh&Hr&Hb)&_). split; [done|]. split; [by rewrite Hf|].
  exists cm, v. split_and!; try done. unfold vote_current. by rewrite Hh, Hr, Hb, !bool_decide_true.
Qed.

(** ** The proposal *)

(** A follower at the start of a round *)
Definition opened c : Prop :=
  let s := c_propsalState c in
  s_AmProposer s = false /\ (0 <= s_f s)%Z /\ s_Step s = propose /\ s_pvOnce s = false /\
  s_pcOnce s = false /\ s_sbOnce s = false /\ is_Some (s_PreVotes s) /\ is_Some (s_PreCommits s).

(** The proposer's message for block [b] *)
Definition proposes c (b : Cid) m : Prop :=
  msg_Type m = MsgTypeConsensus /\ peer_String (msg_From m) = s_Proposer (c_state c) /\
  exists cm p, msg_Consensus m = Some cm /\ cm_Type cm = ConsensusMsgTypeProposal /\
    cm_Proposal cm = Some p /\ pr_BlockID p = cid_String b.

(** [b] is found valid; the validator may change the memory of the store. *)
Definition finds_valid c (b : Cid) (c1 : Consensus) : Prop :=
  validate get_world put_world (cid_String b) c = (Ret b, c1).

(** The node at block [b] *)
Definition at_b (b : Cid) c : Consensus := set_propsalState (set_Block b (c_propsalState c)) c.

Lemma validator_only_mem {A} (f : Validator VS -> GoM VS A) c : preserves (only_mem c) (validator f).
Proof.
  unfold validator. preserves_walk fail. apply preserves_zoom. unfold only_mem. intros c1 Hc1.
  by rewrite Hc1.
Qed.

Lemma validate_only_mem v c : preserves (only_mem c) (validate get_world put_world v).
Proof.
  unfold validate. preserves_walk ltac:(solve [apply store_only_mem | apply validator_only_mem]).
Qed.

Lemma finds_valid_mem c b c1 : finds_valid c b c1 -> c1 = set_mem (c_mem c1) c.
Proof.
  intros Hv. pose proof (validate_only_mem (cid_String b) c c) as Hp. unfold finds_valid in Hv.
  rewrite Hv in Hp. apply Hp. unfold only_mem. by destruct c.
Qed.

Lemma follower_prevotes `{!Reliable} b m c c1 :
  member c -> opened c -> heard get_world put_world c m -> proposes c b m -> b <> cid_Undef ->
  finds_valid c b c1 ->
  exists c2 pub, onMsg m c = (Ret tt, c2) /\ prevoted c2 /\ frame c2 = frame (at_b b c1) /\
    c_outbox c2 = c_outbox c ++ [pub] /\
    vote_by VoteTypePreVote (s_Height (c_propsalState c)) (s_Round (c_propsalState c)) b c (pub_msg pub).
Proof.
  intros Hmem (Ham&Hf&Hst&Hpv&Hpc&Hsb&Hv1&Hv2) Hh (Hty&Hp&cm&p&Hcm&Hct&Hcp&Hb) Hne Hval.
  pose proof (finds_valid_mem _ _ _ Hval) as Hc1. set (cb := at_b b c1).
  assert (s_pvOnce (c_propsalState c1) = false) as Hpv1 by (by rewrite Hc1).
  assert (member cb) as Hmb by (unfold cb; by rewrite Hc1).
  destruct (sendVote_says VoteTypePreVote (set_timerPropose (stopTimer (c_timerPropose cb)) cb) Hmb) as (pub&Hs&Hv).
  change (s_Block (c_propsalState (set_timerPropose (stopTimer (c_timerPropose cb)) cb))) with b in Hs.
  assert (wp (onMsg m) (fun _ c2 => prevoted c2 /\ frame c2 = frame cb /\ c_outbox c2 = c_outbox c ++ [pub]) c) as Hw.
  { unfold Consensus.onMsg. rewrite wp_bind. unfold wp at 1. rewrite Hh. simpl. rewrite bool_decide_true by done.
    unfold onConsensusMsg. rewrite wp_bind. eapply wp_some; [exact Hcm|]. rewrite Hct. simpl.
    unfold onProposal, get_st, get_ps. wp_run. rewrite Hp, Hst, bool_decide_true by done. simpl.
    rewrite wp_bind. eapply wp_some; [exact Hcp|]. rewrite wp_bind, Hb. unfold wp at 1.
    unfold finds_valid in Hval. rewrite Hval. unfold once_Do, get_ps. wp_run.
    rewrite Hpv1. apply wp_defer. unfold castPrevote, ps. wp_run. rewrite bool_decide_false by done.
    change (set_propsalState (set_Block b (c_propsalState c1)) c1) with cb.
    unfold wp at 1. rewrite Hs. wp_run. unfold cb, at_b. rewrite Hc1. by split_and!. }
  unfold wp in Hw. destruct (onMsg m c) as [[[]|] c2]; [|done]. destruct Hw as (Hw1&Hw2&Hw3).
  exists c2, pub. split_and!; [done..|]. unfold cb in Hv. rewrite Hc1 in Hv. exact Hv.
Qed.

(** ** The network *)

(** What a node has published last, and what a node hears when every other one
    of a network delivers that *)
Definition last_msg c : option Msg := pub_msg <$> c_outbox c !! pred (length (c_outbox c)).
Definition heard_by (j : nat) (cs : list Consensus) : list Msg := omap last_msg (delete j cs).

Definition broadcast m (cs cs' : list Consensus) : Prop :=
  Forall2 (fun c c' => onMsg m c = (Ret tt, c')) cs cs'.
Definition exchange (cs cs' : list Consensus) : Prop :=
  length cs' = length cs /\ forall j c c', cs !! j = Some c -> cs' !! j = Some c' ->
    deliver (heard_by j cs) c = (Ret tt, c').

Lemma omap_said (V : Consensus -> Msg -> Prop) (cs ks : list Consensus) :
  Forall2 (fun c k => exists m, last_msg k = Some m /\ V c m) cs ks -> Forall2 V cs (omap last_msg ks).
Proof.
  induction 1 as [|c k cs ks (m&Hm&Hv) _ IH]; [constructor|]. simpl. rewrite Hm. by constructor.
Qed.

(** The votes of the others, each of its own sender *)
Lemma heard_votes kind h r b (cs ks : list Consensus) j c :
  NoDup (c_id <$> cs) -> cs !! j = Some c ->
  Forall2 (fun c k => exists m, last_msg k = Some m /\ vote_by kind h r b c m) cs ks ->
  Forall (fun m => exists p, p ∈ cs /\ c_id p <> c_id c /\ vote_by kind h r b p m) (heard_by j ks) /\
  size (list_to_set (C := gset PeerID) (msg_From <$> heard_by j ks)) = length cs - 1.
Proof.
  intros Hnd Hj Hk. apply list_elem_of_split_length in Hj as (l1&l2&->&->).
  pose proof (omap_said _ _ _ (Forall2_delete _ _ _ (length l1) Hk)) as Hv. rewrite delete_middle in Hv.
  assert (c_id <$> l1 ++ c :: l2 ≡ₚ c_id c :: (c_id <$> l1 ++ l2)) as Hp
    by (rewrite <- Permutation_middle; done).
  rewrite Hp in Hnd. apply list.NoDup_cons in Hnd as [Hc Hnd]. fold (heard_by (length l1) ks) in Hv.
  assert (msg_From <$> heard_by (length l1) ks = c_id <$> l1 ++ l2) as Hfrom.
  { clear -Hv. induction Hv as [|p m ps ms (_&_&Hf&_) _ IH]; [done|]. by rewrite !fmap_cons, Hf, IH. }
  split.
  - assert (forall p, p ∈ l1 ++ l2 -> c_id p <> c_id c) as Hne.
    { intros p Hin He. apply Hc. rewrite <- He. by apply list_elem_of_fmap_2. }
    assert (l1 ++ l2 ⊆ l1 ++ c :: l2) as Hsub by set_solver.
    clear -Hv Hne Hsub. revert Hne Hsub. generalize (l1 ++ c :: l2) as l. intros l Hne Hsub.
    induction Hv as [|p m ps ms Hv _ IH]; [constructor|]. constructor.
    + exists p. split_and!; [set_solver|apply Hne; set_solver|done].
    + apply IH; [intros q Hq; apply Hne; set_solver|set_solver].
  - rewrite Hfrom, size_list_to_set by done. rewrite length_fmap, !length_app. simpl. lia.
Qed.

Lemma choose_list {A B} (l : list A) (Q : nat -> A -> B -> Prop) :
  (forall j x, l !! j = Some x -> exists y, Q j x y) ->
  exists k, length k = length l /\ forall j x y, l !! j = Some x -> k !! j = Some y -> Q j x y.
Proof.
  revert Q. induction l as [|x l IH]; intros Q Hq.
  { exists []. split; [done|]. intros j x y. by rewrite lookup_nil. }
  destruct (Hq 0 x eq_refl) as [y Hy]. destruct (IH (fun j => Q (S j))) as (k&Hk&HQ).
  { intros j. apply (Hq (S j)). }
  exists (y :: k). split; [simpl; by rewrite Hk|]. intros [|j] x' y' Hx Hy'; simpl in *; [by simplify_eq|by eapply HQ].
Qed.

Lemma Forall2_choose {A B} (l : list A) (R : A -> B -> Prop) :
  Forall (fun x => exists y, R x y) l -> exists k, Forall2 R l k.
Proof.
  induction 1 as [|x l [y Hy] _ [k Hk]]; [by exists []|]. exists (y :: k). by constructor.
Qed.

Lemma Forall2_chain {A B C} (Q : A -> B -> Prop) (R : B -> C -> Prop) (T : A -> C -> Prop) l k :
  Forall2 Q l k -> (forall x y, x ∈ l -> Q x y -> exists z, R y z /\ T x z) ->
  exists k', Forall2 R k k' /\ Forall2 T l k'.
Proof.
  induction 1 as [|x y l k Hq _ IH]; intros Hs; [by exists []|].
  destruct (Hs x y) as (z&Hr&Ht); [set_solver|done|].
  destruct IH as (k'&Hr'&Ht'); [intros; apply Hs; set_solver|]. exists (z :: k'). by split; constructor.
Qed.

(** One exchange: every node goes from stage [Q] to stage [Q'] on the votes of the
    others. *)
Lemma exchange_step (Q Q' : Consensus -> Consensus -> Prop) kind h r b cs ks :
  NoDup (c_id <$> cs) -> Forall2 Q cs ks ->
  (forall c k, Q c k -> exists m, last_msg k = Some m /\ vote_by kind h r b c m) ->
  (forall c k ms, c ∈ cs -> Q c k ->
    Forall (fun m => exists p, p ∈ cs /\ c_id p <> c_id c /\ vote_by kind h r b p m) ms ->
    size (list_to_set (C := gset PeerID) (msg_From <$> ms)) = length cs - 1 ->
    exists k', deliver ms k = (Ret tt, k') /\ Q' c k') ->
  exists ks', exchange ks ks' /\ Forall2 Q' cs ks'.
Proof.
  intros Hnd Hq Hsaid Hstep.
  assert (Forall2 (fun c k => exists m, last_msg k = Some m /\ vote_by kind h r b c m) cs ks) as Hv
    by (eapply Forall2_impl; [exact Hsaid|exact Hq]).
  pose proof (Forall2_length Hq) as Hlen.
  destruct (choose_list ks (fun j k k' => deliver (heard_by j ks) k = (Ret tt, k') /\
    forall c, cs !! j = Some c -> Q' c k')) as (ks'&Hlen'&Hks').
  - intros j k Hk. destruct (lookup_lt_is_Some_2 cs j) as [c Hc];
      [rewrite Hlen; by eapply lookup_lt_Some|].
    destruct (heard_votes kind h r b cs ks j c Hnd Hc Hv) as [Hms Hsz].
    destruct (Hstep c k (heard_by j ks)) as (k'&Hd&Hk'); [by eapply list_elem_of_lookup_2|by eapply Forall2_lookup_lr|done..|].
    exists k'. split; [done|]. intros c' Hc'. by simplify_eq.
  - exists ks'. split; [split; [done|intros j k k' Hk Hk'; by apply (Hks' j k k')]|].
    apply Forall2_same_length_lookup_2; [by rewrite Hlen, Hlen'|]. intros j c k' Hc Hk'.
    destruct (lookup_lt_is_Some_2 ks j) as [k Hk]; [rewrite <- Hlen; by eapply lookup_lt_Some|].
    by apply (Hks' j k k').
Qed.

(** ** A follower through the round *)

Section Follower.
Context `{!Reliable} `{!BlsLaws} `{!MultibaseLaws}.
Context (ch : bytes) (P : string) (h r : Z) (b : Cid) (pm bm : Msg) (cs : list Consensus).

(** The node once it has validated the block *)
Definition after c : Consensus := at_b b (validate get_world put_world (cid_String b) c).2.

(** A member of the network that follows [P] in round [r] of height [h]: it hears
    the proposal and finds the block valid; after that it knows the other
    members, hears the block message, and its store takes the block.  The others
    are more than its threshold. *)
Record follower c : Prop := {
  fo_member : member c;
  fo_opened : opened c;
  fo_chain : c_chain c = ch;
  fo_proposer : s_Proposer (c_state c) = P;
  fo_height : s_Height (c_propsalState c) = h;
  fo_round : s_Round (c_propsalState c) = r;
  fo_self : peer_String (c_id c) <> P;
  fo_quorum : (s_f (c_propsalState c) < Z.of_nat (length cs - 1))%Z;
  fo_hears : heard get_world put_world c pm;
  fo_proposes : proposes c b pm;
  fo_valid : (validate get_world put_world (cid_String b) c).1 = Ret b;
  fo_knows : forall p, p ∈ cs -> c_id p <> c_id c -> knows (after c) p;
  fo_last : heard get_world put_world (after c) bm;
  fo_announces : announces (at_b b c) bm;
  fo_settles : exists st, c_store c = Some st /\
    wp (settle st b) (fun _ _ => True) (get_world (c_mem (after c)))
}.

Lemma after_frame c : follower c -> exists w, after c = at_b b (set_mem w c).
Proof.
  intros Hf. assert (finds_valid c b (validate get_world put_world (cid_String b) c).2) as Hv.
  { unfold finds_valid. rewrite <- (fo_valid c Hf). by destruct (validate _ _ _ c). }
  apply finds_valid_mem in Hv. unfold after. rewrite Hv. by eexists.
Qed.

(** What the frame of a follower in the round says *)
Lemma follower_fields c c' :
  follower c -> frame c' = frame (after c) ->
  (c_chain c' = c_chain c /\ c_id c' = c_id c /\ c_signingKey c' = c_signingKey c) /\
  c_topics c' = c_topics c /\ c_store c' = c_store c /\ c_state c' = c_state c /\
  s_Height (c_propsalState c') = h /\ s_Round (c_propsalState c') = r /\ s_Block (c_propsalState c') = b /\
  s_f (c_propsalState c') = s_f (c_propsalState c) /\ s_AmProposer (c_propsalState c') = false.
Proof.
  intros Hf Hfr. destruct (after_frame c Hf) as [w Ha]. rewrite Ha in Hfr. unfold frame in Hfr. simpl in Hfr.
  injection Hfr as E1 E2 E3 E4 E5 E6 E7 E8 E9 E10 E11 E12 E13.
  rewrite (fo_height c Hf) in E5. rewrite (fo_round c Hf) in E6. destruct (fo_opened c Hf) as [Ham _].
  rewrite Ham in E9. done.
Qed.

Lemma vote_by_same kind c c' m :
  c_chain c' = c_chain c -> c_id c' = c_id c -> c_signingKey c' = c_signingKey c ->
  vote_by kind h r b c m -> vote_by kind h r b c' m.
Proof. unfold vote_by. by intros -> -> ->. Qed.

Lemma said_last c c' pub kind :
  c_outbox c' = c_outbox c ++ [pub] -> vote_by kind h r b c (pub_msg pub) ->
  exists m, last_msg c' = Some m /\ vote_by kind h r b c m.
Proof.
  intros Ho Hv. exists (pub_msg pub). split; [|done]. unfold last_msg. rewrite Ho, length_app.
  simpl. rewrite Nat.add_1_r. simpl. by rewrite list_lookup_middle.
Qed.

Definition stage1 c c' : Prop := onMsg pm c = (Ret tt, c') /\ prevoted c' /\ frame c' = frame (after c) /\
  exists m, last_msg c' = Some m /\ vote_by VoteTypePreVote h r b c m.
Definition stage2 c c' : Prop := frame c' = frame (after c) /\ committing ∅ c' /\
  exists m, last_msg c' = Some m /\ vote_by VoteTypePreCommit h r b c m.
Definition stage3 c c' : Prop := frame c' = frame (after c) /\ at_block c'.

Lemma reach_stage1 c : b <> cid_Undef -> follower c -> exists c', stage1 c c'.
Proof.
  intros Hne Hf. destruct (follower_prevotes b pm c (validate get_world put_world (cid_String b) c).2)
    as (c2&pub&Hr&Hp&Hfr&Ho&Hv); try apply Hf; [done| |].
  { unfold finds_valid. rewrite <- (fo_valid c Hf). by destruct (validate _ _ _ c). }
  exists c2. split_and!; [done..|]. rewrite (fo_height c Hf), (fo_round c Hf) in Hv. by eapply said_last.
Qed.

(** The votes the others sent count at a node that is at the block. *)
Lemma others_count kind c c' ms :
  follower c -> Forall follower cs -> frame c' = frame (after c) ->
  Forall (fun m => exists p, p ∈ cs /\ c_id p <> c_id c /\ vote_by kind h r b p m) ms ->
  Forall (vote_at get_world put_world kind c') ms.
Proof.
  intros Hf Hall Hfr Hms. eapply list.Forall_impl; [exact Hms|]. intros m (p&Hin&Hne&Hv). destruct (after_frame c Hf) as [w Ha].
  rewrite list.Forall_forall in Hall. pose proof (Hall p Hin) as Hp.
  destruct (vote_by_counts kind (after c) p m) as [Hh Hc].
  - by apply (fo_knows c Hf).
  - rewrite Ha. simpl. by rewrite (fo_chain p Hp), (fo_chain c Hf).
  - rewrite Ha. simpl. rewrite (fo_proposer c Hf). apply Hp.
  - rewrite Ha. simpl. by rewrite (fo_height c Hf), (fo_round c Hf).
  - split; [by eapply heard_frame|by eapply counts_frame].
Qed.

(** [deliver] of a phase that ends well *)
Lemma deliver_run ms c (Q : Consensus -> Prop) :
  wp (deliver ms) (fun _ => Q) c -> exists c', deliver ms c = (Ret tt, c') /\ Q c'.
Proof. unfold wp. destruct (deliver ms c) as [[[]|] c']; [by exists c'|done]. Qed.

Lemma reach_stage2 c c' ms :
  follower c -> Forall follower cs -> stage1 c c' ->
  Forall (fun m => exists p, p ∈ cs /\ c_id p <> c_id c /\ vote_by VoteTypePreVote h r b p m) ms ->
  size (list_to_set (C := gset PeerID) (msg_From <$> ms)) = length cs - 1 ->
  exists c'', deliver ms c' = (Ret tt, c'') /\ stage2 c c''.
Proof.
  intros Hf Hall (_&Hp&Hfr&_) Hms Hsz.
  destruct (follower_fields c c' Hf Hfr) as ((Ech&Ei&Ek)&Et&_&_&Eh&Er&Eb&Ef&_).
  assert (member c') as Hmb by (destruct (fo_member c Hf); split; congruence).
  destruct (vote_out_says VoteTypePreCommit c' Hmb) as (pub&Ho&Hv). rewrite Eh, Er, Eb in Hv.
  apply deliver_run. eapply wp_mono; [apply prevote_phase; [done|by eapply others_count|]|].
  - unfold enough_of. rewrite Hsz, Ef. apply Hf.
  - intros ? c'' (Hf2&Hc2&Ho2). split_and!; [congruence|done|]. rewrite Ho in Ho2.
    destruct (said_last c' c'' pub VoteTypePreCommit Ho2 Hv) as (m&Hm&Hvm). exists m. split; [done|].
    by apply (vote_by_same _ c' c).
Qed.

Lemma reach_stage3 c c' ms :
  follower c -> Forall follower cs -> stage2 c c' ->
  Forall (fun m => exists p, p ∈ cs /\ c_id p <> c_id c /\ vote_by VoteTypePreCommit h r b p m) ms ->
  size (list_to_set (C := gset PeerID) (msg_From <$> ms)) = length cs - 1 ->
  exists c'', deliver ms c' = (Ret tt, c'') /\ stage3 c c''.
Proof.
  intros Hf Hall (Hfr&Hc&_) Hms Hsz.
  destruct (follower_fields c c' Hf Hfr) as (_&_&_&_&_&_&_&Ef&Ea). apply deliver_run.
  assert (0 <= s_f (c_propsalState c'))%Z as Hpos by (rewrite Ef; apply Hf).
  eapply wp_mono; [apply (precommit_phase get_world put_world c' c'); [done..|by eapply others_count|]|].
  - unfold enough_of. rewrite Hsz, Ef. apply Hf.
  - intros ? c'' [Hf2 Hb2]. split; [congruence|done].
Qed.

Lemma reach_stage4 c c' :
  (forall w s, get_world (put_world w s) = w) -> b <> cid_Undef -> follower c -> stage3 c c' ->
  exists c'', onMsg bm c' = (Ret tt, c'') /\ tip c'' = (b, h, s_Block (c_state c)).
Proof.
  intros Hgp Hne Hf [Hfr Hb]. destruct (fo_settles c Hf) as (st&Hst&Hw).
  destruct (after_frame c Hf) as [w Ha].
  assert (wp (deliver [bm]) (fun _ c'' => tip c'' = (b, h, s_Block (c_state c))) c') as Hwp.
  { eapply wp_mono; [apply (wp_announced get_world put_world st (after c) bm c' Hgp)|].
    - by rewrite Ha.
    - by rewrite Ha.
    - rewrite Ha in Hw |- *. exact Hw.
    - apply Hf.
    - rewrite Ha. apply (fo_announces c Hf).
    - done.
    - done.
    - intros ? c'' Ht. rewrite Ht, Ha. simpl. by rewrite (fo_height c Hf). }
  unfold wp in Hwp. simpl in Hwp. unfold mbind, GoM_bind in Hwp.
  destruct (onMsg bm c') as [[[]|] c'']; [by exists c''|done].
Qed.
End Follower.

(** C4. A round commits: take the followers of a proposer, however many, with
    distinct names, each with more other followers than its threshold.  When they
    hear the proposal of a block that each of them finds valid, then exchange what
    each has published, twice, and then hear the proposer's block message, no
    handler panics, and every one of them ends with the block as its tip, at the
    height of the round, on top of what was its own tip before. *)
Theorem round_commits `{!Reliable} `{!BlsLaws} `{!MultibaseLaws} ch P h r b pm bm cs :
  (forall w s, get_world (put_world w s) = w) -> b <> cid_Undef -> NoDup (c_id <$> cs) ->
  Forall (follower ch P h r b pm bm cs) cs ->
  exists cs1 cs2 cs3 cs4,
    broadcast pm cs cs1 /\ exchange cs1 cs2 /\ exchange cs2 cs3 /\ broadcast bm cs3 cs4 /\
    Forall2 (fun c c' => tip c' = (b, h, s_Block (c_state c))) cs cs4.
Proof.
  intros Hgp Hne Hnd Hall. pose proof Hall as Hf. rewrite list.Forall_forall in Hf.
  destruct (Forall2_choose cs (stage1 h r b pm)) as [cs1 Hs1].
  { eapply list.Forall_impl; [exact Hall|]. intros c. by eapply reach_stage1. }
  destruct (exchange_step (stage1 h r b pm) (stage2 h r b) VoteTypePreVote h r b cs cs1) as (cs2&He2&Hs2);
    [done|done|by intros c k (_&_&_&?)|intros c k ms Hc Hs Hms Hsz; eapply reach_stage2; eauto|].
  destruct (exchange_step (stage2 h r b) (stage3 b) VoteTypePreCommit h r b cs cs2) as (cs3&He3&Hs3);
    [done|done|by intros c k (_&_&?)|intros c k ms Hc Hs Hms Hsz; eapply reach_stage3; eauto|].
  destruct (Forall2_chain (stage3 b) (fun k k' => onMsg bm k = (Ret tt, k'))
    (fun c k' => tip k' = (b, h, s_Block (c_state c))) cs cs3 Hs3) as (cs4&Hb4&Hs4).
  { intros c k Hc Hs. by eapply reach_stage4; [done|done|apply Hf|]. }
  exists cs1, cs2, cs3, cs4. split_and!; try done.
  eapply Forall2_impl; [|exact Hs1]. by intros c k [? _].
Qed.
End Round.
End ConsensusRound.
