(* ===== verification/ConsensusStall.v ===== *)
(** * The block message that is never sent

    [onMsg] reads the key of a node as multibase text, [sendBlock] reads the same
    bytes as a point of the curve.  No bytes are both, so that a proposer whose
    votes were accepted cannot tell anyone that they were enough. *)

From S2P Require Import Prelude Externals Cryptography W3cDid Tx Chain Validator MemPool.
From S2P Require Import ConsensusState Consensus ConsensusFacts ConsensusProps ConsensusLive.

(** The encoding of a point has a fixed length, and multibase text is longer than
    what it encodes: the text of a point is not itself the encoding of one. *)
Class PointTextLaws `{Lib} : Prop := {
  point_not_text : forall s b raw p,
    multibase_Decode s = Ok (b, raw) -> point_UnmarshalBinary raw = Ok p ->
    is_ok (point_UnmarshalBinary (bytes_of_string s)) = false
}.

Module ConsensusStall.
Import Cryptography Tx Chain Validator MemPool ConsensusState Consensus ConsensusFacts ConsensusProps.
Import ConsensusLive.

Section Stall.
Context `{L : Lib} {W H VS : Type} `{!Store W H} `{!MsgCodec} `{!PubSub} `{!RangeOrder} `{!PointTextLaws}.
Context (get_world : VS -> W) (put_world : W -> VS -> VS).

Notation Consensus := (Consensus H VS).
Implicit Types (c : Consensus) (m : Msg).

(** A message that passes the checks has a registered sender whose key is text. *)
Lemma heard_key c m :
  heard get_world put_world c m -> exists node b raw p,
    store get_world put_world (fun s => Node_ s (peer_String (msg_From m))) c = (Ret (Ok (Some node)), c) /\
    multibase_Decode (string_of_bytes (node_Key node)) = Ok (b, raw) /\
    point_UnmarshalBinary raw = Ok p.
Proof.
  unfold heard, authenticate, mbind, GoM_bind, ggets. destruct (negb _); [done|].
  destruct (store_frame get_world put_world (fun s => Node_ s (peer_String (msg_From m))) c c eq_refl eq_refl)
    as (r&w&Hs&_). rewrite Hs. destruct r as [[[node|]|e]|]; [|done..].
  destruct (signed_bytes m) as [sd|]; [|done].
  destruct (multibase_Decode _) as [[b raw]|] eqn:Hd; [|done].
  unfold NewBls12381PublicKey. destruct (point_UnmarshalBinary raw) as [pt|] eqn:Hp; [|done].
  intros [= _ Hw%set_mem_id]. subst w. exists node, b, raw, pt. split_and!; [by destruct c|done..].
Qed.

(** The key of a voter that was heard is not collected. *)
Lemma collect_key_fails acc p m c :
  msg_From m = p -> heard get_world put_world c m ->
  exists e, collect_key get_world put_world acc (p, m) c = (Ret (Err e), c).
Proof.
  intros <- (node&b&raw&pt&Hs&Hd&Hp)%heard_key. unfold collect_key, gtry, gwrap, mbind, GoM_bind. cbn [fst].
  rewrite Hs. simpl. pose proof (point_not_text _ _ _ _ Hd Hp) as Hn. rewrite bytes_of_string_of_bytes in Hn.
  unfold NewBls12381PublicKey. destruct (point_UnmarshalBinary (node_Key node)) as [pt'|e]; [done|]. by eexists.
Qed.

Lemma sendBlock_fails c :
  gm_len (s_PreCommits (c_propsalState c)) <> 0 ->
  (forall p m, gm_get p (s_PreCommits (c_propsalState c)) = Some m ->
     msg_From m = p /\ heard get_world put_world c m) ->
  exists e, sendBlock get_world put_world c = (Ret (Err e), c).
Proof.
  intros Hlen Hall. unfold sendBlock, get_ps, gtry at 1, mbind, GoM_bind, ggets. cbv beta iota.
  destruct (s_PreCommits (c_propsalState c)) as [mp|]; [|done].
  change (default ∅ (Some mp)) with mp. destruct (map_range mp) as [|[p m] l] eqn:Hr.
  - exfalso. apply Hlen. simpl. rewrite <- length_map_to_list. pose proof (map_range_perm mp) as Hp.
    rewrite Hr in Hp. by rewrite <- (Permutation_length Hp).
  - destruct (Hall p m) as [Hf Hh].
    { simpl. apply elem_of_map_range. rewrite Hr. left. }
    destruct (collect_key_fails ([], []) p m c Hf Hh) as [e He]. exists e. cbn [gfold]. unfold gtry at 1, mbind, GoM_bind.
    by rewrite He.
Qed.

(** C39. A proposer never announces a block that was voted for: in every state a
    node reaches, once it has counted a precommit, and as long as the voters it
    has counted would still be accepted, the function that is to send the block
    message after the grace period sends nothing and commits nothing; all that
    changes is that it has run.  This is so whether or not [startRound] is cut at
    its sleep. *)
Theorem block_never_announced atomic c0 c :
  started c0 -> reach get_world put_world atomic c0 c ->
  gm_len (s_PreCommits (c_propsalState c)) <> 0 ->
  (forall p m, gm_get p (s_PreCommits (c_propsalState c)) = Some m -> heard get_world put_world c m) ->
  handle get_world put_world atomic EvBlockFunc c = (Ret tt, set_blockFuncs (pred (c_blockFuncs c)) c).
Proof.
  intros Hst Hr Hlen Hheard.
  pose proof (run_Inv _ _ _ true _ _ Hst Hr ltac:(done)) as [_ Hi].
  pose proof (ri_precommits _ _ _ _ _ Hi) as Hok.
  destruct (sendBlock_fails (set_blockFuncs (pred (c_blockFuncs c)) c)) as [e He].
  - exact Hlen.
  - intros p m Hm. destruct (Hok p m Hm) as [Hf _]. split; [done|].
    apply (heard_frame get_world put_world m c); [done|by apply (Hheard p)].
  - cbn [handle]. unfold mbind, GoM_bind, gget. destruct (c_blockFuncs c) as [|n] eqn:Hn.
    + unfold mret, GoM_ret. f_equal. destruct c. simpl in *. by subst.
    + unfold gmodify, blockFunc, mbind, GoM_bind. simpl in He. by rewrite He.
Qed.
End Stall.
End ConsensusStall.
