(* ===== verification/ConsensusDemo.v ===== *)
(** * Concrete runs of the protocol

    A six-node network over the toy libraries: the runs the theorems on the
    protocol are applied to, and two runs that show what the code does not
    prevent. *)

From S2P Require Import Prelude Externals Cryptography W3cDid Tx Chain Toy ChainFacts MemStore.
From S2P Require Import MemStoreFacts StoreProps Validator MemPool ConsensusState Consensus.
From S2P Require Import ConsensusFacts ConsensusProps ConsensusVotes ConsensusNet.
From S2P Require Import ConsensusBlock.
From Stdlib Require Import Strings.Ascii.

Module ConsensusDemo.
Import Cryptography Tx Chain ChainFacts MemStore MemStoreFacts StoreProps Validator MemPool ConsensusState
  Consensus ConsensusFacts ConsensusProps ConsensusVotes ConsensusNet ConsensusBlock.
Import Toy.

#[local] Existing Instance range_asc.

(** ** A codec for messages *)

#[export] Instance Ser_bool : Ser bool.
Proof. refine (Ser_iso (fun b : bool => if b then 1 else 0) (fun n => bool_decide (n = 1)) _). by intros []. Defined.

#[export] Instance Ser_NewRound : Ser ConsensusMsgNewRound.
Proof.
  refine (Ser_iso (fun m => (nr_Height m, (nr_Round m, (nr_LastCommitRound m, nr_Timestamp m))))
    (fun '(a, (b, (c, d))) => Build_ConsensusMsgNewRound a b c d) _). by intros [].
Defined.

#[export] Instance Ser_Proposal : Ser ConsensusMsgProposal.
Proof.
  refine (Ser_iso (fun m => (pr_Height m, (pr_Round m, (pr_BlockID m, pr_Timestamp m))))
    (fun '(a, (b, (c, d))) => Build_ConsensusMsgProposal a b c d) _). by intros [].
Defined.

#[export] Instance Ser_Vote : Ser ConsensusMsgVote.
Proof.
  refine (Ser_iso (fun m => (vote_Type m, (vote_Height m, (vote_Round m, (vote_BlockID m,
      (vote_Timestamp m, vote_Validator m))))))
    (fun '(a, (b, (c, (d, (e, f))))) => Build_ConsensusMsgVote a b c d e f) _). by intros [].
Defined.

#[export] Instance Ser_Evidence : Ser ConsensusMsgEvidence.
Proof.
  refine (Ser_iso (fun m => (ev_Vote m, ev_Accepted m)) (fun '(a, b) => Build_ConsensusMsgEvidence a b) _).
  by intros [].
Defined.

#[export] Instance Ser_CBlock : Ser ConsensusMsgBlock.
Proof.
  refine (Ser_iso (fun m => (cb_Height m, (cb_Round m, (cb_CID m, (cb_Validators m, cb_Signature m)))))
    (fun '(a, (b, (c, (d, e)))) => Build_ConsensusMsgBlock a b c d e) _). by intros [].
Defined.

#[export] Instance Ser_ConsensusMsg : Ser ConsensusMsg.
Proof.
  refine (Ser_iso (fun m => (cm_Type m, (cm_NewRound m, (cm_Proposal m, (cm_Vote m, (cm_Block m,
      cm_Evidence m))))))
    (fun '(a, (b, (c, (d, (e, f))))) => Build_ConsensusMsg a b c d e f) _). by intros [].
Defined.

#[export] Instance Ser_TxMsg : Ser TxMsg.
Proof. refine (Ser_iso (fun m => (txm_Tx m, txm_TTL m)) (fun '(a, b) => Build_TxMsg a b) _). by intros []. Defined.

#[export] Instance Ser_BlockMsg : Ser BlockMsg.
Proof. refine (Ser_iso (fun m => bm_Block m) (fun a => Build_BlockMsg a) _). by intros []. Defined.

#[export] Instance Ser_Msg : Ser Msg.
Proof.
  refine (Ser_iso (fun m => (msg_Type m, (msg_From m : string, (msg_Chain m, (msg_Tx m, (msg_Block m,
      (msg_Consensus m, (msg_Timestamp m, (msg_Signature m, msg_Key m)))))))))
    (fun '(a, (b, (c, (d, (e, (f, (g, (h, i)))))))) => Build_Msg a b c d e f g h i) _). by intros [].
Defined.

#[export] Instance ToyMsgCodec : MsgCodec := {|
  msgpack_Marshal_Msg m := Ok (encode m);
  msgpack_Unmarshal_Msg := decode
|}.

#[export] Instance ToyMsgCodecLaws : MsgCodecLaws.
Proof. split. intros m d _ _ [= <-]. apply decode_encode. Qed.

#[export] Instance ToyPubSub : PubSub := {|
  pubsub_Join _ _ := None; pubsub_Subscribe _ _ := None; pubsub_Publish _ _ _ := None
|}.

(** ** The network *)

Notation World := (gmap nat MemStore).
Definition demo_get (w : World) : World := w.
Definition demo_put (w _ : World) : World := w.

Definition demo_peers : list string := ["A"; "B"; "C"; "D"; "E"; "F"].

(** Every peer signs with its own name. *)
Definition demo_sk (p : string) : Bls12381PrivateKey := {| bls_sk := bytes_of_string p |}.
Definition demo_node_tx (p : string) : Tx := {|
  tx_Version := Version1; tx_Ts := 1; tx_From := p; tx_Type := TxType_Node; tx_Action := TxActionAdd;
  tx_Data := DataNode {| node_Id := p; node_Did := p;
    node_Key := bytes_of_string (String "z"%char (string_of_bytes (x50 :: bytes_of_string p))) |};
  tx_Signature := []
|}.

Definition demo_register (m : MemStore) (p : string) : MemStore :=
  let m := (mem_PutTx (demo_node_tx p) m).2 in
  (mem_ApplyTx (obj_cid (ok_opt (msgpack_Marshal_Tx (demo_node_tx p)))) (demo_node_tx p) m).2.

(** Two stored blocks that differ in their nonce. *)
Definition demo_cblock (n : Byte.byte) : Block := {|
  blk_Version := 1; blk_ID := cid_Undef; blk_Parent := cid_Undef; blk_Height := 1;
  blk_CreatedAt := 1; blk_Proposer := "A"; blk_Signature := []; blk_Nonce := [n];
  blk_Bloom := []; blk_TxRoot := cid_Undef
|}.
Definition demo_bid (n : Byte.byte) : Cid := obj_cid (ok_opt (msgpack_Marshal_Block (demo_cblock n))).

Definition demo_store : MemStore :=
  (mem_PutBlock (demo_cblock x02) (mem_PutBlock (demo_cblock x01)
    (foldl demo_register NewMemStore demo_peers)).2).2.

Definition demo_opts (p : string) : list Option_ := [
  WithSigningKey (Some (demo_sk p)); WithBlockStore 0; WithBeaconSource true;
  WithValidator (MockValidator World);
  WithGenesis {| gen_ChainID := "t"; gen_Block := demo_cblock x00; gen_Txs := [] |} ].

Definition demo_start (p : string) : Consensus nat World :=
  ((NewConsensus demo_get demo_put (demo_opts p) ≫= fun _ => Start)
    (new_node (p : PeerID) ({[ 0 := demo_store ]} : World) 5 (Ok [x09]))).2.

(** A message signed by [p] *)
Definition demo_sign (p : string) (m : Msg) : Msg :=
  match signed_bytes m with
  | Ok d => msg_set_Signature (bytes_of_string p ++ d) m
  | Err _ => m
  end.
Definition demo_msg (p : string) (payload : Sendable) : Msg := demo_sign p {|
  msg_Type := MsgTypeConsensus; msg_From := (p : PeerID); msg_Chain := bytes_of_string "t";
  msg_Tx := None; msg_Block := None; msg_Consensus := Some (wrapper payload);
  msg_Timestamp := 5; msg_Signature := []; msg_Key := []
|}.
Definition demo_vote (kind h r : Z) (b : Cid) (p : string) : Msg := demo_msg p (SendVote {|
  vote_Type := kind; vote_Height := h; vote_Round := r; vote_BlockID := cid_String b;
  vote_Timestamp := 5; vote_Validator := p |}).
Definition demo_newround (h r : Z) : Msg := demo_msg "A" (SendNewRound {|
  nr_Height := h; nr_Round := r; nr_LastCommitRound := 0; nr_Timestamp := 5 |}).
Definition demo_proposal (h r : Z) (b : Cid) : Msg := demo_msg "A" (SendProposal {|
  pr_Height := h; pr_Round := r; pr_BlockID := cid_String b; pr_Timestamp := 5 |}).
Definition demo_commit (h r : Z) (b : Cid) : Msg := demo_msg "A" (SendBlock {|
  cb_Height := h; cb_Round := r; cb_CID := cid_String b; cb_Validators := []; cb_Signature := [] |}).

(** ** Runs *)

Notation handle := (handle demo_get demo_put).
Notation event := (@event ToyLib).

Fixpoint exec (atomic : bool) (es : list event) (c : Consensus nat World) : Consensus nat World :=
  match es with [] => c | e :: es => exec atomic es (handle atomic e c).2 end.

(** No handler panicked. *)
Fixpoint ran (atomic : bool) (es : list event) (c : Consensus nat World) : bool :=
  match es with
  | [] => true
  | e :: es => match handle atomic e c with (Ret _, c') => ran atomic es c' | (Panic, _) => false end
  end.

Lemma exec_reach atomic es c c0 :
  reach demo_get demo_put atomic c0 c -> ran atomic es c = true ->
  reach demo_get demo_put atomic c0 (exec atomic es c).
Proof.
  revert c. induction es as [|e es IH]; simpl; intros c Hr Hran; [done|].
  destruct (handle atomic e c) as [[[]|] c'] eqn:Hh; [|done]. apply IH; [|done].
  econstructor; [exact Hr|]. by constructor.
Qed.

(** No vote is handled while a goroutine sleeps. *)
Fixpoint quiet (atomic : bool) (es : list event) (c : Consensus nat World) : bool :=
  match es with
  | [] => true
  | e :: es => match handle atomic e c with
      | (Ret _, c') => (bool_decide (c_sleeping c = 0) || negb (vote_event e)) && quiet atomic es c'
      | (Panic, _) => false
      end
  end.

Lemma exec_calm atomic es c c0 :
  calm demo_get demo_put atomic c0 c -> quiet atomic es c = true ->
  calm demo_get demo_put atomic c0 (exec atomic es c).
Proof.
  revert c. induction es as [|e es IH]; simpl; intros c Hr Hq; [done|].
  destruct (handle atomic e c) as [[[]|] c'] eqn:Hh; [|done].
  apply andb_true_iff in Hq as [Hq%orb_true_iff Hrest]. apply IH; [|done].
  econstructor; [exact Hr|by constructor|].
  destruct Hq as [Hs%bool_decide_eq_true|Hv%negb_true_iff]; [by left|by right].
Qed.

Lemma demo_started_B : started (demo_start "B").
Proof. split; by_vm. Qed.

Lemma demo_started_C : started (demo_start "C").
Proof. split; by_vm. Qed.

(** A follower: the beacon picks [A], which opens a round and proposes. *)
Definition demo_round (b : Cid) : list event :=
  [EvBeacon 0; EvMsg (demo_newround 1 1); EvMsg (demo_proposal 1 1 b)].
Definition demo_votes (kind : Z) (b : Cid) (ps : list string) : list event :=
  map (fun p => EvMsg (demo_vote kind 1 1 b p)) ps.

(** Up to the block message: one vote of each kind is enough for a node that was
    never proposer. *)
Definition demo_run_B : list event :=
  demo_round (demo_bid x01) ++ demo_votes VoteTypePreVote (demo_bid x01) ["C"] ++
  demo_votes VoteTypePreCommit (demo_bid x01) ["C"].
Definition demo_B : Consensus nat World := exec false demo_run_B (demo_start "B").
Definition demo_B' : Consensus nat World := (handle false (EvMsg (demo_commit 1 1 (demo_bid x01))) demo_B).2.

Lemma demo_calm_B : calm demo_get demo_put false (demo_start "B") demo_B.
Proof. apply exec_calm; [constructor|by_vm]. Qed.

Lemma demo_step_B : step demo_get demo_put false demo_B (EvMsg (demo_commit 1 1 (demo_bid x01))) demo_B'.
Proof.
  unfold demo_B'. constructor.
  apply (pair_fst (handle false (EvMsg (demo_commit 1 1 (demo_bid x01))) demo_B)). by_vm.
Qed.

Lemma commit_quorum_witness :
  s_Block (c_state demo_B') = demo_bid x01 /\
  s_ParentBlock (c_state demo_B') = s_Block (c_state demo_B) /\
  backed demo_get demo_put false (demo_start "B") demo_B demo_B'.
Proof.
  assert (s_Block (c_state demo_B') = demo_bid x01) as Hb by by_vm.
  split; [exact Hb|].
  apply (commit_quorum demo_get demo_put false (demo_start "B") demo_B _ demo_B' demo_started_B
    (calm_reach _ _ _ _ _ demo_calm_B) demo_step_B).
  - intros _. exact demo_calm_B.
  - apply tip_ne. apply (proj1 (bool_decide_eq_false _)). by_vm.
  - rewrite Hb. done.
Defined.

Lemma counted_votes_current_witness :
  gm_len (s_PreVotes (c_propsalState demo_B)) = 1 /\
  (forall p m, gm_get p (s_PreVotes (c_propsalState demo_B)) = Some m ->
     vote_of false (authentic demo_get demo_put false (demo_start "B") demo_B)
       (s_Proposer (c_state demo_B)) VoteTypePreVote (c_propsalState demo_B) p m).
Proof.
  split; [by_vm|].
  exact (proj1 (counted_votes_current demo_get demo_put false (demo_start "B") demo_B demo_started_B
    (calm_reach _ _ _ _ _ demo_calm_B) (fun _ => demo_calm_B))).
Defined.

(** Two nodes that have been proposer once, so that they know the threshold, and
    then follow [A], which proposes a different block to each. *)
Definition demo_run_quorum (mine : Z) (b : Cid) (ps : list string) : list event :=
  EvBeacon mine :: EvWake :: demo_round b ++ demo_votes VoteTypePreVote b ps ++ demo_votes VoteTypePreCommit b ps.
Definition demo_run1 := demo_run_quorum 1 (demo_bid x01) ["C"; "D"; "E"; "F"].
Definition demo_run2 := demo_run_quorum 2 (demo_bid x02) ["B"; "D"; "E"; "F"].
Definition demo_1 : Consensus nat World := exec false demo_run1 (demo_start "B").
Definition demo_2 : Consensus nat World := exec false demo_run2 (demo_start "C").
Definition demo_N : gset PeerID := list_to_set (["B"; "C"; "D"; "E"; "F"] : list PeerID).

Lemma demo_calm_1 : calm demo_get demo_put false (demo_start "B") demo_1.
Proof. apply exec_calm; [constructor|by_vm]. Qed.

Lemma demo_calm_2 : calm demo_get demo_put false (demo_start "C") demo_2.
Proof. apply exec_calm; [constructor|by_vm]. Qed.

Lemma demo_subset (A : gset PeerID) :
  forallb (fun p => bool_decide (p ∈ demo_N)) (elements A) = true -> A ⊆ demo_N.
Proof.
  intros Hf p Hp. rewrite forallb_forall in Hf.
  specialize (Hf p ltac:(by apply list_elem_of_In, elem_of_elements)). by apply bool_decide_eq_true in Hf.
Qed.

Lemma conflict_exposes_witness :
  exists E : gset PeerID, E ⊆ demo_N /\ 3 <= size E /\
    forall p, p ∈ E ->
      votes_for false (authentic demo_get demo_put false (demo_start "B") demo_1) VoteTypePreCommit
        (s_Height (c_propsalState demo_1)) (s_Round (c_propsalState demo_1)) (s_Block (c_propsalState demo_1)) p /\
      votes_for false (authentic demo_get demo_put false (demo_start "C") demo_2) VoteTypePreCommit
        (s_Height (c_propsalState demo_1)) (s_Round (c_propsalState demo_1)) (s_Block (c_propsalState demo_2)) p.
Proof.
  assert (size demo_N = 5) as HN by by_vm.
  destruct (conflict_exposes demo_get demo_put (demo_start "B") demo_1 (demo_start "C") demo_2 demo_N
    demo_started_B demo_calm_1 demo_started_C demo_calm_2) as (E&?&?&_&Hs).
  - apply demo_subset. by_vm.
  - apply demo_subset. by_vm.
  - by_vm.
  - by_vm.
  - transitivity 1%Z; [by_vm|symmetry; by_vm].
  - transitivity 1%Z; [by_vm|symmetry; by_vm].
  - apply (proj1 (bool_decide_eq_false _)). by_vm.
  - rewrite HN in Hs. exists E. split_and!; [done| |done]. apply Hs; [lia|transitivity 3%Z; by_vm..].
Defined.

(** A proposal, then the timeout of the proposal step: one prevote. *)
Definition demo_after_newround : Consensus nat World :=
  exec true [EvBeacon 0; EvMsg (demo_newround 1 1)] (demo_start "B").
Definition demo_after_vote : Consensus nat World :=
  (handle true (EvMsg (demo_proposal 1 1 (demo_bid x01))) demo_after_newround).2.

Lemma one_vote_per_round_witness :
  sent VoteTypePreVote demo_after_newround <= sent VoteTypePreVote demo_after_vote <=
    sent VoteTypePreVote demo_after_newround + 1 /\
  sent VoteTypePreVote demo_after_vote = 1.
Proof.
  split; [|by_vm].
  assert (s_pvOnce (c_propsalState demo_after_newround) = false) as Hf by by_vm.
  pose proof (one_vote_per_round demo_get demo_put true VoteTypePreVote s_pvOnce demo_after_newround
    demo_after_vote guard_prevote) as Hone. rewrite Hf in Hone. apply Hone.
  eapply same_step; [|by rewrite Hf|constructor]. constructor.
  apply (pair_fst (handle true (EvMsg (demo_proposal 1 1 (demo_bid x01))) demo_after_newround)). by_vm.
Defined.

(** The follower after its prevote, and one vote of [C]. *)
Definition demo_F : Consensus nat World := exec true (demo_round (demo_bid x01)) (demo_start "B").
Definition demo_vote_C : Msg := demo_vote VoteTypePreVote 1 1 (demo_bid x01) "C".

Lemma exec_follows es c c0 :
  follows demo_get demo_put true c0 c ->
  (fix ok es c := match es with
    | [] => true
    | e :: es => match handle true e c with
        | (Ret _, c') => negb (s_AmProposer (c_propsalState c')) && ok es c'
        | (Panic, _) => false
        end
    end) es c = true ->
  follows demo_get demo_put true c0 (exec true es c).
Proof.
  revert c. induction es as [|e es IH]; simpl; intros c Hr Hok; [done|].
  destruct (handle true e c) as [[[]|] c'] eqn:Hh; [|done].
  apply andb_true_iff in Hok as [Ham Hok]. apply IH; [|done].
  econstructor; [exact Hr|by constructor|]. by apply negb_true_iff.
Qed.

Lemma demo_follows : follows demo_get demo_put true (demo_start "B") demo_F.
Proof. apply exec_follows; [constructor|by_vm]. Qed.

Lemma follower_locks_on_one_witness :
  exists c', onVote demo_vote_C "C" demo_F = (Ret tt, c') /\
    s_Step (c_propsalState c') = precommit /\
    s_lockedValue (c_propsalState c') = s_Block (c_propsalState demo_F) /\
    s_lockedRound (c_propsalState c') = s_Round (c_propsalState demo_F).
Proof.
  refine (follower_locks_on_one demo_get demo_put true (demo_start "B") demo_F demo_vote_C
    (from_option id (wrapper (SendEvidence {| ev_Vote := Build_ConsensusMsgVote 0 0 0 "" 0 "";
      ev_Accepted := false |})) (msg_Consensus demo_vote_C))
    {| vote_Type := VoteTypePreVote; vote_Height := 1; vote_Round := 1;
       vote_BlockID := cid_String (demo_bid x01); vote_Timestamp := 5; vote_Validator := "C" |} ∅
    demo_started_B demo_follows _ _ _ _ _ _ _ _ _).
  - by_vm.
  - by_vm.
  - by_vm.
  - apply (proj1 (bool_decide_eq_false _)). by_vm.
  - by_vm.
  - by_vm.
  - by_vm.
  - by_vm.
  - by_vm.
Defined.

Lemma drop_self_others_witness : drop_self "B" 0 6 6 demo_peers = Some 5.
Proof.
  etransitivity; [apply (drop_self_others "B" demo_peers)|by_vm].
  apply (proj1 (bool_decide_eq_true _)). by_vm.
Defined.

(** A vote in the name of [C] that [D] has signed, with a key of its own that is
    registered too. *)
Definition demo_forged_vote : Msg :=
  msg_set_Signature (bytes_of_string "D" ++ match signed_bytes demo_vote_C with Ok d => d | Err _ => [] end) demo_vote_C.

(** What a key makes of the signature *)
Definition demo_check (pk : option Bls12381PublicKey) (m : Msg) : bool :=
  match pk, signed_bytes m with
  | Some pk, Ok sd => match bls_Verify pk (msg_Signature m) sd with Ok ok => ok | Err _ => false end
  | _, _ => false
  end.

Lemma verified_check (c : Consensus nat World) m :
  verified demo_get demo_put c m -> demo_check (registered_key demo_get demo_put c (msg_From m)) m = true.
Proof. intros [_ (pk&sd&Hk&Hsd&Hv)]. unfold demo_check. by rewrite Hk, Hsd, Hv. Qed.

Lemma demo_forged_own :
  demo_check (registered_key demo_get demo_put demo_F (msg_From demo_forged_vote)) demo_forged_vote = false.
Proof. by_vm. Qed.

Lemma demo_forged : ~ verified demo_get demo_put demo_F demo_forged_vote.
Proof. intros Hv%verified_check. pose proof demo_forged_own as Hf. rewrite Hf in Hv. discriminate Hv. Qed.

Lemma onMsg_unsigned_witness :
  demo_check (registered_key demo_get demo_put demo_F ("D" : PeerID)) demo_forged_vote = true /\
  only_mem demo_F (onMsg demo_get demo_put demo_forged_vote demo_F).2.
Proof. split; [by_vm|]. exact (onMsg_unsigned demo_get demo_put demo_forged_vote demo_F demo_forged). Defined.

Definition demo_payload : Sendable := SendNewRound {|
  nr_Height := 1; nr_Round := 1; nr_LastCommitRound := 0; nr_Timestamp := 5 |}.

Lemma send_receive_witness :
  exists pub, c_outbox (sendMsg demo_payload (demo_start "A")).2 = c_outbox (demo_start "A") ++ [pub] /\
  exists m, p2p_receive (c_id (demo_start "B"))
      {| pm_From := bytes_of_string "A"; pm_Data := pub_data pub; pm_Key := [] |} = Some m /\
    msg_Consensus m = Some (wrapper demo_payload) /\
    wp (authenticate demo_get demo_put m) (fun ok _ => ok = true) (demo_start "B").
Proof.
  destruct (send_receive demo_get demo_put demo_payload (demo_start "A")
    (sendMsg demo_payload (demo_start "A")).2 (demo_sk "A")
    (String "z"%char (string_of_bytes (x50 :: bytes_of_string "A")))) as (pub&Hout&Hrecv).
  - by_vm.
  - by_vm.
  - apply (pair_fst (sendMsg demo_payload (demo_start "A"))). by_vm.
  - exists pub. split; [exact Hout|].
    destruct (Hrecv (demo_start "B") (bytes_of_string "A")
      {| node_Id := "A"; node_Did := "A";
         node_Key := bytes_of_string (String "z"%char (string_of_bytes (x50 :: bytes_of_string "A"))) |}
      (bytes_of_string "B")) as (m&?&_&?&?).
    + by_vm.
    + by_vm.
    + done.
    + apply wp_ret_inv. eexists _, _. split; [|reflexivity].
      apply (pair_fst (store demo_get demo_put
        (fun s => Node_ s (peer_String (c_id (demo_start "A")))) (demo_start "B"))). by_vm.
    + done.
    + exists m. by split_and!.
Defined.

Lemma proposer_agree_witness :
  (@proposer _ _ _ _ (@MemStore_Store ToyLib _ _ range_asc) demo_get demo_put 3 (demo_start "B")).1 = Ret (Some "D"%string) /\
  exists l p, node_list l (from_option id NewMemStore (c_mem (demo_start "B") !! 0)) /\
    l !! Z.to_nat (u64 3 mod Z.of_nat (length l)) = Some p /\
    (@proposer _ _ _ _ (@MemStore_Store ToyLib _ _ range_asc) demo_get demo_put 3 (demo_start "B")).1 = Ret (Some p) /\
    (@proposer _ _ _ _ (@MemStore_Store ToyLib _ _ range_desc) demo_get demo_put 3 (demo_start "C")).1 = Ret (Some p).
Proof.
  split; [by_vm|].
  refine (proposer_agree demo_get demo_put range_asc range_desc 3 (demo_start "B") (demo_start "C") 0 0
    (from_option id NewMemStore (c_mem (demo_start "B") !! 0))
    (from_option id NewMemStore (c_mem (demo_start "B") !! 0)) "A" _ _ _ _ _ _).
  - by_vm.
  - by_vm.
  - by_vm.
  - by_vm.
  - done.
  - apply (bool_decide_eq_true_1 _). by_vm.
Defined.

(** A proposer with two transactions in its pool, the later one first. *)
Definition demo_P : Consensus nat World :=
  set_memPool [Some (demo_vc 2); Some (demo_vc 7)] (demo_start "A").

Lemma demo_P_wf : store_wf (ContentStore := MemStore_ContentStore) (demo_get (c_mem demo_P)) 0.
Proof.
  exists (from_option id NewMemStore (c_mem demo_P !! 0)). split; [by_vm|]. apply mem_wfb_wf. by_vm.
Qed.

Lemma demo_tx_total : tx_total (W := World) (0 : nat).
Proof.
  intros t w (m&Hm&Hwf) Ht. destruct (mem_PutTx_spec t m Hwf Ht) as (c&m'&Hrun&_).
  exists c, (<[0 := m']> w). simpl. by rewrite (on_run 0 _ w m Hm), Hrun.
Qed.

Lemma makeBlock_oldest_witness :
  exists b c' ts, makeBlock demo_get demo_put demo_P = (Ret (Ok (Some b)), c') /\
    blk_Parent b = s_Block (c_state demo_P) /\ blk_Height b = s_Height (c_propsalState demo_P) /\
    length ts = 2 /\
    c_memPool demo_P ≡ₚ (Some <$> ts) ++ c_memPool c' /\
    (forall t u, t ∈ ts -> Some u ∈ c_memPool c' -> ts_le t u) /\
    exists m, AllTx (0 : nat) b (demo_get (c_mem c')) = (Ret (Ok m), demo_get (c_mem c')) /\
      forall t, (exists id, m !! id = Some t) <-> t ∈ ts.
Proof.
  refine (makeBlock_oldest (W := World) demo_get demo_put (fun _ _ => eq_refl) (0 : nat) demo_P [x09]
    _ demo_P_wf demo_put_total demo_tx_total _ _ _ _ _).
  - by_vm.
  - split; [repeat constructor; by eexists|]. intros c Hc. simpl in Hc.
    assert (c = 1) as -> by lia. vm_compute. discriminate.
  - done.
  - repeat constructor.
  - by_vm.
  - done.
Defined.

(** ** What the code does not prevent *)

(** The height, round and block of the prevotes a node has sent *)
Definition prevotes_sent (c : Consensus nat World) : list (Z * Z * string) :=
  omap (fun p =>
    match msg_Consensus (pub_msg p) with
    | Some cm => match cm_Vote cm with
        | Some v => if bool_decide (vote_Type v = VoteTypePreVote)
                    then Some (vote_Height v, vote_Round v, vote_BlockID v) else None
        | None => None
        end
    | None => None
    end) (c_outbox c).

(** A proposer can make a node prevote two blocks at the same height and round,
    by announcing the round a second time. *)
Example double_prevote :
  ran true (demo_round (demo_bid x01) ++ [EvMsg (demo_newround 1 1); EvMsg (demo_proposal 1 1 (demo_bid x02))])
    (demo_start "B") = true /\
  prevotes_sent (exec true (demo_round (demo_bid x01) ++
    [EvMsg (demo_newround 1 1); EvMsg (demo_proposal 1 1 (demo_bid x02))]) (demo_start "B")) =
  [(1%Z, 1%Z, cid_String (demo_bid x01)); (1%Z, 1%Z, cid_String (demo_bid x02))].
Proof. split; by_vm. Qed.

(** While the proposer sleeps in [startRound], a prevote for the empty round is
    counted; then it makes a block, and the vote is counted for that block. *)
Definition demo_tx_msg : Msg := demo_sign "C" {|
  msg_Type := MsgTypeTx; msg_From := ("C" : PeerID); msg_Chain := bytes_of_string "t";
  msg_Tx := Some {| txm_Tx := Some (demo_vc 3); txm_TTL := 0 |}; msg_Block := None;
  msg_Consensus := None; msg_Timestamp := 5; msg_Signature := []; msg_Key := []
|}.
Definition demo_race : list event := [
  EvBeacon 0; EvWake; EvMsg (demo_vote VoteTypePreVote 1 1 cid_Undef "C");
  EvFire timerPrecommit; EvTimeout timerPrecommit;
  EvMsg (demo_vote VoteTypePreVote 1 2 cid_Undef "C"); EvMsg demo_tx_msg; EvWake ].

Example stale_vote_counted :
  ran false demo_race (demo_start "A") = true /\
  let s := c_propsalState (exec false demo_race (demo_start "A")) in
  s_Step s = prevote /\ bool_decide (s_Block s = cid_Undef) = false /\ gm_len (s_PreVotes s) = 1 /\
  option_map (fun m => from_option (fun cm => from_option (fun v => vote_current v s) true (cm_Vote cm))
    true (msg_Consensus m)) (gm_get ("C" : PeerID) (s_PreVotes s)) = Some false.
Proof. split; [by_vm|]. cbv zeta. split; [by_vm|]. split; [by_vm|]. split; by_vm. Qed.
End ConsensusDemo.
