(* ===== verification/ConsensusLiveDemo.v ===== *)
(** * A round that commits

    The network of [ConsensusDemo]: [B], which has been proposer once and so
    knows the threshold, follows [A] and hears the votes of [C] to [F]. *)

From S2P Require Import Prelude Externals Cryptography W3cDid Tx Chain Toy ChainFacts MemStore.
From S2P Require Import MemStoreFacts Validator MemPool ConsensusState Consensus.
From S2P Require Import ConsensusFacts ConsensusProps ConsensusLive ConsensusRound ConsensusStall.
From S2P Require Import ConsensusDemo.

Module ConsensusLiveDemo.
Import Toy Cryptography Tx Chain ChainFacts MemStore MemStoreFacts Validator MemPool.
Import ConsensusState Consensus ConsensusFacts ConsensusProps ConsensusLive ConsensusRound ConsensusStall ConsensusDemo.
#[local] Existing Instance range_asc.

Notation World := (gmap nat MemStore).

Definition live_B : Consensus nat World :=
  exec true (EvBeacon 1 :: demo_round (demo_bid x01)) (demo_start "B").
Definition live_mem : MemStore := from_option id NewMemStore (c_mem live_B !! 0).

Lemma live_store : c_store live_B = Some 0.
Proof. by_vm. Qed.

Lemma live_world : c_mem live_B !! 0 = Some live_mem.
Proof.
  unfold live_mem. destruct (c_mem live_B !! 0) as [m|] eqn:Hm; [done|]. exfalso.
  assert (bool_decide (is_Some (c_mem live_B !! 0)) = true) as Ht by by_vm.
  rewrite Hm in Ht. done.
Qed.

Lemma mem_Node_same nid (m : MemStore) : (mem_Node nid m).2 = m.
Proof. unfold mem_Node. go_unfold. simpl. go_cases. Qed.

(** A read of an in-memory store changes nothing. *)
Lemma mem_heard (c : Consensus nat World) sm m :
  c_store c = Some 0 -> c_mem c !! 0 = Some sm ->
  (authenticate demo_get demo_put m c).1 = Ret true -> heard demo_get demo_put c m.
Proof.
  intros Hc Hm Ha. pose proof (mem_Node_same (peer_String (msg_From m)) sm) as Hs.
  destruct (mem_Node (peer_String (msg_From m)) sm) as [[r|] m'] eqn:Hn; simpl in Hs; subst m'.
  - apply (heard_reads _ _ _ _ r); [|done]. unfold store. go_unfold. unfold ggets, gzoom. rewrite Hc.
    cbn [Node_ MemStore_Store]. unfold demo_get at 1. rewrite (on_run 0 _ _ _ Hm), Hn. simpl.
    rewrite insert_id by done. unfold demo_put. by destruct c.
  - exfalso. revert Ha. unfold authenticate, store. go_unfold. unfold ggets, gzoom. destruct (negb _); [done|].
    rewrite Hc. cbn [Node_ MemStore_Store]. unfold demo_get at 1.
    by rewrite (on_run 0 _ _ _ Hm), Hn.
Qed.

Definition peers_of : list string := ["C"; "D"; "E"; "F"].
Definition votes_of (kind : Z) : list Msg := map (demo_vote kind 1 1 (demo_bid x01)) peers_of.

Lemma demo_counts (c : Consensus nat World) kind p :
  s_Proposer (c_state c) = "A" -> p <> "A" ->
  s_Height (c_propsalState c) = 1%Z -> s_Round (c_propsalState c) = 1%Z ->
  s_Block (c_propsalState c) = demo_bid x01 ->
  counts kind c (demo_vote kind 1 1 (demo_bid x01) p).
Proof.
  intros Hpr Hp Hh Hr Hb. split; [done|]. rewrite Hpr. split; [done|].
  eexists _, _. split_and!; [done|done|done|done|]. unfold vote_current. rewrite Hh, Hr, Hb.
  cbn [vote_Height vote_Round vote_BlockID]. by rewrite !bool_decide_true.
Qed.

(** Every message of the round passes the checks of [B]. *)
Definition passes (m : Msg) : bool :=
  match (authenticate demo_get demo_put m live_B).1 with Ret b => b | Panic => false end.

Lemma passes_heard m : passes m = true -> heard demo_get demo_put live_B m.
Proof.
  unfold passes. intros Hp. apply (mem_heard _ live_mem); [apply live_store|apply live_world|].
  by destruct (authenticate _ _ m live_B).1 as [[]|].
Qed.

Lemma live_proposer : s_Proposer (c_state live_B) = "A".
Proof. by_vm. Qed.
Lemma live_height : s_Height (c_propsalState live_B) = 1%Z.
Proof. by_vm. Qed.
Lemma live_round : s_Round (c_propsalState live_B) = 1%Z.
Proof. by_vm. Qed.
Lemma live_block : s_Block (c_propsalState live_B) = demo_bid x01.
Proof. by_vm. Qed.
Lemma live_f : s_f (c_propsalState live_B) = 3%Z.
Proof. by_vm. Qed.

Lemma live_votes kind :
  forallb passes (votes_of kind) = true -> Forall (vote_at demo_get demo_put kind live_B) (votes_of kind).
Proof.
  intros Hp. apply list.Forall_forall. intros m Hm. rewrite forallb_forall in Hp.
  specialize (Hp m ltac:(by apply list_elem_of_In)). split; [by apply passes_heard|].
  apply list_elem_of_In, in_map_iff in Hm as (p&<-&Hin). apply demo_counts.
  - apply live_proposer.
  - intros ->. by repeat destruct Hin as [[=]|Hin].
  - apply live_height.
  - apply live_round.
  - apply live_block.
Qed.

Lemma live_prevoted : prevoted live_B.
Proof.
  split; [by_vm|]. split; [rewrite live_f; lia|]. split; [by_vm|]. split; [by_vm|]. split; [by_vm|].
  split; apply (proj1 (bool_decide_eq_true _)); by_vm.
Qed.

Lemma live_settles :
  wp (settle 0 (s_Block (c_propsalState live_B))) (fun _ _ => True) (demo_get (c_mem live_B)).
Proof.
  assert (match (settle 0 (s_Block (c_propsalState live_B)) (demo_get (c_mem live_B))).1 with
    Ret _ => true | Panic => false end = true) as Hr by by_vm.
  unfold wp. destruct (settle _ _ _) as [[[]|] w]; done.
Qed.

Lemma quorum_commits_witness :
  exists c', deliver demo_get demo_put (votes_of VoteTypePreVote ++ votes_of VoteTypePreCommit ++
      [demo_commit 1 1 (demo_bid x01)]) live_B = (Ret tt, c') /\
    tip c' = (s_Block (c_propsalState live_B), s_Height (c_propsalState live_B), s_Block (c_state live_B)).
Proof.
  apply (quorum_commits demo_get demo_put 0 live_B).
  - done.
  - apply live_store.
  - rewrite live_block. done.
  - apply live_settles.
  - apply live_prevoted.
  - apply live_votes. by_vm.
  - apply live_votes. by_vm.
  - rewrite live_f. apply Z.ltb_lt. by_vm.
  - rewrite live_f. apply Z.ltb_lt. by_vm.
  - apply passes_heard. by_vm.
  - split; [done|]. rewrite live_proposer. split; [done|]. eexists _, _.
    rewrite live_block, live_round. done.
Defined.

(** ** Five followers *)

#[local] Instance ToyReliable : Reliable.
Proof. split; intros; simpl; eauto. Qed.

(** A member that has been proposer once, and then opens a round of [A] *)
Definition opened_node (p : string) (turn : Z) : Consensus nat World :=
  exec true [EvBeacon turn; EvBeacon 0; EvMsg (demo_newround 1 1)] (demo_start p).
Definition five : list (Consensus nat World) :=
  [opened_node "B" 1; opened_node "C" 2; opened_node "D" 3; opened_node "E" 4; opened_node "F" 5].

Notation validated c := (after demo_get demo_put (demo_bid x01) c).
Definition pm : Msg := demo_proposal 1 1 (demo_bid x01).
Definition bm : Msg := demo_commit 1 1 (demo_bid x01).

(** What is left to compute, as a check *)
Definition hears_ok (c : Consensus nat World) (m : Msg) : bool :=
  match (authenticate demo_get demo_put m c).1 with Ret b => b | Panic => false end.
Definition store_ok (c : Consensus nat World) : bool :=
  bool_decide (c_store c = Some 0) && bool_decide (is_Some (c_mem c !! 0)).
Definition knows_ok (c p : Consensus nat World) : bool :=
  match c_signingKey p, mem_Node (peer_String (c_id p)) (default NewMemStore (c_mem c !! 0)) with
  | Some key, (Ret (Ok (Some node)), _) =>
      match EncodeMultibase (PkBls12381 (bls_Point (bls_Public key))) with
      | Ok mb => bool_decide (node_Key node = bytes_of_string mb)
      | Err _ => false
      end
  | _, _ => false
  end.
Definition opened_ok (c : Consensus nat World) : bool :=
  let s := c_propsalState c in
  negb (s_AmProposer s) && (0 <=? s_f s)%Z && bool_decide (s_Step s = propose) && negb (s_pvOnce s) &&
  negb (s_pcOnce s) && negb (s_sbOnce s) && bool_decide (is_Some (s_PreVotes s)) &&
  bool_decide (is_Some (s_PreCommits s)).

Lemma store_ok_world c : store_ok c = true -> c_store c = Some 0 /\ exists m, c_mem c !! 0 = Some m.
Proof.
  intros [Hs%bool_decide_eq_true Hm%bool_decide_eq_true]%andb_true_iff. split; [done|]. by destruct Hm as [m ?]; exists m.
Qed.

Lemma hears_heard c m : store_ok c = true -> hears_ok c m = true -> heard demo_get demo_put c m.
Proof.
  intros (Hs&sm&Hm)%store_ok_world Hh. apply (mem_heard _ sm); [done..|]. unfold hears_ok in Hh.
  by destruct (authenticate _ _ m c).1 as [[]|].
Qed.

Lemma knows_knows c p : store_ok c = true -> knows_ok c p = true -> knows demo_get demo_put c p.
Proof.
  intros (Hs&sm&Hm)%store_ok_world Hk. unfold knows_ok in Hk. rewrite Hm in Hk. change (default NewMemStore (Some sm)) with sm in Hk.
  destruct (c_signingKey p) as [key|] eqn:Hkey; [|done].
  pose proof (mem_Node_same (peer_String (c_id p)) sm) as Hsame.
  destruct (mem_Node (peer_String (c_id p)) sm) as [[[[node|]|]|] sm'] eqn:Hn; try done. simpl in Hsame. subst sm'.
  destruct (EncodeMultibase _) as [mb|] eqn:Hmb; [|done]. apply bool_decide_eq_true in Hk.
  exists key, mb, node. split_and!; [done..| |done]. unfold store. go_unfold. unfold ggets, gzoom. rewrite Hs.
  cbn [Node_ MemStore_Store]. unfold demo_get. rewrite (on_run 0 _ _ _ Hm), Hn. simpl.
  rewrite insert_id by done. unfold demo_put. by destruct c.
Qed.

Lemma opened_opened c : opened_ok c = true -> opened c.
Proof.
  unfold opened_ok. rewrite !andb_true_iff, !negb_true_iff, !bool_decide_eq_true, Z.leb_le.
  intros (((((((?&?)&?)&?)&?)&?)&?)&?). by split_and!.
Qed.

Definition settles_ok (c : Consensus nat World) : bool :=
  match (settle 0 (demo_bid x01) (demo_get (c_mem c))).1 with Ret _ => true | Panic => false end.

(** Name, round and threshold of a follower *)
Definition place_ok (c : Consensus nat World) : bool :=
  bool_decide (is_Some (c_signingKey c)) && bool_decide (pubsubMsgsChanName ∈ c_topics c) &&
  bool_decide (c_chain c = bytes_of_string "t") && bool_decide (s_Proposer (c_state c) = "A"%string) &&
  bool_decide (s_Height (c_propsalState c) = 1%Z) && bool_decide (s_Round (c_propsalState c) = 1%Z) &&
  negb (bool_decide (peer_String (c_id c) = "A"%string)) && (s_f (c_propsalState c) <? 4)%Z.
Definition valid_ok (c : Consensus nat World) : bool :=
  match (validate demo_get demo_put (cid_String (demo_bid x01)) c).1 with
  | Ret b => bool_decide (b = demo_bid x01)
  | Panic => false
  end.
Definition follower_ok (c : Consensus nat World) : bool :=
  place_ok c && opened_ok c && store_ok c && hears_ok c pm && valid_ok c && store_ok (validated c) &&
  hears_ok (validated c) bm && settles_ok (validated c) &&
  forallb (fun p => bool_decide (c_id p = c_id c) || knows_ok (validated c) p) five.

Notation fits c := (follower demo_get demo_put (bytes_of_string "t") "A" 1 1 (demo_bid x01) pm bm five c).

Lemma place_place c : place_ok c = true ->
  member c /\ c_chain c = bytes_of_string "t" /\ s_Proposer (c_state c) = "A"%string /\
  s_Height (c_propsalState c) = 1%Z /\ s_Round (c_propsalState c) = 1%Z /\
  peer_String (c_id c) <> "A"%string /\ (s_f (c_propsalState c) < 4)%Z.
Proof.
  unfold place_ok. rewrite !andb_true_iff, !negb_true_iff, !bool_decide_eq_true, bool_decide_eq_false, Z.ltb_lt.
  intros (((((((?&?)&?)&?)&?)&?)&?)&?). by split_and!.
Qed.

Lemma five_length : Z.of_nat (length five - 1) = 4%Z.
Proof. reflexivity. Qed.

Lemma valid_valid c : valid_ok c = true -> (validate demo_get demo_put (cid_String (demo_bid x01)) c).1 = Ret (demo_bid x01).
Proof.
  unfold valid_ok. destruct (validate _ _ _ c).1 as [b|]; [|discriminate]. by intros ->%bool_decide_eq_true.
Qed.

Lemma settles_settles c :
  settles_ok c = true -> wp (settle 0 (demo_bid x01)) (fun _ _ => True) (demo_get (c_mem c)).
Proof. unfold settles_ok, wp. by destruct (settle 0 _ _) as [[[]|] w]. Qed.

Lemma follower_fits c : follower_ok c = true -> fits c.
Proof.
  unfold follower_ok. rewrite !andb_true_iff.
  intros ((((((((Hpl&Hop)&Hst)&Hh)&Hv)&Hst')&Hh')&Hse)&Hk).
  destruct (place_place c Hpl) as (Hm&Hch&Hp&Hhe&Hr&Hself&Hf). split.
  - exact Hm.
  - apply opened_opened, Hop.
  - exact Hch.
  - exact Hp.
  - exact Hhe.
  - exact Hr.
  - exact Hself.
  - rewrite five_length. exact Hf.
  - apply hears_heard; assumption.
  - split; [reflexivity|]. rewrite Hp. split; [reflexivity|]. eexists _, _. split_and!; reflexivity.
  - apply valid_valid, Hv.
  - intros p Hin Hne. apply knows_knows; [exact Hst'|]. rewrite forallb_forall in Hk.
    specialize (Hk p ltac:(apply list_elem_of_In, Hin)). by rewrite bool_decide_eq_false_2 in Hk.
  - apply hears_heard; assumption.
  - split; [reflexivity|]. unfold at_b. cbn [c_state set_propsalState]. rewrite Hp. split; [reflexivity|].
    eexists _, _. split_and!; [reflexivity..|]. cbn. symmetry. exact Hr.
  - exists 0. split; [apply store_ok_world, Hst|]. apply settles_settles, Hse.
Qed.

Lemma five_fit : Forall (fun c => fits c) five.
Proof.
  assert (forallb follower_ok five = true) as Hf by by_vm. apply list.Forall_forall. intros c Hc.
  rewrite forallb_forall in Hf. apply follower_fits, Hf. by apply list_elem_of_In.
Qed.

Lemma five_distinct : NoDup (c_id <$> five).
Proof. apply (proj1 (bool_decide_eq_true _)). by_vm. Qed.

Lemma round_commits_witness :
  exists cs1 cs2 cs3 cs4,
    broadcast demo_get demo_put pm five cs1 /\ exchange demo_get demo_put cs1 cs2 /\
    exchange demo_get demo_put cs2 cs3 /\ broadcast demo_get demo_put bm cs3 cs4 /\
    Forall2 (fun c c' => tip c' = (demo_bid x01, 1%Z, s_Block (c_state c))) five cs4.
Proof.
  apply (round_commits demo_get demo_put (bytes_of_string "t") "A" 1 1 (demo_bid x01) pm bm five).
  - done.
  - done.
  - apply five_distinct.
  - apply five_fit.
Defined.

(** ** The proposer after the votes *)

#[local] Instance ToyPointText : PointTextLaws.
Proof.
  split. intros [|a s] b raw p; [done|]. destruct a as [[] [] [] [] [] [] [] []]; done.
Qed.

(** [A], with nothing to propose, and the votes of four members for that *)
Definition proposing : Consensus nat World :=
  exec true (EvBeacon 0 :: demo_votes VoteTypePreVote cid_Undef ["B"; "C"; "D"; "E"] ++
    demo_votes VoteTypePreCommit cid_Undef ["B"; "C"; "D"; "E"]) (demo_start "A").

Lemma started_A : started (demo_start "A").
Proof. split; by_vm. Qed.

Lemma proposing_reach : reach demo_get demo_put true (demo_start "A") proposing.
Proof. apply exec_reach; [constructor|by_vm]. Qed.

Lemma gm_get_In {V} p (v : V) (o : gomap PeerID V) : gm_get p o = Some v -> In (p, v) (map_to_list (default ∅ o)).
Proof. destruct o as [mp|]; [|done]. intros Hm. by apply list_elem_of_In, elem_of_map_to_list. Qed.

Lemma proposing_hears p m :
  gm_get p (s_PreCommits (c_propsalState proposing)) = Some m -> heard demo_get demo_put proposing m.
Proof.
  assert (store_ok proposing = true) as Hs by by_vm.
  assert (forallb (fun pm => hears_ok proposing pm.2)
    (map_to_list (default ∅ (s_PreCommits (c_propsalState proposing)))) = true) as Hf by by_vm.
  intros Hm. apply hears_heard; [exact Hs|]. rewrite forallb_forall in Hf.
  exact (Hf (p, m) (gm_get_In _ _ _ Hm)).
Qed.

Lemma block_never_announced_witness :
  s_Step (c_propsalState proposing) = block /\ c_blockFuncs proposing = 1 /\
  handle true EvBlockFunc proposing = (Ret tt, set_blockFuncs (pred (c_blockFuncs proposing)) proposing).
Proof.
  split; [by_vm|]. split; [by_vm|].
  apply (block_never_announced demo_get demo_put true (demo_start "A") proposing started_A proposing_reach).
  - assert (gm_len (s_PreCommits (c_propsalState proposing)) = 4) as He by by_vm. rewrite He. discriminate.
  - exact proposing_hears.
Defined.
End ConsensusLiveDemo.
