(* ===== verification/Stream.v ===== *)
(** * internal/stream: length-prefixed messages on a network stream

    [RW] writes a message as its length, 4 bytes little endian, followed by its
    bytes, through a [bufio.ReadWriter], and reads one back with a scratch
    [bytes.Buffer].  The two packages of the Go distribution are written out as
    go 1.18 has them, because the behaviour of [Read] depends on their buffer
    sizes; the network stream itself is a parameter. *)

From S2P Require Import Prelude.

(** [network.Stream]: streams of type [H] in a world [W].  [net_Read h n] is
    [Read] on a slice of [n] bytes and gives the bytes it put there;
    [net_Write] gives the number of bytes it took. *)
Class NetStream (W H : Type) := {
  net_Read : H -> nat -> W -> (bytes * option error) * W;
  net_Write : H -> bytes -> W -> (nat * option error) * W;
  net_Close : H -> W -> option error * W
}.

(** The contracts of [io.Reader] and [io.Writer]. *)
Class NetStreamLaws (W H : Type) `{!NetStream W H} : Prop := {
  net_Read_len : forall h n w, length (net_Read h n w).1.1 <= n;
  net_Write_len : forall h b w, (net_Write h b w).1.1 <= length b;
  net_Write_short : forall h b w,
    (net_Write h b w).1.1 < length b -> is_Some (net_Write h b w).1.2
}.

Module Stream.

Definition defaultBufSize : nat := 4096.
Definition io_EOF : error := Sentinel "EOF".
Definition ErrShortWrite : error := Sentinel "short write".

(** ** bytes.Buffer

    Between calls the buffer is empty, and what is left of it is its array:
    [Grow n] keeps the array if it has [n] bytes, else it takes a new one.  The
    arrays it had before are kept, because slices of them may be in use. *)

Record Buffer := { buf_old : list bytes; buf_arr : bytes }.

Definition new_Buffer : Buffer := {| buf_old := []; buf_arr := [] |}.

Definition smallBufferSize : nat := 64.

Definition buffer_Grow (n : nat) (b : Buffer) : Buffer :=
  let arr := buf_arr b in
  if decide (n <= length arr) then b
  else {| buf_old := buf_old b ++ [arr];
    buf_arr := if decide (arr = [] /\ n <= smallBufferSize) then replicate smallBufferSize x00
      else replicate (2 * length arr + n) x00 |}.

(** [copy(b.Bytes()[:n], d)], for [n] bytes [d] or more *)
Definition buffer_fill (d : bytes) (b : Buffer) : Buffer :=
  {| buf_old := buf_old b; buf_arr := d ++ drop (length d) (buf_arr b) |}.

(** [b.Bytes()[:n]]: not a copy, but [n] bytes of the array the buffer has *)
Record Slice := { sl_arr : nat; sl_len : nat }.

Definition buffer_slice (n : nat) (b : Buffer) : Slice := {| sl_arr := length (buf_old b); sl_len := n |}.

(** What a slice shows now *)
Definition slice_bytes (sl : Slice) (b : Buffer) : bytes :=
  take (sl_len sl) (default [] ((buf_old b ++ [buf_arr b]) !! sl_arr sl)).

Section Stream.
Context {W H : Type} `{!NetStream W H}.

(** [type RW struct]: [c.s], [c.buf], and the two halves of [c.rw] *)
Record RW := {
  rw_s : H;
  rw_buf : Buffer;
  rw_rd : bytes;
  rw_rderr : option error;
  rw_wr : bytes;
  rw_wrerr : option error
}.

Definition NewRW (s : H) : RW := {|
  rw_s := s; rw_buf := new_Buffer; rw_rd := []; rw_rderr := None; rw_wr := []; rw_wrerr := None |}.

Definition set_buf (b : Buffer) (c : RW) : RW := {|
  rw_s := rw_s c; rw_buf := b; rw_rd := rw_rd c; rw_rderr := rw_rderr c;
  rw_wr := rw_wr c; rw_wrerr := rw_wrerr c |}.

Definition set_rd (b : bytes) (e : option error) (c : RW) : RW := {|
  rw_s := rw_s c; rw_buf := rw_buf c; rw_rd := b; rw_rderr := e;
  rw_wr := rw_wr c; rw_wrerr := rw_wrerr c |}.

Definition set_wr (b : bytes) (e : option error) (c : RW) : RW := {|
  rw_s := rw_s c; rw_buf := rw_buf c; rw_rd := rw_rd c; rw_rderr := rw_rderr c;
  rw_wr := b; rw_wrerr := e |}.

(** A reader or writer together with the world its stream is in. *)
Record Wire := { wi_rw : RW; wi_net : W }.

Definition on_rw {A} (f : RW -> A * RW) : GoM Wire A := fun x =>
  let (a, c) := f (wi_rw x) in (Ret a, {| wi_rw := c; wi_net := wi_net x |}).

Definition on_net {A} (f : H -> W -> A * W) : GoM Wire A := fun x =>
  let (a, w) := f (rw_s (wi_rw x)) (wi_net x) in (Ret a, {| wi_rw := wi_rw x; wi_net := w |}).

Definition rw_modify (f : RW -> RW) : GoM Wire unit := on_rw (fun c => (tt, f c)).
Definition rw_gets {A} (f : RW -> A) : GoM Wire A := on_rw (fun c => (f c, c)).

(** ** bufio.Reader *)

(** [b.readErr()] *)
Definition bufio_readErr : GoM Wire (option error) :=
  on_rw (fun c => (rw_rderr c, set_rd (rw_rd c) None c)).

(** [n = copy(p, b.buf[b.r:b.w]); b.r += n] *)
Definition bufio_copy (n : nat) : GoM Wire (bytes * option error) :=
  d ← rw_gets rw_rd;
  rw_modify (fun c => set_rd (drop n d) (rw_rderr c) c);;
  mret (take n d, None).

(** [bufio.Reader.Read] on a slice of [n] bytes *)
Definition bufio_Read (n : nat) : GoM Wire (bytes * option error) :=
  buffered ← rw_gets rw_rd;
  if decide (n = 0) then
    if decide (buffered = []) then e ← bufio_readErr; mret ([], e) else mret ([], None)
  else if decide (buffered = []) then
    err ← rw_gets rw_rderr;
    match err with
    | Some _ => e ← bufio_readErr; mret ([], e)
    | None =>
        if decide (defaultBufSize <= n) then
          r ← on_net (fun h => net_Read h n);
          rw_modify (set_rd [] r.2);;
          e ← bufio_readErr;
          mret (r.1, e)
        else
          r ← on_net (fun h => net_Read h defaultBufSize);
          rw_modify (set_rd r.1 r.2);;
          if decide (r.1 = []) then e ← bufio_readErr; mret ([], e) else bufio_copy n
    end
  else bufio_copy n.

(** ** bufio.Writer *)

Definition bufio_Flush : GoM Wire (option error) :=
  c ← rw_gets id;
  match rw_wrerr c with
  | Some err => mret (Some err)
  | None =>
      if decide (rw_wr c = []) then mret None
      else
        r ← on_net (fun h => net_Write h (rw_wr c));
        let err := if decide (r.1 < length (rw_wr c)) then Some (default ErrShortWrite r.2) else r.2 in
        match err with
        | Some err => rw_modify (set_wr (drop r.1 (rw_wr c)) (Some err));; mret (Some err)
        | None => rw_modify (set_wr [] None);; mret None
        end
  end.

(** [bufio.Writer.Write]: the loop runs while the rest of [p] does not fit
    in the buffer.  A run writes the rest directly, or fills the buffer and
    flushes it; a third run never happens, see [bufio_Write_frame]. *)
Fixpoint bufio_Write (fuel : nat) (p : bytes) : GoM Wire (option error) :=
  c ← rw_gets id;
  if decide (defaultBufSize - length (rw_wr c) < length p /\ rw_wrerr c = None) then
    match fuel with
    | 0 => gpanic
    | S fuel =>
        if decide (rw_wr c = []) then
          r ← on_net (fun h => net_Write h p);
          rw_modify (set_wr [] r.2);;
          bufio_Write fuel (drop r.1 p)
        else
          let n := defaultBufSize - length (rw_wr c) in
          rw_modify (set_wr (rw_wr c ++ take n p) None);;
          bufio_Flush;;
          bufio_Write fuel (drop n p)
    end
  else
    match rw_wrerr c with
    | Some err => mret (Some err)
    | None => rw_modify (set_wr (rw_wr c ++ p) None);; mret None
    end.

(** ** RW *)

(** [c.buf.Reset(); c.buf.Grow(n)] *)
Definition buf_grow (n : nat) : GoM Wire unit :=
  rw_modify (fun c => set_buf (buffer_Grow n (rw_buf c)) c).

(** storing [d] at the start of [c.buf.Bytes()[:n]] *)
Definition buf_fill (d : bytes) : GoM Wire unit :=
  rw_modify (fun c => set_buf (buffer_fill d (rw_buf c)) c).

Definition rw_Write (b : bytes) : GoM Wire (option error) :=
  buf_grow 4;;
  buf_fill (PutUint32 (u32 (Z.of_nat (length b))));;
  hdr ← rw_gets (fun c => take 4 (buf_arr (rw_buf c)));
  gcheck_e (gwrap_e "transmitting len" (bufio_Write 3 hdr)) (
  gcheck_e (gwrap_e "transmitting data" (bufio_Write 3 b)) (
  bufio_Flush)).

(** The result is a slice of [c.buf]. *)
Definition rw_Read : GoM Wire (result Slice) :=
  buf_grow 4;;
  r ← bufio_Read 4;
  buf_fill r.1;;
  match r.2 with
  | Some err => mret (Err err)
  | None =>
      hdr ← rw_gets (fun c => take 4 (buf_arr (rw_buf c)));
      len ← gsome (Uint32 hdr);
      let len := Z.to_nat len in
      buf_grow len;;
      r ← bufio_Read len;
      buf_fill r.1;;
      match r.2 with
      | Some err => mret (Err err)
      | None => sl ← rw_gets (fun c => buffer_slice (length r.1) (rw_buf c)); mret (Ok sl)
      end
  end.

(** [b, err := rw.Read()] as every caller goes on: [b] is decoded before the
    stream is used again, so what counts is what the slice shows at once. *)
Definition rw_ReadNow : GoM Wire (result bytes) :=
  gtry rw_Read (fun sl => d ← rw_gets (fun c => slice_bytes sl (rw_buf c)); mret (Ok d)).
End Stream.
Arguments RW : clear implicits.
Arguments Wire : clear implicits.
End Stream.
