(* ===== verification/StreamProps.v ===== *)
(** * Framing: what [Write] sends is what [Read] gives

    Theorems on [internal/stream]: a sequence of messages that fit in the buffer
    of [bufio] arrives unchanged, however the network groups the frames; a longer
    message, or one cut by the network, is returned in part without an error.  What
    [Read] returns is a slice of the buffer, which the next call overwrites. *)

From S2P Require Import Prelude Stream.

Module StreamProps.
Import Stream.

(** The bytes of a message on the wire. *)
Definition frame (b : bytes) : bytes := PutUint32 (u32 (Z.of_nat (length b))) ++ b.

(** Messages that, with their length, fit in a buffer. *)
Definition fits (b : bytes) : Prop := 4 + length b <= defaultBufSize.

#[export] Instance fits_dec b : Decision (fits b).
Proof. unfold fits. apply _. Defined.

Lemma frame_length b : length (frame b) = 4 + length b.
Proof. unfold frame. by rewrite length_app. Qed.

Lemma frame_cons b : frame b <> [].
Proof. done. Qed.

Lemma fill_take d b : take (length d) (buf_arr (buffer_fill d b)) = d.
Proof. unfold buffer_fill. simpl. by rewrite take_app_length. Qed.

(** A slice taken after a fill shows what was filled in. *)
Lemma fill_slice d b :
  slice_bytes (buffer_slice (length d) (buffer_fill d b)) (buffer_fill d b) = d.
Proof.
  unfold slice_bytes, buffer_slice. cbn [sl_arr sl_len]. rewrite lookup_app_r, Nat.sub_diag by lia.
  apply fill_take.
Qed.

Ltac rw_simpl :=
  cbn [set_buf set_rd set_wr wi_rw wi_net rw_s rw_buf rw_rd rw_rderr rw_wr rw_wrerr fst snd Wrap id].

Section StreamProps.
Context {W H : Type} `{!NetStream W H}.
Implicit Types (c : RW H) (w : W).

(** [h] takes each of the writes [bs], one after the other. *)
Inductive sends (h : H) : W -> list bytes -> W -> Prop :=
| sends_nil w : sends h w [] w
| sends_cons w w1 w2 b bs :
    net_Write h b w = (length b, None, w1) -> sends h w1 bs w2 -> sends h w (b :: bs) w2.

(** Successive reads with a whole buffer give the arrivals [ds]. *)
Inductive arrives (h : H) : W -> list bytes -> W -> Prop :=
| arrives_nil w : arrives h w [] w
| arrives_cons w w1 w2 d ds :
    net_Read h defaultBufSize w = (d, None, w1) -> arrives h w1 ds w2 -> arrives h w (d :: ds) w2.

(** [Write] of each message in turn, and as many calls of [Read], each looked at
    before the next. *)
Fixpoint write_all (ms : list bytes) : GoM (Wire W H) (option error) :=
  match ms with [] => mret None | m :: ms => gcheck_e (rw_Write m) (write_all ms) end.

Fixpoint read_all (n : nat) : GoM (Wire W H) (result (list bytes)) :=
  match n with
  | 0 => mret (Ok [])
  | S n => gtry rw_ReadNow (fun m => gtry (read_all n) (fun ms => mret (Ok (m :: ms))))
  end.

(** ** Writing *)

(** the three cases of the loop *)
Lemma bufio_Write_stop n p c w :
  length p <= defaultBufSize - length (rw_wr c) \/ rw_wrerr c <> None ->
  bufio_Write n p {| wi_rw := c; wi_net := w |} =
    match rw_wrerr c with
    | Some e => (Ret (Some e), {| wi_rw := c; wi_net := w |})
    | None => (Ret None, {| wi_rw := set_wr (rw_wr c ++ p) None c; wi_net := w |})
    end.
Proof.
  intros Hp. assert (~ (defaultBufSize - length (rw_wr c) < length p /\ rw_wrerr c = None)) as Hc
    by (intros []; destruct Hp; [lia|done]).
  destruct n; cbn [bufio_Write]; go_unfold; unfold rw_gets, on_rw; rw_simpl;
    rewrite (decide_False _ _ Hc); by destruct (rw_wrerr c).
Qed.

Lemma bufio_Write_direct n p c w k e w' :
  defaultBufSize < length p -> rw_wr c = [] -> rw_wrerr c = None ->
  net_Write (rw_s c) p w = (k, e, w') ->
  bufio_Write (S n) p {| wi_rw := c; wi_net := w |} =
  bufio_Write n (drop k p) {| wi_rw := set_wr [] e c; wi_net := w' |}.
Proof.
  intros Hp Hc He Hw. cbn [bufio_Write]. go_unfold. unfold rw_gets, on_rw. rw_simpl.
  rewrite decide_True by (by rewrite Hc, Nat.sub_0_r). rewrite (decide_True _ _ Hc).
  unfold on_net, rw_modify, on_rw. rw_simpl. by rewrite Hw.
Qed.

(** filling the buffer and flushing it either empties it or fails *)
Lemma bufio_Write_flush n p c w :
  defaultBufSize - length (rw_wr c) < length p -> rw_wr c <> [] -> rw_wrerr c = None ->
  exists c' w', rw_s c' = rw_s c /\ (rw_wr c' = [] \/ rw_wrerr c' <> None) /\
    bufio_Write (S n) p {| wi_rw := c; wi_net := w |} =
    bufio_Write n (drop (defaultBufSize - length (rw_wr c)) p) {| wi_rw := c'; wi_net := w' |}.
Proof.
  intros Hp Hc He. cbn [bufio_Write]. go_unfold. unfold rw_gets, on_rw. rw_simpl.
  rewrite decide_True, (decide_False _ _ Hc) by done.
  unfold rw_modify, bufio_Flush, on_rw. go_unfold. unfold rw_gets, on_rw. rw_simpl.
  rewrite decide_False by (intros [? ?]%app_eq_nil; done). unfold on_net. rw_simpl.
  destruct (net_Write _ _ _) as [[k e] w1]. cbn [fst snd].
  destruct (if decide (k < _) then _ else _) as [e'|]; eexists _, _; (split; [|split; [|reflexivity]]);
    try done; [by right|by left].
Qed.

(** Whatever the buffer holds, [bufio.Writer.Write] ends: the fuel is enough. *)
Lemma bufio_Write_frame `{!NetStreamLaws W H} p c w :
  exists e x', bufio_Write 3 p {| wi_rw := c; wi_net := w |} = (Ret e, x').
Proof.
  assert (Hstop : forall n p c w, length p <= defaultBufSize - length (rw_wr c) \/ rw_wrerr c <> None ->
    exists e x', bufio_Write n p {| wi_rw := c; wi_net := w |} = (Ret e, x')).
  { intros n q d v Hq. rewrite bufio_Write_stop by done. destruct (rw_wrerr d); by eexists _, _. }
  assert (Hdirect : forall n p c w, rw_wr c = [] \/ rw_wrerr c <> None ->
    exists e x', bufio_Write (S n) p {| wi_rw := c; wi_net := w |} = (Ret e, x')).
  { intros n q d v Hd. destruct (decide (rw_wrerr d = None)) as [He|He]; [|apply Hstop; by right].
    destruct Hd as [Hd|?]; [|done]. destruct (decide (defaultBufSize < length q)) as [Hq|Hq].
    2: { apply Hstop. left. rewrite Hd. cbn [length]. lia. }
    destruct (net_Write (rw_s d) q v) as [[k e] v'] eqn:Hw. rewrite (bufio_Write_direct n q d v k e v') by done.
    pose proof (net_Write_short (rw_s d) q v) as Hs. rewrite Hw in Hs. simpl in Hs.
    apply Hstop. cbn [set_wr rw_wr rw_wrerr length]. rewrite length_drop. destruct (decide (k < length q)) as [Hk|Hk]; [|left; lia].
    destruct (Hs Hk) as [? ->]. by right. }
  destruct (decide (rw_wrerr c = None)) as [He|He]; [|apply Hstop; by right].
  destruct (decide (rw_wr c = [])) as [Hc|Hc]; [apply Hdirect; by left|].
  destruct (decide (defaultBufSize - length (rw_wr c) < length p)) as [Hp|Hp]; [|apply Hstop; left; lia].
  destruct (bufio_Write_flush 2 p c w Hp Hc He) as (c'&w'&_&Hc'&->). by apply Hdirect.
Qed.

Lemma bufio_Flush_run c w w' :
  rw_wr c <> [] -> rw_wrerr c = None -> net_Write (rw_s c) (rw_wr c) w = (length (rw_wr c), None, w') ->
  bufio_Flush {| wi_rw := c; wi_net := w |} = (Ret None, {| wi_rw := set_wr [] None c; wi_net := w' |}).
Proof.
  intros Hc He Hw. unfold bufio_Flush, rw_gets, rw_modify, on_rw, on_net. go_unfold. rw_simpl.
  rewrite He, (decide_False _ _ Hc). rw_simpl. rewrite Hw. cbn [fst snd].
  by rewrite decide_False by lia.
Qed.

(** A message that fits goes out as one frame in one write. *)
Lemma rw_Write_run c w w' b :
  rw_wr c = [] -> rw_wrerr c = None -> fits b ->
  net_Write (rw_s c) (frame b) w = (4 + length b, None, w') ->
  exists arr, rw_Write b {| wi_rw := c; wi_net := w |} = (Ret None, {| wi_rw := set_buf arr c; wi_net := w' |}).
Proof.
  intros Hwr Herr Hfit Hnet. unfold fits in Hfit. destruct c as [s buf rd rderr wr wrerr]. simpl in *. subst.
  eexists. unfold rw_Write, buf_grow, buf_fill, rw_modify, gcheck_e, gwrap_e. go_unfold.
  unfold rw_gets, on_rw. rw_simpl.
  set (hdr := PutUint32 (u32 (Z.of_nat (length b)))). change (take 4) with (take (A := Byte.byte) (length hdr)). rewrite fill_take.
  rewrite bufio_Write_stop by (left; rw_simpl; simpl length; lia). rw_simpl.
  rewrite bufio_Write_stop by (left; rw_simpl; simpl length; lia). rw_simpl.
  rewrite (bufio_Flush_run _ w w'); [done|done|done|]. rw_simpl.
  change (net_Write s (frame b) w = (length (frame b), None, w')). by rewrite Hnet.
Qed.

(** ** Reading *)

Lemma bufio_copy_run n c w :
  bufio_copy n {| wi_rw := c; wi_net := w |} =
  (Ret (take n (rw_rd c), None), {| wi_rw := set_rd (drop n (rw_rd c)) (rw_rderr c) c; wi_net := w |}).
Proof. done. Qed.

(** Reading from a buffer that is not empty takes at most what it holds. *)
Lemma bufio_Read_buffered n c w :
  rw_rd c <> [] -> rw_rderr c = None ->
  bufio_Read n {| wi_rw := c; wi_net := w |} =
  (Ret (take n (rw_rd c), None), {| wi_rw := set_rd (drop n (rw_rd c)) None c; wi_net := w |}).
Proof.
  intros Hc He. unfold bufio_Read, rw_gets, on_rw. go_unfold. rw_simpl.
  rewrite (decide_False (P := rw_rd c = [])) by done. case_decide as Hn.
  - subst n. rewrite take_0, drop_0. destruct c; simpl in *; by subst.
  - rewrite (decide_False _ _ Hc). rewrite bufio_copy_run. by rewrite He.
Qed.

(** Reading nothing. *)
Lemma bufio_Read_zero c w :
  rw_rderr c = None ->
  bufio_Read 0 {| wi_rw := c; wi_net := w |} = (Ret ([], None), {| wi_rw := set_rd (rw_rd c) None c; wi_net := w |}).
Proof.
  intros He. unfold bufio_Read, bufio_readErr, rw_gets, on_rw. go_unfold. rw_simpl.
  rewrite (decide_True (P := 0 = 0)) by done. case_decide as Hc.
  - cbn. by rewrite He.
  - destruct c; simpl in *; by subst.
Qed.

(** An empty buffer is filled with one arrival. *)
Lemma bufio_Read_fill n c w d w' :
  0 < n < defaultBufSize -> d <> [] -> rw_rd c = [] -> rw_rderr c = None ->
  net_Read (rw_s c) defaultBufSize w = (d, None, w') ->
  bufio_Read n {| wi_rw := c; wi_net := w |} = bufio_Read n {| wi_rw := set_rd d None c; wi_net := w' |}.
Proof.
  intros Hn Hd Hc He Hr. rewrite (bufio_Read_buffered n (set_rd d None c)) by done.
  unfold bufio_Read, rw_gets, rw_modify, on_rw, on_net. go_unfold. rw_simpl.
  rewrite decide_False, (decide_True _ _ Hc) by lia. rw_simpl. rewrite He. rewrite decide_False by lia.
  rw_simpl. rewrite Hr. cbn [fst snd]. rewrite (decide_False _ _ Hd). by rewrite bufio_copy_run.
Qed.

(** The reader has [d] buffered, or nothing and [d] is the next arrival. *)
Definition next_bytes c w (d : bytes) w' : Prop :=
  d <> [] /\ rw_rderr c = None /\
  (rw_rd c = d /\ w' = w \/ rw_rd c = [] /\ net_Read (rw_s c) defaultBufSize w = (d, None, w')).

Lemma bufio_Read_next n c w d w' :
  0 < n < defaultBufSize -> next_bytes c w d w' ->
  bufio_Read n {| wi_rw := c; wi_net := w |} =
  (Ret (take n d, None), {| wi_rw := set_rd (drop n d) None c; wi_net := w' |}).
Proof.
  intros Hn (Hd&He&[[<- ->]|[Hc Hr]]); [by apply bufio_Read_buffered|].
  rewrite (bufio_Read_fill n c w d w') by done. by rewrite bufio_Read_buffered.
Qed.

(** [Read] takes the length of a message and as much of its body as came with
    the length; the slice it returns shows these bytes. *)
Lemma rw_Read_run c w w' (m d : bytes) :
  (Z.of_nat (length m) < 2 ^ 32)%Z -> d <> [] \/ m = [] ->
  next_bytes c w (PutUint32 (u32 (Z.of_nat (length m))) ++ d) w' ->
  exists sl arr, rw_Read {| wi_rw := c; wi_net := w |} =
    (Ret (Ok sl), {| wi_rw := set_rd (drop (length m) d) None (set_buf arr c); wi_net := w' |}) /\
    slice_bytes sl arr = take (length m) d.
Proof.
  intros Hm Hd Hnext. set (hdr := PutUint32 _) in *.
  eexists _, _. unfold rw_Read, buf_grow, buf_fill, rw_modify. go_unfold. unfold on_rw at 1. rw_simpl.
  rewrite (bufio_Read_next 4 _ w (hdr ++ d) w'); [|unfold defaultBufSize; lia|exact Hnext].
  unfold rw_gets, on_rw. rw_simpl.
  change (take 4) with (take (A := Byte.byte) (length hdr)). change (drop 4) with (drop (A := Byte.byte) (length hdr)).
  rewrite take_app_length, fill_take, drop_app_length.
  unfold hdr at 1. rewrite <- (app_nil_r (PutUint32 _)), Uint32_PutUint32. go_unfold.
  rewrite (u32_small (u32 _)), u32_small, Nat2Z.id by (rewrite ?u32_small; lia). rw_simpl.
  assert (forall c', rw_rd c' = d -> rw_rderr c' = None ->
    bufio_Read (length m) {| wi_rw := c'; wi_net := w' |} =
    (Ret (take (length m) d, None), {| wi_rw := set_rd (drop (length m) d) None c'; wi_net := w' |})) as Hbody.
  { intros c' Hc' He'. destruct Hd as [Hd| ->]; [subst d; by apply bufio_Read_buffered|].
    simpl. rewrite bufio_Read_zero by done. by rewrite drop_0, take_0, Hc'. }
  rewrite Hbody by done. rw_simpl. split; [reflexivity|]. apply fill_slice.
Qed.

Lemma rw_ReadNow_run c w w' (m d : bytes) :
  (Z.of_nat (length m) < 2 ^ 32)%Z -> d <> [] \/ m = [] ->
  next_bytes c w (PutUint32 (u32 (Z.of_nat (length m))) ++ d) w' ->
  exists arr, rw_ReadNow {| wi_rw := c; wi_net := w |} =
    (Ret (Ok (take (length m) d)),
     {| wi_rw := set_rd (drop (length m) d) None (set_buf arr c); wi_net := w' |}).
Proof.
  intros Hm Hd Hnext. destruct (rw_Read_run c w w' m d Hm Hd Hnext) as (sl&arr&Hr&Hs). exists arr.
  unfold rw_ReadNow, gtry, mbind, GoM_bind. rewrite Hr. unfold rw_gets, on_rw. rw_simpl. by rewrite Hs.
Qed.

(** ** Sequences of messages *)

Lemma write_all_run ms c w w' :
  rw_wr c = [] -> rw_wrerr c = None -> Forall fits ms -> sends (rw_s c) w (frame <$> ms) w' ->
  exists arr, write_all ms {| wi_rw := c; wi_net := w |} = (Ret None, {| wi_rw := set_buf arr c; wi_net := w' |}).
Proof.
  revert c w. induction ms as [|m ms IH]; intros c w Hwr Herr Hfit Hs; simpl.
  - inversion Hs; subst. exists (rw_buf c). by destruct c.
  - apply Forall_cons_1 in Hfit as [Hm Hfit]. inversion Hs as [|? w1 ? ? ? Hw Hs']; subst.
    rewrite frame_length in Hw. destruct (rw_Write_run c w w1 m Hwr Herr Hm Hw) as [arr Hrun].
    destruct (IH (set_buf arr c) w1) as [arr' Hrest]; [done..|].
    exists arr'. unfold gcheck_e. go_unfold. rewrite Hrun, Hrest. done.
Qed.

Lemma fits_u32 b : fits b -> (Z.of_nat (length b) < 2 ^ 32)%Z.
Proof. unfold fits, defaultBufSize. lia. Qed.

(** The rest of an arrival, then the arrivals that follow it. *)
Lemma read_all_run g gs c w w' :
  rw_rd c = concat (frame <$> g) -> rw_rderr c = None ->
  Forall fits g -> Forall (Forall fits) gs -> Forall (fun g => g <> []) gs ->
  arrives (rw_s c) w ((fun g => concat (frame <$> g)) <$> gs) w' ->
  exists c', read_all (length (g ++ concat gs)) {| wi_rw := c; wi_net := w |} =
    (Ret (Ok (g ++ concat gs)), {| wi_rw := c'; wi_net := w' |}).
Proof.
  intros Hrd Herr Hg Hgs Hne Harr. remember (length (g ++ concat gs)) as n eqn:Hn.
  revert g gs c w Hn Hrd Herr Hg Hgs Hne Harr.
  induction n as [|n IH]; intros g gs c w Hn Hrd Herr Hg Hgs Hne Harr.
  { symmetry in Hn. apply nil_length_inv, app_eq_nil in Hn as [-> Hc].
    destruct gs as [|g' gs]; [inversion Harr; subst; by eexists|].
    apply Forall_cons_1 in Hne as [Hne _]. by destruct g'. }
  assert (exists m g' gs' w1, m :: g' ++ concat gs' = g ++ concat gs /\
    next_bytes c w (concat (frame <$> m :: g')) w1 /\ Forall fits (m :: g') /\
    Forall (Forall fits) gs' /\ Forall (fun g => g <> []) gs' /\
    arrives (rw_s c) w1 ((fun g => concat (frame <$> g)) <$> gs') w') as (m&g'&gs'&w1&Heq&Hnext&Hf&Hf'&Hne'&Harr').
  { destruct g as [|m g]; [|exists m, g, gs, w; split_and!; try done; split_and!; try done; by left].
    destruct gs as [|[|m g] gs]; [done|by apply Forall_cons_1 in Hne as [? _]|].
    inversion Harr as [|? w1 ? ? ? Hr Harr']; subst. apply Forall_cons_1 in Hgs as [? ?], Hne as [_ ?].
    exists m, g, gs, w1. split_and!; try done. split_and!; try done. by right. }
  rewrite <- Heq in Hn |- *. apply Forall_cons_1 in Hf as [Hm Hf].
  destruct (rw_ReadNow_run c w w1 m (m ++ concat (frame <$> g'))) as [arr Hrun].
  - by apply fits_u32.
  - destruct m; [by right|by left].
  - exact Hnext.
  - rewrite take_app_length, drop_app_length in Hrun. simpl in Hn.
    destruct (IH g' gs' (set_rd (concat (frame <$> g')) None (set_buf arr c)) w1) as [c' Hrest]; try done; [lia|].
    exists c'. cbn [read_all]. unfold gtry. go_unfold. rewrite Hrun, Hrest. done.
Qed.

(** C25. Messages written with [Write] are read back by [Read], in their order
    and unchanged: each goes out as one frame, and whatever groups of whole
    frames the network delivers them in, the slices that as many calls of [Read]
    return show exactly the messages, each until the next call, for messages that
    fit in a buffer with their length. *)
Theorem frames_roundtrip h (cs cr : RW H) ws ws' wr wr' (gs : list (list bytes)) :
  rw_wr cs = [] -> rw_wrerr cs = None -> rw_rd cr = [] -> rw_rderr cr = None ->
  Forall (Forall fits) gs -> Forall (fun g => g <> []) gs ->
  sends (rw_s cs) ws (frame <$> concat gs) ws' ->
  rw_s cr = h -> arrives h wr ((fun g => concat (frame <$> g)) <$> gs) wr' ->
  (exists cs', write_all (concat gs) {| wi_rw := cs; wi_net := ws |} = (Ret None, {| wi_rw := cs'; wi_net := ws' |})) /\
  (exists cr', read_all (length (concat gs)) {| wi_rw := cr; wi_net := wr |} =
     (Ret (Ok (concat gs)), {| wi_rw := cr'; wi_net := wr' |})).
Proof.
  intros Hwr Hwe Hrd Hre Hf Hne Hs <- Ha. split.
  - destruct (write_all_run (concat gs) cs ws ws') as [arr Hrun]; try done; [|by eexists].
    by apply Forall_concat.
  - by apply (read_all_run [] gs cr wr wr').
Qed.

(** [Read] gives at most what arrived together with the length: of a message
    of which only a part came in the same arrival it returns that part, without
    an error.  A message longer than 4092 bytes never fits in one arrival. *)
Theorem Read_truncates (cr : RW H) w w' (m d : bytes) :
  (Z.of_nat (length m) < 2 ^ 32)%Z -> rw_rd cr = [] -> rw_rderr cr = None ->
  net_Read (rw_s cr) defaultBufSize w = (d, None, w') -> length d <= defaultBufSize ->
  4 < length d -> d `prefix_of` frame m -> d <> frame m ->
  exists c' m', rw_ReadNow {| wi_rw := cr; wi_net := w |} = (Ret (Ok m'), {| wi_rw := c'; wi_net := w' |}) /\
    m' `prefix_of` m /\ length m' = length d - 4 /\ length m' < length m /\ length m' <= 4092.
Proof.
  intros Hm Hrd Hre Hnet Hmax Hd [rest Hpre] Hne.
  assert (exists d', d = PutUint32 (u32 (Z.of_nat (length m))) ++ d' /\ m = d' ++ rest) as (d'&->&Heq).
  { exists (drop 4 d). split.
    - pose proof (f_equal (take 4) Hpre) as Ht. rewrite take_app_le in Ht by lia.
      rewrite <- (take_drop 4 d) at 1. by rewrite <- Ht.
    - pose proof (f_equal (drop 4) Hpre) as Ht. by rewrite drop_app_le in Ht by lia. }
  rewrite length_app in Hd, Hmax. cbn [length PutUint32] in Hd, Hmax.
  destruct (rw_ReadNow_run cr w w' m d') as [arr Hrun]; [done| |split_and!; [done..|by right]|].
  { left. destruct d'; [simpl in Hd; lia|done]. }
  assert (0 < length rest).
  { destruct rest; [|simpl; lia]. rewrite app_nil_r in Hpre. by symmetry in Hpre. }
  rewrite take_ge in Hrun by (rewrite Heq, length_app; lia).
  eexists _, d'. split; [exact Hrun|]. rewrite length_app. cbn [length PutUint32].
  split_and!; [by exists rest|lia| |unfold defaultBufSize in Hmax; lia].
  rewrite Heq, length_app. lia.
Qed.
End StreamProps.

(** ** A stream in memory

    Arrivals to be read, each at once as far as the slice goes, and the writes
    that were made. *)
Record Pipe := { p_in : list bytes; p_out : list bytes }.

Definition pipe_Read (h : unit) (n : nat) (p : Pipe) : (bytes * option error) * Pipe :=
  match p_in p with
  | [] => ([], Some io_EOF, p)
  | d :: ds => (take n d, None, {| p_in := if decide (length d <= n) then ds else drop n d :: ds; p_out := p_out p |})
  end.

#[export] Instance pipe_stream : NetStream Pipe unit := {|
  net_Read := pipe_Read;
  net_Write h b p := (length b, None, {| p_in := p_in p; p_out := p_out p ++ [b] |});
  net_Close h p := (None, p)
|}.

#[export] Instance pipe_laws : NetStreamLaws Pipe unit.
Proof.
  split; simpl; [|lia..]. intros h n [[|d ds] out]; unfold pipe_Read; simpl; [lia|].
  rewrite length_take. lia.
Qed.

Definition hello : bytes := bytes_of_string "hello".
Definition world : bytes := bytes_of_string "world".

(** Two messages in one arrival and an empty one in the next. *)
Lemma frames_roundtrip_witness :
  (exists cs', write_all (concat [[hello; world]; [[]]]) {| wi_rw := NewRW tt; wi_net := {| p_in := []; p_out := [] |} |} =
     (Ret None, {| wi_rw := cs'; wi_net := {| p_in := []; p_out := [frame hello; frame world; frame []] |} |})) /\
  (exists cr', read_all 3 {| wi_rw := NewRW tt; wi_net := {| p_in := [frame hello ++ frame world; frame []]; p_out := [] |} |} =
     (Ret (Ok [hello; world; []]), {| wi_rw := cr'; wi_net := {| p_in := []; p_out := [] |} |})).
Proof.
  refine (frames_roundtrip tt (NewRW tt) (NewRW tt) {| p_in := []; p_out := [] |}
    {| p_in := []; p_out := [frame hello; frame world; frame []] |}
    {| p_in := [frame hello ++ frame world; frame []]; p_out := [] |} {| p_in := []; p_out := [] |}
    [[hello; world]; [[]]] eq_refl eq_refl eq_refl eq_refl _ _ _ eq_refl _).
  - apply (bool_decide_eq_true_1 _). by_vm.
  - by repeat constructor.
  - repeat (econstructor; [reflexivity|]). constructor.
  - repeat (econstructor; [reflexivity|]). constructor.
Defined.

(** A slice that is kept over the next [Read] shows the next message. *)
Definition after_reads (n : nat) : Wire Pipe unit :=
  (read_all n {| wi_rw := NewRW tt; wi_net := {| p_in := [frame hello ++ frame world]; p_out := [] |} |}).2.

Example slice_overwritten :
  exists sl, (rw_Read (after_reads 0)).1 = Ret (Ok sl) /\
    slice_bytes sl (rw_buf (wi_rw (after_reads 1))) = hello /\
    slice_bytes sl (rw_buf (wi_rw (after_reads 2))) = world.
Proof. exists {| sl_arr := 1; sl_len := 5 |}. by split_and!. Qed.

(** A frame cut after six bytes. *)
Lemma Read_truncates_witness :
  exists c' m', rw_ReadNow {| wi_rw := NewRW tt; wi_net := {| p_in := [take 6 (frame hello)]; p_out := [] |} |} =
      (Ret (Ok m'), {| wi_rw := c'; wi_net := {| p_in := []; p_out := [] |} |}) /\
    m' `prefix_of` hello /\ length m' = length (take 6 (frame hello)) - 4 /\ length m' < length hello /\ length m' <= 4092.
Proof.
  refine (Read_truncates (NewRW tt) {| p_in := [take 6 (frame hello)]; p_out := [] |}
    {| p_in := []; p_out := [] |} hello (take 6 (frame hello)) _ eq_refl eq_refl eq_refl _ _ _ _).
  - done.
  - unfold defaultBufSize. simpl. lia.
  - simpl. lia.
  - exists (drop 6 (frame hello)). symmetry. apply take_drop.
  - done.
Defined.
End StreamProps.
