(* ===== verification/Identity.v ===== *)
(** * Identities: pkg/did/{publicIdentity,privateIdentity}.go and the identity
      file of internal/did/fileStore.go

    A public identity is a name with keys behind Go interfaces, whose equality
    compares addresses for pointers and panics for slices; both are kept.  The
    identity file is read and written through a file system parameter. *)

From S2P Require Import Prelude Externals Cryptography.

(** The libraries of this component: [rsa] keys, the text form of a multihash
    and the yaml codec of the identity file. *)
Record IdentityFileStoreId := { fid_Type : string; fid_Data : string }.

#[export] Instance IdentityFileStoreId_eq_dec : EqDecision IdentityFileStoreId.
Proof. solve_decision. Defined.

Class IdLib := {
  RsaPub : Type;
  RsaPriv : Type;
  mh_B58String : bytes -> string;
  yaml_Marshal : list IdentityFileStoreId -> result bytes;
  (** decoding into a value that is already there *)
  yaml_Unmarshal : bytes -> list IdentityFileStoreId -> result (list IdentityFileStoreId)
}.

Class YamlLaws `{IdLib} : Prop := {
  yaml_Unmarshal_Marshal : forall l d l0, yaml_Marshal l = Ok d -> yaml_Unmarshal d l0 = Ok l;
  (** an empty file has no document, and decoding changes nothing *)
  yaml_Unmarshal_empty : forall l0, yaml_Unmarshal [] l0 = Ok l0
}.

(** Files of a world [W], addressed by their path.  Every call may fail. *)
Class FileSystem (W : Type) := {
  os_OpenFile : string -> W -> option error * W;
  io_ReadAll : string -> W -> result bytes * W;
  file_Truncate0 : string -> W -> option error * W;
  file_Write : string -> bytes -> W -> option error * W;
  (** what the file holds; [None]: there is no file *)
  fs_content : W -> string -> option bytes
}.

(** [os.OpenFile] with [O_CREATE] makes an empty file and otherwise changes
    nothing; a handle that was just opened reads and writes from the start. *)
Class FileSystemLaws (W : Type) `{!FileSystem W} : Prop := {
  os_OpenFile_spec : forall p w w', os_OpenFile p w = (None, w') ->
    fs_content w' p = Some (default [] (fs_content w p));
  io_ReadAll_spec : forall p d w w', io_ReadAll p w = (Ok d, w') ->
    fs_content w p = Some d /\ fs_content w' p = Some d;
  file_Truncate0_spec : forall p w w', file_Truncate0 p w = (None, w') ->
    is_Some (fs_content w p) -> fs_content w' p = Some [];
  file_Write_spec : forall p d c w w', file_Write p d w = (None, w') ->
    fs_content w p = Some c -> fs_content w' p = Some (d ++ drop (length d) c)
}.

Module Identity.
Import Cryptography.

Section Identity.
Context `{L : Lib} `{IL : IdLib}.

(** ** publicIdentity.go *)

(** The values of a [crypto.PublicKey] interface the program meets: pointers
    carry their address; [KVal] is any other dynamic type, with whether the
    language can compare it. *)
Inductive Key :=
| KNil
| KEd25519 (k : bytes)
| KRsa (addr : nat) (k : RsaPub)
| KEcdsa (addr : nat) (k : EcdsaPub)
| KBls (addr : nat) (k : Point)
| KVal (type : string) (comparable : bool) (v : bytes).

(** [a == b] on interfaces *)
Definition key_eq {S} (a b : Key) : GoM S bool :=
  match a, b with
  | KNil, KNil => mret true
  | KEd25519 _, KEd25519 _ => gpanic
  | KRsa x _, KRsa y _ => mret (bool_decide (x = y))
  | KEcdsa x _, KEcdsa y _ => mret (bool_decide (x = y))
  | KBls x _, KBls y _ => mret (bool_decide (x = y))
  | KVal t _ v, KVal t' c v' =>
      if bool_decide (t = t') then if c then mret (bool_decide (v = v')) else gpanic
      else mret false
  | _, _ => mret false
  end.

(** [type PublicKey struct] and [type PublicIdentity struct] *)
Record DidPublicKey := { pk_Key : Key }.
Record PublicIdentity := { pi_ID : string; pi_PublicKeys : list DidPublicKey }.

Definition AsMultibase (pk : DidPublicKey) : result string :=
  EncodeMultibase (match pk_Key pk with
                   | KEd25519 k => PkEd25519 k
                   | KBls _ k => PkBls12381 k
                   | _ => PkOther
                   end).

(** the inner loop, which goes on after a match *)
Fixpoint matches_key {S} (k : Key) (ppks : list DidPublicKey) (f : bool) : GoM S bool :=
  match ppks with
  | [] => mret f
  | ppk :: ppks => e ← key_eq (pk_Key ppk) k; matches_key k ppks (f || e)
  end.

Fixpoint matches_keys {S} (pipks ppks : list DidPublicKey) : GoM S bool :=
  match pipks with
  | [] => mret true
  | pipk :: pipks =>
      f ← matches_key (pk_Key pipk) ppks false;
      if f : bool then matches_keys pipks ppks else mret false
  end.

Definition Matches {S} (pi p : PublicIdentity) : GoM S bool :=
  if bool_decide (pi_ID pi = pi_ID p) then matches_keys (pi_PublicKeys pi) (pi_PublicKeys p)
  else mret false.

(** ** privateIdentity.go *)

(** The implementations of [PrivateIdentity]. *)
Inductive PrivateIdentity :=
| Ed25519Identity (sk : bytes)
| Bls12381G2Identity (sk : Bls12381PrivateKey).

(** The dynamic type of [PrivateKey()], and the other kinds of private keys a
    caller may hand to [sign]. *)
Inductive PrivKey :=
| SkEd25519 (sk : bytes)
| SkBls (sk : Bls12381PrivateKey)
| SkEcdsa (sk : EcdsaPriv)
| SkRsa (sk : RsaPriv)
| SkOther.

Definition PrivateKey (id : PrivateIdentity) : PrivKey :=
  match id with
  | Ed25519Identity sk => SkEd25519 sk
  | Bls12381G2Identity sk => SkBls sk
  end.

Definition NewEd25519Identity (sk : bytes) : PrivateIdentity := Ed25519Identity sk.

(** [ed25519.PrivateKey.Public]: [publicKey := make([]byte, 32);
    copy(publicKey, priv[32:])] *)
Definition ed25519_Public {S} (sk : bytes) : GoM S bytes :=
  if decide (length sk < 32) then gpanic
  else let pk := take 32 (drop 32 sk) in mret (pk ++ replicate (32 - length pk) x00).

(** [fresh] is the address of the key object a BLS identity makes. *)
Definition bls_PublicIdentity (fresh : nat) (sk : Bls12381PrivateKey) : result PublicIdentity :=
  let pk := bls_Public sk in
  pkraw ← bls_Bytes pk;
  mh ← multihash_Sum pkraw SHA3_384;
  Ok {| pi_ID := mh_B58String mh; pi_PublicKeys := [{| pk_Key := KBls fresh (bls_Point pk) |}] |}.

Definition PublicIdentity_ {S} (fresh : nat) (id : PrivateIdentity) : GoM S (result PublicIdentity) :=
  match id with
  | Ed25519Identity sk =>
      pk ← ed25519_Public sk;
      mret (mh ← multihash_Sum pk SHA3_384;
            Ok {| pi_ID := mh_B58String mh; pi_PublicKeys := [{| pk_Key := KEd25519 pk |}] |})
  | Bls12381G2Identity sk => mret (bls_PublicIdentity fresh sk)
  end.

(** ** fileStore.go *)

Section FileStore.
Context {W : Type} `{!FileSystem W} `{!RangeOrder}.

(** [type FileStore struct], in the world its file is in; the mutex is the
    atomicity of a method. *)
Record FileStore := {
  fs_path : string;
  fs_ids : list IdentityFileStoreId;
  fs_idx : gomap string PrivateIdentity
}.

Record Disk := { d_store : FileStore; d_world : W }.
Notation M := (GoM Disk).

Definition set_ids (l : list IdentityFileStoreId) (f : FileStore) : FileStore :=
  {| fs_path := fs_path f; fs_ids := l; fs_idx := fs_idx f |}.
Definition set_idx (m : gomap string PrivateIdentity) (f : FileStore) : FileStore :=
  {| fs_path := fs_path f; fs_ids := fs_ids f; fs_idx := m |}.

Definition store_modify (f : FileStore -> FileStore) : M unit :=
  gmodify (fun x => {| d_store := f (d_store x); d_world := d_world x |}).

(** a system call on the store's file *)
Definition sys {A} (f : string -> W -> A * W) : M A := fun x =>
  let (a, w) := f (fs_path (d_store x)) (d_world x) in (Ret a, {| d_store := d_store x; d_world := w |}).

Definition decodeType (t data : string) : result PrivateIdentity :=
  '(_, raw) ← wrap "decoding identity data" (multibase_Decode data);
  if bool_decide (t = "ed25519"%string) then Ok (NewEd25519Identity raw)
  else Err (errorsNew ("unknown key type " ++ t)).

Definition index_id (fid : IdentityFileStoreId) : M (option error) :=
  gtry_e (mret (wrap "decoding id" (decodeType (fid_Type fid) (fid_Data fid)))) (fun id =>
  gtry_e (gwrap "getting public id from private" (PublicIdentity_ 0 id)) (fun pid =>
  idx ← ggets (fun x => fs_idx (d_store x));
  idx ← gsome (gm_set (pi_ID pid) id idx);
  store_modify (set_idx idx);;
  mret None)).

Definition buildIdx : M (option error) :=
  store_modify (set_idx gm_make);;
  ids ← ggets (fun x => fs_ids (d_store x));
  gfor_e ids index_id.

Definition read : M (option error) :=
  gcheck_e (gwrap_e "opening identity file for read" (sys os_OpenFile)) (
  gtry_e (gwrap "" (sys io_ReadAll)) (fun d =>
  l ← ggets (fun x => fs_ids (d_store x));
  gtry_e (mret (wrap "unmarshalling identity data" (yaml_Unmarshal d l))) (fun l =>
  store_modify (set_ids l);;
  buildIdx))).

Definition write : M (option error) :=
  gcheck_e (gwrap_e "opening identity file for write" (sys os_OpenFile)) (
  l ← ggets (fun x => fs_ids (d_store x));
  gtry_e (mret (wrap "marshalling identity data" (yaml_Marshal l))) (fun d =>
  gcheck_e (sys file_Truncate0) (
  sys (fun p => file_Write p d)))).

(** [NewFileStore(path)] in a world: the store, or the error of [read] *)
Definition NewFileStore (path : string) (w : W) : exit (result FileStore) * W :=
  match read {| d_store := {| fs_path := path; fs_ids := []; fs_idx := None |}; d_world := w |} with
  | (Ret None, x) => (Ret (Ok (d_store x)), d_world x)
  | (Ret (Some e), x) => (Ret (Err e), d_world x)
  | (Panic, x) => (Panic, d_world x)
  end.

Definition Add (id : PrivateIdentity) : M (option error) :=
  gtry_e (PublicIdentity_ 0 id) (fun pid =>
  idx ← ggets (fun x => fs_idx (d_store x));
  match gm_get (pi_ID pid) idx with
  | Some _ => mret None
  | None =>
      match id with
      | Ed25519Identity pk =>
          gtry_e (mret (wrap "encoding private key to multibase" (multibase_Encode Base64 pk))) (fun raw =>
          store_modify (fun f => set_ids (fs_ids f ++ [{| fid_Type := "ed25519"; fid_Data := raw |}]) f);;
          write)
      | Bls12381G2Identity _ => mret (Some (errorsNew "unknown did PK type"))
      end
  end).

Definition Find (id : string) (f : FileStore) : result PrivateIdentity :=
  match gm_get id (fs_idx f) with
  | None => Err (errorsNew "not found")
  | Some i => Ok i
  end.

Definition List_ (f : FileStore) : result (list PrivateIdentity) :=
  Ok (snd <$> map_range (default ∅ (fs_idx f))).
End FileStore.
End Identity.
End Identity.
