(* ===== verification/IdentityProps.v ===== *)
(** * Theorems on identities and the identity file *)

From S2P Require Import Prelude Externals Cryptography Identity.

Module IdentityProps.
Import Cryptography Identity.

Section Matching.
Context `{L : Lib} `{IL : IdLib}.

(** A key that Go can compare with any other. *)
Definition comparable (k : Key) : bool :=
  match k with KEd25519 _ => false | KVal _ c _ => c | _ => true end.

(** Identity of interface values: same dynamic type and same address or value. *)
Definition same_key (a b : Key) : bool :=
  match a, b with
  | KNil, KNil => true
  | KRsa x _, KRsa y _ | KEcdsa x _, KEcdsa y _ | KBls x _, KBls y _ => bool_decide (x = y)
  | KVal t _ v, KVal t' _ v' => bool_decide (t = t') && bool_decide (v = v')
  | _, _ => false
  end.

Lemma key_eq_run {S} (s : S) a b : comparable b = true -> key_eq a b s = (Ret (same_key a b), s).
Proof.
  destruct a, b; simpl; try done. intros ->. by case_bool_decide.
Qed.

Lemma matches_key_run {S} (s : S) k ks f :
  comparable k = true ->
  matches_key k ks f s = (Ret (f || existsb (fun p => same_key (pk_Key p) k) ks), s).
Proof.
  intros Hk. revert f. induction ks as [|p ks IH]; intros f; simpl; [by rewrite orb_false_r|].
  go_unfold. rewrite (key_eq_run s _ _ Hk). rewrite IH. by rewrite orb_assoc.
Qed.

Lemma matches_keys_run {S} (s : S) ks ps :
  Forall (fun p => comparable (pk_Key p) = true) ks ->
  matches_keys ks ps s = (Ret (forallb (fun k => existsb (fun p => same_key (pk_Key p) (pk_Key k)) ps) ks), s).
Proof.
  induction 1 as [|k ks Hk _ IH]; simpl; [done|]. go_unfold.
  rewrite (matches_key_run s _ _ _ Hk). simpl. by destruct (existsb _ ps).
Qed.

(** [Matches] is true exactly if the names are equal and every key of the
    receiver, not only one as its comment says, is among the keys of the
    argument, for keys Go can compare; the argument may have others. *)
Theorem Matches_spec {S} (s : S) pi p :
  Forall (fun k => comparable (pk_Key k) = true) (pi_PublicKeys pi) ->
  exists b, Matches pi p s = (Ret b, s) /\
    (b = true <-> pi_ID pi = pi_ID p /\
      forall k, k ∈ pi_PublicKeys pi -> exists k', k' ∈ pi_PublicKeys p /\ same_key (pk_Key k') (pk_Key k) = true).
Proof.
  intros Hc. unfold Matches. case_bool_decide as Hid.
  - rewrite (matches_keys_run s _ _ Hc). eexists. split; [done|].
    rewrite forallb_forall. split.
    + intros Hall. split; [done|]. intros k Hk%list_elem_of_In. specialize (Hall k Hk).
      apply existsb_exists in Hall as (k'&?%list_elem_of_In&?). eauto.
    + intros [_ Hall] k Hk%list_elem_of_In. apply existsb_exists.
      destruct (Hall k Hk) as (k'&?%list_elem_of_In&?). eauto.
  - exists false. split; [done|]. split; [done|]. by intros [? _].
Qed.

End Matching.

Section Files.
Context `{L : Lib} `{IL : IdLib}.

Lemma PublicIdentity_stateless {S} n id (s : S) :
  PublicIdentity_ n id s = ((PublicIdentity_ n id tt).1, s).
Proof.
  destruct id; simpl; [|done]. unfold PublicIdentity_, ed25519_Public. go_unfold. by case_decide.
Qed.

(** An Ed25519 identity never matches: comparing its public identity, of
    which there can be several copies, with one that has the same name and an
    Ed25519 key panics, since the language does not compare slices. *)
Lemma Matches_ed25519_panics {S} (s : S) n sk pi p k :
  (PublicIdentity_ n (Ed25519Identity sk) tt).1 = Ret (Ok pi) ->
  pi_ID p = pi_ID pi -> {| pk_Key := KEd25519 k |} ∈ pi_PublicKeys p ->
  Matches pi p s = (Panic, s) /\ Matches pi pi s = (Panic, s).
Proof.
  intros Hpi Hid Hk. unfold PublicIdentity_, ed25519_Public in Hpi. revert Hpi. go_unfold.
  case_decide; [done|]. destruct (multihash_Sum _ _) as [mh|]; [|done]. intros [= <-].
  assert (forall ks pk f, {| pk_Key := KEd25519 k |} ∈ ks -> matches_key (KEd25519 pk) ks f s = (Panic, s)) as Hm.
  { induction ks as [|k' ks IH]; intros pk f Hin; [by apply not_elem_of_nil in Hin|].
    simpl. go_unfold. destruct (pk_Key k') eqn:Hk'; simpl; try done;
      (apply IH; apply elem_of_cons in Hin as [<-|?]; [done|done]). }
  unfold Matches. simpl in *. rewrite Hid, !bool_decide_true by done. split; [|done].
  simpl. go_unfold. by rewrite (Hm _ _ _ Hk).
Qed.

Context {W : Type} `{!FileSystem W}.
Implicit Types (f : FileStore) (w : W).

(** The index of a list of identities; [None] if one of them does not decode. *)
Fixpoint idx_of (l : list IdentityFileStoreId) (m : gmap string PrivateIdentity) : option (gmap string PrivateIdentity) :=
  match l with
  | [] => Some m
  | fid :: l =>
      match decodeType (fid_Type fid) (fid_Data fid) with
      | Err _ => None
      | Ok id =>
          match (PublicIdentity_ 0 id tt).1 with
          | Ret (Ok pid) => idx_of l (<[pi_ID pid := id]> m)
          | _ => None
          end
      end
  end.

Lemma idx_of_app l1 l2 m : idx_of (l1 ++ l2) m = idx_of l1 m ≫= idx_of l2.
Proof.
  revert m. induction l1 as [|fid l1 IH]; intros m; simpl; [done|].
  destruct (decodeType _ _); [|done]. destruct (PublicIdentity_ _ _ _).1 as [[]|]; [apply IH|done..].
Qed.

(** the body and the loop of [buildIdx] *)
Lemma index_id_run fid f w m :
  fs_idx f = Some m ->
  match idx_of [fid] m with
  | Some m' => index_id fid {| d_store := f; d_world := w |} =
      (Ret None, {| d_store := set_idx (Some m') f; d_world := w |})
  | None => (index_id fid {| d_store := f; d_world := w |}).1 <> Ret None
  end.
Proof.
  intros Hm. unfold index_id, gtry_e, gwrap. go_unfold. simpl.
  destruct (decodeType _ _) as [id|]; simpl; [|done].
  rewrite (PublicIdentity_stateless 0 id {| d_store := f; d_world := w |}).
  destruct (PublicIdentity_ _ _ _).1 as [[pid|]|]; simpl; [|done..].
  unfold ggets, store_modify, gmodify. simpl. by rewrite Hm.
Qed.

Lemma index_ids_run l f w m :
  fs_idx f = Some m ->
  match idx_of l m with
  | Some m' => gfor_e l index_id {| d_store := f; d_world := w |} =
      (Ret None, {| d_store := set_idx (Some m') f; d_world := w |})
  | None => (gfor_e l index_id {| d_store := f; d_world := w |}).1 <> Ret None
  end.
Proof.
  revert f m. induction l as [|fid l IH]; intros f m Hm; [by destruct f; simpl in *; subst|].
  change (fid :: l) with ([fid] ++ l). rewrite idx_of_app. pose proof (index_id_run fid f w m Hm) as Hid.
  cbn [app gfor_e]. unfold gcheck_e. go_unfold. destruct (idx_of [fid] m) as [m1|]; cbn [mbind option_bind].
  - rewrite Hid. specialize (IH (set_idx (Some m1) f) m1 eq_refl). by destruct (idx_of l m1).
  - by destruct (index_id _ _) as [[[]|] ?].
Qed.

(** A store whose index is that of its list. *)
Definition store_ok f : Prop := exists m, fs_idx f = Some m /\ idx_of (fs_ids f) ∅ = Some m.

(** Reading the file: what it holds becomes the list, and its index the index. *)
Lemma read_run `{!FileSystemLaws W} p w w1 w2 d :
  os_OpenFile p w = (None, w1) -> io_ReadAll p w1 = (Ok d, w2) ->
  d = default [] (fs_content w p) /\ fs_content w2 p = Some d /\
  match yaml_Unmarshal d [] with
  | Ok l =>
      match idx_of l ∅ with
      | Some m => NewFileStore p w = (Ret (Ok {| fs_path := p; fs_ids := l; fs_idx := Some m |}), w2)
      | None => forall f, (NewFileStore p w).1 <> Ret (Ok f)
      end
  | Err _ => forall f, (NewFileStore p w).1 <> Ret (Ok f)
  end.
Proof.
  intros Hopen Hread. pose proof (os_OpenFile_spec _ _ _ Hopen) as Hc.
  destruct (io_ReadAll_spec _ _ _ _ Hread) as [Hd Hd']. rewrite Hd in Hc. injection Hc as <-.
  split; [done|]. split; [done|].
  unfold NewFileStore, read, gcheck_e, gwrap_e, gtry_e, gwrap, sys. go_unfold. simpl. rewrite Hopen. simpl.
  rewrite Hread. simpl. destruct (yaml_Unmarshal d []) as [l|]; simpl; [|done].
  unfold buildIdx, store_modify, gmodify, ggets. go_unfold. simpl.
  pose proof (index_ids_run l (set_idx gm_make (set_ids l {| fs_path := p; fs_ids := []; fs_idx := None |}))
    w2 ∅ eq_refl) as Hrun.
  destruct (idx_of l ∅) as [m|]; [by rewrite Hrun|].
  destruct (gfor_e l index_id _) as [[[]|] ?]; simpl in *; done.
Qed.

(** A store that [NewFileStore] makes is well formed: its list is the content
    of the file, and [Find] gives exactly the identities of the list, each under
    the name of its public identity (the last one, if a name occurs twice). *)
Theorem NewFileStore_ok `{!FileSystemLaws W} p w f w' :
  NewFileStore p w = (Ret (Ok f), w') ->
  fs_path f = p /\ store_ok f /\
  exists d, fs_content w' p = Some d /\ yaml_Unmarshal d [] = Ok (fs_ids f).
Proof.
  intros Hnew. assert (exists w1 d w2, os_OpenFile p w = (None, w1) /\ io_ReadAll p w1 = (Ok d, w2)) as (w1&d&w2&Ho&Hr).
  { revert Hnew. unfold NewFileStore, read, gcheck_e, gwrap_e, gtry_e, gwrap, sys. go_unfold. simpl.
    destruct (os_OpenFile p w) as [[e|] w1]; simpl; [done|].
    destruct (io_ReadAll p w1) as [[d|] w2] eqn:Hr; simpl; [eauto|done]. }
  destruct (read_run p w w1 w2 d Ho Hr) as (_&Hd&Hres). rewrite Hnew in Hres.
  destruct (yaml_Unmarshal d []) as [l|] eqn:Hl; [|by specialize (Hres f)].
  destruct (idx_of l ∅) as [m|] eqn:Hm; [|by specialize (Hres f)]. injection Hres as -> ->.
  split_and!; [done|by exists m|]. by exists d.
Qed.

(** What a successful [Add] of a new identity did. *)
Lemma Add_new `{!FileSystemLaws W} id f w x' pid :
  (PublicIdentity_ 0 id tt).1 = Ret (Ok pid) -> gm_get (pi_ID pid) (fs_idx f) = None ->
  Add id {| d_store := f; d_world := w |} = (Ret None, x') ->
  exists sk raw d, id = Ed25519Identity sk /\ multibase_Encode Base64 sk = Ok raw /\
    d_store x' = set_ids (fs_ids f ++ [{| fid_Type := "ed25519"; fid_Data := raw |}]) f /\
    yaml_Marshal (fs_ids (d_store x')) = Ok d /\ fs_content (d_world x') (fs_path f) = Some d.
Proof.
  intros Hpid Hget. unfold Add, gtry_e. go_unfold. rewrite PublicIdentity_stateless, Hpid. unfold ggets. simpl.
  rewrite Hget. destruct id as [sk|]; [|done].
  destruct (multibase_Encode Base64 sk) as [raw|] eqn:Henc; simpl; [|done].
  unfold store_modify, gmodify, write, gcheck_e, gwrap_e, gtry_e, sys. go_unfold. simpl.
  destruct (os_OpenFile (fs_path f) w) as [[|] w1] eqn:Ho; simpl; [done|]. unfold ggets. simpl.
  destruct (yaml_Marshal _) as [d|] eqn:Hd; simpl; [|done].
  destruct (file_Truncate0 (fs_path f) w1) as [[|] w2] eqn:Ht; simpl; [done|].
  destruct (file_Write (fs_path f) d w2) as [[|] w3] eqn:Hw; simpl; [done|]. intros [= <-].
  exists sk, raw, d. split_and!; try done. simpl.
  apply os_OpenFile_spec in Ho. apply file_Truncate0_spec in Ht; [|by eexists].
  rewrite (file_Write_spec _ _ _ _ _ Hw Ht). by rewrite drop_nil, app_nil_r.
Qed.

(** C33. An identity that was added is found after the file is loaded again, with
    all those that were there before: if [Add] of a new identity returned without
    error and the file can be read, [NewFileStore] succeeds, finds the identity
    under its name, and every other name as the first store did. *)
Theorem Add_reload `{!FileSystemLaws W, !YamlLaws, !MultibaseLaws} id pid f w x' w1 d w2 :
  store_ok f -> (PublicIdentity_ 0 id tt).1 = Ret (Ok pid) -> Find (pi_ID pid) f = Err (errorsNew "not found") ->
  Add id {| d_store := f; d_world := w |} = (Ret None, x') ->
  os_OpenFile (fs_path f) (d_world x') = (None, w1) -> io_ReadAll (fs_path f) w1 = (Ok d, w2) ->
  exists f', NewFileStore (fs_path f) (d_world x') = (Ret (Ok f'), w2) /\
    Find (pi_ID pid) f' = Ok id /\ forall n, n <> pi_ID pid -> Find n f' = Find n f.
Proof.
  intros (m&Hm&Hidx) Hpid Hfind Hadd Ho Hr.
  destruct (Add_new id f w x' pid) as (sk&raw&d'&->&Henc&Hstore&Hyaml&Hcont); [done| |done|].
  { unfold Find in Hfind. by destruct (gm_get _ _). }
  destruct (read_run _ _ w1 w2 d Ho Hr) as (->&_&Hres). rewrite Hcont in Hres. simpl in Hres.
  rewrite (yaml_Unmarshal_Marshal _ _ [] Hyaml), Hstore in Hres. simpl in Hres.
  rewrite idx_of_app, Hidx in Hres. simpl in Hres. unfold decodeType in Hres.
  rewrite (multibase_Decode_Encode _ _ _ Henc) in Hres. simpl in Hres. unfold NewEd25519Identity in Hres.
  simpl in Hpid. rewrite Hpid in Hres. eexists. split; [exact Hres|]. unfold Find. simpl. rewrite Hm. simpl.
  split; [by rewrite lookup_insert_eq|]. intros n Hn. by rewrite lookup_insert_ne by done.
Qed.

(** [Add] does not update the index of the store it is called on: after it
    returned without error the identity is in the file, and [Find] still does not
    find it. *)
Lemma Add_not_indexed `{!FileSystemLaws W} id pid f w x' :
  (PublicIdentity_ 0 id tt).1 = Ret (Ok pid) -> Find (pi_ID pid) f = Err (errorsNew "not found") ->
  Add id {| d_store := f; d_world := w |} = (Ret None, x') ->
  Find (pi_ID pid) (d_store x') = Err (errorsNew "not found") /\
  length (fs_ids (d_store x')) = S (length (fs_ids f)).
Proof.
  intros Hpid Hfind Hadd. destruct (Add_new id f w x' pid) as (sk&raw&d&->&_&Hstore&_); [done| |done|].
  { unfold Find in Hfind. by destruct (gm_get _ _). }
  rewrite Hstore. unfold Find in *. simpl. rewrite length_app. simpl. split; [done|lia].
Qed.
End Files.
End IdentityProps.
