(* ===== verification/IdentityDemo.v ===== *)
(** * Identities on concrete files: the laws of the identity file hold together,
      and its theorems are evaluated *)

From S2P Require Import Prelude Externals Cryptography W3cDid Tx Chain Toy Identity IdentityProps.

Module IdentityDemo.
Import Toy Identity IdentityProps.

#[export] Instance Ser_FileStoreId : Ser IdentityFileStoreId.
Proof.
  refine (Ser_iso (fun r => (fid_Type r, fid_Data r)) (fun p => {| fid_Type := p.1; fid_Data := p.2 |}) _).
  by intros [].
Defined.

#[export] Instance ToyIdLib : IdLib := {|
  RsaPub := unit; RsaPriv := unit;
  mh_B58String := string_of_bytes;
  yaml_Marshal l := Ok (encode l);
  yaml_Unmarshal d l0 := match d with [] => Ok l0 | _ => decode d end
|}.

#[export] Instance ToyYaml : YamlLaws.
Proof.
  split; [|done]. intros l d l0 [= <-]. simpl.
  destruct (encode l) as [|b d] eqn:Hd; [|rewrite <- Hd; apply decode_encode].
  unfold encode in Hd. simpl in Hd. unfold ser_list in Hd. apply app_eq_nil in Hd as [Hd _].
  unfold ser_nat, ser_Z in Hd. by destruct (Z.of_nat (length l)).
Qed.

(** Files as a map from paths to contents, on which no call fails. *)
Notation Files := (gmap string bytes).

#[export] Instance ToyFiles : FileSystem Files := {|
  os_OpenFile p w := (None, <[p := default [] (w !! p)]> w);
  io_ReadAll p w := (match w !! p with Some d => Ok d | None => Err (errorsNew "read") end, w);
  file_Truncate0 p w := (None, <[p := []]> w);
  file_Write p d w := (None, <[p := d ++ drop (length d) (default [] (w !! p))]> w);
  fs_content w p := w !! p
|}.

#[export] Instance ToyFilesLaws : FileSystemLaws Files.
Proof.
  split; simpl.
  - intros p w w' [= <-]. by rewrite lookup_insert_eq.
  - intros p d w w' H. by destruct (w !! p) eqn:Hp; simplify_eq.
  - intros p w w' [= <-] _. by rewrite lookup_insert_eq.
  - intros p d c w w' [= <-] Hc. by rewrite Hc, lookup_insert_eq.
Qed.

(** A new file, and one identity added to it. *)
Definition demo_sk : bytes := replicate 32 x07 ++ replicate 32 x41.
Definition demo_id : PrivateIdentity := Ed25519Identity demo_sk.
Definition demo_name : string := string_of_bytes (replicate 32 x41).
Definition demo_pid : PublicIdentity :=
  {| pi_ID := demo_name; pi_PublicKeys := [{| pk_Key := KEd25519 (replicate 32 x41) |}] |}.

Definition demo_files : Files := {["ids" := []]}.
Definition demo_store : FileStore := {| fs_path := "ids"; fs_ids := []; fs_idx := Some ∅ |}.

Definition demo_added : Disk (W := Files) := (Add demo_id {| d_store := demo_store; d_world := demo_files |}).2.

Lemma demo_add : Add demo_id {| d_store := demo_store; d_world := demo_files |} = (Ret None, demo_added).
Proof. apply (run_fst (Add demo_id)). by_vm. Qed.

(** the files after [os.OpenFile] *)
Definition demo_opened : Files :=
  <["ids"%string := default [] (d_world demo_added !! "ids"%string)]> (d_world demo_added).

Lemma demo_read : io_ReadAll "ids" demo_opened = (Ok (default [] (d_world demo_added !! "ids"%string)), demo_opened).
Proof. simpl. unfold demo_opened at 1. by rewrite lookup_insert_eq. Qed.

Lemma Matches_spec_witness :
  exists b, Matches {| pi_ID := "a"; pi_PublicKeys := [{| pk_Key := KVal "t" true [x01] |}] |}
      {| pi_ID := "a"; pi_PublicKeys := [{| pk_Key := KNil |}; {| pk_Key := KVal "t" true [x01] |}] |} tt = (Ret b, tt) /\
    (b = true <-> "a"%string = "a"%string /\
      forall k, k ∈ [{| pk_Key := KVal "t" true [x01] |}] ->
        exists k', k' ∈ [{| pk_Key := KNil |}; {| pk_Key := KVal "t" true [x01] |}] /\
          same_key (pk_Key k') (pk_Key k) = true).
Proof.
  refine (Matches_spec tt {| pi_ID := "a"; pi_PublicKeys := [{| pk_Key := KVal "t" true [x01] |}] |}
    {| pi_ID := "a"; pi_PublicKeys := [{| pk_Key := KNil |}; {| pk_Key := KVal "t" true [x01] |}] |} _).
  by repeat constructor.
Defined.
Lemma Matches_ed25519_panics_witness :
  Matches demo_pid demo_pid tt = (Panic, tt) /\ Matches demo_pid demo_pid tt = (Panic, tt).
Proof.
  refine (Matches_ed25519_panics tt 0 demo_sk demo_pid demo_pid (replicate 32 x41) _ eq_refl _).
  - by_vm.
  - left.
Defined.

Lemma NewFileStore_ok_witness :
  fs_path demo_store = "ids"%string /\ store_ok demo_store /\
  exists d, fs_content demo_files "ids" = Some d /\ yaml_Unmarshal d [] = Ok (fs_ids demo_store).
Proof. refine (NewFileStore_ok "ids" demo_files demo_store demo_files _). by_vm. Defined.

Lemma Add_reload_witness :
  exists f', NewFileStore "ids" (d_world demo_added) = (Ret (Ok f'), demo_opened) /\
    Find demo_name f' = Ok demo_id /\ forall n, n <> demo_name -> Find n f' = Find n demo_store.
Proof.
  refine (Add_reload demo_id demo_pid demo_store demo_files demo_added demo_opened
    (default [] (d_world demo_added !! "ids"%string)) demo_opened _ _ _ _ _ _).
  - exists ∅. split; reflexivity.
  - by_vm.
  - reflexivity.
  - exact demo_add.
  - exact eq_refl.
  - exact demo_read.
Defined.

Lemma Add_not_indexed_witness :
  Find demo_name (d_store demo_added) = Err (errorsNew "not found") /\
  length (fs_ids (d_store demo_added)) = 1.
Proof.
  refine (Add_not_indexed demo_id demo_pid demo_store demo_files demo_added _ _ _).
  - by_vm.
  - reflexivity.
  - exact demo_add.
Defined.
End IdentityDemo.
