(* ===== verification/Comm.v ===== *)
(** * The mail protocol: internal/comm and pkg/comm

    A client opens a stream to a provider of the recipient, both sides exchange a
    signed hello, and the client sends the message, which the server stores.
    Streams carry the frames of [Stream]; the network, the clock, the random
    source, the resolver and the message store are parameters. *)

From S2P Require Import Prelude Externals Cryptography Stream Identity.

(** ** pkg/comm/msg.go *)

Module CommMsg.
Import Identity.

Section Msg.
Context `{L : Lib} `{IL : IdLib} `{!RangeOrder}.

Record MessageAttachment := { at_Id : string; at_MediaType : string; at_Data : bytes }.

(** [type Message struct]: pointers and slices that the code tells apart from
    [nil] are options. *)
Record Message := {
  m_Type : string;
  m_Id : string;
  m_ThreadId : string;
  m_CreatedTime : Z;
  m_ExpiresTime : Z;
  m_From : option PublicIdentity;
  m_To : option (list (option PublicIdentity));
  m_Nonce : bytes;
  m_Signature : option bytes;
  m_Body : gomap string string;
  m_Attachments : list MessageAttachment
}.

Definition empty_Message : Message := {|
  m_Type := ""; m_Id := ""; m_ThreadId := ""; m_CreatedTime := 0; m_ExpiresTime := 0;
  m_From := None; m_To := None; m_Nonce := replicate 32 x00; m_Signature := None;
  m_Body := None; m_Attachments := [] |}.

Definition msg_set_Signature (s : option bytes) (m : Message) : Message := {|
  m_Type := m_Type m; m_Id := m_Id m; m_ThreadId := m_ThreadId m; m_CreatedTime := m_CreatedTime m;
  m_ExpiresTime := m_ExpiresTime m; m_From := m_From m; m_To := m_To m; m_Nonce := m_Nonce m;
  m_Signature := s; m_Body := m_Body m; m_Attachments := m_Attachments m |}.

Definition msg_set_Nonce (n : bytes) (m : Message) : Message := {|
  m_Type := m_Type m; m_Id := m_Id m; m_ThreadId := m_ThreadId m; m_CreatedTime := m_CreatedTime m;
  m_ExpiresTime := m_ExpiresTime m; m_From := m_From m; m_To := m_To m; m_Nonce := n;
  m_Signature := m_Signature m; m_Body := m_Body m; m_Attachments := m_Attachments m |}.

Definition msg_set_CreatedTime (t : Z) (m : Message) : Message := {|
  m_Type := m_Type m; m_Id := m_Id m; m_ThreadId := m_ThreadId m; m_CreatedTime := t;
  m_ExpiresTime := m_ExpiresTime m; m_From := m_From m; m_To := m_To m; m_Nonce := m_Nonce m;
  m_Signature := m_Signature m; m_Body := m_Body m; m_Attachments := m_Attachments m |}.

(** the loops of [Copy]: bodies are copied key by key, attachments without their
    identifier *)
Definition copy_body (b : gomap string string) : gomap string string :=
  Some (foldr (fun kv m => <[kv.1 := kv.2]> m) ∅ (map_range (default ∅ b))).

Definition copy_attachment (p : MessageAttachment) : MessageAttachment :=
  {| at_Id := ""; at_MediaType := at_MediaType p; at_Data := at_Data p |}.

Definition Copy (e : Message) : Message := {|
  m_Type := ""; m_Id := ""; m_ThreadId := ""; m_CreatedTime := m_CreatedTime e; m_ExpiresTime := 0;
  m_From := m_From e; m_To := m_To e; m_Nonce := replicate 32 x00; m_Signature := None;
  m_Body := copy_body (m_Body e); m_Attachments := copy_attachment <$> m_Attachments e |}.
End Msg.
End CommMsg.

(** ** Parameters of the protocol *)

(** msgpack on messages, hashes and the signature schemes of the Go
    distribution.  ECDSA and RSA draw from the random source, a part of [W]. *)
Class CommLib (W : Type) `{L : Lib} `{IL : IdLib} := {
  mail_Marshal : CommMsg.Message -> result bytes;
  mail_Unmarshal : bytes -> result CommMsg.Message;
  sha3_Sum512 : bytes -> bytes;
  sha3_Sum384 : bytes -> bytes;
  multihash_Encode : bytes -> Z -> result bytes;
  ed25519_sign_raw : bytes -> bytes -> bytes;
  ecdsa_SignASN1 : EcdsaPriv -> bytes -> W -> result bytes * W;
  ecdsa_VerifyASN1 : EcdsaPub -> bytes -> bytes -> bool;
  rsa_SignPKCS1v15 : RsaPriv -> bytes -> W -> result bytes * W;
  rsa_VerifyPKCS1v15 : RsaPub -> bytes -> bytes -> option error;
  (** [rand.Read] of [n] bytes *)
  rand_Read : nat -> W -> result bytes * W;
  (** [time.Now()], in nanoseconds since the start of year 1 *)
  time_Now : W -> Z * W
}.

(** A signature verifies under the key that made it; an empty one under none. *)
Class SigLaws (W : Type) `{CommLib W} : Prop := {
  ed25519_verify_sign : forall sk msg, length sk = 64 ->
    ed25519_verify_raw (drop 32 sk) msg (ed25519_sign_raw sk msg) = true;
  ecdsa_verify_sign : forall sk h sig w w', ecdsa_SignASN1 sk h w = (Ok sig, w') ->
    ecdsa_VerifyASN1 (ecdsa_PublicKey sk) h sig = true;
  ed25519_verify_empty : forall pk msg, length pk = Cryptography.PublicKeySize ->
    ed25519_verify_raw pk msg [] = false;
  ecdsa_verify_empty : forall pk h, ecdsa_VerifyASN1 pk h [] = false
}.

(** The peers of the network: providers of a content identifier, connecting to
    one and opening a stream. *)
Class Peers (W H : Type) `{L : Lib} := {
  AddrInfo : Type;
  ai_ID : AddrInfo -> PeerID;
  p2p_FindProvider : Cid -> W -> result (list AddrInfo) * W;
  p2p_Connect : AddrInfo -> W -> option error * W;
  p2p_Open : PeerID -> string -> W -> result H * W
}.

(** The select of the client on a channel of capacity one and the end of all
    streams: an error that was sent may be taken; the end is seen only if no
    goroutine is stuck on the full channel. *)
Class Select := {
  select_errs : list error -> option error;
  select_errs_some : forall es e, select_errs es = Some e -> e ∈ es;
  select_errs_none : forall es, select_errs es = None -> length es <= 1
}.

Module Comm.
Import Cryptography Stream Identity CommMsg.

Definition ProtocolID : string := "/did/comm/0.0.1".
Definition second : Z := 1000000000.
Definition helloTimeWindow : Z := 5 * second.

(** [time.Unix(sec, 0)]: seconds since year 1, in 64 bits *)
Definition unixToInternal : Z := 62135596800.
Definition i64 (z : Z) : Z := (z + 2 ^ 63) mod 2 ^ 64 - 2 ^ 63.
Definition time_Unix (sec : Z) : Z := i64 (sec + unixToInternal) * second.
Definition unix_of (t : Z) : Z := t / second - unixToInternal.

Section Comm.
Context {W H I : Type} `{L : Lib} `{IL : IdLib} `{!CommLib W} `{!NetStream W H} `{!Peers W H}.
Context `{!RangeOrder} `{!Select}.

(** [did.Resolver] and [did.IdentityStore] as far as the protocol uses them *)
Record Resolver := { ResolvePI : string -> W -> result (option PublicIdentity) * W }.
Record IdentityStore := { is_Find : string -> W -> result (option PrivateIdentity) * W }.

(** An action on the world within a larger state. *)
Definition act {S A} (get : S -> W) (set : W -> S -> S) (f : W -> A * W) : GoM S A := fun s =>
  let (a, w) := f (get s) in (Ret a, set w s).

(** ** signatures.go *)

(** [ed25519.Sign] panics on a key of another length. *)
Definition ed25519_Sign {S} (sk msg : bytes) : GoM S bytes :=
  if decide (length sk = 64) then mret (ed25519_sign_raw sk msg) else gpanic.

Definition sign (pk : PrivKey) (b : bytes) : GoM W (result bytes) :=
  let h := sha3_Sum512 b in
  match pk with
  | SkEcdsa k => act id (fun w _ => w) (ecdsa_SignASN1 k h)
  | SkEd25519 k => s ← ed25519_Sign k b; mret (Ok s)
  | SkRsa k => act id (fun w _ => w) (rsa_SignPKCS1v15 k h)
  | SkBls _ | SkOther => mret (Err (errorsNew "unknown private key type"))
  end.

Definition verify {S} (pk : Key) (b : bytes) (sig : option bytes) : GoM S (option error) :=
  let h := sha3_Sum512 b in
  let sig := default [] sig in
  match pk with
  | KRsa _ k =>
      match rsa_VerifyPKCS1v15 k h sig with
      | Some err => mret (Some err)
      | None => mret (Some (errorsNew "invalid signature"))
      end
  | KEd25519 k =>
      valid ← ed25519_Verify k b sig;
      mret (if valid : bool then None else Some (errorsNew "invalid signature"))
  | KEcdsa _ k =>
      mret (if ecdsa_VerifyASN1 k h sig then None else Some (errorsNew "invalid signature"))
  | _ => mret (Some (errorsNew "unknown public key type"))
  end.

(** the loop over the keys that sets [hasMatchingSignature] *)
Fixpoint verify_any {S} (pks : list DidPublicKey) (b : bytes) (sig : option bytes) : GoM S bool :=
  match pks with
  | [] => mret false
  | pk :: pks =>
      err ← verify (pk_Key pk) b sig;
      match err with None => mret true | Some _ => verify_any pks b sig end
  end.

(** [m.To[0]], a pointer *)
Definition To0 {S} (m : Message) : GoM S (option PublicIdentity) :=
  gsome (m_To m ≫= head).

(** ** serverHandler.go *)

Record ServerHandler := {
  sh_resolver : option Resolver;
  sh_idStore : option IdentityStore;
  sh_emStore : option (Message -> I -> option error * I);
  sh_rw : RW H;
  sh_clientHello : option Message;
  sh_identity : option PrivateIdentity;
  sh_received : option Message
}.

Definition NewServerHandler (nstream : H) (store : option (Message -> I -> option error * I))
    (idStore : option IdentityStore) : ServerHandler := {|
  sh_resolver := None; sh_idStore := idStore; sh_emStore := store; sh_rw := NewRW nstream;
  sh_clientHello := None; sh_identity := None; sh_received := None |}.

(** A handler, the world, and the inbox behind [comm.Store]. *)
Record Srv := { sv_h : ServerHandler; sv_w : W; sv_inbox : I }.
Notation MS := (GoM Srv).

Definition sv_set_w (w : W) (s : Srv) : Srv := {| sv_h := sv_h s; sv_w := w; sv_inbox := sv_inbox s |}.
Definition sv_set_h (h : ServerHandler) (s : Srv) : Srv := {| sv_h := h; sv_w := sv_w s; sv_inbox := sv_inbox s |}.
Definition sh_set_rw (c : RW H) (s : ServerHandler) : ServerHandler := {|
  sh_resolver := sh_resolver s; sh_idStore := sh_idStore s; sh_emStore := sh_emStore s; sh_rw := c;
  sh_clientHello := sh_clientHello s; sh_identity := sh_identity s; sh_received := sh_received s |}.
Definition sh_set_clientHello (m : option Message) (s : ServerHandler) : ServerHandler := {|
  sh_resolver := sh_resolver s; sh_idStore := sh_idStore s; sh_emStore := sh_emStore s; sh_rw := sh_rw s;
  sh_clientHello := m; sh_identity := sh_identity s; sh_received := sh_received s |}.
Definition sh_set_identity (i : option PrivateIdentity) (s : ServerHandler) : ServerHandler := {|
  sh_resolver := sh_resolver s; sh_idStore := sh_idStore s; sh_emStore := sh_emStore s; sh_rw := sh_rw s;
  sh_clientHello := sh_clientHello s; sh_identity := i; sh_received := sh_received s |}.
Definition sh_set_received (m : option Message) (s : ServerHandler) : ServerHandler := {|
  sh_resolver := sh_resolver s; sh_idStore := sh_idStore s; sh_emStore := sh_emStore s; sh_rw := sh_rw s;
  sh_clientHello := sh_clientHello s; sh_identity := sh_identity s; sh_received := m |}.

Definition srv {A} (f : ServerHandler -> A) : MS A := ggets (fun s => f (sv_h s)).
Definition srv_set (f : ServerHandler -> ServerHandler) : MS unit := gmodify (fun s => sv_set_h (f (sv_h s)) s).
Definition srv_w {A} (f : W -> A * W) : MS A := act sv_w sv_set_w f.
Definition srv_go {A} (m : GoM W A) : MS A := gzoom sv_w sv_set_w m.
Definition srv_rw {A} (m : GoM (Wire W H) A) : MS A :=
  gzoom (fun s => {| wi_rw := sh_rw (sv_h s); wi_net := sv_w s |})
    (fun x s => sv_set_w (wi_net x) (sv_set_h (sh_set_rw (wi_rw x) (sv_h s)) s)) m.

(** The frame is decoded into a new message, which the handler keeps. *)
Definition srv_readClientHello : MS (option error) :=
  gtry_e (gwrap "reading client hello" (srv_rw rw_ReadNow)) (fun b =>
  srv_set (sh_set_clientHello (Some empty_Message));;
  gtry_e (mret (wrap "parsing client hello" (mail_Unmarshal b))) (fun m =>
  srv_set (sh_set_clientHello (Some m));;
  mret None)).

(** [hd := s.clientHello; hd.Signature = nil; ...]: [hd] is the pointer itself, so
    the signature of the hello is gone when it is verified. *)
Definition srv_check_signature (msg : string) : MS (option error) :=
  hello ← srv sh_clientHello; hello ← gsome hello;
  let hd := msg_set_Signature None hello in
  srv_set (sh_set_clientHello (Some hd));;
  gtry_e (mret (wrap "rebuilding signature data" (mail_Marshal hd))) (fun b =>
  to ← To0 hd; to ← gsome to;
  hasMatchingSignature ← verify_any (pi_PublicKeys to) b (m_Signature hd);
  mret (if hasMatchingSignature : bool then None else Some (errorsNew msg))).

Definition srv_validateClientHello : MS (option error) :=
  hello ← srv sh_clientHello; hello ← gsome hello;
  if negb (bool_decide (gm_len (m_Body hello) = 0)) then
    mret (Some (errorsNew "unexpected body in client hello"))
  else if negb (bool_decide (length (m_Attachments hello) = 0)) then
    mret (Some (errorsNew "unexpected attachments in client hello"))
  else
    idStore ← srv sh_idStore; idStore ← gsome idStore;
    to ← To0 hello; to ← gsome to;
    gtry_e (gwrap "finding matching identity" (srv_w (is_Find idStore (pi_ID to)))) (fun pi =>
    srv_set (sh_set_identity pi);;
    resolver ← srv sh_resolver; resolver ← gsome resolver;
    from ← gsome (m_From hello);
    gtry_e (gwrap "finding sender identity" (srv_w (ResolvePI resolver (pi_ID from)))) (fun pk =>
    pk ← gsome pk;
    ok ← Matches pk from;
    if negb ok then mret (Some (errorsNew "public identity mismatch"))
    else srv_check_signature "no matching singature found")).

Definition srv_sign (e : Message) : MS (result Message) :=
  gtry (mret (wrap "mashalling client hello" (mail_Marshal e))) (fun b =>
  i ← srv sh_identity; i ← gsome i;
  gtry (srv_go (sign (PrivateKey i) b)) (fun s =>
  mret (Ok (msg_set_Signature (Some s) e)))).

Definition srv_makeHello : MS (result Message) :=
  hello ← srv sh_clientHello; hello ← gsome hello;
  to ← To0 hello;
  let e := {|
    m_Type := ""; m_Id := ""; m_ThreadId := ""; m_CreatedTime := m_CreatedTime hello; m_ExpiresTime := 0;
    m_From := to; m_To := Some [m_From hello]; m_Nonce := m_Nonce hello; m_Signature := None;
    m_Body := None; m_Attachments := [] |} in
  gtry (gwrap "reading nonce" (srv_w (rand_Read 32))) (fun n =>
  mret (Ok (msg_set_Nonce n e))).

Definition srv_sendHello : MS (option error) :=
  gtry_e srv_makeHello (fun hello =>
  gtry_e (gwrap "signing client hello" (srv_sign hello)) (fun hello =>
  gtry_e (mret (wrap "mashalling client hello" (mail_Marshal hello))) (fun b =>
  srv_rw (rw_Write b)))).

Definition srv_validateEmail : MS (option error) :=
  hello ← srv sh_clientHello; hello ← gsome hello;
  received ← srv sh_received; received ← gsome received;
  from ← gsome (m_From hello); rfrom ← gsome (m_From received);
  ok ← Matches from rfrom;
  if negb ok then mret (Some (errorsNew "received sender does not match client hello"))
  else
    to ← To0 hello; to ← gsome to; rto ← To0 received; rto ← gsome rto;
    ok ← Matches to rto;
    if negb ok then mret (Some (errorsNew "received sender does not match client hello"))
    else srv_check_signature "no matching singature found on received email".

Definition srv_readEmail : MS (option error) :=
  gtry_e (srv_rw rw_ReadNow) (fun b =>
  srv_set (sh_set_received (Some empty_Message));;
  gtry_e (mret (wrap "parsing email" (mail_Unmarshal b))) (fun m =>
  srv_set (sh_set_received (Some m));;
  srv_validateEmail)).

(** [s.emStore.AddToInbox(s.received)] *)
Definition inbox_Add (st : Message -> I -> option error * I) (m : Message) : GoM I (option error) :=
  fun i => let (e, i) := st m i in (Ret e, i).

Definition srv_AddToInbox : MS (option error) :=
  st ← srv sh_emStore; st ← gsome st;
  m ← srv sh_received; m ← gsome m;
  gzoom sv_inbox (fun i s => {| sv_h := sv_h s; sv_w := sv_w s; sv_inbox := i |}) (inbox_Add st m).

Definition srv_close : MS unit := h ← srv (fun s => rw_s (sh_rw s)); srv_w (net_Close h);; mret tt.

Definition srv_handle : MS (option error) :=
  resolver ← srv sh_resolver;
  idStore ← srv sh_idStore;
  match resolver, idStore with
  | None, _ => mret (Some (errorsNew "no identity resolver set to validate recipients"))
  | _, None => mret (Some (errorsNew "no identity store set to receive mail"))
  | _, _ =>
      gdefer (
        gcheck_e (gwrap_e "reading client hello" srv_readClientHello) (
        gcheck_e (gwrap_e "validating client hello" srv_validateClientHello) (
        gcheck_e (gwrap_e "sending server hello" srv_sendHello) (
        gcheck_e (gwrap_e "reading email" srv_readEmail) (
        srv_AddToInbox))))) srv_close
  end.
End Comm.
End Comm.
