(* ===== verification/CommClient.v ===== *)
(** * The mail client and the handler: internal/comm/clientHandler.go,
      internal/comm/handler.go and pkg/comm/sendOptions.go *)

From S2P Require Import Prelude Externals Cryptography Stream Identity Comm.

Module CommClient.
Import Cryptography Stream Identity CommMsg Comm.

Section Client.
Context {W H I : Type} `{L : Lib} `{IL : IdLib} `{!CommLib W} `{!NetStream W H} `{!Peers W H}.
Context `{!RangeOrder} `{!Select}.

(** ** clientHandler.go *)

(** [type ClientHandler struct]; [email] points to the caller's message *)
Record ClientHandler := {
  ch_email : option Message;
  ch_identity : option PrivateIdentity;
  ch_recipient : option PublicIdentity;
  ch_resolver : option (Resolver (W := W))
}.

Definition ch_set_email (m : option Message) (c : ClientHandler) : ClientHandler := {|
  ch_email := m; ch_identity := ch_identity c; ch_recipient := ch_recipient c; ch_resolver := ch_resolver c |}.

(** [type ClientStream struct]: one stream of a handler *)
Record ClientStream := { cs_rw : RW H; cs_serverHello : option Message }.

Record Cli := { cl_ch : ClientHandler; cl_cs : ClientStream; cl_w : W }.
Notation MC := (GoM Cli).

Definition cl_set_w (w : W) (s : Cli) : Cli := {| cl_ch := cl_ch s; cl_cs := cl_cs s; cl_w := w |}.
Definition cl_set_cs (c : ClientStream) (s : Cli) : Cli := {| cl_ch := cl_ch s; cl_cs := c; cl_w := cl_w s |}.

Definition cli {A} (f : ClientHandler -> A) : MC A := ggets (fun s => f (cl_ch s)).
Definition cli_w {A} (f : W -> A * W) : MC A := act cl_w cl_set_w f.
Definition cli_rw {A} (m : GoM (Wire W H) A) : MC A :=
  gzoom (fun s => {| wi_rw := cs_rw (cl_cs s); wi_net := cl_w s |})
    (fun x s => cl_set_w (wi_net x)
       (cl_set_cs {| cs_rw := wi_rw x; cs_serverHello := cs_serverHello (cl_cs s) |} s)) m.

Definition cs_makeHello : MC (result Message) :=
  email ← cli ch_email; email ← gsome email;
  let e := {|
    m_Type := ""; m_Id := ""; m_ThreadId := ""; m_CreatedTime := m_CreatedTime email; m_ExpiresTime := 0;
    m_From := m_From email; m_To := m_To email; m_Nonce := m_Nonce email; m_Signature := None;
    m_Body := None; m_Attachments := [] |} in
  gtry (gwrap "reading nonce" (cli_w (rand_Read 32))) (fun n =>
  mret (Ok (msg_set_Nonce n e))).

Definition cs_sign (e : Message) : MC (result Message) :=
  gtry (mret (wrap "mashalling client hello" (mail_Marshal e))) (fun b =>
  i ← cli ch_identity; i ← gsome i;
  gtry (gzoom cl_w cl_set_w (sign (PrivateKey i) b)) (fun s =>
  mret (Ok (msg_set_Signature (Some s) e)))).

Definition cs_sendHello : MC (option error) :=
  gtry_e (gwrap "creating new hello" cs_makeHello) (fun hello =>
  gtry_e (gwrap "signing client hello" (cs_sign hello)) (fun hello =>
  gtry_e (mret (wrap "mashalling client hello" (mail_Marshal hello))) (fun b =>
  cli_rw (rw_Write b)))).

Definition cs_readServerHello : MC (option error) :=
  gtry_e (gwrap "reading server hello" (cli_rw rw_ReadNow)) (fun b =>
  gtry_e (mret (wrap "unmarshalling server hello" (mail_Unmarshal b))) (fun m =>
  gmodify (fun s => cl_set_cs {| cs_rw := cs_rw (cl_cs s); cs_serverHello := Some m |} s);;
  mret None)).

(** [helloTime.Before(time.Now().Add(-helloTimeWindow)) ||
    helloTime.After(time.Now().Add(helloTimeWindow))] *)
Definition hello_stale (helloTime : Z) : MC bool :=
  now ← cli_w time_Now;
  if (helloTime <? now - helloTimeWindow)%Z then mret true
  else now ← cli_w time_Now; mret (now + helloTimeWindow <? helloTime)%Z.

(** [nsum] over the 32 bytes of a nonce *)
Definition nonce_sum (n : bytes) : Z := foldl (fun s b => s + z_of_byte b)%Z 0%Z n.

(** [hd := h; hd.Signature = nil; ...]: [hd] is the pointer to the stored hello *)
Definition cs_check_signature (h : Message) (knownId : option PublicIdentity) : MC (option error) :=
  let hd := msg_set_Signature None h in
  gmodify (fun s => cl_set_cs {| cs_rw := cs_rw (cl_cs s); cs_serverHello := Some hd |} s);;
  gtry_e (mret (wrap "rebuilding signature data" (mail_Marshal hd))) (fun b =>
  knownId ← gsome knownId;
  hasMatchingSignature ← verify_any (pi_PublicKeys knownId) b (m_Signature hd);
  mret (if hasMatchingSignature : bool then None else Some (errorsNew "no matching singature found"))).

Definition cs_validateServerHello : MC (option error) :=
  h ← ggets (fun s => cs_serverHello (cl_cs s)); h ← gsome h;
  stale ← hello_stale (time_Unix (m_CreatedTime h));
  if stale : bool then mret (Some (errorsNew "hello too old"))
  else if bool_decide (nonce_sum (m_Nonce h) = 0%Z) then mret (Some (errorsNew "empty nonce"))
  else
    to ← To0 h; to ← gsome to;
    if bool_decide (pi_ID to = ""%string) || bool_decide (length (pi_PublicKeys to) = 0) then
      mret (Some (errorsNew "no identity provided"))
    else
      from ← gsome (m_From h);
      recipient ← cli ch_recipient; recipient ← gsome recipient;
      if negb (bool_decide (pi_ID from = pi_ID recipient)) then
        mret (Some (errorsNew "unexpected recipient ID"))
      else
        ok ← Matches recipient from;
        if negb ok then mret (Some (errorsNew "public identity mismatch"))
        else
          email ← cli ch_email; email ← gsome email; sender ← gsome (m_From email);
          if negb (bool_decide (pi_ID to = pi_ID sender)) then
            mret (Some (errorsNew "unexpected change in sender ID"))
          else
            resolver ← cli ch_resolver; resolver ← gsome resolver;
            known ← cli_w (ResolvePI resolver (pi_ID from));
            match known with
            | Err _ => mret (Some (errorsNew "validating publickly known identity of recipient"))
            | Ok knownId => cs_check_signature h knownId
            end.

Definition cs_handshake : MC (option error) :=
  gcheck_e cs_sendHello (gcheck_e cs_readServerHello (gcheck_e cs_validateServerHello (mret None))).

(** The message is written to the stream without the frame of [RW]. *)
Definition cs_send : MC (option error) :=
  email ← cli ch_email; email ← gsome email;
  gtry_e (mret (wrap "marshaling email" (mail_Marshal email))) (fun b =>
  h ← ggets (fun s => rw_s (cs_rw (cl_cs s)));
  r ← cli_w (net_Write h b);
  mret (Wrap r.2 "transmitting email")).

(** The goroutine of one stream; the handler is shared and not written. *)
Definition cs_run : MC (option error) :=
  gdefer (
    gcheck_e (gwrap_e "client handshake" cs_handshake) cs_send)
    (h ← ggets (fun s => rw_s (cs_rw (cl_cs s))); cli_w (net_Close h);; mret tt).

(** A handler and the world. *)
Record CliH := { cx_ch : ClientHandler; cx_w : W }.
Notation MH := (GoM CliH).

Definition cx_set_w (w : W) (s : CliH) : CliH := {| cx_ch := cx_ch s; cx_w := w |}.
Definition clh {A} (f : ClientHandler -> A) : MH A := ggets (fun s => f (cx_ch s)).
Definition clh_w {A} (f : W -> A * W) : MH A := act cx_w cx_set_w f.

Definition ch_findProviders : MH (result (list AddrInfo)) :=
  recipient ← clh ch_recipient; recipient ← gsome recipient;
  let s := sha3_Sum384 (bytes_of_string (pi_ID recipient)) in
  gtry (mret (multihash_Encode s SHA3_384)) (fun mh =>
  gwrap "finding recipient provider" (clh_w (p2p_FindProvider (cid_NewCidV1 cid_Raw mh)))).

(** The goroutines that connect, in the order they append. *)
Fixpoint ch_connect (addrs : list AddrInfo) : MH (list AddrInfo) :=
  match addrs with
  | [] => mret []
  | a :: addrs =>
      err ← clh_w (p2p_Connect a);
      l ← ch_connect addrs;
      mret (match err with None => a :: l | Some _ => l end)
  end.

(** The goroutines that open a stream; a failure is dropped. *)
Fixpoint ch_open (addrs : list AddrInfo) : MH (list H) :=
  match addrs with
  | [] => mret []
  | a :: addrs =>
      s ← clh_w (p2p_Open (ai_ID a) ProtocolID);
      l ← ch_open addrs;
      mret (match s with Ok s => s :: l | Err _ => l end)
  end.

Definition ch_connectEndProviders : MH (result (list H)) :=
  gtry (gwrap "finding recipient provider" ch_findProviders) (fun addrs =>
  if bool_decide (addrs = []) then mret (Err (errorsNew "no recipient providers"))
  else
    connectedAddrs ← ch_connect (range_order addrs);
    if bool_decide (length connectedAddrs = 0) then mret (Err (errorsNew "no recipient provider connected"))
    else
      streams ← ch_open (range_order connectedAddrs);
      mret (Ok streams)).

(** The goroutines of the streams, in any order, and the errors they sent. *)
Fixpoint ch_streams (ss : list H) : MH (list error) :=
  match ss with
  | [] => mret []
  | s :: ss =>
      err ← (fun x =>
        let (r, y) := cs_run {| cl_ch := cx_ch x; cl_cs := {| cs_rw := NewRW s; cs_serverHello := None |}; cl_w := cx_w x |} in
        (r, cx_set_w (cl_w y) x));
      errs ← ch_streams ss;
      mret (match err with Some e => e :: errs | None => errs end)
  end.

Definition ch_handle : MH (option error) :=
  resolver ← clh ch_resolver;
  identity ← clh ch_identity;
  match resolver, identity with
  | None, _ => mret (Some (errorsNew "no identity store set to validate recipients"))
  | _, None => mret (Some (errorsNew "no sender identity set"))
  | _, _ =>
      email ← clh ch_email; email ← gsome email;
      now ← clh_w time_Now;
      let email := msg_set_CreatedTime (unix_of now) email in
      gmodify (fun s => {| cx_ch := ch_set_email (Some email) (cx_ch s); cx_w := cx_w s |});;
      gtry_e (gwrap "reading nonce" (clh_w (rand_Read 32))) (fun n =>
      gmodify (fun s => {| cx_ch := ch_set_email (Some (msg_set_Nonce n email)) (cx_ch s); cx_w := cx_w s |});;
      gtry_e ch_connectEndProviders (fun ss =>
      errs ← ch_streams (range_order ss);
      mret (select_errs errs)))
  end.

(** ** pkg/comm/sendOptions.go *)

Record SendConfig := { cfg_Id : option PrivateIdentity; cfg_PublicResolver : option (Resolver (W := W)) }.
Definition SendOption : Type := SendConfig -> result SendConfig.

Definition NewDefaultSendConfig : SendConfig := {| cfg_Id := None; cfg_PublicResolver := None |}.

Definition WithIdentity (id : option PrivateIdentity) : SendOption := fun cfg =>
  Ok {| cfg_Id := id; cfg_PublicResolver := cfg_PublicResolver cfg |}.

(** ** handler.go *)

(** What the handler uses of its node, and its store, which nothing sets. *)
Record Handler := {
  hd_ID : option (IdentityStore (W := W));
  hd_Resolver : option (Resolver (W := W));
  hd_store : option (Message -> I -> option error * I)
}.

Definition NewHandler (id : option (IdentityStore (W := W))) (r : option (Resolver (W := W))) : Handler :=
  {| hd_ID := id; hd_Resolver := r; hd_store := None |}.

(** [Handle(stream)]: the error is only logged *)
Definition hd_Handle (h : Handler) (stream : H) (w : W) (inbox : I) : exit (option error) * Srv :=
  srv_handle {| sv_h := NewServerHandler stream (hd_store h) (hd_ID h); sv_w := w; sv_inbox := inbox |}.

Definition hd_send (h : Handler) (email : option Message) (cfg : SendConfig) : GoM W (option error) :=
  match cfg_Id cfg with
  | None => mret (Some (errorsNew "sender identity missing"))
  | Some _ =>
      msg ← gsome email;
      match m_To msg with
      | None => mret (Some (errorsNew "recipient identity missing"))
      | Some _ =>
          match cfg_PublicResolver cfg with
          | None => mret (Some (errorsNew "no resolver configure"))
          | Some r =>
              to ← To0 msg; to ← gsome to;
              gtry_e (gwrap "resolving recipient" (act id (fun w _ => w) (ResolvePI r (pi_ID to)))) (fun rDID =>
              gzoom (fun w => {| cx_ch := {| ch_email := email; ch_identity := None; ch_recipient := rDID;
                                 ch_resolver := hd_Resolver h |}; cx_w := w |})
                (fun x _ => cx_w x) ch_handle)
          end
      end
  end.

(** the loop over the options *)
Fixpoint apply_opts (opts : list SendOption) (cfg : SendConfig) : result SendConfig :=
  match opts with
  | [] => Ok cfg
  | opt :: opts => match opt cfg with Ok cfg => apply_opts opts cfg | Err e => Err (errorsWrap e "building config") end
  end.

Definition hd_Send (h : Handler) (email : option Message) (opts : list SendOption) : GoM W (option error) :=
  match apply_opts opts NewDefaultSendConfig with
  | Err e => mret (Some e)
  | Ok cfg => hd_send h email cfg
  end.
End Client.
End CommClient.
