(* ===== verification/CommProps.v ===== *)
(** * Theorems on the mail protocol

    Signatures made by one side verify on the other when they are checked over
    the message without its signature; the two handlers check them after they
    erased the signature through an alias, so that no handshake succeeds. *)

From S2P Require Import Prelude Externals Cryptography Stream Identity IdentityProps Comm CommClient.

Module CommProps.
Import Cryptography Stream Identity IdentityProps CommMsg Comm CommClient.

Section Signatures.
Context {W H I : Type} `{L : Lib} `{IL : IdLib} `{!CommLib W} `{!SigLaws W}.

(** An Ed25519 identity signs every message, and its public identity verifies it. *)
Lemma sign_verify_ed25519 {S} (s : S) sk n pi b w :
  length sk = 64 -> (PublicIdentity_ n (Ed25519Identity sk) tt).1 = Ret (Ok pi) ->
  exists sig, sign (PrivateKey (Ed25519Identity sk)) b w = (Ret (Ok sig), w) /\
    verify_any (pi_PublicKeys pi) b (Some sig) s = (Ret true, s).
Proof.
  intros Hlen Hpi. simpl. unfold ed25519_Sign. rewrite decide_True by done. eexists. split; [done|].
  revert Hpi. simpl. unfold ed25519_Public. go_unfold. rewrite decide_False by lia.
  destruct (multihash_Sum _ _) as [mh|]; [|done]. simpl. intros [= <-]. simpl.
  assert (length (drop 32 sk) = 32) as Hd by (rewrite length_drop; lia).
  rewrite (take_ge (drop 32 sk)), Hd, app_nil_r by lia. simpl. unfold ed25519_Verify. go_unfold.
  by rewrite decide_True, ed25519_verify_sign.
Qed.

(** So does an ECDSA key. *)
Lemma sign_verify_ecdsa {S} (s : S) k a sig b w w' :
  sign (SkEcdsa k) b w = (Ret (Ok sig), w') ->
  verify (KEcdsa a (ecdsa_PublicKey k)) b (Some sig) s = (Ret None, s).
Proof.
  simpl. unfold act, id. destruct (ecdsa_SignASN1 k (sha3_Sum512 b) w) as [r w1] eqn:Hs. intros [= -> <-].
  by rewrite (ecdsa_verify_sign _ _ _ _ _ Hs).
Qed.

(** No key accepts an absent signature. *)
Lemma verify_none {S} (s : S) k b : (verify k b None s).1 <> Ret None.
Proof.
  destruct k; simpl; try done.
  - unfold ed25519_Verify. go_unfold. case_decide; [|done]. by rewrite ed25519_verify_empty by done.
  - by destruct (rsa_VerifyPKCS1v15 _ _ _).
  - by rewrite ecdsa_verify_empty.
Qed.

Lemma verify_any_none {S} (s : S) ks b : (verify_any ks b None s).1 <> Ret true.
Proof.
  revert s. induction ks as [|k ks IH]; intros s; simpl; [done|]. go_unfold.
  pose proof (verify_none s (pk_Key k) b) as Hn.
  destruct (verify (pk_Key k) b None s) as [[[e|]|] s1]; simpl in *; done.
Qed.

(** An RSA key accepts nothing at all: [valid] stays false. *)
Lemma verify_rsa_never {S} (s : S) a k b sig : exists e, verify (KRsa a k) b sig s = (Ret (Some e), s).
Proof. simpl. destruct (rsa_VerifyPKCS1v15 _ _ _); by eexists. Qed.
End Signatures.

(** ** Bodies that never report success *)

Definition never {S} (m : GoM S (option error)) : Prop := forall s, (m s).1 <> Ret None.

Section never.
Context {S : Type}.

Lemma never_bind {A} (m : GoM S A) (k : A -> GoM S (option error)) : (forall a, never (k a)) -> never (m ≫= k).
Proof. intros Hk s. unfold mbind, GoM_bind. destruct (m s) as [[a|] s']; [apply Hk|done]. Qed.

Lemma never_try_e {A} (m : GoM S (result A)) (k : A -> GoM S (option error)) :
  (forall a, never (k a)) -> never (gtry_e m k).
Proof. intros Hk. apply never_bind. intros [a|e]; [apply Hk|by intros s]. Qed.

Lemma never_check_e (m k : GoM S (option error)) : never m \/ never k -> never (gcheck_e m k).
Proof.
  intros [Hm|Hk]; [|apply never_bind; intros [e|]; [by intros s|done]].
  intros s. unfold gcheck_e. go_unfold. specialize (Hm s). by destruct (m s) as [[[e|]|] s'].
Qed.

Lemma never_wrap_e msg (m : GoM S (option error)) : never m -> never (gwrap_e msg m).
Proof. intros Hm s. unfold gwrap_e. go_unfold. specialize (Hm s). by destruct (m s) as [[[e|]|] s']. Qed.

Lemma never_defer (m : GoM S (option error)) d : never m -> never (gdefer m d).
Proof. intros Hm s. unfold gdefer. specialize (Hm s). destruct (m s) as [r s']. by destruct (d s') as [[] ?]. Qed.

Lemma never_error e : never (mret (M := GoM S) (Some e)).
Proof. by intros s. Qed.

(** A step that fails ends a sequence of checks. *)
Lemma check_e_never_run (m k : GoM S (option error)) s :
  never m -> gcheck_e m k s = m s.
Proof.
  intros Hm. unfold gcheck_e. go_unfold. specialize (Hm s). by destruct (m s) as [[[e|]|] s'].
Qed.
End never.

Ltac never_step leaf :=
  lazymatch goal with
  | |- never (mret (Some _)) => apply never_error
  | |- never (gtry_e _ _) => apply never_try_e
  | |- never (mbind _ _) => first [leaf | apply never_bind]
  | |- never _ => first [leaf | case_match]
  | |- forall _, _ => intro
  end.

(** ** Calls that do not touch the state *)

Section stateless.
Context `{L : Lib} `{IL : IdLib} {S : Type}.

Lemma key_eq_stateless {T} a b (s : T) : key_eq a b s = ((key_eq a b tt).1, s).
Proof. destruct a, b; simpl; try done. by repeat case_bool_decide; repeat case_match. Qed.

Lemma matches_key_stateless {T} k ks f (s : T) : matches_key k ks f s = ((matches_key k ks f tt).1, s).
Proof.
  revert f. induction ks as [|p ks IH]; intros f; simpl; [done|]. unfold mbind, GoM_bind.
  rewrite key_eq_stateless, (key_eq_stateless _ _ tt). simpl. by destruct (key_eq _ _ tt).1.
Qed.

Lemma Matches_stateless {T} pi p (s : T) : Matches pi p s = ((Matches pi p tt).1, s).
Proof.
  unfold Matches. case_bool_decide; [|done]. induction (pi_PublicKeys pi) as [|k ks IH]; simpl; [done|].
  unfold mbind, GoM_bind. rewrite matches_key_stateless, (matches_key_stateless _ _ _ tt). simpl.
  by destruct (matches_key _ _ _ tt).1 as [[]|].
Qed.

Lemma preserves_Matches (Inv : S -> Prop) pi p : preserves Inv (Matches pi p).
Proof.
  intros s Hs. by rewrite Matches_stateless.
Qed.

Lemma preserves_verify_any {W} `{!CommLib W} (Inv : S -> Prop) ks b sig : preserves Inv (verify_any ks b sig).
Proof.
  induction ks as [|k ks IH]; simpl; preserves_walk ltac:(first [exact IH | unfold verify, ed25519_Verify; case_match]).
Qed.
End stateless.

Section Server.
Context {W H I : Type} `{L : Lib} `{IL : IdLib} `{!CommLib W} `{!NetStream W H} `{!SigLaws W}.
Implicit Types s : Srv (W := W) (H := H) (I := I).

(** The inbox survives every step but the last. *)
Notation keeps_inbox i := (preserves (fun s : Srv (W := W) (H := H) (I := I) => sv_inbox s = i)).

Lemma inbox_srv_w {A} i (f : W -> A * W) : keeps_inbox i (srv_w f).
Proof. intros s Hs. unfold srv_w, act. by destruct (f _). Qed.

Ltac inbox_step :=
  preserves_walk ltac:(first
    [ apply inbox_srv_w | apply preserves_Matches | apply preserves_verify_any
    | progress unfold srv, srv_set, srv_go, srv_rw, To0 ]).

Lemma never_verified {S} ks b msg :
  never (S := S) (ok ← verify_any ks b None; mret (if ok : bool then None else Some (errorsNew msg))).
Proof.
  intros s. pose proof (verify_any_none s ks b) as Hn. go_unfold.
  by destruct (verify_any _ _ _ s) as [[[]|] s'].
Qed.

Lemma srv_check_signature_never msg : never (srv_check_signature (W := W) (H := H) (I := I) msg).
Proof.
  unfold srv_check_signature. repeat never_step ltac:(apply never_verified).
Qed.

Lemma srv_validateClientHello_never : never (srv_validateClientHello (W := W) (H := H) (I := I)).
Proof. unfold srv_validateClientHello. repeat never_step ltac:(apply srv_check_signature_never). Qed.

Lemma inbox_readClientHello i : keeps_inbox i srv_readClientHello.
Proof. unfold srv_readClientHello. inbox_step. Qed.

Lemma inbox_validateClientHello i : keeps_inbox i srv_validateClientHello.
Proof. unfold srv_validateClientHello, srv_check_signature. inbox_step. Qed.

Lemma inbox_close i : keeps_inbox i srv_close.
Proof. unfold srv_close. inbox_step. Qed.

Lemma srv_handle_never : never (srv_handle (W := W) (H := H) (I := I)).
Proof.
  unfold srv_handle. repeat never_step ltac:(fail). apply never_defer, never_check_e. right.
  apply never_check_e. left. apply never_wrap_e, srv_validateClientHello_never.
Qed.

Lemma inbox_handle i : keeps_inbox i srv_handle.
Proof.
  unfold srv_handle. apply preserves_bind; [inbox_step|intros [r|]]; (apply preserves_bind; [inbox_step|intros [st|]]);
    try apply preserves_ret.
  apply preserves_defer; [|apply inbox_close].
  apply preserves_check_e; [apply preserves_wrap_e, inbox_readClientHello|].
  intros s Hs. rewrite check_e_never_run by apply never_wrap_e, srv_validateClientHello_never.
  exact (preserves_wrap_e _ _ _ (inbox_validateClientHello i) s Hs).
Qed.

(** C35. The server accepts no mail: whatever the client sends, whatever the
    identity store, the resolver and the message store answer, [handle] returns
    an error or panics, and the inbox is not touched, because the hello is
    verified after its signature was erased through the alias [hd]. *)
Theorem server_never_accepts s :
  (srv_handle s).1 <> Ret None /\ sv_inbox (srv_handle s).2 = sv_inbox s.
Proof. split; [apply srv_handle_never|by apply (inbox_handle (sv_inbox s))]. Qed.
End Server.

Section Client.
Context {W H I : Type} `{L : Lib} `{IL : IdLib} `{!CommLib W} `{!NetStream W H} `{!Peers W H}.
Context `{!RangeOrder} `{!Select} `{!SigLaws W}.
Implicit Types s : Cli (W := W) (H := H).

Lemma bind_some_inv {S A B} (o : option A) (k : A -> GoM S B) b (t t' : S) :
  (gsome o ≫= k) t = (Ret b, t') -> exists a, o = Some a /\ k a t = (Ret b, t').
Proof. destruct o; [by eauto|done]. Qed.

(** *** Signed hellos *)

(** Signing adds the signature of the identity over the message without one. *)
Lemma cs_sign_verifies {S} (t : S) s sk n pi e b :
  ch_identity (cl_ch s) = Some (Ed25519Identity sk) -> length sk = 64 ->
  (PublicIdentity_ n (Ed25519Identity sk) tt).1 = Ret (Ok pi) -> mail_Marshal e = Ok b ->
  exists sig, cs_sign e s = (Ret (Ok (msg_set_Signature (Some sig) e)), s) /\
    verify_any (pi_PublicKeys pi) b (Some sig) t = (Ret true, t).
Proof.
  intros Hid Hlen Hpi Hb. destruct (sign_verify_ed25519 t sk n pi b (cl_w s) Hlen Hpi) as (sig&Hs&Hv).
  exists sig. split; [|done]. unfold cs_sign, gtry. go_unfold. rewrite Hb. simpl. unfold cli, ggets. simpl.
  rewrite Hid. simpl. unfold gzoom. simpl in Hs. rewrite Hs. by destruct s.
Qed.

(** C32. The client's hello carries the sender, the recipients and the time of the
    message, no body, and a fresh nonce, and is signed: the public identity of the
    sender verifies the signature over the hello without its signature. *)
Theorem hello_verifies {S} (t : S) s sk n pi email nonce w' :
  ch_identity (cl_ch s) = Some (Ed25519Identity sk) -> length sk = 64 ->
  (PublicIdentity_ n (Ed25519Identity sk) tt).1 = Ret (Ok pi) ->
  ch_email (cl_ch s) = Some email -> rand_Read 32 (cl_w s) = (Ok nonce, w') ->
  (forall m, is_ok (mail_Marshal m) = true) ->
  exists hello b, gtry cs_makeHello cs_sign s = (Ret (Ok hello), cl_set_w w' s) /\
    m_From hello = m_From email /\ m_To hello = m_To email /\ m_CreatedTime hello = m_CreatedTime email /\
    m_Nonce hello = nonce /\ gm_len (m_Body hello) = 0 /\ m_Attachments hello = [] /\
    mail_Marshal (msg_set_Signature None hello) = Ok b /\
    verify_any (pi_PublicKeys pi) b (m_Signature hello) t = (Ret true, t).
Proof.
  intros Hid Hlen Hpi He Hr Hm.
  set (e := {| m_Type := ""; m_Id := ""; m_ThreadId := ""; m_CreatedTime := m_CreatedTime email; m_ExpiresTime := 0;
    m_From := m_From email; m_To := m_To email; m_Nonce := nonce; m_Signature := None; m_Body := None;
    m_Attachments := [] |}).
  destruct (mail_Marshal e) as [b|] eqn:Hb; [|by specialize (Hm e); rewrite Hb in Hm].
  destruct (cs_sign_verifies t (cl_set_w w' s) sk n pi e b) as (sig&Hs&Hv); [done..|].
  exists (msg_set_Signature (Some sig) e), b. split_and!; try done.
  unfold gtry at 1, cs_makeHello, cli. unfold mbind, GoM_bind, ggets. simpl. rewrite He. simpl.
  unfold gtry, gwrap, cli_w, act, mbind, GoM_bind. rewrite Hr. exact Hs.
Qed.

(** *** The server's hello *)

Lemma nonce_sum_acc (n : bytes) acc : (0 <= acc)%Z ->
  (acc <= foldl (fun x b => x + z_of_byte b) acc n)%Z /\
  (foldl (fun x b => x + z_of_byte b)%Z acc n = 0%Z -> acc = 0%Z /\ Forall (fun b => b = x00) n).
Proof.
  revert acc. induction n as [|x n IH]; intros acc Hacc; simpl; [by split|].
  assert (0 <= z_of_byte x)%Z as Hx by (unfold z_of_byte; lia).
  destruct (IH (acc + z_of_byte x)%Z ltac:(lia)) as [Hle Hz]. split; [lia|]. intros Hz0.
  destruct (Hz Hz0) as [Hs Hn]. split; [lia|]. constructor; [|done].
  assert (Byte.to_N x = 0%N) as Hb by (unfold z_of_byte in *; lia).
  assert (Byte.of_N (Byte.to_N x) = Byte.of_N 0) as Hc by (by rewrite Hb).
  rewrite Byte.of_to_N in Hc. by injection Hc.
Qed.

(** The sum of the bytes of a nonce is zero only if all of them are. *)
Lemma nonce_sum_zero n : nonce_sum n = 0%Z <-> Forall (fun b => b = x00) n.
Proof.
  split; [intros Hs; by apply (nonce_sum_acc n 0 ltac:(lia)) in Hs as [_ ?]|].
  unfold nonce_sum. induction n as [|x n IH]; [done|]. intros [-> Hn]%Forall_cons_1. exact (IH Hn).
Qed.

(** The times the clock shows during the check of the window. *)
Lemma hello_stale_false t s s' :
  hello_stale t s = (Ret false, s') ->
  exists now1 now2 w1 w2, time_Now (cl_w s) = (now1, w1) /\ time_Now w1 = (now2, w2) /\ s' = cl_set_w w2 s /\
    (now1 - helloTimeWindow <= t <= now2 + helloTimeWindow)%Z.
Proof.
  unfold hello_stale, cli_w, act, mbind, GoM_bind. destruct (time_Now (cl_w s)) as [now1 w1] eqn:Hn1. simpl.
  destruct (Z.ltb_spec t (now1 - helloTimeWindow)); [done|]. destruct (time_Now w1) as [now2 w2] eqn:Hn2.
  simpl. rewrite Hn2. simpl. intros [= Hlt <-]. apply Z.ltb_ge in Hlt. by exists now1, now2, w1, w2.
Qed.

(** A server hello gets as far as the check of its signature only if it is of
    the current five seconds, has a nonce that is not all zero, comes from the
    recipient's identity and is addressed to the sender of the message. *)
Theorem serverHello_checked s s' :
  cs_validateServerHello s = (Ret (Some (errorsNew "no matching singature found")), s') ->
  exists h to from recipient email sender now1 now2 w1 w2,
    cs_serverHello (cl_cs s) = Some h /\ m_To h ≫= head = Some (Some to) /\ m_From h = Some from /\
    ch_recipient (cl_ch s) = Some recipient /\ ch_email (cl_ch s) = Some email /\ m_From email = Some sender /\
    time_Now (cl_w s) = (now1, w1) /\ time_Now w1 = (now2, w2) /\
    (now1 - helloTimeWindow <= time_Unix (m_CreatedTime h) <= now2 + helloTimeWindow)%Z /\
    ~ Forall (fun b => b = x00) (m_Nonce h) /\
    pi_ID from = pi_ID recipient /\ pi_ID to = pi_ID sender /\ pi_PublicKeys to <> [] /\
    (Matches recipient from tt).1 = Ret true.
Proof.
  unfold cs_validateServerHello. intros Hrun.
  apply bind_inv in Hrun as (h&s0&Hh&Hrun). injection Hh as Hh <-. apply bind_some_inv in Hrun as (h'&->&Hrun).
  apply bind_inv in Hrun as (stale&s1&Hstale&Hrun). destruct stale; [done|].
  apply hello_stale_false in Hstale as (now1&now2&w1&w2&Hn1&Hn2&->&Hwin).
  case_bool_decide as Hn; [done|]. apply bind_some_inv in Hrun as (to&Hto&Hrun).
  apply bind_some_inv in Hrun as (to'&->&Hrun). case_bool_decide; [done|]. case_bool_decide as Hkeys; [done|].
  apply bind_some_inv in Hrun as (from&Hfrom&Hrun). apply bind_inv in Hrun as (r&s0&Hr&Hrun). injection Hr as Hr <-.
  apply bind_some_inv in Hrun as (recipient&->&Hrun). case_bool_decide as Hid; [|done]. simpl in Hrun.
  apply bind_inv in Hrun as (ok&s0&Hmatch&Hrun). rewrite Matches_stateless in Hmatch. injection Hmatch as Hmatch <-.
  destruct ok; [|done]. simpl in Hrun.
  apply bind_inv in Hrun as (e&s0&He&Hrun). injection He as He <-. apply bind_some_inv in Hrun as (email&->&Hrun).
  apply bind_some_inv in Hrun as (sender&Hsender&Hrun). case_bool_decide as Hid'; [|done].
  exists h', to', from, recipient, email, sender, now1, now2, w1, w2. split_and!; try done.
  - apply Hwin.
  - apply Hwin.
  - by rewrite <- nonce_sum_zero.
  - intros Hnil. apply Hkeys. by rewrite Hnil.
Qed.

(** *** Sending *)

Lemma cs_check_signature_never h k : never (cs_check_signature (W := W) (H := H) h k).
Proof. unfold cs_check_signature. repeat never_step ltac:(apply never_verified). Qed.

Lemma cs_handshake_never : never (cs_handshake (W := W) (H := H)).
Proof.
  unfold cs_handshake. apply never_check_e. right. apply never_check_e. right. apply never_check_e. left.
  unfold cs_validateServerHello. repeat never_step ltac:(apply cs_check_signature_never).
Qed.

Lemma cs_run_never : never (cs_run (W := W) (H := H)).
Proof. apply never_defer, never_check_e. left. apply never_wrap_e, cs_handshake_never. Qed.

(** Every stream ends with an error. *)
Lemma ch_streams_errors ss (x : CliH (W := W)) : match ch_streams (H := H) ss x with
  | (Ret errs, _) => length errs = length ss | (Panic, _) => True end.
Proof.
  revert x. induction ss as [|h ss IH]; intros x; simpl; [done|]. unfold mbind, GoM_bind.
  pose proof (cs_run_never {| cl_ch := cx_ch x; cl_cs := {| cs_rw := NewRW h; cs_serverHello := None |};
    cl_w := cx_w x |}) as Hn.
  destruct (cs_run _) as [[[e|]|] y]; simpl in *; [|done|done].
  specialize (IH (cx_set_w (cl_w y) x)). destruct (ch_streams ss _) as [[errs|] ?]; simpl; [by rewrite IH|done].
Qed.

(** The client delivers nothing: the goroutine of every stream ends in an
    error or a panic, so [handle] reports success only if at most one stream was
    opened (when the error of that stream lost the race in the [select]), and
    [Send] never reports success, since it does not give its client an identity. *)
Lemma client_never_delivers (h : Handler (W := W) (I := I)) email opts w ss (x : CliH (W := W)) :
  (hd_Send (H := H) h email opts w).1 <> Ret None /\
  match ch_streams (H := H) ss x with
  | (Ret errs, _) => length errs = length ss /\ (select_errs errs = None -> length ss <= 1)
  | (Panic, _) => True
  end.
Proof.
  split.
  - unfold hd_Send. destruct (apply_opts _ _) as [cfg|]; [|done].
    enough (never (hd_send (H := H) h email cfg)) as Hn by apply Hn.
    unfold hd_send. repeat never_step ltac:(fail). intros v. unfold gzoom, ch_handle, clh, mbind, GoM_bind, ggets. simpl.
    by destruct (hd_Resolver h).
  - pose proof (ch_streams_errors ss x) as Hs. destruct (ch_streams ss x) as [[errs|] ?]; [|done].
    split; [done|]. intros Hn%select_errs_none. lia.
Qed.

(** A stream handed to the node's mail handler is not even read: the server
    handler has no resolver, so [Handle] logs an error and leaves the stream, the
    world and the inbox as they are. *)
Lemma Handle_refuses (h : Handler (W := W) (I := I)) (stream : H) w inbox :
  hd_Handle h stream w inbox =
  (Ret (Some (errorsNew "no identity resolver set to validate recipients")),
   {| sv_h := NewServerHandler stream (hd_store h) (hd_ID h); sv_w := w; sv_inbox := inbox |}).
Proof. done. Qed.
End Client.
End CommProps.
