(* ===== verification/Keys.v ===== *)
(** * Making keys: NewBls12381PrivateKey, NewEcdsaSecp256k1PrivateKey and
      GenerateEd25519Identity

    bls12381.go and ecdsa.go of pkg/cryptography and privateIdentity.go of
    pkg/did.  The source of randomness is a state [R].  What is signed with a new
    key is accepted by every check the program makes with its public half. *)

From S2P Require Import Prelude Externals Cryptography Stream Identity Comm CommProps.

(** The generators of the libraries: [Scalar().Pick], [ecdsa.GenerateKey] on
    secp256k1 and [ed25519.GenerateKey], which gives the public and the private
    key. *)
Class KeyGen (R : Type) `{Lib} := {
  scalar_Pick : R -> Scalar * R;
  ecdsa_GenerateKey : R -> result EcdsaPriv * R;
  ed25519_GenerateKey : R -> result (bytes * bytes) * R
}.

(** A private key of Ed25519 is its seed followed by its public key. *)
Class KeyGenLaws (R : Type) `{KeyGen R} : Prop := {
  ed25519_GenerateKey_len : forall r pk sk r',
    ed25519_GenerateKey r = (Ok (pk, sk), r') -> length sk = 64 /\ drop 32 sk = pk
}.

Module Keys.
Import Cryptography Identity Comm CommProps.

Section Keys.
Context {R : Type} `{L : Lib} `{!KeyGen R}.

Definition draw {A} (f : R -> A * R) : GoM R A := fun r => let (a, r') := f r in (Ret a, r').

Definition NewBls12381PrivateKey : GoM R Bls12381PrivateKey :=
  sk ← draw scalar_Pick; mret {| bls_sk := sk |}.

Definition NewEcdsaSecp256k1PrivateKey : GoM R (result EcdsaPriv) :=
  gwrap "generating ecdsa key" (draw ecdsa_GenerateKey).

Definition GenerateEd25519Identity : GoM R (result PrivateIdentity) :=
  gtry (draw ed25519_GenerateKey) (fun '(_, sk) => mret (Ok (Ed25519Identity sk))).

Lemma GenerateEd25519Identity_key `{!KeyGenLaws R} r id r' :
  GenerateEd25519Identity r = (Ret (Ok id), r') ->
  exists sk, id = Ed25519Identity sk /\ length sk = 64.
Proof.
  unfold GenerateEd25519Identity, draw. go_unfold. destruct (ed25519_GenerateKey r) as [[[pk sk]|e] r1] eqn:Hg;
    [|done]. intros [= <- _]. exists sk. split; [done|]. by eapply ed25519_GenerateKey_len.
Qed.

(** *** What a new key signs is accepted *)

Context `{IL : IdLib} {W : Type} `{!CommLib W} `{!SigLaws W} `{!MultibaseLaws}.

(** A new Ed25519 identity signs every message; the other end of the mail
    protocol verifies the signature with its public identity, and so does the
    verification method of a DID document that has its public key. *)
Lemma generated_ed25519_accepted `{!KeyGenLaws R} {S} (s : S) r id r' n pi b w vm :
  GenerateEd25519Identity r = (Ret (Ok id), r') ->
  (PublicIdentity_ n id tt).1 = Ret (Ok pi) ->
  head (pi_PublicKeys pi) ≫= (fun pk => ok_opt (AsMultibase pk)) = Some (vm_PublicKeyMultibase vm) ->
  exists sig, sign (PrivateKey id) b w = (Ret (Ok sig), w) /\
    verify_any (pi_PublicKeys pi) b (Some sig) s = (Ret true, s) /\
    ValidateEd25519 vm sig b s = (Ret (Ok true), s).
Proof.
  intros (sk&->&Hlen)%GenerateEd25519Identity_key Hpi Hmb.
  destruct (sign_verify_ed25519 s sk n pi b w Hlen Hpi) as (sig&Hs&Hv). exists sig. split_and!; [done..|].
  revert Hpi Hs. simpl. unfold ed25519_Public, ed25519_Sign. go_unfold.
  rewrite decide_False, decide_True by lia. intros Hpi [= <-].
  destruct (multihash_Sum _ _) as [mh|]; [|done]. simpl in Hpi. injection Hpi as <-. simpl in Hmb.
  assert (length (drop 32 sk) = 32) as Hd by (rewrite length_drop; lia).
  rewrite (take_ge (drop 32 sk)), Hd, app_nil_r in Hmb by lia. unfold AsMultibase, EncodeMultibase in Hmb. simpl in Hmb.
  destruct (multibase_Encode Base58BTC (drop 32 sk)) as [mb|] eqn:He; [|done]. simpl in Hmb. injection Hmb as Hmb.
  unfold ValidateEd25519, decodeMultibase. rewrite <- Hmb, (multibase_Decode_Encode _ _ _ He). simpl.
  unfold ed25519_Verify. go_unfold. by rewrite decide_True, ed25519_verify_sign.
Qed.
End Keys.
End Keys.
