(* ===== verification/CommDemo.v ===== *)
(** * The mail protocol on a concrete world: a stream in memory, a clock that
      stands still and signatures that repeat what they sign *)

From S2P Require Import Prelude Externals Cryptography W3cDid Tx Chain Toy Stream StreamProps Identity IdentityProps IdentityDemo Comm CommClient CommProps.
From S2P Require Import Keys.

Module CommDemo.
Import Cryptography Toy Stream StreamProps Identity IdentityProps IdentityDemo CommMsg Comm CommClient CommProps Keys.

#[export] Instance ToyCommLib : CommLib Pipe := {|
  mail_Marshal m := Ok (m_Nonce m ++ default [] (m_Signature m));
  mail_Unmarshal b := Ok (msg_set_Nonce b empty_Message);
  sha3_Sum512 b := b;
  sha3_Sum384 b := b;
  multihash_Encode b _ := Ok b;
  ed25519_sign_raw sk msg := drop 32 sk ++ msg;
  ecdsa_SignASN1 k h w := (Ok (x01 :: k ++ h), w);
  ecdsa_VerifyASN1 k h sig := bool_decide (sig = x01 :: k ++ h);
  rsa_SignPKCS1v15 k h w := (Err (errorsNew "rsa"), w);
  rsa_VerifyPKCS1v15 k h sig := Some (errorsNew "rsa");
  rand_Read n w := (Ok (replicate n x05), w);
  time_Now w := (unixToInternal * second, w)%Z
|}.

#[export] Instance ToySig : SigLaws Pipe.
Proof.
  split; simpl.
  - intros sk msg _. by apply bool_decide_true.
  - intros sk h sig w w' [= <- <-]. by apply bool_decide_true.
  - intros pk msg Hpk. apply bool_decide_false. by destruct pk.
  - done.
Qed.

#[export] Instance ToyPeers : Peers Pipe unit := {|
  AddrInfo := string; ai_ID a := a;
  p2p_FindProvider _ w := (Ok ["peer"%string], w);
  p2p_Connect _ w := (None, w);
  p2p_Open p _ w := (if bool_decide (p = "down"%string) then Err (errorsNew "dial") else Ok tt, w)
|}.

#[export] Program Instance ToySelect : Select := {| select_errs es := head es |}.
Next Obligation. intros [|x es] e; [done|]. intros [= ->]. left. Qed.
Next Obligation. intros [|x es]; [simpl; lia|done]. Qed.

#[local] Existing Instance range_asc.

Definition demo_net : Pipe := {| p_in := []; p_out := [] |}.

(** A message of the identity of [IdentityDemo] to a recipient without keys. *)
Definition bob : PublicIdentity := {| pi_ID := "bob"; pi_PublicKeys := [] |}.
Definition demo_email : Message := {|
  m_Type := ""; m_Id := ""; m_ThreadId := ""; m_CreatedTime := 0; m_ExpiresTime := 0;
  m_From := Some demo_pid; m_To := Some [Some bob]; m_Nonce := replicate 32 x00; m_Signature := None;
  m_Body := Some {["subject"%string := "hi"%string]}; m_Attachments := [] |}.

Definition demo_resolver : Resolver (W := Pipe) := {| ResolvePI _ w := (Ok (Some bob), w) |}.
Definition demo_ids : IdentityStore (W := Pipe) := {| is_Find _ w := (Ok (Some demo_id), w) |}.

Definition demo_ch : ClientHandler (W := Pipe) := {|
  ch_email := Some demo_email; ch_identity := Some demo_id; ch_recipient := Some bob;
  ch_resolver := Some demo_resolver |}.

(** the answer of a server: the identities swapped, and a nonce *)
Definition demo_reply : Message := {|
  m_Type := ""; m_Id := ""; m_ThreadId := ""; m_CreatedTime := 3; m_ExpiresTime := 0;
  m_From := Some bob; m_To := Some [Some demo_pid]; m_Nonce := replicate 32 x05; m_Signature := Some [x01];
  m_Body := None; m_Attachments := [] |}.

Definition demo_cli (reply : option Message) : Cli (W := Pipe) (H := unit) :=
  {| cl_ch := demo_ch; cl_cs := {| cs_rw := NewRW tt; cs_serverHello := reply |}; cl_w := demo_net |}.

Lemma hello_verifies_witness :
  exists hello b, gtry cs_makeHello cs_sign (demo_cli None) = (Ret (Ok hello), cl_set_w demo_net (demo_cli None)) /\
    m_From hello = m_From demo_email /\ m_To hello = m_To demo_email /\
    m_CreatedTime hello = m_CreatedTime demo_email /\ m_Nonce hello = replicate 32 x05 /\
    gm_len (m_Body hello) = 0 /\ m_Attachments hello = [] /\
    mail_Marshal (msg_set_Signature None hello) = Ok b /\
    verify_any (pi_PublicKeys demo_pid) b (m_Signature hello) tt = (Ret true, tt).
Proof.
  refine (hello_verifies tt (demo_cli None) demo_sk 0 demo_pid demo_email (replicate 32 x05) demo_net
    eq_refl eq_refl _ eq_refl eq_refl _).
  - by_vm.
  - intros m. reflexivity.
Defined.

Lemma serverHello_checked_witness :
  exists h to from recipient email sender now1 now2 w1 w2,
    cs_serverHello (cl_cs (demo_cli (Some demo_reply))) = Some h /\ m_To h ≫= head = Some (Some to) /\
    m_From h = Some from /\ ch_recipient demo_ch = Some recipient /\ ch_email demo_ch = Some email /\
    m_From email = Some sender /\ time_Now demo_net = (now1, w1) /\ time_Now w1 = (now2, w2) /\
    (now1 - helloTimeWindow <= time_Unix (m_CreatedTime h) <= now2 + helloTimeWindow)%Z /\
    ~ Forall (fun b => b = x00) (m_Nonce h) /\
    pi_ID from = pi_ID recipient /\ pi_ID to = pi_ID sender /\ pi_PublicKeys to <> [] /\
    (Matches recipient from tt).1 = Ret true.
Proof.
  refine (serverHello_checked (demo_cli (Some demo_reply)) _ (run_fst _ _ _ _)). by_vm.
Defined.

(** A server with a resolver and an identity store, and a client's frame. *)
Definition demo_srv : Srv (W := Pipe) (H := unit) (I := list Message) := {|
  sv_h := {| sh_resolver := Some demo_resolver; sh_idStore := Some demo_ids;
             sh_emStore := Some (fun m i => (None, m :: i)); sh_rw := NewRW tt; sh_clientHello := None;
             sh_identity := None; sh_received := None |};
  sv_w := {| p_in := [frame hello]; p_out := [] |}; sv_inbox := [] |}.

Lemma server_never_accepts_witness :
  (srv_handle demo_srv).1 <> Ret None /\ sv_inbox (srv_handle demo_srv).2 = [].
Proof. exact (server_never_accepts demo_srv). Defined.

Lemma client_never_delivers_witness :
  (hd_Send (H := unit) (NewHandler (I := unit) (Some demo_ids) (Some demo_resolver)) (Some demo_email)
     [WithIdentity (Some demo_id)] demo_net).1 <> Ret None /\
  match ch_streams (H := unit) [tt] {| cx_ch := demo_ch; cx_w := demo_net |} with
  | (Ret errs, _) => length errs = length [tt] /\ (select_errs errs = None -> length [tt] <= 1)
  | (Panic, _) => True
  end.
Proof.
  exact (client_never_delivers (NewHandler (Some demo_ids) (Some demo_resolver)) (Some demo_email)
    [WithIdentity (Some demo_id)] demo_net [tt] {| cx_ch := demo_ch; cx_w := demo_net |}).
Defined.

(** A source of randomness that counts what was drawn, and the key it gives *)
#[local] Instance CountingKeys : KeyGen nat := {|
  scalar_Pick r := ([x01], S r);
  ecdsa_GenerateKey r := (Err (errorsNew "empty"), S r);
  ed25519_GenerateKey r := (Ok (drop 32 demo_sk, demo_sk), S r)
|}.

#[local] Instance CountingKeysLaws : KeyGenLaws nat.
Proof. split. by intros r pk sk r' [= <- <- _]. Qed.

Definition demo_vm : VerificationMethod := {|
  vm_ID := ""; vm_Type := Ed25519VerificationKey2018; vm_Controller := ""; vm_PublicKeyJwk := None;
  vm_PublicKeyMultibase := default ""%string (head (pi_PublicKeys demo_pid) ≫= fun pk => ok_opt (AsMultibase pk)) |}.

Lemma generated_ed25519_accepted_witness :
  exists sig, sign (PrivateKey demo_id) [x01] demo_net = (Ret (Ok sig), demo_net) /\
    verify_any (pi_PublicKeys demo_pid) [x01] (Some sig) tt = (Ret true, tt) /\
    ValidateEd25519 demo_vm sig [x01] tt = (Ret (Ok true), tt).
Proof.
  refine (generated_ed25519_accepted tt 0 demo_id 1 0 demo_pid [x01] demo_net demo_vm eq_refl _ _); by_vm.
Defined.
End CommDemo.
