(* ===== verification/Text.v ===== *)
(** * Text as the Go distribution handles it

    The parts of strings, bytes, path, path/filepath, encoding/hex and
    encoding/binary that the configuration, the command line and the genesis
    generator use, on byte sequences. *)

From S2P Require Import Prelude.

Module Text.

(** ** [strings.Split], [strings.SplitN] and [bytes.Split]

    [split_go cuts sep skip cur s]: [skip] bytes of a separator are still to be
    passed over, [cur] is the piece so far in reverse, at most [cuts] cuts are
    made. *)
Fixpoint split_go (cuts : nat) (sep : bytes) (skip : nat) (cur s : bytes) : list bytes :=
  match s with
  | [] => [reverse cur]
  | x :: s' =>
      match skip with
      | S skip => split_go cuts sep skip cur s'
      | 0 =>
          match cuts with
          | 0 => split_go 0 sep 0 (x :: cur) s'
          | S cuts' =>
              if bool_decide (sep `prefix_of` x :: s')
              then reverse cur :: split_go cuts' sep (length sep - 1) [] s'
              else split_go cuts sep 0 (x :: cur) s'
          end
      end
  end.

(** For a separator that is not empty; [n] is the greatest number of pieces. *)
Definition bytes_Split (s sep : bytes) : list bytes := split_go (length s) sep 0 [] s.
Definition bytes_SplitN (s sep : bytes) (n : nat) : list bytes :=
  match n with 0 => [] | S n => split_go n sep 0 [] s end.

Definition strings_Split (s sep : string) : list string :=
  string_of_bytes <$> bytes_Split (bytes_of_string s) (bytes_of_string sep).
Definition strings_SplitN (s sep : string) (n : nat) : list string :=
  string_of_bytes <$> bytes_SplitN (bytes_of_string s) (bytes_of_string sep) n.

(** [bytes.Join] *)
Fixpoint bytes_Join (l : list bytes) (sep : bytes) : bytes :=
  match l with
  | [] => []
  | [x] => x
  | x :: l => x ++ sep ++ bytes_Join l sep
  end.

Lemma split_go_skip cuts sep k cur s :
  split_go cuts sep k cur s = split_go cuts sep 0 cur (drop k s).
Proof.
  revert s. induction k as [|k IH]; intros s; [done|]. destruct s as [|x s]; [done|]. simpl. apply IH.
Qed.

Lemma split_go_nonempty cuts sep k cur s : split_go cuts sep k cur s <> [].
Proof.
  revert cuts k cur. induction s as [|x s IH]; intros cuts k cur; [done|]. simpl.
  repeat case_match; try apply IH. done.
Qed.

Lemma bytes_Join_cons x l sep : l <> [] -> bytes_Join (x :: l) sep = x ++ sep ++ bytes_Join l sep.
Proof. by destruct l. Qed.

Lemma bytes_Join_app l1 l2 sep :
  l1 <> [] -> l2 <> [] -> bytes_Join (l1 ++ l2) sep = bytes_Join l1 sep ++ sep ++ bytes_Join l2 sep.
Proof.
  intros Hl1 Hl2. induction l1 as [|x l1 IH]; [done|]. destruct l1 as [|y l1]; [by apply bytes_Join_cons|].
  change ((x :: y :: l1) ++ l2) with (x :: (y :: l1) ++ l2). rewrite !(bytes_Join_cons x) by done.
  rewrite IH by done. by rewrite <- !app_assoc.
Qed.

Lemma split_go_join cuts sep cur s :
  sep <> [] -> bytes_Join (split_go cuts sep 0 cur s) sep = reverse cur ++ s.
Proof.
  intros Hsep. remember (length s) as n eqn:Hn. revert cuts cur s Hn.
  induction (lt_wf n) as [n _ IH]. intros cuts cur [|x s] ->; simpl; [by rewrite app_nil_r|].
  assert (forall c, bytes_Join (split_go c sep 0 (x :: cur) s) sep = reverse cur ++ x :: s) as Hx.
  { intros c. rewrite (IH (length s)); [|simpl; lia|done]. by rewrite reverse_cons, <- app_assoc. }
  destruct cuts as [|cuts]; [apply Hx|]. case_bool_decide as Hp; [|apply Hx].
  rewrite bytes_Join_cons by apply split_go_nonempty. rewrite split_go_skip.
  rewrite (IH (length (drop (length sep - 1) s))); [|simpl; rewrite length_drop; lia|done].
  destruct Hp as [rest Hrest]. destruct sep as [|y sep]; [done|]. injection Hrest as -> ->.
  simpl. by rewrite Nat.sub_0_r, drop_app_length.
Qed.

(** The pieces, joined again, give back what was split. *)
Lemma bytes_Split_join s sep : sep <> [] -> bytes_Join (bytes_Split s sep) sep = s.
Proof. intros Hsep. unfold bytes_Split. by rewrite split_go_join. Qed.

(** [sep] starts nowhere in the first [n] positions of [s]. *)
Definition clear_of (sep s : bytes) (n : nat) : Prop :=
  forall i, i < n -> ~ sep `prefix_of` drop i s.

Lemma clear_of_piece sep p s n :
  sep <> [] -> length p <= n -> clear_of sep (p ++ s) n -> ~ exists a b, p = a ++ sep ++ b.
Proof.
  intros Hsep Hn Hc (a&b&->). apply (Hc (length a)).
  - rewrite !length_app in Hn. destruct sep; [done|]. simpl in Hn. lia.
  - rewrite <- !app_assoc, drop_app_length. by eexists.
Qed.

Lemma split_go_clear cuts sep cur s :
  sep <> [] -> length s <= cuts -> clear_of sep (reverse cur ++ s) (length cur) ->
  Forall (fun p => ~ exists a b, p = a ++ sep ++ b) (split_go cuts sep 0 cur s).
Proof.
  intros Hsep. remember (length s) as n eqn:Hn. revert cuts cur s Hn.
  induction (lt_wf n) as [n _ IH]. intros cuts cur [|x s] -> Hcuts Hc; simpl in *.
  { constructor; [|constructor]. eapply clear_of_piece; [done| |exact Hc]. by rewrite length_reverse. }
  destruct cuts as [|cuts]; [lia|]. case_bool_decide as Hp.
  - constructor.
    { eapply clear_of_piece; [done| |exact Hc]. by rewrite length_reverse. }
    rewrite split_go_skip. eapply IH; [|reflexivity|rewrite length_drop; lia|].
    + rewrite length_drop. lia.
    + intros i Hi. simpl in Hi. lia.
  - eapply (IH (length s)); [lia|reflexivity|lia|]. intros i Hi. simpl in Hi.
    rewrite reverse_cons, <- app_assoc. simpl. destruct (decide (i = length cur)) as [->|].
    + by rewrite <- (length_reverse cur), drop_app_length.
    + apply Hc. lia.
Qed.

(** No piece contains the separator. *)
Lemma bytes_Split_clear s sep :
  sep <> [] -> Forall (fun p => ~ exists a b, p = a ++ sep ++ b) (bytes_Split s sep).
Proof. intros Hsep. apply split_go_clear; [done..|]. intros i Hi. simpl in Hi. lia. Qed.

(** [SplitN] with [n = 1] makes one piece, the whole. *)
Lemma bytes_SplitN_1 s sep : bytes_SplitN s sep 1 = [s].
Proof.
  unfold bytes_SplitN. assert (forall cur, split_go 0 sep 0 cur s = [reverse cur ++ s]) as Hs.
  { induction s as [|x s IH]; intros cur; simpl; [by rewrite app_nil_r|].
    by rewrite IH, reverse_cons, <- app_assoc. }
  by rewrite Hs.
Qed.

(** ** path and path/filepath, for slash-separated paths *)

Definition slash : Byte.byte := x2f.
Definition dot : bytes := [x2e].
Definition dotdot : bytes := [x2e; x2e].

(** One component of [Clean]; the path so far is a stack of components. *)
Definition clean_step (rooted : bool) (stack : list bytes) (c : bytes) : list bytes :=
  if bool_decide (c = []) || bool_decide (c = dot) then stack
  else if bool_decide (c = dotdot) then
    match stack with
    | [] => if rooted then [] else [dotdot]
    | top :: rest => if bool_decide (top = dotdot) then dotdot :: stack else rest
    end
  else c :: stack.

Definition is_rooted (p : bytes) : bool := bool_decide (head p = Some slash).

Definition path_Clean (p : bytes) : bytes :=
  let rooted := is_rooted p in
  let body := bytes_Join (reverse (foldl (clean_step rooted) [] (bytes_Split p [slash]))) [slash] in
  if rooted then slash :: body else if bool_decide (body = []) then dot else body.

(** The first elements that are empty are left out. *)
Fixpoint filepath_Join (elem : list bytes) : bytes :=
  match elem with
  | [] => []
  | e :: rest => if bool_decide (e = []) then filepath_Join rest else path_Clean (bytes_Join elem [slash])
  end.

(** [dir, _ := Split(path); return Clean(dir)] *)
Fixpoint upto_last_slash (p : bytes) : bytes :=
  match p with
  | [] => []
  | x :: p => let r := upto_last_slash p in
      if bool_decide (r <> []) || bool_decide (x = slash) then x :: r else []
  end.
Definition path_Dir (p : bytes) : bytes := path_Clean (upto_last_slash p).

(** ** encoding/hex and encoding/binary *)

Definition hexTable : bytes := bytes_of_string "0123456789abcdef".
Definition hex_digit (n : N) : Byte.byte := nth (N.to_nat n) hexTable x00.
Definition hex_EncodeToString (b : bytes) : string :=
  string_of_bytes (concat (map (fun x => [hex_digit (Byte.to_N x / 16); hex_digit (Byte.to_N x mod 16)]) b)).

(** [base64.StdEncoding.EncodeToString]: three bytes are four digits, the last
    group is padded. *)
Definition b64Table : bytes :=
  bytes_of_string "ABCDEFGHIJKLMNOPQRSTUVWXYZabcdefghijklmnopqrstuvwxyz0123456789+/".
Definition b64_digits (x y z : Byte.byte) : list Byte.byte :=
  let v := (Byte.to_N x * 65536 + Byte.to_N y * 256 + Byte.to_N z)%N in
  map (fun d => nth (N.to_nat (v / d mod 64)) b64Table x00) [262144%N; 4096%N; 64%N; 1%N].
Fixpoint base64_std (b : bytes) : bytes :=
  match b with
  | [] => []
  | [x] => take 2 (b64_digits x x00 x00) ++ [x3d; x3d]
  | [x; y] => take 3 (b64_digits x y x00) ++ [x3d]
  | x :: y :: z :: rest => b64_digits x y z ++ base64_std rest
  end.
Definition base64_EncodeToString (b : bytes) : string := string_of_bytes (base64_std b).

Example base64_vectors :
  base64_EncodeToString (bytes_of_string "foobar") = "Zm9vYmFy"%string /\
  base64_EncodeToString (bytes_of_string "fooba") = "Zm9vYmE="%string /\
  base64_EncodeToString (bytes_of_string "foob") = "Zm9vYg=="%string.
Proof. done. Qed.

Example path_vectors :
  path_Clean (bytes_of_string "/a/./b/../c//d/") = bytes_of_string "/a/c/d" /\
  path_Clean (bytes_of_string "../a/../../b") = bytes_of_string "../../b" /\
  path_Clean (bytes_of_string "/..") = bytes_of_string "/" /\ path_Clean [] = dot /\
  path_Dir (bytes_of_string "/home/u/.didem/p2p_identity") = bytes_of_string "/home/u/.didem".
Proof. done. Qed.

(** [binary.BigEndian.Uint64]: an index out of range on fewer than 8 bytes *)
Definition BigEndian_Uint64 (b : bytes) : option Z :=
  if decide (length b < 8) then None
  else Some (foldl (fun v x => Z.lor (Z.shiftl v 8) (z_of_byte x)) 0%Z (take 8 b)).

Lemma BigEndian_Uint64_range b v : BigEndian_Uint64 b = Some v -> (0 <= v < 2 ^ 64)%Z.
Proof.
  unfold BigEndian_Uint64. case_decide; [done|]. intros [= <-].
  assert (forall l v k, (0 <= k)%Z -> (0 <= v < 2 ^ k)%Z ->
    (0 <= foldl (fun v x => Z.lor (Z.shiftl v 8) (z_of_byte x)) v l < 2 ^ (k + 8 * Z.of_nat (length l)))%Z) as Hl.
  { induction l as [|x l IH]; intros v k Hk Hv; simpl; [by rewrite Z.add_0_r|].
    replace (k + 8 * Z.of_nat (S (length l)))%Z with ((k + 8) + 8 * Z.of_nat (length l))%Z by lia.
    apply IH; [lia|].
    assert (0 <= z_of_byte x < 2 ^ 8)%Z as Hx.
    { unfold z_of_byte. pose proof (Byte.to_N_bounded x). lia. }
    assert (0 <= Z.shiftl v 8 < 2 ^ (k + 8))%Z as Hsh.
    { rewrite Z.shiftl_mul_pow2 by lia. rewrite Z.pow_add_r by lia. nia. }
    split; [apply Z.lor_nonneg; lia|]. destruct (decide (Z.lor (Z.shiftl v 8) (z_of_byte x) = 0)%Z) as [->|Hne].
    { apply Z.pow_pos_nonneg; lia. }
    apply Z.log2_lt_pow2; [pose proof (proj2 (Z.lor_nonneg (Z.shiftl v 8) (z_of_byte x))); lia|].
    rewrite Z.log2_lor by lia. apply Z.max_lub_lt.
    - destruct (decide (Z.shiftl v 8 = 0)%Z) as [->|]; [simpl; lia|]. apply Z.log2_lt_pow2; lia.
    - destruct (decide (z_of_byte x = 0)%Z) as [->|]; [simpl; lia|]. apply Z.log2_lt_pow2; [lia|].
      eapply Z.lt_le_trans; [apply Hx|]. apply Z.pow_le_mono_r; lia. }
  specialize (Hl (take 8 b) 0%Z 0%Z ltac:(lia) ltac:(lia)). rewrite length_take in Hl.
  replace (8 `min` length b)%nat with 8 in Hl by lia. exact Hl.
Qed.

(** A component that [Clean] keeps. *)
Definition plain (c : bytes) : Prop := c <> [] /\ c <> dot /\ c <> dotdot /\ slash ∉ c.

Lemma split_go_plain cuts c cur s :
  slash ∉ c -> split_go cuts [slash] 0 cur (c ++ s) = split_go cuts [slash] 0 (reverse c ++ cur) s.
Proof.
  revert cur. induction c as [|x c IH]; intros cur Hc; [by destruct cuts|]. apply not_elem_of_cons in Hc as [Hx Hc].
  specialize (IH (x :: cur) Hc). rewrite reverse_cons, <- app_assoc. simpl in *.
  destruct cuts as [|cuts]; [done|]. rewrite bool_decide_false; [done|].
  intros [r Hr]. simpl in Hr. congruence.
Qed.

(** Splitting what was joined from pieces without the separator. *)
Lemma Split_Join_slash l : l <> [] -> Forall (fun c => slash ∉ c) l -> bytes_Split (bytes_Join l [slash]) [slash] = l.
Proof.
  intros Hl HF. unfold bytes_Split.
  assert (forall cuts, length (bytes_Join l [slash]) <= cuts -> split_go cuts [slash] 0 [] (bytes_Join l [slash]) = l) as Hg;
    [|by apply Hg].
  induction HF as [|c l Hc HF IH]; [done|]. intros cuts Hcuts. destruct l as [|d l].
  { simpl. rewrite <- (app_nil_r c) at 1. rewrite split_go_plain by done. simpl.
    by rewrite app_nil_r, reverse_involutive. }
  rewrite bytes_Join_cons in * by done. rewrite split_go_plain, app_nil_r by done.
  rewrite !length_app in Hcuts. destruct cuts as [|cuts]; [simpl in Hcuts; lia|].
  cbn [app split_go]. rewrite bool_decide_true by by eexists. rewrite reverse_involutive. f_equal. apply IH; [done|].
  simpl in Hcuts. simpl. lia.
Qed.

Lemma clean_plain rooted l st : Forall plain l -> foldl (clean_step rooted) st l = reverse l ++ st.
Proof.
  intros HF. revert st. induction HF as [|c l (H1&H2&H3&_) HF IH]; intros st; [done|].
  simpl. rewrite IH, reverse_cons, <- app_assoc. f_equal. unfold clean_step.
  by rewrite !bool_decide_false.
Qed.

(** A rooted path of plain components is clean. *)
Lemma Clean_rooted l :
  Forall plain l -> path_Clean (slash :: bytes_Join l [slash]) = slash :: bytes_Join l [slash].
Proof.
  intros HF. unfold path_Clean. change (is_rooted (slash :: _)) with true. cbv zeta iota. f_equal.
  destruct (decide (l = [])) as [->|Hl]; [done|].
  assert (slash :: bytes_Join l [slash] = bytes_Join ([] :: l) [slash]) as -> by by rewrite bytes_Join_cons.
  rewrite Split_Join_slash.
  - simpl. by rewrite clean_plain, app_nil_r, reverse_involutive.
  - done.
  - constructor; [set_solver|]. eapply list.Forall_impl; [exact HF|]. by intros c (?&?&?&?).
Qed.
End Text.
