(* ===== verification/Config.v ===== *)
(** * internal/config: the configuration of a node

    config.go, p2p.go and chain.go.  viper, which merges files, environment and
    flags, is a parameter: the class [Viper] holds the calls.  The home directory
    of [user.Current] is a parameter, [None] when the user is unknown. *)

From S2P Require Import Prelude Externals Text W3cDid Tx Chain.

(** github.com/spf13/viper over the state [V] of its global instance. *)
Inductive CfgValue := VBool (b : bool) | VInt (z : Z) | VString (s : string) | VStrings (l : list string).

Inductive ReadError := ConfigFileNotFoundError | OtherReadError (e : error).

Class Viper (V : Type) := {
  viper_SetDefault : string -> CfgValue -> V -> V;
  viper_SetConfigType : string -> V -> V;
  viper_SetConfigName : string -> V -> V;
  viper_AddConfigPath : string -> V -> V;
  viper_SetEnvPrefix : string -> V -> V;
  viper_AutomaticEnv : V -> V;
  viper_ReadInConfig : V -> option ReadError * V;
  viper_GetString : V -> string -> string;
  viper_GetInt : V -> string -> Z;
  viper_GetBool : V -> string -> bool;
  viper_GetStringSlice : V -> string -> list string
}.

(** msgpack on the genesis.  The data of a transaction is decoded into an empty
    interface, so into a map; such a map encodes as the struct it came from. *)
Class GenesisCodec `{Lib} := {
  msgpack_Marshal_Genesis : Chain.GenesisInfo -> result bytes;
  msgpack_Unmarshal_Genesis : bytes -> Chain.GenesisInfo -> result Chain.GenesisInfo
}.

Definition as_map `{Lib} `{!Tx.TxCodec} (t' t : Tx.Tx) : Prop :=
  exists r, t' = Tx.tx_set_Data (Tx.DataMap r) t /\
    forall b, Tx.msgpack_Marshal_Tx t' = Ok b -> Tx.decodes_to b t.

Class GenesisCodecLaws `{Lib} `{!Tx.TxCodec} `{!GenesisCodec} : Prop := {
  msgpack_Genesis_roundtrip : forall g b g0,
    Chain.blk_TxRoot (Chain.gen_Block g) <> cid_Undef ->
    msgpack_Marshal_Genesis g = Ok b ->
    exists g', msgpack_Unmarshal_Genesis b g0 = Ok g' /\
      Chain.gen_ChainID g' = Chain.gen_ChainID g /\
      Chain.blk_TxRoot (Chain.gen_Block g') = Chain.blk_TxRoot (Chain.gen_Block g) /\
      Chain.blk_Height (Chain.gen_Block g') = Chain.blk_Height (Chain.gen_Block g) /\
      Forall2 as_map (Chain.gen_Txs g') (Chain.gen_Txs g)
}.

Module Config.
Import Text Tx Chain.

(** ** p2p.go *)

Record P2P := {
  PeersCountHigh : Z;
  PeersCountLow : Z;
  BootstrapPeers : list string;
  ListenAddrs : list string;
  Relay : bool;
  IdentityFile : string;
  IpfsRepo : string;
  AdvertiseAddrs : list string
}.

Definition Cfg_p2p_connections_peerCountLow : string := "p2p.connections.peerCountLow".
Definition Cfg_p2p_connections_peerCountHigh : string := "p2p.connections.peerCountHigh".
Definition Cfg_p2p_bootstartPeers : string := "p2p.bootstartPeers".
Definition Cfg_p2p_listeningAddrs : string := "p2p.listeningAddrs".
Definition Cfg_p2p_enableRelay : string := "p2p.enableRelay".
Definition Cfg_p2p_identityFile : string := "p2p.identityFile".
Definition Cfg_p2p_ipfsRepo : string := "p2p.ipfsRepo".
Definition Cfg_p2p_advertiseAddrs : string := "p2p.advertiseAddrs".

Definition p2pDefaults : list (string * CfgValue) := [
  (Cfg_p2p_connections_peerCountLow, VInt 162);
  (Cfg_p2p_connections_peerCountHigh, VInt 192);
  (Cfg_p2p_bootstartPeers, VStrings
    ["/dnsaddr/bootstrap.didem.tcfw.com.au/p2p/12D3KooWBaKMRyqvN4VKKggSW9up159ugtEYYSTry1wtZKEzyHcX"]);
  (Cfg_p2p_listeningAddrs, VStrings ["/ip4/0.0.0.0/udp/8712/quic"; "/ip6/::0/udp/8712/quic"]);
  (Cfg_p2p_enableRelay, VBool false);
  (Cfg_p2p_identityFile, VString "~/.didem/p2p_identity");
  (Cfg_p2p_ipfsRepo, VString "~/.didem/data");
  (Cfg_p2p_advertiseAddrs, VStrings [])
].

(** ** chain.go *)

Definition Cfg_chain_genesisInfo : string := "chain.genesis".
Definition Cfg_chain_key : string := "chain.key".
Definition chainDefaults : list (string * CfgValue) := [].

(** ** config.go *)

Definition defaults : list (string * CfgValue) := [
  ("verbose", VBool false);
  ("identityStore", VString "~/.didem/identities.yaml");
  ("rawRandomSource", VBool false)
]%string.

Section Config.
Context `{L : Lib} `{!TxCodec} `{!GenesisCodec} {V : Type} `{!Viper V}.
Context (currentHome : option string).

(** [type Chain struct]: the genesis and the node's key *)
Record ChainCfg := { cc_Genesis : GenesisInfo; cc_Key : string }.

Record Config_ := {
  cfg_p2p : P2P;
  cfg_IdentityStore : string;
  cfg_RawRandomSource : bool;
  cfg_chain : ChainCfg
}.

(** viper's state, and whether the log level is debug. *)
Record CfgState := { cs_viper : V; cs_debug : bool }.
Notation M := (GoM CfgState).

Definition on_viper (f : V -> V) : M unit :=
  gmodify (fun s => {| cs_viper := f (cs_viper s); cs_debug := cs_debug s |}).
Definition viper_get {A} (get : V -> string -> A) (k : string) : M A := ggets (fun s => get (cs_viper s) k).

(** the three [init] functions: [SetDefault] for each entry of a map *)
Definition init_defaults (l : list (string * CfgValue)) : M unit :=
  on_viper (fun v => foldl (fun v kv => viper_SetDefault kv.1 kv.2 v) v l).
Definition config_init : M unit :=
  init_defaults chainDefaults;; init_defaults defaults;; init_defaults p2pDefaults.

(** [usr, _ := user.Current(); dir := usr.HomeDir] *)
Definition expandPath {S} (path : string) : GoM S string :=
  dir ← gsome currentHome;
  if bool_decide (path = "~"%string) then mret dir
  else if String.prefix "~/" path then
    mret (string_of_bytes (filepath_Join [bytes_of_string dir; drop 2 (bytes_of_string path)]))
  else mret path.

(** The low count is read from the key of the high one. *)
Definition buildP2PConfig : M (result P2P) :=
  low ← viper_get viper_GetInt Cfg_p2p_connections_peerCountHigh;
  high ← viper_get viper_GetInt Cfg_p2p_connections_peerCountHigh;
  bootstrap ← viper_get viper_GetStringSlice Cfg_p2p_bootstartPeers;
  listen ← viper_get viper_GetStringSlice Cfg_p2p_listeningAddrs;
  relay ← viper_get viper_GetBool Cfg_p2p_enableRelay;
  idf ← viper_get viper_GetString Cfg_p2p_identityFile;
  idf ← expandPath idf;
  repo ← viper_get viper_GetString Cfg_p2p_ipfsRepo;
  repo ← expandPath repo;
  adv ← viper_get viper_GetStringSlice Cfg_p2p_advertiseAddrs;
  mret (Ok {| PeersCountHigh := high; PeersCountLow := low; BootstrapPeers := bootstrap;
              ListenAddrs := listen; Relay := relay; IdentityFile := idf; IpfsRepo := repo;
              AdvertiseAddrs := adv |}).

(** [c := &Chain{}]: the genesis is the zero value *)
Definition empty_Block : Block := {|
  blk_Version := 0; blk_ID := cid_Undef; blk_Parent := cid_Undef; blk_Height := 0; blk_CreatedAt := 0;
  blk_Proposer := ""; blk_Signature := []; blk_Nonce := []; blk_Bloom := []; blk_TxRoot := cid_Undef |}.
Definition empty_Genesis : GenesisInfo := {| gen_ChainID := ""; gen_Block := empty_Block; gen_Txs := [] |}.

(** the loop over the transactions of the genesis, which are pointers *)
Definition remarshal (t : Tx) : result Tx :=
  b ← wrap "remarshal tx" (Marshal t);
  wrap "remarshal tx" (Unmarshal b t).

Fixpoint remarshal_all (txs : list Tx) : result (list Tx) :=
  match txs with
  | [] => Ok []
  | t :: txs => t ← remarshal t; txs ← remarshal_all txs; Ok (t :: txs)
  end.

Definition genesis_of_text (gcfg : string) : result GenesisInfo :=
  '(_, gcfg_raw) ← wrap "b64 decoding genesis config" (multibase_Decode gcfg);
  g ← wrap "unmarshaling genesis info" (msgpack_Unmarshal_Genesis gcfg_raw empty_Genesis);
  txs ← remarshal_all (gen_Txs g);
  Ok {| gen_ChainID := gen_ChainID g; gen_Block := gen_Block g; gen_Txs := txs |}.

Definition buildChainConfig : M (result ChainCfg) :=
  gcfg ← viper_get viper_GetString Cfg_chain_genesisInfo;
  gtry (mret (if bool_decide (gcfg = ""%string) then Ok empty_Genesis else genesis_of_text gcfg)) (fun g =>
  key ← viper_get viper_GetString Cfg_chain_key;
  mret (Ok {| cc_Genesis := g; cc_Key := key |})).

(** [viper.ReadInConfig()]: a missing file is no error *)
Definition read_config : M (option error) := fun s =>
  let (r, v) := viper_ReadInConfig (cs_viper s) in
  (Ret (match r with
        | None | Some ConfigFileNotFoundError => None
        | Some (OtherReadError e) => Some (errorsWrap e "reading config file")
        end), {| cs_viper := v; cs_debug := cs_debug s |}).

Definition GetConfig : M (result Config_) :=
  on_viper (viper_SetConfigType "yaml");;
  on_viper (viper_SetConfigName "didem");;
  on_viper (viper_AddConfigPath "/etc/didem/");;
  on_viper (viper_AddConfigPath "$HOME/.didem");;
  on_viper (viper_AddConfigPath ".");;
  on_viper (viper_SetEnvPrefix "DIDEM");;
  on_viper viper_AutomaticEnv;;
  gcheck read_config (
  gtry (gwrap "p2p config" buildP2PConfig) (fun p2p =>
  verbose ← viper_get viper_GetBool "verbose";
  gwhen verbose (gmodify (fun s => {| cs_viper := cs_viper s; cs_debug := true |}));;
  ids ← viper_get viper_GetString "identityStore";
  ids ← expandPath ids;
  raw ← viper_get viper_GetBool "rawRandomSource";
  gtry (gwrap "chain config" buildChainConfig) (fun chain =>
  mret (Ok {| cfg_p2p := p2p; cfg_IdentityStore := ids; cfg_RawRandomSource := raw; cfg_chain := chain |})))).
End Config.
Arguments ChainCfg {_}.
Arguments Config_ {_}.

Section ConfigFacts.
Context `{L : Lib} `{!TxCodec} `{!GenesisCodec} {V : Type} `{!Viper V}.

(** [~/a/b] of a home of plain components is [home/a/b]. *)
Lemma expandPath_home {S} (home rest : list bytes) (s : S) :
  Forall plain home -> Forall plain rest -> home <> [] -> rest <> [] ->
  expandPath (Some (string_of_bytes (slash :: bytes_Join home [slash])))
    (string_of_bytes (x7e :: slash :: bytes_Join rest [slash])) s =
  (Ret (string_of_bytes (slash :: bytes_Join (home ++ rest) [slash])), s).
Proof.
  intros Hh Hr Hne Hne'. unfold expandPath, gsome, mbind, GoM_bind, mret, GoM_ret.
  rewrite bool_decide_false.
  2:{ intros He. apply (f_equal bytes_of_string) in He. by rewrite bytes_of_string_of_bytes in He. }
  assert (String.prefix "~/" (string_of_bytes (x7e :: slash :: bytes_Join rest [slash])) = true) as ->.
  { by destruct (bytes_Join rest [slash]). }
  rewrite !bytes_of_string_of_bytes. cbn [drop]. unfold filepath_Join.
  rewrite bool_decide_false by done. rewrite bytes_Join_cons by done. cbn [bytes_Join app].
  rewrite <- (Clean_rooted (home ++ rest)) by by apply Forall_app. by rewrite bytes_Join_app.
Qed.

Lemma remarshal_all_maps `{!TxCodecLaws} l' l :
  Forall2 as_map l' l -> Forall (fun t => tx_typed t = true) l -> remarshal_all l' = Ok l.
Proof.
  induction 1 as [|t' t l' l (r&->&Hdec) _ IH]; intros Hl; [done|]. apply Forall_cons_1 in Hl as [Ht Hl].
  simpl. unfold remarshal. destruct (Marshal_total (tx_set_Data (DataMap r) t)) as (b&->&Hb). simpl.
  rewrite (Unmarshal_decodes t b _ Ht (Hdec b Hb)). simpl. by rewrite (IH Hl).
Qed.

(** A genesis that was encoded and written as text is read back: the chain, the
    transactions with their data, and the root and height of the block. *)
Lemma genesis_of_text_encoded `{!TxCodecLaws} `{!GenesisCodecLaws} `{!MultibaseLaws} g b e text :
  Forall (fun t => tx_typed t = true) (gen_Txs g) ->
  blk_TxRoot (gen_Block g) <> cid_Undef ->
  msgpack_Marshal_Genesis g = Ok b -> multibase_Encode e b = Ok text ->
  exists g', genesis_of_text text = Ok g' /\ gen_ChainID g' = gen_ChainID g /\ gen_Txs g' = gen_Txs g /\
    blk_TxRoot (gen_Block g') = blk_TxRoot (gen_Block g) /\
    blk_Height (gen_Block g') = blk_Height (gen_Block g).
Proof.
  intros Ht Hu Hb He. unfold genesis_of_text. rewrite (multibase_Decode_Encode _ _ _ He). simpl.
  destruct (msgpack_Genesis_roundtrip g b empty_Genesis Hu Hb) as (g'&->&Hc&Hr&Hh&HF). simpl.
  rewrite (remarshal_all_maps _ _ HF Ht). simpl. by eexists.
Qed.

(** The configured low count is not read. *)
Lemma peerCountLow_unread currentHome (s s' : CfgState (V := V)) :
  (forall k, k <> Cfg_p2p_connections_peerCountLow ->
     viper_GetInt (cs_viper s') k = viper_GetInt (cs_viper s) k) ->
  viper_GetString (cs_viper s') = viper_GetString (cs_viper s) ->
  viper_GetBool (cs_viper s') = viper_GetBool (cs_viper s) ->
  viper_GetStringSlice (cs_viper s') = viper_GetStringSlice (cs_viper s) ->
  (buildP2PConfig currentHome s').1 = (buildP2PConfig currentHome s).1.
Proof.
  intros Hi Hs Hb Hl. unfold buildP2PConfig, viper_get. go_unfold. rewrite Hs, Hb, Hl.
  rewrite !Hi by done. unfold expandPath. go_unfold. destruct currentHome; [|done].
  repeat first [progress rewrite ?Hs, ?Hl | case_bool_decide | destruct (String.prefix _ _)]; done.
Qed.
End ConfigFacts.
End Config.
