(* ===== verification/DidHandler.v ===== *)
(** * internal/did/handler.go: how a node joins the chain

    Before it takes part in consensus a node asks peers for their tip over a
    stream, applies the blocks it lacks and starts.  The network is that of
    [Stream] and [Comm]; the consensus engine is that of [Consensus].

    [Start] waits for peers and calls itself again: both loops have a fuel, and
    [None] means that they did not end within it. *)

From S2P Require Import Prelude Externals Cryptography Stream Comm W3cDid Tx Chain Validator MemPool.
From S2P Require Import Config ConsensusState Consensus.

(** api/consensus.proto *)
Record TipRequest := { tr_ChainId : string }.
Record TipResponse := { tp_Tip : string; tp_ChainId : string }.
Inductive ConsensusRequest :=
| Request_Tip (t : option TipRequest)
| Request_none.

(** protobuf, the peer set of the host and its tags, and the deadline of a
    context. *)
Class TipLib (N : Type) `{L : Lib} := {
  req_Marshal : ConsensusRequest -> result bytes;
  req_Unmarshal : bytes -> result ConsensusRequest;
  resp_Marshal : TipResponse -> result bytes;
  resp_Unmarshal : bytes -> result TipResponse;
  p2p_Peers : N -> list PeerID * N;
  (** [info.Tags["drand"]] is set *)
  drand_tag : PeerID -> N -> bool * N;
  ctx_expired : N -> bool * N
}.

Class TipLaws (N : Type) `{TipLib N} : Prop := {
  req_Unmarshal_Marshal : forall r b, req_Marshal r = Ok b -> req_Unmarshal b = Ok r;
  resp_Unmarshal_Marshal : forall r b, resp_Marshal r = Ok b -> resp_Unmarshal b = Ok r
}.

Module DidHandler.
Import Cryptography Stream Tx Chain Config Validator ConsensusState Consensus.

Definition DidProtocolID : string := "/tcfw/did/0.0.1".
Definition tipSetPeerCountStartThreshold : nat := 10.

Section DidHandler.
Context `{L : Lib} {W H VS : Type} `{!Store W H} `{!MsgCodec} `{!PubSub} `{!RangeOrder}.
Context (get_world : VS -> W) (put_world : W -> VS -> VS).
Context {N T : Type} `{!NetStream N T} `{!Peers N T} `{!TipLib N}.

(** [type Handler struct]: the consensus and the validator, with the network *)
Record Handler := {
  dh_consensus : Consensus H VS;
  dh_validator : Validator VS;
  dh_net : N
}.
Notation M := (GoM Handler).

Definition dh_set_net (n : N) (h : Handler) : Handler := {|
  dh_consensus := dh_consensus h; dh_validator := dh_validator h; dh_net := n |}.
Definition dh_set_consensus (c : Consensus H VS) (h : Handler) : Handler := {|
  dh_consensus := c; dh_validator := dh_validator h; dh_net := dh_net h |}.

Definition on_consensus {A} (m : GoM (Consensus H VS) A) : M A := gzoom dh_consensus dh_set_consensus m.
Definition dh_w {A} (f : N -> A * N) : M A := fun h => let (a, n) := f (dh_net h) in (Ret a, dh_set_net n h).

(** a [stream.RW] that lives in a call *)
Definition dh_rw {A} (c : RW T) (m : GoM (Wire N T) A) : M (A * RW T) := fun h =>
  let (r, x) := m {| wi_rw := c; wi_net := dh_net h |} in
  (match r with Ret a => Ret (a, wi_rw x) | Panic => Panic end, dh_set_net (wi_net x) h).

Definition ChainID : M string := ggets (fun h => string_of_bytes (c_chain (dh_consensus h))).
Definition State_Block : M Cid := ggets (fun h => s_Block (c_state (dh_consensus h))).

(** ** NewHandler *)

Inductive setup :=
| SetupNone  (** [return nil] *)
| SetupFatal  (** [logging.Fatal]: the process ends *)
| SetupOk (h : Handler).

Definition decode_key (k : string) : option (option Bls12381PrivateKey) :=
  if bool_decide (k = ""%string) then Some None
  else match multibase_Decode k with
       | Err _ => None
       | Ok (_, keyRaw) =>
           match NewBls12391PrivateKeyFromBytes keyRaw with Err _ => None | Ok key => Some (Some key) end
       end.

(** [n.Storage()], the validator made of it, and a new consensus of the host *)
Definition NewHandler (cfg : ChainCfg) (storage : H) (validator : Validator VS) (c0 : Consensus H VS) (n : N) : exit setup :=
  if bool_decide (gen_ChainID (cc_Genesis cfg) = ""%string) then Ret SetupNone
  else match decode_key (cc_Key cfg) with
  | None => Ret SetupFatal
  | Some key =>
      match NewConsensus get_world put_world
              ([WithSigningKey key; WithBlockStore storage; WithBeaconSource true; WithValidator validator] ++
               [WithGenesis (cc_Genesis cfg)]) c0 with
      | (Ret None, c) => Ret (SetupOk {| dh_consensus := c; dh_validator := validator; dh_net := n |})
      | (Ret (Some _), _) => Ret SetupFatal
      | (Panic, _) => Panic
      end
  end.

(** ** Asking for a tip *)

Definition did_ReqTip (p : PeerID) : M (result string) :=
  gtry (gwrap "connecting to peer" (dh_w (p2p_Open p DidProtocolID))) (fun s =>
  gdefer (
    chain ← ChainID;
    gtry (mret (wrap "marshalling req" (req_Marshal (Request_Tip (Some {| tr_ChainId := chain |}))))) (fun b =>
    r ← dh_rw (NewRW s) (rw_Write b);
    gcheck (mret (Wrap r.1 "sending req")) (
    r ← dh_rw r.2 rw_ReadNow;
    gtry (mret (wrap "reading resp" r.1)) (fun br =>
    gtry (mret (wrap "unmarshalling resp" (resp_Unmarshal br))) (fun resp =>
    chain ← ChainID;
    if negb (bool_decide (tp_ChainId resp = chain)) then
      mret (Err (errorsNew "resp contained mismatch chain id"))
    else mret (Ok (tp_Tip resp))))))
  ) (dh_w (net_Close s);; mret tt)).

(** ** Answering *)

Definition handleTipReq (s : RW T) (req : option TipRequest) : M unit :=
  req ← gsome req;
  chain ← ChainID;
  if negb (bool_decide (tr_ChainId req = chain)) then mret tt
  else
    b ← State_Block;
    match resp_Marshal {| tp_Tip := cid_String b; tp_ChainId := chain |} with
    | Err _ => mret tt
    | Ok b => _ ← dh_rw s (rw_Write b); mret tt
    end.

Definition did_Handle (nstream : T) : M unit :=
  gdefer (
    r ← dh_rw (NewRW nstream) rw_ReadNow;
    match r.1 with
    | Err _ => mret tt
    | Ok msg =>
        match req_Unmarshal msg with
        | Err _ => mret tt
        | Ok (Request_Tip t) => handleTipReq r.2 t
        | Ok Request_none => mret tt
        end
    end) (dh_w (net_Close nstream);; mret tt).

(** ** Start *)

(** The workers of [askForTip], in the order they answer: the tips counted, and
    whether a peer failed. *)
Fixpoint ask_peers (ps : list PeerID) (tips : gmap string nat) (failed : bool) : M (gmap string nat * bool) :=
  match ps with
  | [] => mret (tips, failed)
  | p :: ps =>
      r ← did_ReqTip p;
      match r with
      | Err _ => ask_peers ps tips true
      | Ok t => ask_peers ps (<[t := S (default 0 (tips !! t))]> tips) failed
      end
  end.

(** A worker that fails does not call [wg.Done], so the group never gets to zero
    and only the deadline ends the [select]. *)
Definition askForTip (peers : list PeerID) : M (result (gmap string nat)) :=
  r ← ask_peers (range_order peers) ∅ false;
  if r.2 : bool then mret (Err (errorsNew "ctx timeout"))
  else
    expired ← dh_w ctx_expired;
    mret (if expired : bool then Err (errorsNew "ctx timeout") else Ok r.1).

(** the peers without a drand tag *)
Fixpoint filter_peers (ps : list PeerID) : M (list PeerID) :=
  match ps with
  | [] => mret []
  | p :: ps =>
      tagged ← dh_w (drand_tag p);
      l ← filter_peers ps;
      mret (if tagged : bool then l else p :: l)
  end.

(** The loop that waits for peers; [peers] is not emptied between its runs. *)
Fixpoint wait_peers (fuel : nat) (requiredPeers : nat) (peers : list PeerID) : M (option (list PeerID)) :=
  match fuel with
  | 0 => mret None
  | S fuel =>
      cm_peers ← dh_w p2p_Peers;
      l ← filter_peers cm_peers;
      let peers := peers ++ l in
      if decide (length peers < requiredPeers) then wait_peers fuel requiredPeers peers
      else mret (Some peers)
  end.

Definition requiredPeers (chain : string) : nat :=
  if String.prefix "test" chain then 1 else tipSetPeerCountStartThreshold.

(** [h.consensus.Start()], its error wrapped *)
Definition start_consensus : M (option error) :=
  gwrap_e "starting consensus" (on_consensus Start).

(** what follows a unanimous tip *)
Definition follow_tip (fuel : nat) (tip : string) : M (option (option error)) :=
  b ← State_Block;
  if bool_decide (tip = cid_String b) then e ← start_consensus; mret (Some e)
  else match cid_ParseString tip with
  | Err err => mret (Some (Some err))
  | Ok bcid =>
      v ← ggets dh_validator;
      r ← on_consensus (gzoom c_mem set_mem (@ApplyFromTip L VS v fuel bcid));
      match r with
      | None => mret None
      | Some (Some err) => mret (Some (Some err))
      | Some None => e ← start_consensus; mret (Some e)
      end
  end.

(** [for t := range tips { tip = t }] *)
Definition last_tip (tips : gmap string nat) : string :=
  default ""%string (list.last (map_range tips).*1).

Fixpoint did_Start (fuel : nat) : M (option (option error)) :=
  chain ← ChainID;
  let required := requiredPeers chain in
  peers ← wait_peers fuel required [];
  match peers with
  | None => mret None
  | Some peers =>
      let vPeers := take required (range_order peers) in
      r ← gwrap "requesting tips" (askForTip vPeers);
      match r with
      | Err err => mret (Some (Some err))
      | Ok tips =>
          if negb (bool_decide (size tips = required)) || negb (bool_decide (size tips = 1)) then
            match fuel with 0 => mret None | S fuel => did_Start fuel end
          else follow_tip fuel (last_tip tips)
      end
  end.
End DidHandler.
End DidHandler.
