(* ===== verification/DidProps.v ===== *)
(** * Theorems on joining the chain *)

From S2P Require Import Prelude Externals Cryptography Stream StreamProps Comm W3cDid Tx Chain Validator MemPool.
From S2P Require Import ConsensusState Consensus DidHandler.

Module DidProps.
Import Cryptography Stream StreamProps Tx Chain Validator ConsensusState Consensus DidHandler.

Section DidProps.
Context `{L : Lib} {W H VS : Type} `{!Store W H} `{!MsgCodec} `{!PubSub} `{!RangeOrder}.
Context {N T : Type} `{!NetStream N T} `{!Peers N T} `{!TipLib N}.
Implicit Types h : Handler (H := H) (VS := VS) (N := N).

(** ** The network calls leave the consensus alone *)

Notation keeps c := (preserves (fun h : Handler (H := H) (VS := VS) (N := N) => dh_consensus h = c)).

Lemma keeps_w {A} c (f : N -> A * N) : keeps c (dh_w f).
Proof. intros h Hh. unfold dh_w. by destruct (f _). Qed.

Lemma keeps_rw {A} c (x : RW T) (m : GoM (Wire N T) A) : keeps c (dh_rw x m).
Proof. intros h Hh. unfold dh_rw. by destruct (m _). Qed.

Ltac keeps_net := preserves_walk ltac:(first
  [ apply keeps_w | apply keeps_rw | progress unfold ChainID, State_Block, gcheck ]).

Lemma keeps_ReqTip c p : keeps c (did_ReqTip (T := T) p).
Proof. unfold did_ReqTip. keeps_net. Qed.

Lemma keeps_ask_peers c ps tips b : keeps c (ask_peers (T := T) ps tips b).
Proof. revert tips b. induction ps; intros tips b; simpl; preserves_walk ltac:(first [apply keeps_ReqTip | apply IHps]). Qed.

Lemma keeps_askForTip c ps : keeps c (askForTip (T := T) ps).
Proof. unfold askForTip. preserves_walk ltac:(first [apply keeps_ask_peers | apply keeps_w]). Qed.

Lemma keeps_filter_peers c ps : keeps c (filter_peers ps).
Proof. induction ps; simpl; preserves_walk ltac:(first [apply keeps_w | exact IHps]). Qed.

Lemma keeps_wait_peers c fuel n ps : keeps c (wait_peers fuel n ps).
Proof.
  revert ps. induction fuel; intros ps; simpl;
    preserves_walk ltac:(first [apply keeps_w | apply keeps_filter_peers | apply IHfuel]).
Qed.

Lemma preserves_run {S A} (I : S -> Prop) (m : GoM S A) s r s' : preserves I m -> I s -> m s = (r, s') -> I s'.
Proof. intros Hm Hs Hr. specialize (Hm s Hs). by rewrite Hr in Hm. Qed.

(** ** Tips *)

(** A node asks, the other answers: the two ends of one request. *)

Lemma dh_rw_run {A} (x x' : RW T) (m : GoM (Wire N T) A) a n' h :
  m {| wi_rw := x; wi_net := dh_net h |} = (Ret a, {| wi_rw := x'; wi_net := n' |}) ->
  dh_rw x m h = (Ret (a, x'), dh_set_net n' h).
Proof. intros Hm. unfold dh_rw. by rewrite Hm. Qed.

(** C26. Asking a node of the same chain for its tip gives its tip: the asked node,
    when the request frame arrives, writes one frame, and the node that asked,
    when that frame arrives, returns the text of the block the other is at. *)
Theorem tip_exchange `{!TipLaws N} (ha hb : Handler (H := H) (VS := VS) (N := N)) p sa sb breq bresp
    a1 a2 a3 a4 b1 b2 b3 :
  let chain := string_of_bytes (c_chain (dh_consensus ha)) in
  let tip := cid_String (s_Block (c_state (dh_consensus hb))) in
  c_chain (dh_consensus hb) = c_chain (dh_consensus ha) ->
  req_Marshal (Request_Tip (Some {| tr_ChainId := chain |})) = Ok breq -> fits breq ->
  resp_Marshal {| tp_Tip := tip; tp_ChainId := chain |} = Ok bresp -> fits bresp ->
  (* the stream of the node that is asked *)
  net_Read sb defaultBufSize (dh_net hb) = (frame breq, None, b1) ->
  net_Write sb (frame bresp) b1 = (length (frame bresp), None, b2) -> (net_Close sb b2).2 = b3 ->
  (* the stream of the node that asks *)
  p2p_Open p DidProtocolID (dh_net ha) = (Ok sa, a1) ->
  net_Write sa (frame breq) a1 = (length (frame breq), None, a2) ->
  net_Read sa defaultBufSize a2 = (frame bresp, None, a3) -> (net_Close sa a3).2 = a4 ->
  did_Handle sb hb = (Ret tt, dh_set_net b3 hb) /\
  did_ReqTip p ha = (Ret (Ok tip), dh_set_net a4 ha).
Proof.
  intros chain tip Hchain Hreq Hfreq Hresp Hfresp Hbr Hbw Hbc Hao Haw Har Hac. split.
  - unfold did_Handle, gdefer.
    destruct (rw_ReadNow_run (NewRW sb) (dh_net hb) b1 breq breq) as [arr Hrun].
    { by apply fits_u32. } { destruct breq; [by right|by left]. } { split_and!; [done..|by right]. }
    rewrite take_ge, drop_ge in Hrun by done.
    unfold mbind, GoM_bind. rewrite (dh_rw_run _ _ _ _ _ _ Hrun). cbn [fst snd].
    rewrite (req_Unmarshal_Marshal _ _ Hreq). unfold handleTipReq, ChainID, State_Block, mbind, GoM_bind, ggets.
    cbn [gsome mret GoM_ret dh_set_net dh_consensus tr_ChainId]. rewrite Hchain. fold chain.
    rewrite bool_decide_true by done. cbn [negb dh_set_net dh_consensus]. fold tip. rewrite Hresp.
    rewrite frame_length in Hbw.
    destruct (rw_Write_run (set_rd [] None (set_buf arr (NewRW sb))) b1 b2 bresp eq_refl eq_refl Hfresp Hbw) as [arr' Hw].
    cbn beta iota. rewrite (dh_rw_run _ _ _ _ _ (dh_set_net b1 hb) Hw). unfold dh_w, mret, GoM_ret. cbn [dh_set_net dh_net].
    destruct (net_Close sb b2) as [? ?]. simpl in Hbc. by subst.
  - unfold did_ReqTip, gtry at 1, gwrap, mbind, GoM_bind, dh_w at 1. rewrite Hao. cbn [wrap mret GoM_ret].
    unfold gdefer, ChainID, ggets, gtry, gcheck, mbind, GoM_bind. cbn [dh_set_net dh_consensus dh_net].
    fold chain. rewrite Hreq. cbn [wrap mret GoM_ret]. rewrite frame_length in Haw.
    destruct (rw_Write_run (NewRW sa) a1 a2 breq eq_refl eq_refl Hfreq Haw) as [arr Hw].
    cbn beta iota. rewrite (dh_rw_run _ _ _ _ _ (dh_set_net a1 ha) Hw). cbn [fst snd Wrap mret GoM_ret].
    destruct (rw_ReadNow_run (set_buf arr (NewRW sa)) a2 a3 bresp bresp) as [arr' Hr].
    { by apply fits_u32. } { destruct bresp; [by right|by left]. } { split_and!; [done..|by right]. }
    rewrite take_ge, drop_ge in Hr by done.
    cbn beta iota. rewrite (dh_rw_run _ _ _ _ _ (dh_set_net a2 (dh_set_net a1 ha)) Hr). cbn [fst snd wrap mret GoM_ret].
    rewrite (resp_Unmarshal_Marshal _ _ Hresp). cbn [wrap tp_ChainId tp_Tip dh_set_net dh_consensus]. fold chain.
    rewrite bool_decide_true by done. cbn [negb]. unfold dh_w, mret, GoM_ret. cbn [dh_set_net dh_net].
    destruct (net_Close sa a3) as [? ?]. simpl in Hac. by subst.
Qed.

(** ** Starting *)

(** One run of [Start]: without peers it has not ended, without tips it reports
    the error; otherwise it depends on the tips. *)
Lemma did_Start_inv fuel h r h' :
  did_Start (T := T) fuel h = (Ret r, h') ->
  (r <> Some None /\ dh_consensus h' = dh_consensus h) \/
  exists tips h2, dh_consensus h2 = dh_consensus h /\
    let required := requiredPeers (string_of_bytes (c_chain (dh_consensus h))) in
    if negb (bool_decide (size tips = required)) || negb (bool_decide (size tips = 1))
    then exists fuel', fuel = S fuel' /\ did_Start (T := T) fuel' h2 = (Ret r, h')
    else follow_tip fuel (last_tip tips) h2 = (Ret r, h').
Proof.
  assert (did_Start (T := T) fuel = chain ← ChainID; peers ← wait_peers fuel (requiredPeers chain) [];
    match peers with
    | None => mret None
    | Some peers =>
        r ← gwrap "requesting tips" (askForTip (take (requiredPeers chain) (range_order peers)));
        match r with
        | Err err => mret (Some (Some err))
        | Ok tips =>
            if negb (bool_decide (size tips = requiredPeers chain)) || negb (bool_decide (size tips = 1)) then
              match fuel with 0 => mret None | S fuel => did_Start fuel end
            else follow_tip fuel (last_tip tips)
        end
    end) as -> by (by destruct fuel).
  intros (chain&h0&Hc&Hrun)%bind_inv. injection Hc as <- <-.
  apply bind_inv in Hrun as (peers&h1&Hw&Hrun).
  pose proof (preserves_run _ _ _ _ _ (keeps_wait_peers (dh_consensus h) _ _ _) eq_refl Hw) as Hk1.
  destruct peers as [peers|]; [|left; by injection Hrun as <- <-].
  apply bind_inv in Hrun as (tips&h2&Ht&Hrun).
  pose proof (preserves_run _ _ _ _ _ (preserves_wrap _ _ _ (keeps_askForTip (dh_consensus h) _)) Hk1 Ht) as Hk2.
  destruct tips as [tips|]; [|left; by injection Hrun as <- <-].
  destruct (negb _ || negb _) eqn:Hb in Hrun.
  - destruct fuel as [|fuel]; [left; by injection Hrun as <- <-|].
    right. exists tips, h2. split; [done|]. simpl. rewrite Hb. eauto.
  - right. exists tips, h2. split; [done|]. simpl. by rewrite Hb.
Qed.

(** C38. A node of a chain whose name does not begin with [test] never starts: the
    number of different tips would have to be ten and one at the same time.
    [Start] returns only with an error, or goes on for ever, and the consensus is
    as it was. *)
Theorem mainnet_never_starts fuel h r h' :
  String.prefix "test" (string_of_bytes (c_chain (dh_consensus h))) = false ->
  did_Start (T := T) fuel h = (Ret r, h') -> r <> Some None /\ dh_consensus h' = dh_consensus h.
Proof.
  revert h. induction fuel as [|fuel IH]; intros h Hp [Hdone|(tips&h2&Hh2&Hrun)]%did_Start_inv; try done;
    unfold requiredPeers in Hrun; rewrite Hp in Hrun;
    (destruct (_ || _) eqn:Hb in Hrun;
     [|revert Hb; unfold tipSetPeerCountStartThreshold; repeat case_bool_decide; simpl; try done; lia]);
    destruct Hrun as (fuel'&[= <-]&Hrun).
  destruct (IH h2) as [Hr Hh]; [by rewrite Hh2|done|]. split; [done|]. by rewrite Hh.
Qed.

(** [consensus.Start] only sets timers and topics. *)
Lemma Start_state k : preserves (fun c : Consensus H VS => c_state c = k) Start.
Proof.
  unfold Start, setupTimers, subscribeMsgs, subscribeTx, p2p_Msgs.
  preserves_walk ltac:(fail).
Qed.

Lemma follow_tip_state fuel tip k :
  preserves (fun h : Handler (H := H) (VS := VS) (N := N) => c_state (dh_consensus h) = k) (follow_tip fuel tip).
Proof.
  assert (preserves (fun h : Handler (H := H) (VS := VS) (N := N) => c_state (dh_consensus h) = k)
    start_consensus) as Hs.
  { apply preserves_wrap_e. intros h Hh. pose proof (Start_state k (dh_consensus h) Hh) as Hst.
    unfold on_consensus, gzoom. by destruct (Start (dh_consensus h)). }
  assert (forall A (m : GoM VS A), preserves (fun h : Handler (H := H) (VS := VS) (N := N) =>
    c_state (dh_consensus h) = k) (on_consensus (gzoom c_mem set_mem m))) as Hv.
  { intros A m h Hh. unfold on_consensus, gzoom. by destruct (m (c_mem (dh_consensus h))). }
  unfold follow_tip, State_Block. preserves_walk ltac:(first [exact Hs | apply Hv]).
Qed.

(** Catching up does not move the consensus: also when [Start] applied the
    blocks up to the peers' tip and started the engine, the engine's block and
    height are those it had before. *)
Theorem Start_keeps_tip fuel h r h' :
  did_Start (T := T) fuel h = (Ret r, h') -> c_state (dh_consensus h') = c_state (dh_consensus h).
Proof.
  revert h. induction fuel as [|fuel IH]; intros h [[_ ->]|(tips&h2&Hh2&Hrun)]%did_Start_inv; try done;
    simpl in Hrun; destruct (_ || _) in Hrun.
  - by destruct Hrun as (?&?&_).
  - rewrite <- Hh2. by apply (preserves_run _ _ _ _ _ (follow_tip_state _ _ _) eq_refl Hrun).
  - destruct Hrun as (fuel'&[= <-]&Hrun). rewrite <- Hh2. by apply IH.
  - rewrite <- Hh2. by apply (preserves_run _ _ _ _ _ (follow_tip_state _ _ _) eq_refl Hrun).
Qed.

Lemma range_one {A} (x : A) : range_order [x] = [x].
Proof. apply Permutation_singleton_r, range_order_perm. Qed.

Lemma last_tip_one t n : last_tip {[t := n]} = t.
Proof. unfold last_tip, map_range. by rewrite map_to_list_singleton, range_one. Qed.

(** A node of a test chain starts: with one peer that is not of drand and that
    answers with the node's own tip before the deadline, [Start] starts the
    consensus engine and returns what the engine's [Start] returns. *)
Lemma testnet_starts fuel h p n1 n2 n3 n4 c' :
  let tip := cid_String (s_Block (c_state (dh_consensus h))) in
  String.prefix "test" (string_of_bytes (c_chain (dh_consensus h))) = true ->
  p2p_Peers (dh_net h) = ([p], n1) -> drand_tag p n1 = (false, n2) ->
  did_ReqTip (T := T) p (dh_set_net n2 h) = (Ret (Ok tip), dh_set_net n3 h) -> ctx_expired n3 = (false, n4) ->
  Start (dh_consensus h) = (Ret None, c') ->
  did_Start (T := T) (S fuel) h = (Ret (Some None), dh_set_consensus c' (dh_set_net n4 h)).
Proof.
  intros tip Hp Hpeers Htag Hreq Hctx Hstart. destruct h as [c v n]. simpl in *.
  cbn [did_Start]. unfold ChainID, mbind, GoM_bind, ggets. cbn [dh_consensus]. unfold requiredPeers. rewrite Hp.
  cbn [wait_peers]. unfold mbind, GoM_bind, dh_w at 1. cbn [dh_net]. rewrite Hpeers. cbn [filter_peers].
  unfold mbind, GoM_bind, dh_w at 1. cbn [dh_net dh_set_net]. rewrite Htag. cbn [app mret GoM_ret].
  rewrite decide_False by (simpl; lia). cbn [mret GoM_ret]. rewrite range_one. cbn [take].
  unfold gwrap, askForTip, mbind, GoM_bind. rewrite range_one. cbn [ask_peers]. unfold mbind, GoM_bind, dh_set_net in *.
  cbn [dh_consensus dh_validator dh_net] in *. rewrite Hreq. unfold dh_w. cbn. rewrite Hctx. cbn.
  rewrite insert_empty, map_size_singleton. cbn [bool_decide negb orb].
  rewrite !bool_decide_true by done. cbn [negb orb]. rewrite last_tip_one.
  unfold follow_tip, State_Block, mbind, GoM_bind, ggets. cbn [dh_consensus].
  rewrite bool_decide_true by done. unfold start_consensus, gwrap_e, on_consensus, gzoom, mbind, GoM_bind.
  cbn [dh_consensus dh_set_net dh_validator dh_net]. by rewrite Hstart.
Qed.

(** ** Waiting and asking *)

Lemma ask_peers_failed ps tips h r h' :
  ask_peers (T := T) ps tips true h = (Ret r, h') -> r.2 = true.
Proof.
  revert tips h. induction ps as [|p ps IH]; intros tips h; simpl; [by intros [= <- <-]|].
  intros ([t|]&h1&_&Hrun)%bind_inv; by apply IH in Hrun.
Qed.

(** One peer that fails is enough: if a request that [askForTip] makes fails,
    from whatever state the network is in, [askForTip] reports a timeout, however
    many others answered. *)
Lemma askForTip_one_failure ps p h r h' :
  p ∈ ps -> (forall h, exists e h', did_ReqTip (T := T) p h = (Ret (Err e), h')) ->
  askForTip (T := T) ps h = (Ret r, h') -> r = Err (errorsNew "ctx timeout").
Proof.
  intros Hp Hfail. unfold askForTip. intros ([tips failed]&h1&Hask&Hrun)%bind_inv.
  enough (failed = true) as -> by (by injection Hrun as <-).
  rewrite <- (range_order_perm ps) in Hp. revert Hp Hask. generalize (∅ : gmap string nat), false, h.
  induction (range_order ps) as [|q qs IH]; intros m b h0 Hp Hask; [by apply not_elem_of_nil in Hp|].
  simpl in Hask. apply bind_inv in Hask as (t&h2&Hq&Hask). apply elem_of_cons in Hp as [->|Hp].
  - destruct (Hfail h0) as (e&h3&He). rewrite He in Hq. injection Hq as <- <-. by apply ask_peers_failed in Hask.
  - destruct t; by eapply IH.
Qed.

(** The threshold counts meetings, not peers: when the host has one peer and
    it has no drand tag, the loop ends after ten turns with that peer ten times. *)
Lemma wait_peers_repeats p h :
  (forall n, exists n', p2p_Peers n = ([p], n')) -> (forall n, exists n', drand_tag p n = (false, n')) ->
  exists h', wait_peers 10 tipSetPeerCountStartThreshold [] h = (Ret (Some (replicate 10 p)), h').
Proof.
  intros Hpeers Htag.
  assert (forall fuel acc (g : Handler (H := H) (VS := VS) (N := N)), exists g', wait_peers (S fuel) tipSetPeerCountStartThreshold acc g =
    if decide (length (acc ++ [p]) < tipSetPeerCountStartThreshold)
    then wait_peers fuel tipSetPeerCountStartThreshold (acc ++ [p]) g' else (Ret (Some (acc ++ [p])), g')) as Hstep.
  { intros fuel acc g. cbn [wait_peers]. unfold mbind, GoM_bind, dh_w at 1.
    destruct (Hpeers (dh_net g)) as [n1 ->]. cbn [filter_peers]. unfold mbind, GoM_bind, dh_w.
    cbn [dh_set_net dh_net]. destruct (Htag n1) as [n2 ->]. eexists. cbn. by case_decide. }
  assert (forall k acc (g : Handler (H := H) (VS := VS) (N := N)), length acc + k = 9 -> exists h', wait_peers (S k) tipSetPeerCountStartThreshold acc g =
    (Ret (Some (acc ++ replicate (S k) p)), h')) as Hloop.
  { induction k as [|k IH]; intros acc g Hk.
    - destruct (Hstep 0 acc g) as [g1 ->]. rewrite decide_False by (rewrite length_app; unfold tipSetPeerCountStartThreshold; simpl; lia).
      by exists g1.
    - destruct (Hstep (S k) acc g) as [g1 ->].
      rewrite decide_True by (rewrite length_app; unfold tipSetPeerCountStartThreshold; simpl; lia).
      destruct (IH (acc ++ [p]) g1) as [h' ->]; [rewrite length_app; simpl; lia|].
      exists h'. by rewrite <- app_assoc. }
  apply (Hloop 9 [] h). done.
Qed.
End DidProps.
End DidProps.
