(* ===== verification/Resolver.v ===== *)
(** * pkg/did/resolver: resolving a DID through DNS

    A DID of the method [dns] is looked up as a URI record, whose target is a DID
    again; the depth of [did:dns:] targets is bounded, other targets start over.
    The recursion has a fuel; [None] means that it did not end within it. *)

From S2P Require Import Prelude Externals NetUrl Cryptography W3cDid.

(** github.com/miekg/dns: the configuration in /etc/resolv.conf as its servers
    and port, and a query for the URI records of a name.  A record of another
    type is [RRother]. *)
Inductive RR := RRuri (target : string) | RRother.

Class Dns (W : Type) := {
  dns_ClientConfigFromFile : W -> result (list string * string) * W;
  dns_ExchangeContext : string -> string -> W -> result (list RR) * W
}.

Module Resolver.
Import Cryptography W3cDid.

Definition ErrUnknownMethod : error := Sentinel "unknown did method".

(** [strings.HasSuffix(name, ".")] *)
Definition ends_with_dot (s : string) : bool :=
  match list.last (bytes_of_string s) with Some x2e => true | _ => false end.

(** [strings.HasPrefix] *)
Definition HasPrefix (s p : string) : bool := String.prefix p s.

Section Resolver.
Context `{L : Lib} {W : Type} `{!Dns W}.
Notation M := (GoM W).

Definition dns_act {A} (f : W -> A * W) : M A := fun w => let (a, w) := f w in (Ret a, w).

Definition set_doc_ID (i : string) (d : Document) : Document := {|
  doc_Context := doc_Context d; doc_ID := i; doc_AlsoKnownAs := doc_AlsoKnownAs d; doc_Controller := doc_Controller d;
  doc_VerificationMethod := doc_VerificationMethod d; doc_Authentication := doc_Authentication d;
  doc_AssertionMethod := doc_AssertionMethod d; doc_KeyAgreement := doc_KeyAgreement d;
  doc_CapabilityInvocation := doc_CapabilityInvocation d; doc_CapabilityDelegation := doc_CapabilityDelegation d;
  doc_Service := doc_Service d |}.

(** ** dns.go *)

(** the servers and the port *)
Definition DNSDIDResolver : Type := list string * string.

Definition NewDNSDIDResolver : M (result DNSDIDResolver) :=
  gwrap "building dns config" (dns_act dns_ClientConfigFromFile).

(** the first URI record whose target is a DID; the empty string if none is *)
Fixpoint first_did (answer : list RR) : string :=
  match answer with
  | [] => ""
  | RRuri target :: answer => if HasPrefix target "did:" then target else first_did answer
  | RRother :: answer => first_did answer
  end.

Definition dns_Resolve (d : DNSDIDResolver) (name : string) : M (result string) :=
  let name := if ends_with_dot name then name else (name +:+ ".")%string in
  server ← gsome (head d.1);
  gtry (gwrap "querying dns record" (dns_act (dns_ExchangeContext name (server +:+ ":" +:+ d.2)))) (fun answer =>
  if bool_decide (length answer = 0) then mret (Err (errorsNew "notFound"))
  else
    let resolvedReference := first_did answer in
    if bool_decide (resolvedReference = ""%string) then mret (Err (errorsNew "notFound"))
    else mret (Ok resolvedReference)).

(** the name of the record *)
Definition record_name (did : string) : M string :=
  i ← Id did;
  f ← Fragment did;
  mret (if bool_decide (f = ""%string) then ("_did." +:+ i)%string else ("_" +:+ f +:+ "._did." +:+ i)%string).

(** [ResolveContext]'s switch on the method, over what resolves a DNS name *)
Definition by_method (dns : string -> M (option (result Document))) (did : string) : M (option (result Document)) :=
  m ← Method did;
  if bool_decide (m = "dns"%string) then dns did else mret (Some (Err ErrUnknownMethod)).

Fixpoint resolveDNS (fuel : nat) (did : string) (depth : nat) : M (option (result Document)) :=
  match fuel with
  | 0 => mret None
  | S fuel =>
      if decide (5 < depth) then mret (Some (Err (errorsNew "notFound")))
      else
        client ← gwrap "constructing dns client" NewDNSDIDResolver;
        match client with
        | Err e => mret (Some (Err e))
        | Ok client =>
            rrname ← record_name did;
            rrres ← dns_Resolve client rrname;
            match rrres with
            | Err e => mret (Some (Err e))
            | Ok rrres =>
                r ← (if HasPrefix rrres "did:dns:" then resolveDNS fuel rrres (S depth)
                     else by_method (fun d => resolveDNS fuel d 0) rrres);
                match r with
                | Some (Ok doc) => i ← Id did; mret (Some (Ok (set_doc_ID i doc)))
                | r => mret r
                end
            end
        end
  end.

(** ** resolver.go *)

Definition ResolveContext (fuel : nat) (did : string) : M (option (result Document)) :=
  by_method (fun d => resolveDNS fuel d 0) did.

Definition Resolve (fuel : nat) (did : string) : M (option (result Document)) := ResolveContext fuel did.
End Resolver.

(** ** Facts *)

Section Facts.
Context `{L : Lib} {W : Type} `{!Dns W}.
Implicit Types w : W.

(** No target of a query has the method [dns] without the prefix [did:dns:]. *)
Definition dns_targets_prefixed : Prop :=
  forall (d : DNSDIDResolver) name w t w',
    dns_Resolve d name w = (Ret (Ok t), w') -> HasPrefix t "did:dns:" = true \/
      forall w1, (Method t w1).1 <> Ret "dns"%string.

Lemma Method_stateless u w : Method u w = ((Method u tt).1, w).
Proof. unfold Method. go_unfold. by destruct (NetUrl.Parse u). Qed.

Lemma by_method_other k t w : (Method t w).1 <> Ret "dns"%string ->
  (by_method k t w).1 <> Ret None.
Proof.
  intros Hm. unfold by_method. go_unfold. rewrite Method_stateless in Hm |- *. simpl in Hm.
  destruct (Method t tt).1 as [m|]; simpl in *; [|done]. rewrite bool_decide_false; [done|congruence].
Qed.

Lemma resolveDNS_ends fuel did depth w :
  dns_targets_prefixed -> 7 <= depth + fuel -> 0 < fuel ->
  (resolveDNS fuel did depth w).1 <> Ret None.
Proof.
  intros Hd. revert did depth w. induction fuel as [|fuel IH]; intros did depth w Hf Hpos; [lia|].
  cbn [resolveDNS]. case_decide as Hdepth; [done|]. unfold mbind, GoM_bind.
  destruct (gwrap _ NewDNSDIDResolver w) as [[[client|]|] w1]; [|done..].
  destruct (record_name did w1) as [[rrname|] w2]; [|done].
  destruct (dns_Resolve client rrname w2) as [[[t|]|] w3] eqn:Ht; [|done..].
  assert (((if HasPrefix t "did:dns:" then resolveDNS fuel t (S depth)
            else by_method (fun d => resolveDNS fuel d 0) t) w3).1 <> Ret None) as Hr.
  { destruct (Hd _ _ _ _ _ Ht) as [-> | Hm]; [apply IH; lia|].
    destruct (HasPrefix t "did:dns:"); [apply IH; lia|]. by apply by_method_other. }
  set (next := if HasPrefix t "did:dns:" then resolveDNS fuel t (S depth)
               else by_method (fun d => resolveDNS fuel d 0) t) in *.
  destruct (next w3) as [[[[doc|]|]|] w4]; simpl in *; try done.
  by destruct (Id did w4) as [[] ?].
Qed.

Lemma resolveDNS_no_document fuel did depth w d : (resolveDNS fuel did depth w).1 <> Ret (Some (Ok d)).
Proof.
  revert did depth w d. induction fuel as [|fuel IH]; intros did depth w d; [done|].
  cbn [resolveDNS]. case_decide; [done|]. unfold mbind, GoM_bind.
  destruct (gwrap _ NewDNSDIDResolver w) as [[[client|]|] w1]; [|done..].
  destruct (record_name did w1) as [[rrname|] w2]; [|done].
  destruct (dns_Resolve client rrname w2) as [[[t|]|] w3]; [|done..].
  assert (forall d, ((if HasPrefix t "did:dns:" then resolveDNS fuel t (S depth)
            else by_method (fun d => resolveDNS fuel d 0) t) w3).1 <> Ret (Some (Ok d))) as Hr.
  { intros d'. destruct (HasPrefix t "did:dns:"); [apply IH|]. unfold by_method, mbind, GoM_bind.
    destruct (Method t w3) as [[m|] w4]; [|done]. case_bool_decide; [apply IH|done]. }
  set (next := if HasPrefix t "did:dns:" then resolveDNS fuel t (S depth)
               else by_method (fun d => resolveDNS fuel d 0) t) in *.
  destruct (next w3) as [[[[doc|]|]|] w4]; simpl in *; try done.
  by specialize (Hr doc).
Qed.

(** C34. Resolution ends, whatever the DNS server answers within [dns_targets_prefixed]:
    at most seven calls are made, the fuel seven is enough for every DID; and it
    never gives a document, since no method but [dns] is known and [dns] only
    refers to other methods. *)
Theorem Resolve_ends did w :
  dns_targets_prefixed ->
  (Resolve 7 did w).1 <> Ret None /\ forall fuel d, (Resolve fuel did w).1 <> Ret (Some (Ok d)).
Proof.
  intros Hd. unfold Resolve, ResolveContext, by_method, mbind, GoM_bind.
  split; [|intros fuel d]; (destruct (Method did w) as [[m|] w1]; [|done]; case_bool_decide; [|done]).
  - apply resolveDNS_ends; [done|lia|lia].
  - apply resolveDNS_no_document.
Qed.

(** The bound on the depth can be evaded: a target [did:dns] has the method but
    not the prefix, so it starts over at depth 0, and a server that answers with
    it keeps the resolver busy for ever. *)
Lemma Resolve_loops servers port w :
  (forall w, dns_ClientConfigFromFile w = (Ok (servers, port), w)) -> servers <> [] ->
  (forall name server w, dns_ExchangeContext name server w = (Ok [RRuri "did:dns"], w)) ->
  forall fuel, Resolve fuel "did:dns" w = (Ret None, w).
Proof.
  intros Hcfg Hs Hans fuel.
  assert (forall name, dns_Resolve (servers, port) name w = (Ret (Ok "did:dns"%string), w)) as Hres.
  { intros name. unfold dns_Resolve, gtry, gwrap, dns_act, mbind, GoM_bind.
    destruct servers as [|server servers']; [done|]. simpl. by rewrite Hans. }
  unfold Resolve, ResolveContext, by_method, mbind, GoM_bind.
  change (Method "did:dns" w) with (@Ret string "dns", w). cbn beta iota. rewrite bool_decide_true by done.
  induction fuel as [|fuel IH]; [done|]. cbn [resolveDNS]. rewrite decide_False by lia.
  unfold NewDNSDIDResolver, gwrap, dns_act, mbind, GoM_bind. rewrite Hcfg. cbn [wrap mret GoM_ret].
  change (record_name "did:dns" w) with (@Ret string "_did.", w). cbn beta iota. rewrite Hres. cbn beta iota.
  change (HasPrefix "did:dns" "did:dns:") with false. unfold by_method, mbind, GoM_bind.
  change (Method "did:dns" w) with (@Ret string "dns", w). cbn beta iota. rewrite bool_decide_true by done.
  by rewrite IH.
Qed.
End Facts.
End Resolver.
