(* ===== verification/DidDemo.v ===== *)
(** * Joining a chain on concrete streams: two nodes of a test chain *)

From S2P Require Import Prelude Externals Cryptography W3cDid Tx Chain Toy MemStore Validator MemPool ConsensusState Consensus.
From S2P Require Import ConsensusDemo Stream StreamProps Identity Comm CommDemo DidHandler DidProps Resolver.

Module DidDemo.
Import Toy Chain MemStore Validator ConsensusState Consensus Stream StreamProps CommDemo DidHandler DidProps.
Import ConsensusDemo.

#[local] Existing Instance range_asc.

Definition toy_req_Marshal (r : ConsensusRequest) : result bytes :=
  match r with
  | Request_Tip (Some t) => Ok (x01 :: bytes_of_string (tr_ChainId t))
  | Request_Tip None => Err (errorsNew "nil request")
  | Request_none => Ok [x00]
  end.
Definition toy_req_Unmarshal (b : bytes) : result ConsensusRequest :=
  match b with
  | x01 :: b => Ok (Request_Tip (Some {| tr_ChainId := string_of_bytes b |}))
  | [x00] => Ok Request_none
  | _ => Err (errorsNew "decode")
  end.

(** The host has one peer, which is not of drand, and no deadline passes. *)
#[export] Instance ToyTip : TipLib Pipe := {|
  req_Marshal := toy_req_Marshal;
  req_Unmarshal := toy_req_Unmarshal;
  resp_Marshal r := Ok (encode (tp_Tip r, tp_ChainId r));
  resp_Unmarshal b := match decode b with Ok p => Ok {| tp_Tip := p.1; tp_ChainId := p.2 |} | Err e => Err e end;
  p2p_Peers w := (["B"%string], w);
  drand_tag _ w := (false, w);
  ctx_expired w := (false, w)
|}.

#[export] Instance ToyTipLaws : TipLaws Pipe.
Proof.
  split.
  - intros [[[c]|]|] b; simpl; intros [= <-]; simpl; [by rewrite string_of_bytes_of_string|done].
  - intros [t c] b [= <-]. simpl. by rewrite decode_encode.
Qed.

(** A node of a chain, with the arrivals of its stream. *)
Definition demo_node (chain : string) (arrivals : list bytes) : Handler (H := nat) (VS := World) (N := Pipe) := {|
  dh_consensus := set_chain (bytes_of_string chain) (new_node ("A"%string : PeerID) (∅ : World) 5 (Ok [x09]));
  dh_validator := MockValidator World;
  dh_net := {| p_in := arrivals; p_out := [] |} |}.

Definition tip0 : string := cid_String cid_Undef.
Definition req_bytes : bytes := x01 :: bytes_of_string "test1".
Definition resp_bytes : bytes := encode (tip0, "test1"%string).

Definition asked (d : Pipe) : Pipe := {| p_in := []; p_out := p_out d ++ [frame req_bytes] |}.

Lemma tip_exchange_witness :
  did_Handle tt (demo_node "test1" [frame req_bytes]) =
    (Ret tt, dh_set_net {| p_in := []; p_out := [frame resp_bytes] |} (demo_node "test1" [frame req_bytes])) /\
  did_ReqTip ("B"%string : PeerID) (demo_node "test1" [frame resp_bytes]) =
    (Ret (Ok tip0), dh_set_net {| p_in := []; p_out := [frame req_bytes] |} (demo_node "test1" [frame resp_bytes])).
Proof.
  refine (tip_exchange (demo_node "test1" [frame resp_bytes]) (demo_node "test1" [frame req_bytes])
    ("B"%string : PeerID) tt tt req_bytes resp_bytes
    (dh_net (demo_node "test1" [frame resp_bytes])) {| p_in := [frame resp_bytes]; p_out := [frame req_bytes] |}
    {| p_in := []; p_out := [frame req_bytes] |} {| p_in := []; p_out := [frame req_bytes] |}
    {| p_in := []; p_out := [] |} {| p_in := []; p_out := [frame resp_bytes] |}
    {| p_in := []; p_out := [frame resp_bytes] |}
    eq_refl eq_refl _ eq_refl _ _ eq_refl eq_refl eq_refl eq_refl _ eq_refl).
  - apply (bool_decide_eq_true_1 _). by_vm.
  - apply (bool_decide_eq_true_1 _). by_vm.
  - by_vm.
  - by_vm.
Defined.

Lemma mainnet_never_starts_witness :
  String.prefix "test" (string_of_bytes (c_chain (dh_consensus (demo_node "main" [])))) = false /\
  (did_Start (T := unit) 0 (demo_node "main" [])).2 = demo_node "main" [] /\
  ((None : option (option error)) <> Some None /\
   dh_consensus (demo_node "main" []) = dh_consensus (demo_node "main" [])).
Proof.
  split; [by_vm|]. split; [done|].
  refine (mainnet_never_starts (T := unit) 0 (demo_node "main" []) None (demo_node "main" []) _ _).
  - by_vm.
  - reflexivity.
Defined.

Definition after_start : Handler (H := nat) (VS := World) (N := Pipe) :=
  dh_set_consensus (Start (dh_consensus (demo_node "test1" []))).2
    (dh_set_net {| p_in := []; p_out := [frame req_bytes] |} (demo_node "test1" [frame resp_bytes])).

Lemma testnet_starts_witness :
  did_Start (T := unit) 1 (demo_node "test1" [frame resp_bytes]) = (Ret (Some None), after_start).
Proof.
  refine (testnet_starts (T := unit) 0 (demo_node "test1" [frame resp_bytes]) ("B"%string : PeerID)
    (dh_net (demo_node "test1" [frame resp_bytes])) (dh_net (demo_node "test1" [frame resp_bytes]))
    {| p_in := []; p_out := [frame req_bytes] |} {| p_in := []; p_out := [frame req_bytes] |}
    (Start (dh_consensus (demo_node "test1" []))).2 _ eq_refl eq_refl _ eq_refl (run_fst _ _ _ _)).
  - by_vm.
  - exact (proj2 tip_exchange_witness).
  - by_vm.
Defined.

Lemma Start_keeps_tip_witness :
  c_state (dh_consensus after_start) = c_state (dh_consensus (demo_node "test1" [frame resp_bytes])).
Proof.
  refine (Start_keeps_tip (T := unit) 1 (demo_node "test1" [frame resp_bytes]) (Some None) after_start _).
  exact testnet_starts_witness.
Defined.

(** A peer that answers and one that cannot be reached. *)
Definition two_peers : list PeerID := ["B"%string : PeerID; "down"%string : PeerID].

Lemma askForTip_one_failure_witness :
  (askForTip (T := unit) two_peers (demo_node "test1" [frame resp_bytes])).1 = Ret (Err (errorsNew "ctx timeout")) /\
  (Err (errorsNew "ctx timeout") : result (gmap string nat)) = Err (errorsNew "ctx timeout").
Proof.
  assert ((askForTip (T := unit) two_peers (demo_node "test1" [frame resp_bytes])).1 =
    Ret (Err (errorsNew "ctx timeout"))) as Hrun by by_vm. split; [exact Hrun|].
  refine (askForTip_one_failure (T := unit) two_peers ("down"%string : PeerID) (demo_node "test1" [frame resp_bytes])
    (Err (errorsNew "ctx timeout")) _ _ _ (run_fst _ _ _ Hrun)).
  - right. left.
  - intros h. eexists _, _. reflexivity.
Defined.

Lemma wait_peers_repeats_witness :
  exists h', wait_peers 10 tipSetPeerCountStartThreshold [] (demo_node "main" []) =
    (Ret (Some (replicate 10 ("B"%string : PeerID))), h').
Proof.
  refine (wait_peers_repeats ("B"%string : PeerID) (demo_node "main" []) _ _).
  - intros n. exists n. reflexivity.
  - intros n. exists n. reflexivity.
Defined.
(** ** Name servers that give one answer to every query *)
Definition dns_answer (target : string) : Dns unit := {|
  dns_ClientConfigFromFile w := (Ok (["ns"%string], "53"%string), w);
  dns_ExchangeContext _ _ w := (Ok [RRuri target], w)
|}.

Lemma Resolve_ends_witness :
  (Resolver.Resolve (Dns0 := dns_answer "did:dns:b") 7 "did:dns:a" tt).1 <> Ret None /\
  forall fuel d, (Resolver.Resolve (Dns0 := dns_answer "did:dns:b") fuel "did:dns:a" tt).1 <> Ret (Some (Ok d)).
Proof.
  refine (Resolver.Resolve_ends (Dns0 := dns_answer "did:dns:b") "did:dns:a" tt _).
  intros [servers port] name w t w'. unfold Resolver.dns_Resolve, gtry, gwrap, Resolver.dns_act, mbind, GoM_bind.
  destruct servers; [done|]. intros [= <- <-]. by left.
Defined.

Lemma Resolve_loops_witness :
  forall fuel, Resolver.Resolve (Dns0 := dns_answer "did:dns") fuel "did:dns" tt = (Ret None, tt).
Proof.
  refine (Resolver.Resolve_loops (Dns0 := dns_answer "did:dns") ["ns"%string] "53"%string tt _ _ _); done.
Defined.
End DidDemo.
