(* ===== verification/Os.v ===== *)
(** * Files by their path, multiaddresses and peers

    The calls of package os and io/ioutil on whole files, over the world of
    [Identity.FileSystem], and the address parsing of go-multiaddr and libp2p.
    Both are used by the persistent store and by the node. *)

From S2P Require Import Prelude Externals Identity.

Definition os_ErrNotExist : error := Sentinel "file does not exist".

Class OsFiles (W : Type) := {
  os_Stat : string -> W -> option error * W;
  (** path and mode *)
  os_MkdirAll : string -> Z -> W -> option error * W;
  os_ReadFile : string -> W -> result bytes * W;
  os_WriteFile : string -> bytes -> Z -> W -> option error * W
}.

(** Stating and reading a file change nothing; both fail with [os.ErrNotExist]
    when there is no file, and reading gives the content; a file that was
    written has that content. *)
Class OsLaws (W : Type) `{!FileSystem W} `{!OsFiles W} : Prop := {
  os_Stat_world : forall p w, (os_Stat p w).2 = w;
  os_Stat_missing : forall p w, fs_content w p = None <->
    exists e, (os_Stat p w).1 = Some e /\ errors_Is e os_ErrNotExist = true;
  os_ReadFile_world : forall p w, (os_ReadFile p w).2 = w;
  os_ReadFile_missing : forall p w, fs_content w p = None ->
    exists e, os_ReadFile p w = (Err e, w) /\ errors_Is e os_ErrNotExist = true;
  os_ReadFile_content : forall p w d, (os_ReadFile p w).1 = Ok d -> fs_content w p = Some d;
  os_WriteFile_content : forall p d m w w', os_WriteFile p d m w = (None, w') -> fs_content w' p = Some d
}.

(** A call on one file leaves the others as they are. *)
Class FileFrame (W : Type) `{!FileSystem W} : Prop := {
  os_OpenFile_other : forall p q w, p <> q -> fs_content (os_OpenFile p w).2 q = fs_content w q;
  io_ReadAll_other : forall p q w, fs_content (io_ReadAll p w).2 q = fs_content w q
}.

(** github.com/multiformats/go-multiaddr, and [peer.AddrInfo] of libp2p *)
Class Multiaddrs `{Lib} := {
  Multiaddr : Type;
  multiaddr_NewMultiaddr : string -> result Multiaddr;
  (** [peer.AddrInfoFromP2pAddr] *)
  addr_info : Multiaddr -> result (PeerID * list Multiaddr)
}.

Record PeerAddr `{Multiaddrs} := { pa_ID : PeerID; pa_Addrs : list Multiaddr }.

(** [multiaddr.NewMultiaddr] and [peer.AddrInfoFromP2pAddr], one after the other *)
Definition parse_peer `{Multiaddrs} (addrStr : string) : result PeerAddr :=
  addr ← multiaddr_NewMultiaddr addrStr;
  '(i, addrs) ← addr_info addr;
  Ok {| pa_ID := i; pa_Addrs := addrs |}.
