(* ===== verification/IpfsOpen.v ===== *)
(** * Opening the persistent store: [NewIPFSStorage] of internal/storage/ipfs.go

    The repositories of kubo and pebble are made and opened, the plugins are set
    up once per process, and a goroutine connects to the bootstrap peers.  The
    libraries are the class [Kubo] over an environment [F]. *)

From S2P Require Import Prelude Externals Text W3cDid Tx Chain Identity Os Ipfs.

(** [config.Identity] of kubo *)
Record KuboIdentity := { ki_PeerID : string; ki_PrivKey : string }.

(** [ipfsCore.BuildCfg] as far as the store fills it in *)
Record BuildCfg (Repo : Type) := { bc_Online : bool; bc_DHTServer : bool; bc_Repo : Repo }.
Arguments Build_BuildCfg {_}.

Class Kubo (F : Type) `{Lib} `{!Ipfs.Pebble} `{!Ipfs.Ipfs} `{!Multiaddrs} := {
  Plugins : Type;
  KuboConfig : Type;
  Repo : Type;
  CoreNode : Type;
  loader_NewPluginLoader : string -> F -> result Plugins * F;
  plugins_Initialize : Plugins -> F -> option error * F;
  plugins_Inject : Plugins -> F -> option error * F;
  kubo_InitWithIdentity : KuboIdentity -> F -> result KuboConfig * F;
  (** [defaultConfig.AutoNAT.ServiceMode = config.AutoNATServiceEnabled] *)
  kubo_EnableAutoNAT : KuboConfig -> KuboConfig;
  fsrepo_Init : string -> KuboConfig -> F -> option error * F;
  fsrepo_Open : string -> F -> result Repo * F;
  ipfsCore_NewNode : BuildCfg Repo -> F -> result CoreNode * F;
  ipfs_NewCoreAPI : CoreNode -> F -> result Ipfs.IPFS * F;
  (** [pebble.Open(repo, ...)] with a cache of the given size *)
  pebble_Open : string -> Z -> F -> result Ipfs.DB * F;
  swarm_Connect : PeerAddr -> F -> option error * F
}.

Module IpfsOpen.
Import Text Ipfs.

Definition bootstrapNodes : list string := [
  "/dnsaddr/bootstrap.libp2p.io/p2p/QmNnooDu7bfjPFoTZYxMNLWUQJyrVwtbZg5gBMjTezGAJN";
  "/dnsaddr/bootstrap.libp2p.io/p2p/QmQCU2EcMqAqQPR2i9bChDtGNJchTbq5TbXJJ16u19uLTa";
  "/dnsaddr/bootstrap.libp2p.io/p2p/QmbLHAnMoJPWSCR5Zhtx6BHJX9KiKNN6tpvbUcqanj75Nb";
  "/dnsaddr/bootstrap.libp2p.io/p2p/QmcZf59bWwK5XFi76CZX8cbJ4BhTzzA3gU1ZjYZcYW3dwt"
]%string.

(** [1 << 20 * 100]: shift and product have one precedence *)
Definition cacheSize : Z := Z.shiftl 1 20 * 100.

(** [os.ModePerm], 0777 *)
Definition ModePerm : Z := 511.

Section IpfsOpen.
Context `{L : Lib} `{!Pebble} `{!Ipfs} `{!Multiaddrs} {F : Type} `{!OsFiles F} `{!Kubo F}.

(** The process: whether [ipfsSetup] has run, the environment, and the goroutines
    that were started, by the peers they connect to. *)
Record Proc := { pr_setup : bool; pr_env : F; pr_spawned : list (list string) }.
Notation M := (GoM Proc).

Definition pr_set_env (x : F) (p : Proc) : Proc :=
  {| pr_setup := pr_setup p; pr_env := x; pr_spawned := pr_spawned p |}.
Definition env {A} (f : F -> A * F) : M A := fun p =>
  let (a, x) := f (pr_env p) in (Ret a, pr_set_env x p).

Definition setupPlugins (externalPluginsPath : bytes) : M (option error) :=
  gtry_e (gwrap "error loading plugins" (env (loader_NewPluginLoader
    (string_of_bytes (filepath_Join [externalPluginsPath; bytes_of_string "plugins"]))))) (fun plugins =>
  gcheck_e (gwrap_e "error initializing plugins" (env (plugins_Initialize plugins))) (
  gwrap_e "error initializing plugins" (env (plugins_Inject plugins)))).

Definition createRepo (identity : KuboIdentity) (path : string) : M (option error) :=
  let path := if bool_decide (list.last (bytes_of_string path) = Some slash) then path
              else (path ++ "/")%string in
  err ← env (os_Stat path);
  gcheck_e (match err with
            | Some e =>
                if errors_Is e os_ErrNotExist then
                  gwrap_e "creating repo dir" (env (os_MkdirAll path ModePerm))
                else mret None
            | None => mret None
            end) (
  gtry_e (gwrap "creating default config" (env (kubo_InitWithIdentity identity))) (fun defaultConfig =>
  gwrap_e "failed to init p2p config" (env (fsrepo_Init path (kubo_EnableAutoNAT defaultConfig))))).

Definition newIpfsCfg (path : string) : M (result (BuildCfg Repo)) :=
  gtry (gwrap "opening ipfs repo" (env (fsrepo_Open path))) (fun repo =>
  mret (Ok {| bc_Online := true; bc_DHTServer := true; bc_Repo := repo |})).

(** [ipfsSetup.Do(func() { err = setupPlugins("") })]: the error is the one of
    this call, and a later call does not run the body. *)
Definition setup_once : M (option error) :=
  started ← ggets pr_setup;
  if started : bool then mret None
  else gmodify (fun p => {| pr_setup := true; pr_env := pr_env p; pr_spawned := pr_spawned p |});;
       setupPlugins [].

Definition ipfsStore (id : KuboIdentity) (repo : string) : M (result (IPFS * CoreNode)) :=
  gcheck setup_once (
  gcheck (gwrap_e "checking/creating ipfs repo" (createRepo id repo)) (
  gtry (gwrap "creating ipfs config from repo" (newIpfsCfg repo)) (fun cfg =>
  gtry (env (ipfsCore_NewNode cfg)) (fun node =>
  gtry (env (ipfs_NewCoreAPI node)) (fun iface =>
  gmodify (fun p => {| pr_setup := pr_setup p; pr_env := pr_env p;
                       pr_spawned := pr_spawned p ++ [bootstrapNodes] |});;
  mret (Ok (iface, node))))))).

Definition metadataStore (repo : string) : M (result DB) := env (pebble_Open repo cacheSize).

(** The store: the node, the database, and the node whose [Close] it keeps. *)
Record Opened := { op_ipfs : IPFS; op_db : DB; op_close : CoreNode }.

Definition repo_path (repo name : string) : string :=
  string_of_bytes (filepath_Join [bytes_of_string repo; bytes_of_string name]).

Definition NewIPFSStorage (id : KuboIdentity) (repo : string) : M (result Opened) :=
  gtry (gwrap "opening ipfs block store" (ipfsStore id (repo_path repo "ipfs"))) (fun x =>
  gtry (gwrap "opening metadata store" (metadataStore (repo_path repo "metadata"))) (fun m =>
  mret (Ok {| op_ipfs := x.1; op_db := m; op_close := x.2 |}))).

(** ** Connecting to the bootstrap peers *)

(** [peerInfos]: the addresses of each peer, in the order of the list *)
Definition add_peer (infos : gmap PeerID PeerAddr) (pii : PeerAddr) : gmap PeerID PeerAddr :=
  let pi := match infos !! pa_ID pii with
            | Some pi => pi
            | None => {| pa_ID := pa_ID pii; pa_Addrs := [] |}
            end in
  <[pa_ID pii := {| pa_ID := pa_ID pi; pa_Addrs := pa_Addrs pi ++ pa_Addrs pii |}]> infos.

Fixpoint collect_peers (peers : list string) (infos : gmap PeerID PeerAddr) : result (gmap PeerID PeerAddr) :=
  match peers with
  | [] => Ok infos
  | addrStr :: peers => pii ← parse_peer addrStr; collect_peers peers (add_peer infos pii)
  end.

(** The goroutines, in the order they run; a failure is logged. *)
Fixpoint connect_all (infos : list PeerAddr) : M unit :=
  match infos with
  | [] => mret tt
  | pi :: infos => env (swarm_Connect pi);; connect_all infos
  end.

Definition connectToPeers `{!RangeOrder} (peers : list string) : M (option error) :=
  gtry_e (mret (collect_peers peers ∅)) (fun peerInfos =>
  connect_all (map_range peerInfos).*2;;
  mret None).
End IpfsOpen.

Section IpfsOpenFacts.
Context `{L : Lib} `{!Pebble} `{!Ipfs} `{!Multiaddrs} {F : Type} `{!OsFiles F} `{!Kubo F}.

(** The addresses that a list of peers gives for one of them. *)
Definition addrs_of (i : PeerID) (l : list PeerAddr) : list Multiaddr :=
  concat (pa_Addrs <$> filter (fun p => pa_ID p = i) l).

Lemma collect_peers_spec peers infos r :
  collect_peers peers infos = Ok r <->
  exists l, Forall2 (fun s p => parse_peer s = Ok p) peers l /\ r = foldl add_peer infos l.
Proof.
  revert infos. induction peers as [|s peers IH]; intros infos; simpl.
  - split; [intros [= ->]; by exists []|]. by intros (l&->%Forall2_nil_inv_l&->).
  - destruct (parse_peer s) as [p|e] eqn:Hp; simpl.
    + rewrite IH. split.
      * intros (l&HF&->). exists (p :: l). by split; [constructor|].
      * intros (l&HF&->). apply Forall2_cons_inv_l in HF as (q&l'&Hq&HF&->).
        rewrite Hp in Hq. injection Hq as <-. eauto.
    + split; [done|]. intros (l&HF&_). apply Forall2_cons_inv_l in HF as (q&l'&Hq&_). congruence.
Qed.

Lemma add_peers_lookup l infos i :
  (forall j p, infos !! j = Some p -> pa_ID p = j) ->
  foldl add_peer infos l !! i =
    match infos !! i, filter (fun p => pa_ID p = i) l with
    | None, [] => None
    | None, _ => Some {| pa_ID := i; pa_Addrs := addrs_of i l |}
    | Some p, _ => Some {| pa_ID := i; pa_Addrs := pa_Addrs p ++ addrs_of i l |}
    end.
Proof.
  revert infos. induction l as [|p l IH]; intros infos Hi; simpl.
  { destruct (infos !! i) as [q|] eqn:Hq; [|done]. unfold addrs_of. simpl. rewrite app_nil_r.
    f_equal. destruct q. by rewrite <- (Hi _ _ Hq). }
  rewrite IH.
  2:{ intros j q. unfold add_peer. destruct (decide (pa_ID p = j)) as [<-|Hne].
      - rewrite lookup_insert_eq. intros [= <-]. simpl. destruct (infos !! pa_ID p) as [q'|] eqn:Hq; [|done].
        exact (Hi _ _ Hq).
      - rewrite lookup_insert_ne by done. apply Hi. }
  unfold add_peer, addrs_of. destruct (decide (pa_ID p = i)) as [<-|Hne].
  - rewrite lookup_insert_eq, filter_cons_True by done. simpl.
    destruct (infos !! pa_ID p) as [q|]; simpl; by rewrite <- ?app_assoc.
  - by rewrite lookup_insert_ne, filter_cons_False by done.
Qed.

(** A list of peers with an address that does not parse connects to nobody;
    otherwise each peer of the list is connected to once, with all the addresses
    the list has for it, in their order. *)
Lemma connectToPeers_spec `{!RangeOrder} peers (p : Proc (F := F)) :
  (forall s, s ∈ peers -> is_ok (parse_peer s) = true) ->
  exists l infos, Forall2 (fun s q => parse_peer s = Ok q) peers l /\
    connectToPeers peers p = (Ret None, (connect_all infos p).2) /\
    NoDup (pa_ID <$> infos) /\
    forall q, q ∈ infos <-> (exists q', q' ∈ l /\ pa_ID q' = pa_ID q) /\ pa_Addrs q = addrs_of (pa_ID q) l.
Proof.
  intros Hok. assert (exists l, Forall2 (fun s q => parse_peer s = Ok q) peers l) as [l HF].
  { induction peers as [|s peers IH]; [by exists []|]. destruct IH as [l Hl]; [set_solver|].
    specialize (Hok s ltac:(set_solver)). destruct (parse_peer s) as [q|] eqn:Hq; [|done].
    exists (q :: l). by constructor. }
  set (m := foldl add_peer ∅ l). exists l, (map_range m).*2.
  assert (forall i q, m !! i = Some q <->
    pa_ID q = i /\ (exists q', q' ∈ l /\ pa_ID q' = i) /\ pa_Addrs q = addrs_of i l) as Hm.
  { intros i q. unfold m. rewrite add_peers_lookup, lookup_empty by done.
    destruct (filter (fun p0 => pa_ID p0 = i) l) as [|q0 rest] eqn:Hf.
    - split; [done|]. intros (_&(q'&Hq'&Hi)&_).
      assert (q' ∈ filter (fun p0 => pa_ID p0 = i) l) as Hin by by apply list_elem_of_filter.
      rewrite Hf in Hin. set_solver.
    - assert (q0 ∈ filter (fun p0 => pa_ID p0 = i) l) as Hin by (rewrite Hf; left).
      apply list_elem_of_filter in Hin as [Hi Hin]. split.
      + intros [= <-]. simpl. eauto.
      + intros (Hq&_&Ha). destruct q as [j a]. simpl in *. by subst. }
  split_and!; [done| | |].
  - unfold connectToPeers, gtry_e, mbind, GoM_bind, mret, GoM_ret.
    rewrite (proj2 (collect_peers_spec peers ∅ m)) by eauto.
    assert (forall ps p', exists p'', connect_all ps p' = (Ret tt, p'')) as Hc.
    { induction ps as [|i ps IH]; intros p'; [by eexists|]. simpl. unfold mbind, GoM_bind, env.
      destruct (swarm_Connect i (pr_env p')). apply IH. }
    destruct (Hc (map_range m).*2 p) as [p'' ->]. done.
  - assert (pa_ID <$> (map_range m).*2 = (map_range m).*1) as ->; [|apply map_range_nodup_fst].
    rewrite <- list_fmap_compose. apply list_fmap_ext. intros k [i q] Hk. simpl.
    apply list_elem_of_lookup_2, elem_of_map_range, Hm in Hk. apply Hk.
  - intros q. rewrite list_elem_of_fmap. split.
    + intros ([i q']&->&Hq'%elem_of_map_range%Hm). simpl. destruct Hq' as (<-&?&?). done.
    + intros [He Ha]. exists (pa_ID q, q). split; [done|]. apply elem_of_map_range, Hm. done.
Qed.

Lemma connectToPeers_bad `{!RangeOrder} peers s (p : Proc (F := F)) :
  s ∈ peers -> is_ok (parse_peer s) = false -> exists e, connectToPeers peers p = (Ret (Some e), p).
Proof.
  intros Hs Hbad. unfold connectToPeers, gtry_e, mbind, GoM_bind, mret, GoM_ret.
  destruct (collect_peers peers ∅) as [m|e] eqn:Hm; [|by eexists]. exfalso.
  apply collect_peers_spec in Hm as (l&HF&_). apply list_elem_of_lookup in Hs as [i Hi].
  destruct (Forall2_lookup_l _ _ _ _ _ HF Hi) as (q&_&Hq). by rewrite Hq in Hbad.
Qed.

Lemma env_setup {A} b (f : F -> A * F) : preserves (fun p => pr_setup p = b) (env f).
Proof. intros p Hp. unfold env. by destruct (f (pr_env p)). Qed.

(** After a first attempt whose plugins failed the process opens a store without
    setting plugins up. *)
Lemma setup_once_second (p : Proc (F := F)) r p' :
  setup_once p = (r, p') -> setup_once p' = (Ret None, p').
Proof.
  assert (preserves (fun p : Proc => pr_setup p = true) (setupPlugins [])) as Hk.
  { unfold setupPlugins. preserves_walk ltac:(apply env_setup). }
  intros Hr. assert (pr_setup p' = true) as Hp'.
  { unfold setup_once, mbind, GoM_bind, ggets, gmodify in Hr.
    destruct (pr_setup p) eqn:Hp; [by injection Hr as <- <-|].
    specialize (Hk {| pr_setup := true; pr_env := pr_env p; pr_spawned := pr_spawned p |} eq_refl).
    by rewrite Hr in Hk. }
  unfold setup_once, mbind, GoM_bind, ggets. by rewrite Hp'.
Qed.
End IpfsOpenFacts.
End IpfsOpen.
