(* ===== verification/GenGen.v ===== *)
(** * scripts/gengen/gen.go: the generator of a chain's genesis

    For each peer identity given on the command line the generator makes a BLS
    key, a DID document and a node; it signs and stores their transactions in a
    temporary persistent store, builds the genesis block, and prints the genesis
    and the secret keys as the text that the configuration of a node takes.  The
    environment [F] is that of [IpfsOpen] with randomness and a clock; a [panic]
    of the program is [Panic]. *)

From S2P Require Import Prelude Externals Text Cryptography W3cDid Tx Chain Identity Os Ipfs IpfsOpen Config.

Class GenEnv (F : Type) `{Lib} := {
  ioutil_TempDir : F -> result string * F;
  kubo_CreateIdentity : F -> result KuboIdentity * F;
  (** [cryptography.NewBls12381PrivateKey] draws a scalar *)
  random_Scalar : F -> Scalar * F;
  unix_Now : F -> Z * F;
  random_Nonce : F -> result bytes * F;
  (** the draws of [math/rand] *)
  coin_flips : F -> nat -> Z
}.

Module GenGen.
Import Text Cryptography W3cDid Tx Chain Identity Ipfs IpfsOpen Config.

Section GenGen.
Context `{L : Lib} `{IL : IdLib} `{!TxCodec} `{!ChainCodec} `{!GenesisCodec} `{!RangeOrder}.
Context `{!Pebble} `{!Ipfs} `{!Multiaddrs} {F : Type} `{!OsFiles F} `{!Kubo F} `{!GenEnv F}.

(** [if err != nil { panic(err) }] *)
Definition must {S A} (m : GoM S (result A)) : GoM S A := r ← m; gsome (ok_opt r).

Notation M := (GoM (Proc (F := F))).

Record identity := { id_blsSk : Bls12381PrivateKey; id_blsPKMB : string; id_pID : string }.

(** [did.GenerateBls12381G2Identity()] *)
Definition GenerateBls12381G2Identity : M (result PrivateIdentity) :=
  sk ← env random_Scalar; mret (Ok (Bls12381G2Identity {| bls_sk := sk |})).

(** [sk.PrivateKey().( *cryptography.Bls12381PrivateKey)] *)
Definition as_bls (k : PrivKey) : option Bls12381PrivateKey :=
  match k with SkBls sk => Some sk | _ => None end.

Definition new_identity (i : string) : M identity :=
  sk ← must GenerateBls12381G2Identity;
  pk ← must (PublicIdentity_ 0 sk);
  pk0 ← gsome (head (pi_PublicKeys pk));
  pkmb ← must (mret (AsMultibase pk0));
  bls ← gsome (as_bls (PrivateKey sk));
  mret {| id_blsSk := bls; id_blsPKMB := pkmb; id_pID := i |}.

Fixpoint new_identities (idents : list string) : M (list identity) :=
  match idents with
  | [] => mret []
  | i :: idents => x ← new_identity i; l ← new_identities idents; mret (x :: l)
  end.

Definition did_of (i : identity) : string := "did:didem:" ++ id_pID i.

Definition gen_method (i : identity) : VerificationMethod := {|
  vm_ID := did_of i; vm_Type := Bls12381G2Key2020; vm_Controller := ""; vm_PublicKeyJwk := None;
  vm_PublicKeyMultibase := id_blsPKMB i |}.

Definition gen_document (i : identity) : Document := {|
  doc_Context := []; doc_ID := did_of i; doc_AlsoKnownAs := []; doc_Controller := [];
  doc_VerificationMethod := []; doc_Authentication := [gen_method i]; doc_AssertionMethod := [];
  doc_KeyAgreement := []; doc_CapabilityInvocation := []; doc_CapabilityDelegation := [];
  doc_Service := [] |}.

Definition did_tx (now : Z) (i : identity) : Tx := {|
  tx_Version := Version1; tx_Ts := now; tx_From := id_pID i; tx_Type := TxType_DID;
  tx_Action := TxActionAdd; tx_Data := DataDID {| did_Document := Some (gen_document i) |};
  tx_Signature := [] |}.

Definition gen_node (i : identity) : Node :=
  {| node_Id := id_pID i; node_Did := did_of i; node_Key := bytes_of_string (id_blsPKMB i) |}.

Definition node_tx (now : Z) (i : identity) : Tx := {|
  tx_Version := Version1; tx_Ts := now; tx_From := id_pID i; tx_Type := TxType_Node;
  tx_Action := TxActionAdd; tx_Data := DataNode (gen_node i); tx_Signature := [] |}.

Fixpoint gen_txs (identities : list identity) : M (list Tx) :=
  match identities with
  | [] => mret []
  | i :: identities =>
      now1 ← env unix_Now;
      now2 ← env unix_Now;
      l ← gen_txs identities;
      mret (did_tx now1 i :: node_tx now2 i :: l)
  end.

(** The store is opened in a directory that is removed when [main] returns. *)
Definition tempIPFSStorage : M (result Opened) :=
  gtry (env ioutil_TempDir) (fun repoPath =>
  gtry (env kubo_CreateIdentity) (fun id =>
  NewIPFSStorage id repoPath)).

(** A store that was just opened: the struct is at address 0. *)
Definition store0 : nat := 0.
Definition opened_world (coins : nat -> Z) (o : Opened) : World := {|
  w_ipfs := op_ipfs o; w_db := op_db o; w_batches := ∅;
  w_stores := {[store0 := {| pfTipApply := None |}]}; w_rand := coins |}.

(** ** Filling the store *)

Notation MW := (GoM World).

(** [identities[0].blsSk.Sign(nil, msg, nil)] *)
Definition sign0 {S} (identities : list identity) (msg : bytes) : GoM S (result bytes) :=
  i ← gsome (head identities); mret (bls_Sign (id_blsSk i) msg).

Fixpoint sign_and_put (identities : list identity) (txs : list Tx) : MW (list Tx * list Cid) :=
  match txs with
  | [] => mret ([], [])
  | t :: txs =>
      msg ← must (mret (Marshal t));
      sig ← must (sign0 identities msg);
      let t := tx_set_Signature sig t in
      cid ← must (PutTx store0 t);
      r ← sign_and_put identities txs;
      mret (t :: r.1, cid :: r.2)
  end.

Definition blk_set_Signature (sig : bytes) (b : Block) : Block := {|
  blk_Version := blk_Version b; blk_ID := blk_ID b; blk_Parent := blk_Parent b;
  blk_Height := blk_Height b; blk_CreatedAt := blk_CreatedAt b; blk_Proposer := blk_Proposer b;
  blk_Signature := sig; blk_Nonce := blk_Nonce b; blk_Bloom := blk_Bloom b; blk_TxRoot := blk_TxRoot b |}.

Definition gen_config (identities : list identity) (txs : list Tx) (now : Z) (nonce : result bytes) :
  MW GenesisInfo :=
  r ← sign_and_put identities txs;
  block ← must (NewBlock store0 now nonce cid_Undef r.2);
  blMsg ← must (mret (msgpack_Marshal_Block block));
  sig ← must (sign0 identities blMsg);
  mret {| gen_ChainID := "testnet"; gen_Block := blk_set_Signature sig block; gen_Txs := r.1 |}.

(** ** main *)

Record Printed := { pr_SK : string; pr_ID : string; pr_Peer : string }.
Record GenOut := { out_config : string; out_hex : string; out_identities : list Printed }.

Fixpoint print_identities {S} (identities : list identity) (idents : list string) : GoM S (list Printed) :=
  match identities with
  | [] => mret []
  | id :: identities =>
      skb ← must (mret (bls_PrivateBytes (id_blsSk id)));
      skbmb ← must (mret (multibase_Encode Base58BTC skb));
      peer ← gsome (head idents);
      l ← print_identities identities (tail idents);
      mret ({| pr_SK := skbmb; pr_ID := id_pID id; pr_Peer := peer |} :: l)
  end.

Definition main (p2pIdents : string) : M GenOut :=
  let idents := strings_Split p2pIdents "," in
  if bool_decide (length idents = 0) then gpanic
  else
    identities ← new_identities idents;
    txs ← gen_txs identities;
    store ← must tempIPFSStorage;
    coins ← ggets (fun p => coin_flips (pr_env p));
    now ← env unix_Now;
    nonce ← env random_Nonce;
    config ← (fun p => ((gen_config identities txs now nonce (opened_world coins store)).1, p));
    b ← must (mret (msgpack_Marshal_Genesis config));
    b64 ← must (mret (multibase_Encode Base58BTC b));
    printed ← print_identities identities idents;
    mret {| out_config := b64; out_hex := hex_EncodeToString b; out_identities := printed |}.
End GenGen.
End GenGen.
