(* ===== verification/GenesisRun.v ===== *)
(** * When applying a genesis succeeds

    Content addresses do not depend on the store that gives them, so the Merkle
    set of the same transactions has the same root everywhere; and a store whose
    libraries report no fault applies a genesis with that root.  The lemmas here
    are what the genesis generator is verified against. *)

From S2P Require Import Prelude Externals W3cDid Tx Chain ChainFacts Ipfs IpfsFacts IpfsProps.
From S2P Require Import IpfsBlocks IpfsGenesis.

(** The identifier [Block().Put] returns is the content address of the data. *)
Class IpfsAddress `{Ipfs.Ipfs} := {
  ipfs_addr : bytes -> Cid;
  block_Put_addr : forall d n c n', Ipfs.block_Put d n = (Ok c, n') -> c = ipfs_addr d
}.

(** Neither the disk nor the node fails. *)
Class NoFaults `{Ipfs.Pebble} `{Ipfs.Ipfs} : Prop := {
  block_Put_ok : forall d n, is_ok (Ipfs.block_Put d n).1 = true;
  pin_Add_ok : forall c n, (Ipfs.pin_Add c n).1 = None;
  batch_Set_ok : forall k v b, (Ipfs.batch_Set k v b).1 = None;
  batch_Delete_ok : forall k b, (Ipfs.batch_Delete k b).1 = None;
  batch_Commit_ok : forall b d, (Ipfs.batch_Commit b d).1 = None
}.

Module GenesisRun.
Import W3cDid Tx Chain ChainFacts Ipfs IpfsFacts IpfsProps IpfsBlocks IpfsGenesis.

(** ** Merkle sets do not depend on the store *)

Section Det.
Context `{L : Lib} {W H : Type} `{!Store W H} (f : TxSet -> Cid).
Context (Hput : forall h s w c w', PutSet h s w = (Ret (Ok c), w') -> c = f s).

Lemma put_leaves_det h1 h2 txs w1 w2 n1 n2 w1' w2' :
  put_leaves h1 txs w1 = (Ret (Ok n1), w1') -> put_leaves h2 txs w2 = (Ret (Ok n2), w2') -> n1 = n2.
Proof.
  revert w1 w2 n1 n2. induction txs as [|t txs IH]; intros w1 w2 n1 n2; simpl;
    [by intros [= <- <-] [= <- <-]|].
  intros (a1&u1&Hl1&Hr1)%try_inv (a2&u2&Hl2&Hr2)%try_inv.
  apply try_inv in Hr1 as (l1&v1&Hp1&Hr1). apply try_inv in Hr2 as (l2&v2&Hp2&Hr2).
  injection Hr1 as <- <-. injection Hr2 as <- <-. f_equal; [|by eapply IH].
  apply try_inv in Hl1 as (c1&x1&Hc1%wrap_inv%Hput&Hl1).
  apply try_inv in Hl2 as (c2&x2&Hc2%wrap_inv%Hput&Hl2).
  injection Hl1 as <- <-. injection Hl2 as <- <-. by subst.
Qed.

Lemma put_parents_det h1 h2 nodes w1 w2 n1 n2 w1' w2' :
  put_parents h1 nodes w1 = (Ret (Ok n1), w1') -> put_parents h2 nodes w2 = (Ret (Ok n2), w2') -> n1 = n2.
Proof.
  revert w1 w2 n1 n2. induction nodes as [|x|x y l IH] using list_ind2; intros w1 w2 n1 n2; simpl;
    [by intros [= <- <-] [= <- <-]|done|].
  intros (c1&u1&Hc1%wrap_inv%Hput&Hr1)%try_inv (c2&u2&Hc2%wrap_inv%Hput&Hr2)%try_inv.
  apply try_inv in Hr1 as (l1&v1&Hp1&Hr1). apply try_inv in Hr2 as (l2&v2&Hp2&Hr2).
  injection Hr1 as <- <-. injection Hr2 as <- <-. rewrite (IH _ _ _ _ Hp1 Hp2). by subst.
Qed.

Lemma reduce_nodes_det h1 h2 fuel nodes w1 w2 n1 n2 w1' w2' :
  reduce_nodes fuel h1 nodes w1 = (Ret (Ok n1), w1') ->
  reduce_nodes fuel h2 nodes w2 = (Ret (Ok n2), w2') -> n1 = n2.
Proof.
  revert nodes w1 w2. induction fuel as [|fuel IH]; intros [|a [|b nodes]] w1 w2; simpl; try done;
    try by intros [= <- <-] [= <- <-].
  intros (p1&u1&Hp1&Hr1)%try_inv (p2&u2&Hp2&Hr2)%try_inv.
  rewrite (put_parents_det _ _ _ _ _ _ _ _ _ Hp1 Hp2) in Hr1. by eapply IH.
Qed.

Lemma NewTxSet_det h1 h2 txs w1 w2 s1 s2 w1' w2' :
  NewTxSet h1 txs w1 = (Ret (Ok s1), w1') -> NewTxSet h2 txs w2 = (Ret (Ok s2), w2') -> s1 = s2.
Proof.
  unfold NewTxSet. case_decide; [done|].
  intros (p1&u1&Hp1&Hr1)%try_inv (p2&u2&Hp2&Hr2)%try_inv.
  rewrite (put_leaves_det _ _ _ _ _ _ _ _ _ Hp1 Hp2) in Hr1. by eapply reduce_nodes_det.
Qed.
End Det.

(** ** Bodies that return no error *)

Section NoErr.
Context {S : Type}.

Definition no_err {A} (m : GoM S (result A)) : Prop := forall s e s', m s <> (Ret (Err e), s').

Lemma no_err_ret {A} (a : A) : no_err (mret (Ok a)).
Proof. done. Qed.

Lemma no_err_try {A B} (m : GoM S (result A)) (k : A -> GoM S (result B)) :
  no_err m -> (forall a, no_err (k a)) -> no_err (gtry m k).
Proof.
  intros Hm Hk s e s'. unfold gtry, mbind, GoM_bind.
  destruct (m s) as [[[a|e']|] s1] eqn:Hr; [apply Hk|by apply Hm in Hr|done].
Qed.

Lemma no_err_wrap {A} msg (m : GoM S (result A)) : no_err m -> no_err (gwrap msg m).
Proof.
  intros Hm s e s'. unfold gwrap, mbind, GoM_bind. destruct (m s) as [[[a|e']|] s1] eqn:Hr; try done.
  by apply Hm in Hr.
Qed.
End NoErr.

Section NewTxSetNoErr.
Context `{L : Lib} {W H : Type} `{!Store W H}.
Context (Hput : forall (h : H) s, no_err (PutSet h s)).

Lemma put_leaves_no_err h txs : no_err (put_leaves h txs).
Proof.
  induction txs; simpl; [apply no_err_ret|]. apply no_err_try.
  - apply no_err_try; [by apply no_err_wrap|]. intros. apply no_err_ret.
  - intros n. apply no_err_try; [done|]. intros. apply no_err_ret.
Qed.

Lemma put_parents_no_err h nodes : no_err (put_parents h nodes).
Proof.
  induction nodes as [|x|x y l IH] using list_ind2; simpl; [apply no_err_ret|done|].
  apply no_err_try; [by apply no_err_wrap|]. intros c. apply no_err_try; [done|]. intros. apply no_err_ret.
Qed.

Lemma reduce_nodes_no_err h fuel nodes : no_err (reduce_nodes fuel h nodes).
Proof.
  revert nodes. induction fuel as [|fuel IH]; intros [|a [|b nodes]]; simpl; try done; try apply no_err_ret.
  apply no_err_try; [apply put_parents_no_err|apply IH].
Qed.

Lemma NewTxSet_no_err h txs : length txs <= MaxBlockTxCount -> no_err (NewTxSet h txs).
Proof.
  intros Hlen. unfold NewTxSet. rewrite decide_False by (rewrite sort_cids_perm; lia).
  apply no_err_try; [apply put_leaves_no_err|intros; apply reduce_nodes_no_err].
Qed.
End NewTxSetNoErr.

(** ** Applying a genesis to the persistent store *)

Section Apply.
Context `{L : Lib} `{!TxCodec} `{!ChainCodec} `{!RangeOrder} `{!Pebble} `{!Ipfs}.
Context `{!PebbleLaws} `{!IpfsLaws} `{!TxCodecLaws} `{!ChainCodecLaws} `{!IpfsAddress}.

Definition tx_addr (t : Tx) : Cid := ipfs_addr (default [] (ok_opt (Marshal t))).
Definition set_addr (s : TxSet) : Cid := ipfs_addr (default [] (ok_opt (msgpack_Marshal_TxSet s))).

Lemma PutTx_addr t w c w' : ipfs_PutTx t w = (Ret (Ok c), w') -> c = tx_addr t.
Proof.
  unfold ipfs_PutTx, tx_addr. destruct (Marshal t) as [d|]; [|done]. simpl.
  unfold gtry, mbind, GoM_bind, mret, GoM_ret, putRaw, on_ipfs.
  destruct (block_Put d (w_ipfs w)) as [r n] eqn:Hp. intros [= -> <-]. by eapply block_Put_addr.
Qed.

Lemma PutSet_addr s w c w' : ipfs_PutSet s w = (Ret (Ok c), w') -> c = set_addr s.
Proof.
  unfold ipfs_PutSet, set_addr. destruct (msgpack_Marshal_TxSet s) as [d|]; [|done]. simpl.
  intros (d'&w0&[= <- <-]&Hr)%try_inv. apply try_inv in Hr as (c'&w1&Hput%wrap_inv&Hr).
  unfold putRaw, on_ipfs in Hput. destruct (block_Put d (w_ipfs w)) as [r n] eqn:Hp. injection Hput as -> <-.
  apply block_Put_addr in Hp as ->. apply bind_inv in Hr as (pin&w2&_&Hr). destruct pin.
  - apply check_inv in Hr as (w3&_&Hr). by injection Hr as <-.
  - by injection Hr as <-.
Qed.

(** The root of the transactions is the same in every store. *)
Lemma ipfs_NewTxSet_det h1 h2 txs w1 w2 s1 s2 w1' w2' :
  NewTxSet h1 txs w1 = (Ret (Ok s1), w1') -> NewTxSet h2 txs w2 = (Ret (Ok s2), w2') -> s1 = s2.
Proof. apply (NewTxSet_det set_addr). intros h s w c w'. apply PutSet_addr. Qed.

Context `{!NoFaults}.

Lemma putRaw_ok d w : exists c n, block_Put d (w_ipfs w) = (Ok c, n) /\ putRaw d w = (Ret (Ok c), set_ipfs n w).
Proof.
  pose proof (block_Put_ok d (w_ipfs w)) as Hok. unfold putRaw, on_ipfs.
  destruct (block_Put d (w_ipfs w)) as [[c|] n]; [|done]. by exists c, n.
Qed.

Lemma PutTx_ok t w : exists w', ipfs_PutTx t w = (Ret (Ok (tx_addr t)), w').
Proof.
  destruct (Marshal_total t) as (d&Hm&_). destruct (putRaw_ok d w) as (c&n&_&Hr).
  assert (ipfs_PutTx t w = (Ret (Ok c), set_ipfs n w)) as Hput.
  { unfold ipfs_PutTx. rewrite Hm. exact Hr. }
  rewrite <- (PutTx_addr _ _ _ _ Hput). by eexists.
Qed.

Lemma tx_addr_defined t (w : World) : tx_addr t <> cid_Undef.
Proof.
  destruct (Marshal_total t) as (d&Hm&_). destruct (putRaw_ok d w) as (c&n&Hp&_).
  unfold tx_addr. rewrite Hm. simpl. rewrite <- (block_Put_addr _ _ _ _ Hp). by eapply block_Put_defined.
Qed.

Lemma PutSet_no_err (h : nat) (s : TxSet) : no_err (PutSet h s).
Proof.
  pose proof (msgpack_TxSet_total s) as Hok. change (no_err (ipfs_PutSet s)). unfold ipfs_PutSet.
  destruct (msgpack_Marshal_TxSet s) as [d|]; [|done]. apply no_err_try; [done|]. intros d'.
  apply no_err_try.
  { apply no_err_wrap. intros w e w'. destruct (putRaw_ok d' w) as (c&n&_&Hr). by rewrite Hr. }
  intros c w e w' Hr. apply bind_inv in Hr as (pin&w1&_&Hr). destruct pin; [|done].
  apply bind_inv in Hr as (r&w2&Hpin&Hr). unfold gwrap_e, mbind, GoM_bind, on_ipfs in Hpin.
  pose proof (pin_Add_ok c (w_ipfs w1)) as Hok'. destruct (pin_Add c (w_ipfs w1)) as [r' n].
  simpl in Hok'. subst r'. injection Hpin as <- <-. done.
Qed.

Lemma NewTxSet_ok h txs w :
  txs <> [] -> length txs <= MaxBlockTxCount -> Forall (fun c => c <> cid_Undef) txs ->
  exists set w', NewTxSet h txs w = (Ret (Ok set), w').
Proof.
  intros Hne Hlen Hd. pose proof (NewTxSet_wp h txs w Hne Hlen Hd I) as Hwp.
  pose proof (NewTxSet_no_err (fun h s => PutSet_no_err h s) h txs Hlen w) as Hno. unfold wp in Hwp.
  destruct (NewTxSet h txs w) as [[[set|e]|] w']; [eauto| |done]. by destruct (Hno e w').
Qed.

Lemma on_batch_set_ok b k v w x :
  w_batches w !! b = Some x -> exists w', on_batch b (batch_Set k v) w = (Ret None, w').
Proof.
  intros Hx. unfold on_batch. pose proof (batch_Set_ok k v x) as Hok. unfold mbind, GoM_bind.
  rewrite (get_batch_run _ _ _ Hx). unfold gmodify, mret, GoM_ret. rewrite Hok. by eexists.
Qed.

Lemma on_batch_delete_ok b k w x :
  w_batches w !! b = Some x -> exists w', on_batch b (batch_Delete k) w = (Ret None, w').
Proof.
  intros Hx. unfold on_batch. pose proof (batch_Delete_ok k x) as Hok. unfold mbind, GoM_bind.
  rewrite (get_batch_run _ _ _ Hx). unfold gmodify, mret, GoM_ret. rewrite Hok. by eexists.
Qed.

Lemma ApplyTx_ok b h id t w x :
  indexable t = true -> w_batches w !! b = Some x -> exists w', ipfs_ApplyTx (Some b) h id t w = (Ret None, w').
Proof.
  intros Hi Hx. unfold ipfs_ApplyTx, grecover, gwrap_e, mbind, GoM_bind, mret, GoM_ret.
  unfold indexable in Hi. destruct (tx_Data t) as [|[[doc|]]|n|r|r] eqn:Hd; try done;
    apply andb_true_iff in Hi as [Hty%bool_decide_eq_true Ha]; rewrite Hty.
  - change (bool_decide (TxType_DID = TxType_Node)) with false.
    change (bool_decide (TxType_DID = TxType_DID)) with true. cbv iota.
    unfold indexTxDID. rewrite Hd. unfold gsome, mbind, GoM_bind, mret, GoM_ret, as_DID. cbn [did_Document].
    unfold gcheck_e, gwrap_e, mbind, GoM_bind, mret, GoM_ret.
    destruct (on_batch_set_ok b (typedKey didHisoryTPrefix [doc_ID doc; cid_String id]) (cid_Bytes id) w x Hx) as [w1 Hw1].
    rewrite Hw1. cbn [Wrap]. destruct (on_batch_set _ _ _ _ _ Hw1) as (y&y'&_&Hw1'&_).
    assert (w_batches w1 !! b = Some y') as Hy by (rewrite Hw1'; apply lookup_insert_eq).
    destruct (bool_decide (tx_Action t = TxActionAdd) || bool_decide (tx_Action t = TxActionUpdate)) eqn:Hau.
    + destruct (on_batch_set_ok b (typedKey didTPrefix [doc_ID doc]) (cid_Bytes id) w1 y' Hy) as [w2 ->]. by eexists.
    + rewrite orb_false_l in Ha. rewrite Ha.
      destruct (on_batch_delete_ok b (typedKey didTPrefix [doc_ID doc]) w1 y' Hy) as [w2 ->]. by eexists.
  - change (bool_decide (TxType_Node = TxType_Node)) with true. cbv iota.
    unfold indexTxNode. rewrite Hd. unfold gsome, mbind, GoM_bind, mret, GoM_ret, as_Node.
    destruct (bool_decide (tx_Action t = TxActionAdd)) eqn:Hadd.
    + destruct (on_batch_set_ok b (typedKey nodesTPrefix [node_Id n]) (cid_Bytes id) w x Hx) as [w2 ->]. by eexists.
    + rewrite orb_false_l in Ha. rewrite Ha.
      destruct (on_batch_delete_ok b (typedKey nodesTPrefix [node_Id n]) w x Hx) as [w2 ->]. by eexists.
Qed.

(** The entries of a batch after the transactions [l] were applied to it. *)
Definition writes_all (l : list Tx) (p : gmap bytes (option bytes)) : gmap bytes (option bytes) :=
  foldl (fun p t => tx_writes (tx_addr t) t ∪ p) p l.

Lemma genesis_fold_ok h b l acc w x :
  Forall (fun t => tx_typed t = true /\ indexable t = true) l -> w_batches w !! b = Some x ->
  exists w' x', gfold l acc (genesis_one h b) w = (Ret (Ok (acc ++ (tx_addr <$> l))), w') /\
    w_batches w' !! b = Some x' /\ batch_view x' = writes_all l (batch_view x) /\
    keeps (w_ipfs w) (w_ipfs w') /\ w_db w' = w_db w /\ w_stores w' = w_stores w /\
    Forall (fun t => tx_addr t <> cid_Undef /\ ipfs_read_tx (w_ipfs w') (tx_addr t) = Ok t) l.
Proof.
  intros Hl. revert acc w x. induction Hl as [|t l [Ht Hi] Hl IH]; intros acc w x Hx.
  { exists w, x. simpl. rewrite app_nil_r. split_and!; [done..|apply keeps_refl|done|done|constructor]. }
  destruct (PutTx_ok t w) as [w1 Hput]. destruct (ipfs_PutTx_spec t w Ht) as (r&w1'&Hput'&[Hk1 (Hd1&Hb1&Hs1)]&Hread).
  rewrite Hput in Hput'. injection Hput' as <- <-. destruct (Hread _ eq_refl) as [Hu Hc].
  assert (w_batches w1 !! b = Some x) as Hx1 by by rewrite Hb1.
  destruct (ApplyTx_ok b h (tx_addr t) t w1 x Hi Hx1) as [w2 Happ].
  destruct (ipfs_ApplyTx_spec _ _ _ _ _ _ Happ) as (b'&Hb'&_&Hw). destruct Hb' as [[= <-]|[? _]]; [|done].
  destruct Hw as (y&x2&Hy&Hw2&Hv2). rewrite Hx1 in Hy. injection Hy as <-.
  assert (w_batches w2 !! b = Some x2) as Hx2 by (rewrite Hw2; apply lookup_insert_eq).
  destruct (IH (acc ++ [tx_addr t]) w2 x2 Hx2) as (w'&x'&Hr&Hx'&Hv'&Hk&Hd&Hs&HF).
  assert (keeps (w_ipfs w1) (w_ipfs w')) as Hk' by (subst w2; exact Hk).
  exists w', x'. split_and!.
  - assert (genesis_one h b acc t w = (Ret (Ok (acc ++ [tx_addr t])), w2)) as Hone.
    { unfold genesis_one, gtry, gcheck, gwrap, gwrap_e, mbind, GoM_bind. rewrite Hput. cbn [mret GoM_ret wrap].
      unfold mret, GoM_ret. cbn [wrap]. by rewrite Happ. }
    cbn [gfold]. unfold gtry, mbind, GoM_bind. rewrite Hone, Hr. by rewrite <- app_assoc.
  - done.
  - rewrite Hv', Hv2. done.
  - by eapply keeps_trans.
  - rewrite Hd, Hw2. done.
  - rewrite Hs, Hw2. done.
  - constructor; [|done]. split; [done|]. rewrite <- Hc. apply keeps_tx; [done|]. by rewrite Hc.
Qed.

Definition metakey (k : bytes) : Prop :=
  k = typedKey latestBlockTPrefix [] \/ k = typedKey genesisTPrefix [].

Lemma genesis_commit_ok b g w x :
  w_batches w !! b = Some x ->
  exists w', genesis_commit b g w = (Ret None, w') /\ keeps (w_ipfs w) (w_ipfs w') /\
    w_stores w' = w_stores w /\
    forall k, ~ metakey k -> db_view (w_db w') !! k = overlay (batch_view x) (db_view (w_db w)) !! k.
Proof.
  intros Hx. destruct (ipfs_PutBlock_spec (gen_Block g) w) as (r&w1&Hput&[Hk (Hd1&Hb1&Hs1)]&_).
  assert (exists c, r = Ok c) as [bcid ->].
  { pose proof (msgpack_Block_total (gen_Block g)) as Hok. unfold ipfs_PutBlock in Hput.
    destruct (msgpack_Marshal_Block (gen_Block g)) as [d|]; [|done].
    destruct (putRaw_ok d w) as (c&n&_&Hr). unfold gtry, mbind, GoM_bind, mret, GoM_ret in Hput. simpl in Hput.
    rewrite Hr in Hput. injection Hput as <- _. by eexists. }
  rewrite <- Hb1 in Hx.
  destruct (on_batch_set_ok b (typedKey latestBlockTPrefix []) (cid_Bytes bcid) w1 x Hx) as [w2 Hw2].
  destruct (on_batch_set _ _ _ _ _ Hw2) as (y&x2&Hy&Hw2'&Hv2). rewrite Hx in Hy. injection Hy as <-.
  assert (w_batches w2 !! b = Some x2) as Hx2 by (rewrite Hw2'; apply lookup_insert_eq).
  destruct (on_batch_set_ok b (typedKey genesisTPrefix []) [] w2 x2 Hx2) as [w3 Hw3].
  destruct (on_batch_set _ _ _ _ _ Hw3) as (y&x3&Hy&Hw3'&Hv3). rewrite Hx2 in Hy. injection Hy as <-.
  assert (w_batches w3 !! b = Some x3) as Hx3 by (rewrite Hw3'; apply lookup_insert_eq).
  destruct (batch_Commit x3 (w_db w3)) as [e d] eqn:Hc.
  assert (e = None) as -> by (pose proof (batch_Commit_ok x3 (w_db w3)) as Hok; by rewrite Hc in Hok).
  exists (set_db d w3). split_and!.
  - unfold genesis_commit, gtry_e, gcheck_e, gwrap, gwrap_e, mbind, GoM_bind, mret, GoM_ret. rewrite Hput.
    cbn [wrap]. rewrite Hw2. cbn [Wrap]. rewrite Hw3. cbn [Wrap]. rewrite (get_batch_run _ _ _ Hx3). unfold on_db. by rewrite Hc.
  - simpl. by rewrite Hw3', Hw2'.
  - simpl. rewrite Hw3'. simpl. by rewrite Hw2'.
  - intros k Hk'. simpl. rewrite (batch_Commit_view _ _ _ Hc), Hw3', Hw2'. simpl. rewrite Hd1.
    rewrite !lookup_overlay, Hv3, Hv2, !lookup_union_r; [done|..];
      apply lookup_singleton_ne; intros <-; apply Hk'; unfold metakey; auto.
Qed.

Lemma GetLastApplied_found `{!CidLaws} h w c b :
  persistent w h -> db_view (w_db w) !! latestkey = Some (cid_Bytes c) -> c <> cid_Undef ->
  ipfs_read_block (w_ipfs w) c = Ok b -> ipfs_GetLastApplied h w = (Ret (Ok (Some b)), w).
Proof.
  intros Hp Hk Hc Hb. unfold ipfs_GetLastApplied, ipfs_GetBlock. fold latestkey. go_unfold.
  rewrite (metadataGet_run _ _ _ _ (persistent_view _ _ Hp)), Hk. simpl. rewrite cid_Cast_Bytes by done.
  simpl. by rewrite Hb.
Qed.

Lemma HasGenesisApplied_not h w :
  persistent w h -> db_view (w_db w) !! typedKey genesisTPrefix [] = None ->
  ipfs_HasGenesisApplied h w = (Ret false, w).
Proof.
  intros Hp Hk. unfold ipfs_HasGenesisApplied. go_unfold.
  by rewrite (metadataGet_run _ _ _ _ (persistent_view _ _ Hp)), Hk.
Qed.

(** A genesis whose root is that of its transactions, computed anywhere, is
    applied: the transactions can be read, and the database has their entries. *)
Lemma ApplyGenesis_ok `{!CidLaws} h g w h0 w0 set0 w0' :
  persistent w h -> gen_Txs g <> [] -> length (gen_Txs g) <= MaxBlockTxCount ->
  Forall (fun t => tx_typed t = true /\ indexable t = true) (gen_Txs g) ->
  NewTxSet h0 (tx_addr <$> gen_Txs g) w0 = (Ret (Ok set0), w0') -> ts_cid set0 = blk_TxRoot (gen_Block g) ->
  exists w', ipfs_ApplyGenesis h g w = (Ret None, w') /\ persistent w' h /\
    Forall (fun t => tx_addr t <> cid_Undef /\ ipfs_read_tx (w_ipfs w') (tx_addr t) = Ok t) (gen_Txs g) /\
    (forall k, ~ metakey k ->
      db_view (w_db w') !! k = overlay (writes_all (gen_Txs g) ∅) (db_view (w_db w)) !! k) /\
    exists blk, ipfs_GetLastApplied h w' = (Ret (Ok (Some blk)), w') /\
      blk_TxRoot blk = blk_TxRoot (gen_Block g) /\ blk_Height blk = blk_Height (gen_Block g).
Proof.
  intros Hp Hne Hlen HF Hset0 Hroot. unfold ipfs_ApplyGenesis. set (b := fresh (dom (w_batches w))).
  set (w1 := set_batches (<[b := db_NewBatch]> (w_batches w)) w).
  destruct (genesis_fold_ok h b (gen_Txs g) [] w1 db_NewBatch HF ltac:(apply lookup_insert_eq))
    as (w2&x2&Hfold&Hx2&Hv2&Hk2&Hd2&Hs2&Hread2). rewrite app_nil_l in Hfold.
  assert (Forall (fun c => c <> cid_Undef) (tx_addr <$> gen_Txs g)) as Hdef.
  { apply Forall_fmap. eapply list.Forall_impl; [exact Hread2|]. by intros t []. }
  destruct (NewTxSet_ok h (tx_addr <$> gen_Txs g) w2) as (set&w3&Hset); [|by rewrite length_fmap|done|].
  { by destruct (gen_Txs g). }
  pose proof (ipfs_NewTxSet_det _ _ _ _ _ _ _ _ _ Hset Hset0) as ->.
  destruct (genesis_set h _ w2 set0 w3 Hset Hdef) as (_&Hb3&Hu3&_&Hread3). rewrite Hroot in Hu3.
  pose proof (preserves_NewTxSet (untouched (w_db w2) (w_stores w2)) h
    (fun s => untouched_PutSet (w_db w2) (w_stores w2) s) (tx_addr <$> gen_Txs g) w2 (conj eq_refl eq_refl)) as [Hd3 Hs3].
  rewrite Hset in Hd3, Hs3. simpl in Hd3, Hs3. rewrite <- Hb3 in Hx2.
  destruct (genesis_commit_ok b g w3 x2 Hx2) as (w'&Hcommit&Hk'&Hs'&Hview).
  exists w'. split_and!.
  - unfold mbind, GoM_bind. rewrite new_batch_run. fold b. fold w1.
    unfold gtry_e, mbind, GoM_bind. rewrite Hfold.
    assert (NewTxSet (Store0 := ipfs_methods (fun _ _ => gpanic)) h (tx_addr <$> gen_Txs g) w2 =
      (Ret (Ok set0), w3)) as Hset' by exact Hset.
    unfold gwrap, mbind, GoM_bind. rewrite Hset'. simpl. by rewrite bool_decide_true.
  - unfold persistent in *. by rewrite Hs', Hs3, Hs2.
  - eapply list.Forall_impl; [exact Hread2|]. intros t [Hu Ht%Hread3]. split; [done|].
    rewrite <- Ht. apply keeps_tx; [done|]. by rewrite Ht.
  - intros k Hk. rewrite Hview by done. by rewrite Hv2, db_NewBatch_view, Hd3, Hd2.
  - assert (persistent w3 h) as Hp3 by (unfold persistent in *; by rewrite Hs3, Hs2).
    destruct (genesis_commit_inv _ _ _ _ _ Hp3 ltac:(by eexists) Hu3 Hcommit) as (bcid&blk&Hu&Hblk&Hroot'&Hh&_&_&_&Hlatest&_).
    exists blk. split_and!; [|done..]. eapply GetLastApplied_found; [|done..].
    unfold persistent in *. by rewrite Hs'.
Qed.

(** The entry of a key that only one of the transactions writes. *)
Lemma writes_all_lookup l p k v :
  (forall t, t ∈ l -> tx_writes (tx_addr t) t !! k = None \/ tx_writes (tx_addr t) t !! k = Some v) ->
  (exists t, t ∈ l /\ tx_writes (tx_addr t) t !! k = Some v) \/ p !! k = Some v ->
  writes_all l p !! k = Some v.
Proof.
  revert p. induction l as [|t l IH]; intros p Hall Hex; [by destruct Hex as [(t&Ht%not_elem_of_nil&_)|]|].
  simpl. apply IH; [intros; apply Hall; by right|]. rewrite lookup_union.
  destruct (Hall t ltac:(left)) as [Hn|Hs].
  - destruct Hex as [(t'&Ht'&Hw)|Hp].
    + apply elem_of_cons in Ht' as [->|Ht']; [congruence|]. left. eauto.
    + right. rewrite Hn, Hp. done.
  - right. rewrite Hs. by destruct (p !! k).
Qed.

Lemma writes_all_own l k t v :
  t ∈ l -> tx_writes (tx_addr t) t !! k = Some v ->
  (forall t', t' ∈ l -> is_Some (tx_writes (tx_addr t') t' !! k) -> t' = t) ->
  writes_all l ∅ !! k = Some v.
Proof.
  intros Ht Hv Hown. apply writes_all_lookup; [|left; eauto]. intros t' Ht'.
  destruct (tx_writes (tx_addr t') t' !! k) as [v'|] eqn:Hv'; [|by left]. right.
  rewrite (Hown t' Ht') in Hv' by by eexists. congruence.
Qed.

Lemma tx_writes_node_some id t nid :
  is_Some (tx_writes id t !! typedKey nodesTPrefix [nid]) -> exists n, tx_Data t = DataNode n /\ node_Id n = nid.
Proof.
  unfold tx_writes. destruct (tx_Data t) as [|[[doc|]]|n|r|r]; try by intros [? ?%lookup_empty_Some].
  - intros [v Hv]. rewrite lookup_insert_ne, lookup_singleton_ne in Hv; [done|by apply typedKey_prefix..].
  - intros [v [Hk _]%lookup_singleton_Some]. exists n. by apply typedKey_single in Hk.
Qed.

Lemma tx_writes_did_some id t did :
  is_Some (tx_writes id t !! typedKey didTPrefix [did]) ->
  exists doc, tx_Data t = DataDID {| did_Document := Some doc |} /\ doc_ID doc = did.
Proof.
  unfold tx_writes. destruct (tx_Data t) as [|[[doc|]]|n|r|r]; try by intros [? ?%lookup_empty_Some].
  - intros [v Hv]. exists doc. split; [done|]. destruct (decide (doc_ID doc = did)) as [|Hne]; [done|].
    rewrite lookup_insert_ne, lookup_singleton_ne in Hv; [done|by apply typedKey_prefix|].
    by intros ?%typedKey_single.
  - intros [v [Hk _]%lookup_singleton_Some]. exfalso. revert Hk. by apply typedKey_prefix.
Qed.
End Apply.
End GenesisRun.
