(* ===== verification/GenProps.v ===== *)
(** * Theorems on the genesis generator: what it prints starts a chain *)

From S2P Require Import Prelude Externals Text Cryptography W3cDid Tx Chain ChainFacts Identity Os.
From S2P Require Import Ipfs IpfsFacts IpfsProps IpfsBlocks IpfsGenesis GenesisRun IpfsOpen Config GenGen.
From S2P Require Import MemPool Validator ConsensusState Consensus ConsensusNet DidHandler.

(** The text and byte forms of secret keys. *)
Class KeyLaws `{Lib} : Prop := {
  scalar_Unmarshal_Marshal : forall k b, scalar_MarshalBinary k = Ok b -> scalar_UnmarshalBinary b = Ok k;
  (** the first character of a multibase text names the base *)
  multibase_Encode_nonempty : forall e b s, multibase_Encode e b = Ok s -> s <> ""%string
}.

Module GenProps.
Import Text Cryptography W3cDid Tx Chain ChainFacts Identity Ipfs IpfsFacts IpfsProps IpfsBlocks.
Import IpfsGenesis GenesisRun IpfsOpen Config GenGen ConsensusState Consensus ConsensusNet DidHandler.

Section GenProps.
Context `{L : Lib} `{IL : IdLib} `{!TxCodec} `{!ChainCodec} `{!GenesisCodec} `{!RangeOrder}.
Context `{!Pebble} `{!Ipfs} `{!Multiaddrs} {F : Type} `{!OsFiles F} `{!Kubo F} `{!GenEnv F}.

(** ** A run of the generator that ended *)

Lemma must_inv {S A} (m : GoM S (result A)) a s s' : must m s = (Ret a, s') -> m s = (Ret (Ok a), s').
Proof. intros ([x|e]&s1&Hm&Hr)%bind_inv; [by injection Hr as <- <-|done]. Qed.

Lemma some_inv {S A} (o : option A) a (s s' : S) : gsome o s = (Ret a, s') -> o = Some a /\ s' = s.
Proof. destruct o; [|done]. by intros [= <- <-]. Qed.

(** The text of an identity is that of its public key. *)
Definition key_text (i : identity) : Prop :=
  EncodeMultibase (PkBls12381 (bls_Point (bls_Public (id_blsSk i)))) = Ok (id_blsPKMB i).

Lemma new_identity_inv i (p : Proc (F := F)) x p' :
  new_identity i p = (Ret x, p') -> id_pID x = i /\ key_text x.
Proof.
  intros (sk&p1&Hsk%must_inv&Hr)%bind_inv. apply bind_inv in Hsk as (k&p0&_&Hsk). injection Hsk as <- <-.
  apply bind_inv in Hr as (pk&p2&Hpk%must_inv&Hr). apply bind_inv in Hr as (pk0&p3&[Hpk0 ->]%some_inv&Hr).
  apply bind_inv in Hr as (mb&p4&Hmb%must_inv&Hr). apply bind_inv in Hr as (b&p5&[Hb ->]%some_inv&Hr).
  injection Hb as <-. injection Hr as <- <-. injection Hmb as Hmb <-. split; [done|].
  injection Hpk as Hpk <-. unfold bls_PublicIdentity in Hpk.
  destruct (bls_Bytes _) as [raw|]; [|done]. simpl in Hpk. destruct (multihash_Sum raw _) as [mh|]; [|done].
  simpl in Hpk. injection Hpk as <-. injection Hpk0 as <-. exact Hmb.
Qed.

Lemma new_identities_inv idents (p : Proc (F := F)) l p' :
  new_identities idents p = (Ret l, p') -> id_pID <$> l = idents /\ Forall key_text l.
Proof.
  revert p l p'. induction idents as [|i idents IH]; intros p l p'; simpl.
  { intros [= <- <-]. by split. }
  intros (x&p1&Hx%new_identity_inv&Hr)%bind_inv. apply bind_inv in Hr as (l'&p2&[IH1 IH2]%IH&Hr).
  injection Hr as <- <-. destruct Hx as [<- Hx]. split; [simpl; by f_equal|by constructor].
Qed.

(** The transactions of the identities, up to their times and signatures. *)
Inductive gen_list : list identity -> list Tx -> Prop :=
| gl_nil : gen_list [] []
| gl_cons i ids now1 sig1 now2 sig2 l :
    gen_list ids l ->
    gen_list (i :: ids) (tx_set_Signature sig1 (did_tx now1 i) :: tx_set_Signature sig2 (node_tx now2 i) :: l).

(** Each identity gives two transactions, which [sign_and_put] signs in place. *)
Lemma gen_txs_inv ids (p : Proc (F := F)) txs p' l :
  gen_txs ids p = (Ret txs, p') ->
  Forall2 (fun t t' => exists sig, t' = tx_set_Signature sig t) txs l -> gen_list ids l.
Proof.
  revert p txs l p'. induction ids as [|i ids IH]; intros p txs l p'; simpl.
  { intros [= <- <-] ->%Forall2_nil_inv_l. constructor. }
  intros (n1&p1&_&Hr)%bind_inv. apply bind_inv in Hr as (n2&p2&_&Hr).
  apply bind_inv in Hr as (rest&p3&Hrest&Hr). injection Hr as <- <-.
  intros (t1&l1&[s1 ->]&HF&->)%Forall2_cons_inv_l.
  apply Forall2_cons_inv_l in HF as (t2&l2&[s2 ->]&HF&->). constructor. by eapply IH.
Qed.

Lemma gen_list_good ids l : gen_list ids l -> Forall (fun t => tx_typed t = true /\ indexable t = true) l.
Proof. induction 1; repeat constructor; done. Qed.

Lemma gen_list_node ids l t n :
  gen_list ids l -> t ∈ l -> tx_Data t = DataNode n -> node_Id n ∈ id_pID <$> ids.
Proof.
  induction 1 as [|i ids now1 sig1 now2 sig2 l Hl IH]; [by intros []%not_elem_of_nil|].
  intros [->|[->|Ht]%elem_of_cons]%elem_of_cons Hd; [done| |right; by apply IH].
  injection Hd as <-. left.
Qed.

Lemma gen_list_did ids l t doc :
  gen_list ids l -> t ∈ l -> tx_Data t = DataDID {| did_Document := Some doc |} ->
  exists j, j ∈ id_pID <$> ids /\ doc_ID doc = ("did:didem:" ++ j)%string.
Proof.
  induction 1 as [|i ids now1 sig1 now2 sig2 l Hl IH]; [by intros []%not_elem_of_nil|].
  intros [->|[->|Ht]%elem_of_cons]%elem_of_cons Hd; [|done|].
  - injection Hd as <-. exists (id_pID i). split; [left|done].
  - destruct (IH Ht Hd) as (j&Hj&He). exists j. split; [by right|done].
Qed.

(** Of distinct identities, one transaction registers the node and one the DID
    of each. *)
Lemma gen_list_own ids l i :
  gen_list ids l -> NoDup (id_pID <$> ids) -> i ∈ ids ->
  (exists now sig, let t := tx_set_Signature sig (node_tx now i) in t ∈ l /\
     forall t' n, t' ∈ l -> tx_Data t' = DataNode n -> node_Id n = id_pID i -> t' = t) /\
  (exists now sig, let t := tx_set_Signature sig (did_tx now i) in t ∈ l /\
     forall t' doc, t' ∈ l -> tx_Data t' = DataDID {| did_Document := Some doc |} -> doc_ID doc = did_of i -> t' = t).
Proof.
  induction 1 as [|j ids now1 sig1 now2 sig2 l Hl IH]; [by intros _ []%not_elem_of_nil|].
  simpl. intros [Hj Hnd]%list.NoDup_cons [->|Hi]%elem_of_cons.
  - split; [exists now2, sig2|exists now1, sig1]; (split; [repeat constructor|]); intros t' x;
      intros [->|[->|Ht]%elem_of_cons]%elem_of_cons Hd He; try done; exfalso; apply Hj.
    + rewrite <- He. by eapply gen_list_node.
    + destruct (gen_list_did _ _ _ _ Hl Ht Hd) as (k&Hk&Hx). rewrite He in Hx.
      unfold did_of in Hx. by apply (inj (String.append "did:didem:")) in Hx as ->.
  - assert (id_pID i ∈ id_pID <$> ids) as Hin by by apply list_elem_of_fmap_2.
    destruct (IH Hnd Hi) as [(a&b&Ha1&Ha2) (c&d&Hc1&Hc2)].
    split; [exists a, b|exists c, d]; (split; [by do 2 right|]); intros t' x;
      intros [->|[->|Ht]%elem_of_cons]%elem_of_cons Hd He; try done; try (by eapply Ha2); try (by eapply Hc2).
    + injection Hd as <-. simpl in He. by rewrite He in Hj.
    + injection Hd as <-. simpl in He. unfold did_of in He.
      apply (inj (String.append "did:didem:")) in He. by rewrite He in Hj.
Qed.

Context `{!PebbleLaws} `{!IpfsLaws} `{!TxCodecLaws} `{!ChainCodecLaws} `{!IpfsAddress}.

Lemma sign_and_put_inv ids txs w r w' :
  sign_and_put ids txs w = (Ret r, w') ->
  Forall2 (fun t t' => exists sig, t' = tx_set_Signature sig t) txs r.1 /\ r.2 = tx_addr <$> r.1.
Proof.
  revert w r w'. induction txs as [|t txs IH]; intros w r w'; simpl; [intros [= <- <-]; by split|].
  intros (msg&w1&_&Hr)%bind_inv. apply bind_inv in Hr as (sig&w2&_&Hr).
  apply bind_inv in Hr as (c&w3&Hput%must_inv&Hr). apply PutTx_addr in Hput.
  apply bind_inv in Hr as (r'&w4&[IH1 IH2]%IH&Hr). injection Hr as <- <-. simpl.
  split; [constructor; [by eexists|done]|]. by rewrite IH2, Hput.
Qed.

Lemma NewBlock_set now nonce txs w b w' :
  NewBlock store0 now nonce cid_Undef txs w = (Ret (Ok b), w') ->
  exists set w0 w0', NewTxSet store0 txs w0 = (Ret (Ok set), w0') /\ blk_TxRoot b = ts_cid set /\
    blk_Height b = 0%Z.
Proof.
  unfold NewBlock. rewrite bool_decide_true by done. intros (height&w1&Hh&Hr)%try_inv. injection Hh as <- <-. apply try_inv in Hr as (n&w2&_&Hr).
  apply try_inv in Hr as (bl&w3&_&Hr). apply try_inv in Hr as (set&w4&Hset%wrap_inv&Hr).
  injection Hr as <- <-. by exists set, w3, w4.
Qed.

(** The genesis: its transactions are those of the identities, and its root is
    that of a set built from them. *)
Lemma gen_config_inv ids txs (p p' : Proc (F := F)) now nonce w g w' :
  gen_txs ids p = (Ret txs, p') -> gen_config ids txs now nonce w = (Ret g, w') ->
  gen_ChainID g = "testnet"%string /\ gen_list ids (gen_Txs g) /\ gen_Txs g <> [] /\
  length (gen_Txs g) <= MaxBlockTxCount /\ blk_Height (gen_Block g) = 0%Z /\
  exists set w0 w0', NewTxSet store0 (tx_addr <$> gen_Txs g) w0 = (Ret (Ok set), w0') /\
    ts_cid set = blk_TxRoot (gen_Block g).
Proof.
  intros Htxs (r&w1&[HF Hcids]%sign_and_put_inv&Hr)%bind_inv.
  apply bind_inv in Hr as (b&w2&Hb%must_inv%NewBlock_set&Hr). apply bind_inv in Hr as (m&w3&_&Hr).
  apply bind_inv in Hr as (sig&w4&_&Hr). injection Hr as <- <-. simpl.
  destruct Hb as (set&w0&w0'&Hset&Hroot&Hheight). rewrite Hcids in Hset. split_and!; [done| | | |done|].
  - by eapply gen_txs_inv.
  - intros Hnil. by rewrite Hnil in Hset.
  - pose proof (NewTxSet_length _ _ _ _ _ Hset) as Hlen. by rewrite length_fmap in Hlen.
  - by exists set, w0, w0'.
Qed.

Lemma print_identities_inv {S} ids idents (s s' : S) l :
  print_identities ids idents s = (Ret l, s') ->
  Forall2 (fun i q => pr_ID q = id_pID i /\ exists skb,
    bls_PrivateBytes (id_blsSk i) = Ok skb /\ multibase_Encode Base58BTC skb = Ok (pr_SK q)) ids l.
Proof.
  revert idents s l s'. induction ids as [|i ids IH]; intros idents s l s'; simpl.
  { intros [= <- <-]. constructor. }
  intros (skb&s1&Hskb%must_inv&Hr)%bind_inv. apply bind_inv in Hr as (mb&s2&Hmb%must_inv&Hr).
  apply bind_inv in Hr as (peer&s3&_&Hr). apply bind_inv in Hr as (l'&s4&Hl&Hr). injection Hr as <- <-.
  injection Hskb as Hskb _. injection Hmb as Hmb _. constructor; [|by eapply IH]. simpl. eauto.
Qed.

(** A printed secret key, given to a node as its key, is the key. *)
Lemma decode_key_printed `{!KeyLaws} `{!MultibaseLaws} i skb text :
  bls_PrivateBytes (id_blsSk i) = Ok skb -> multibase_Encode Base58BTC skb = Ok text ->
  decode_key text = Some (Some (id_blsSk i)).
Proof.
  intros Hskb Htext. unfold decode_key.
  rewrite bool_decide_false by by eapply multibase_Encode_nonempty.
  rewrite (multibase_Decode_Encode _ _ _ Htext). unfold NewBls12391PrivateKeyFromBytes.
  rewrite (scalar_Unmarshal_Marshal _ _ Hskb). simpl. by destruct (id_blsSk i).
Qed.

(** What a run that ended went through. *)
Lemma main_inv flag (p : Proc (F := F)) out p' :
  main flag p = (Ret out, p') ->
  exists ids g b, id_pID <$> ids = strings_Split flag "," /\ Forall key_text ids /\
    gen_ChainID g = "testnet"%string /\ gen_list ids (gen_Txs g) /\ gen_Txs g <> [] /\
    length (gen_Txs g) <= MaxBlockTxCount /\ blk_Height (gen_Block g) = 0%Z /\
    (exists set w0 w0', NewTxSet store0 (tx_addr <$> gen_Txs g) w0 = (Ret (Ok set), w0') /\
      ts_cid set = blk_TxRoot (gen_Block g)) /\
    msgpack_Marshal_Genesis g = Ok b /\ multibase_Encode Base58BTC b = Ok (out_config out) /\
    Forall2 (fun i q => pr_ID q = id_pID i /\ exists skb,
      bls_PrivateBytes (id_blsSk i) = Ok skb /\ multibase_Encode Base58BTC skb = Ok (pr_SK q))
      ids (out_identities out).
Proof.
  unfold main. case_bool_decide; [done|].
  intros (ids&p1&[Hid Hkey]%new_identities_inv&Hr)%bind_inv. apply bind_inv in Hr as (txs&p2&Htxs&Hr).
  apply bind_inv in Hr as (st&p3&_&Hr). apply bind_inv in Hr as (coins&p4&_&Hr).
  apply bind_inv in Hr as (now&p5&_&Hr). apply bind_inv in Hr as (nonce&p6&_&Hr).
  apply bind_inv in Hr as (g&p7&Hg&Hr). injection Hg as Hg <-.
  apply bind_inv in Hr as (b&p8&Hb%must_inv&Hr). injection Hb as Hb <-.
  apply bind_inv in Hr as (b64&p9&Hb64%must_inv&Hr). injection Hb64 as Hb64 <-.
  apply bind_inv in Hr as (printed&p10&Hpr%print_identities_inv&Hr). injection Hr as <- <-.
  destruct (gen_config_inv _ _ _ _ _ _ _ _ _ Htxs (run_fst _ _ _ Hg)) as (?&?&?&?&?&?).
  exists ids, g, b. done.
Qed.

Context `{!GenesisCodecLaws} `{!MultibaseLaws} `{!BlsLaws} `{!CidLaws} `{!KeyLaws} `{!NoFaults}.

(** ** The chain the generated genesis starts *)

(** What is registered for an identity: the node with the text of its public
    key, and a document whose authentication method is that key. *)
Definition registered (h : nat) (w : World) (i : identity) : Prop :=
  ipfs_Node h (id_pID i) w = (Ret (Ok (Some (gen_node i))), w) /\
  ipfs_LookupDID h (did_of i) w = (Ret (Ok (Some (gen_document i))), w).

Lemma not_metakey k a : k <> latestBlockTPrefix -> k <> genesisTPrefix -> ~ metakey (typedKey k [a]).
Proof. intros Hl Hg [He|He]; revert He; by apply typedKey_prefix. Qed.

Lemma genesis_registers h g w w' ids i :
  persistent w' h -> gen_list ids (gen_Txs g) -> NoDup (id_pID <$> ids) -> i ∈ ids ->
  Forall (fun t => tx_addr t <> cid_Undef /\ ipfs_read_tx (w_ipfs w') (tx_addr t) = Ok t) (gen_Txs g) ->
  (forall k, ~ metakey k ->
     db_view (w_db w') !! k = overlay (writes_all (gen_Txs g) ∅) (db_view (w_db w)) !! k) ->
  registered h w' i.
Proof.
  intros Hp Hl Hnd Hi Hread Hview. rewrite list.Forall_forall in Hread.
  pose proof (persistent_view w' h Hp) as Hm.
  destruct (gen_list_own _ _ _ Hl Hnd Hi) as [(now&sig&Ht&Huniq) (now'&sig'&Ht'&Huniq')]. split.
  - destruct (Hread _ Ht) as [Hu Hr]. refine (Node_found _ _ _ _ _ _ _ Hm _ Hu Hr eq_refl eq_refl eq_refl).
    rewrite Hview by by apply not_metakey. rewrite lookup_overlay.
    erewrite (writes_all_own _ _ _ _ Ht); [|unfold tx_writes; apply lookup_singleton_eq|]; [done|].
    intros t Hin (n&Hd&Hn)%tx_writes_node_some. by eapply Huniq.
  - destruct (Hread _ Ht') as [Hu Hr]. refine (LookupDID_found _ _ _ _ _ _ _ Hm _ Hu Hr eq_refl eq_refl).
    rewrite Hview by by apply not_metakey. rewrite lookup_overlay.
    erewrite (writes_all_own _ _ _ _ Ht'); [|unfold tx_writes; apply lookup_insert_eq|]; [done|].
    intros t Hin (doc&Hd&Hn)%tx_writes_did_some. by eapply Huniq'.
Qed.

Lemma main_boots flag (p : Proc (F := F)) out p' h w :
  main flag p = (Ret out, p') -> NoDup (strings_Split flag ",") -> persistent w h ->
  exists ids g w', genesis_of_text (out_config out) = Ok g /\ gen_ChainID g = "testnet"%string /\
    ipfs_ApplyGenesis h g w = (Ret None, w') /\ id_pID <$> ids = strings_Split flag "," /\
    (exists blk, ipfs_GetLastApplied h w' = (Ret (Ok (Some blk)), w') /\ blk_Height blk = 0%Z) /\
    Forall2 (fun i q => pr_ID q = id_pID i /\ decode_key (pr_SK q) = Some (Some (id_blsSk i)) /\
      key_text i /\ registered h w' i) ids (out_identities out).
Proof.
  intros (ids&g&b&Hid&Hkey&Hchain&Hl&Hne&Hlen&Hheight&(set&w0&w0'&Hset&Hroot)&Hb&Htext&Hpr)%main_inv Hnd Hp.
  pose proof (gen_list_good _ _ Hl) as Hgood.
  assert (blk_TxRoot (gen_Block g) <> cid_Undef) as Hdef.
  { rewrite <- Hroot. apply (genesis_set _ _ _ _ _ Hset).
    apply Forall_fmap, list.Forall_forall. intros t _. exact (tx_addr_defined t w). }
  destruct (genesis_of_text_encoded g b _ _ ltac:(by eapply list.Forall_impl; [exact Hgood|intros t []]) Hdef Hb Htext)
    as (g'&Hg'&Hc'&Htxs'&Hroot'&Hheight').
  rewrite <- Hroot' in Hroot. rewrite <- Htxs' in Hset, Hne, Hlen, Hgood, Hl.
  destruct (ApplyGenesis_ok h g' w store0 w0 set w0' Hp Hne Hlen Hgood Hset Hroot) as (w'&Happ&Hp'&Hread&Hview&blk&Hlast&_&Hbh).
  exists ids, g', w'. split_and!; [done|congruence|done|done|exists blk; split; [done|congruence]|].
  rewrite <- Hid in Hnd. apply Forall2_same_length_lookup. split; [by eapply Forall2_length|].
  intros n i q Hi Hq. destruct (Forall2_lookup_lr _ _ _ _ _ _ Hpr Hi Hq) as (Hpid&skb&Hskb&Hsk).
  split_and!; [done| | |].
  - by eapply decode_key_printed.
  - by eapply Forall_lookup_1.
  - eapply genesis_registers; [done..|by eapply list_elem_of_lookup_2|done|done].
Qed.

(** C9. What the generator prints starts a chain: the genesis text is read back by
    the configuration of a node, a store without faults applies it, and then
    every identity of the command line is registered: the printed secret key,
    given to a node as its key, belongs to the key the node is registered with,
    and signatures of it verify under the document of the identity's DID. *)
Theorem gengen_boots flag (p : Proc (F := F)) out p' h w :
  main flag p = (Ret out, p') -> NoDup (strings_Split flag ",") -> persistent w h ->
  exists g w', genesis_of_text (out_config out) = Ok g /\ gen_ChainID g = "testnet"%string /\
    ipfs_ApplyGenesis h g w = (Ret None, w') /\
    pr_ID <$> out_identities out = strings_Split flag "," /\
    forall q, q ∈ out_identities out -> exists key mb doc,
      decode_key (pr_SK q) = Some (Some key) /\
      EncodeMultibase (PkBls12381 (bls_Point (bls_Public key))) = Ok mb /\
      ipfs_Node h (pr_ID q) w' = (Ret (Ok (Some {| node_Id := pr_ID q;
        node_Did := "did:didem:" ++ pr_ID q; node_Key := bytes_of_string mb |})), w') /\
      ipfs_LookupDID h ("did:didem:" ++ pr_ID q) w' = (Ret (Ok (Some doc)), w') /\
      exists vm, doc_Authentication doc = [vm] /\ forall msg sig, bls_Sign key msg = Ok sig ->
        ValidateBls12381 vm sig msg w' = (Ret (Ok true), w').
Proof.
  intros Hrun Hnd Hp. destruct (main_boots _ _ _ _ h w Hrun Hnd Hp) as (ids&g&w'&Hg&Hc&Happ&Hid&_&HF).
  exists g, w'. split_and!; [done..| |].
  - rewrite <- Hid. symmetry. clear -HF. induction HF as [|i q ids l [Hq _] _ IH]; [done|].
    simpl. f_equal; [done|exact IH].
  - intros q Hq. apply list_elem_of_lookup in Hq as [n Hn].
    destruct (Forall2_lookup_r _ _ _ _ _ HF Hn) as (i&_&Hpid&Hsk&Hkt&Hnode&Hdoc). rewrite Hpid.
    exists (id_blsSk i), (id_blsPKMB i), (gen_document i). split_and!; [done..|].
    exists (gen_method i). split; [done|]. intros msg sig Hsig. by eapply ValidateBls12381_sign.
Qed.

(** The world of a consensus engine is that of its store. *)
Notation keep_world := (fun (w' : World) (_ : World) => w').

Lemma bind_run {S A B} (m : GoM S A) (k : A -> GoM S B) s a s1 : m s = (Ret a, s1) -> (m ≫= k) s = k a s1.
Proof. intros Hm. unfold mbind, GoM_bind. by rewrite Hm. Qed.

Lemma engine_store_run {A} h (m : nat -> GoM World A) (c : Consensus nat World) a w' :
  c_store c = Some h -> m h (c_mem c) = (Ret a, w') -> store id keep_world m c = (Ret a, set_mem w' c).
Proof.
  intros Hst Hm. unfold store, gzoom, mbind, GoM_bind, ggets. rewrite Hst. cbn. unfold id. by rewrite Hm.
Qed.

(** Making the engine over a store without genesis: the genesis is applied and
    the engine is at its block. *)
Lemma NewHandler_genesis `{!MsgCodec} `{!PubSub} {N : Type} (net : N) cfg key h v (c0 : Consensus nat World) w' blk :
  gen_ChainID (cc_Genesis cfg) <> ""%string -> decode_key (cc_Key cfg) = Some key ->
  ipfs_HasGenesisApplied h (c_mem c0) = (Ret false, c_mem c0) ->
  ipfs_ApplyGenesis h (cc_Genesis cfg) (c_mem c0) = (Ret None, w') ->
  ipfs_GetLastApplied h w' = (Ret (Ok (Some blk)), w') ->
  exists hd, NewHandler id keep_world cfg h v c0 net = Ret (SetupOk hd) /\
    c_store (dh_consensus hd) = Some h /\ c_mem (dh_consensus hd) = w' /\
    c_chain (dh_consensus hd) = bytes_of_string (gen_ChainID (cc_Genesis cfg)) /\
    c_signingKey (dh_consensus hd) = key /\ s_Height (c_state (dh_consensus hd)) = blk_Height blk.
Proof.
  intros Hc Hkey Hhas Happ Hlast. unfold NewHandler. rewrite bool_decide_false, Hkey by done.
  set (opts := _ ++ _). set (c1 := (apply_options opts (setupTimers c0).2).2).
  assert (c_store c1 = Some h) as Hst by reflexivity.
  set (c2 := set_mem w' (set_mem (c_mem c0) c1)). set (c3 := set_mem w' c2).
  assert (NewConsensus id keep_world opts c0 = (Ret None, set_state (set_ParentBlock (blk_Parent blk)
    (set_Height (blk_Height blk) (set_Block (blk_ID blk) (c_state c3)))) c3)) as ->; [|by eexists].
  unfold NewConsensus. rewrite (bind_run setupTimers _ c0 tt (setupTimers c0).2) by reflexivity.
  rewrite (bind_run (apply_options opts) _ _ tt c1) by reflexivity.
  rewrite (bind_run gget _ c1 c1 c1) by reflexivity. change (c_genesis c1) with (Some (cc_Genesis cfg)).
  unfold gcheck_e. erewrite (bind_run _ _ c1 None c2).
  2:{ cbv iota. rewrite (bind_run _ _ c1 false (set_mem (c_mem c0) c1)) by (by apply (engine_store_run h)).
      cbv iota. unfold gwrap_e. by rewrite (bind_run _ _ _ None c2) by (by apply (engine_store_run h)). }
  cbv iota. unfold gtry_e. rewrite (bind_run _ _ c2 (Ok (Some blk)) c3); [reflexivity|].
  unfold gwrap. by rewrite (bind_run _ _ c2 (Ok (Some blk)) c3) by (by apply (engine_store_run h)).
Qed.

(** C10. The nodes of a generated chain hear each other: every node that is
    configured with the genesis text and one of the secret keys the generator
    printed makes its consensus engine, at the genesis block of the chain, and a
    message of the chain that is signed with another printed key passes its
    checks. *)
Theorem generated_node_heard `{!MsgCodec} `{!PubSub} {N : Type} (net : N) flag (p : Proc (F := F)) out p' h v
    (c0 : Consensus nat World) q1 q2 :
  main flag p = (Ret out, p') -> NoDup (strings_Split flag ",") ->
  persistent (c_mem c0) h -> db_view (w_db (c_mem c0)) !! typedKey genesisTPrefix [] = None ->
  q1 ∈ out_identities out -> q2 ∈ out_identities out ->
  exists g key1 key2 hd, genesis_of_text (out_config out) = Ok g /\
    NewHandler id keep_world {| cc_Genesis := g; cc_Key := pr_SK q1 |} h v c0 net = Ret (SetupOk hd) /\
    decode_key (pr_SK q1) = Some (Some key1) /\ decode_key (pr_SK q2) = Some (Some key2) /\
    c_signingKey (dh_consensus hd) = Some key1 /\ s_Height (c_state (dh_consensus hd)) = 0%Z /\
    c_chain (dh_consensus hd) = bytes_of_string "testnet" /\
    forall msg d, msg_Chain msg = bytes_of_string "testnet" -> peer_String (msg_From msg) = pr_ID q2 ->
      signed_bytes msg = Ok d -> bls_Sign key2 d = Ok (msg_Signature msg) ->
      (authenticate id keep_world msg (dh_consensus hd)).1 = Ret true.
Proof.
  intros Hrun Hnd Hp Hnone Hq1 Hq2.
  destruct (main_boots _ _ _ _ h (c_mem c0) Hrun Hnd Hp) as (ids&g&w'&Hg&Hc&Happ&_&(blk&Hlast&Hbh)&HF).
  apply list_elem_of_lookup in Hq1 as [n1 Hn1]. apply list_elem_of_lookup in Hq2 as [n2 Hn2].
  destruct (Forall2_lookup_r _ _ _ _ _ HF Hn1) as (i1&_&_&Hsk1&_).
  destruct (Forall2_lookup_r _ _ _ _ _ HF Hn2) as (i2&_&Hpid&Hsk2&Hkt&[Hnode _]).
  destruct (NewHandler_genesis net {| cc_Genesis := g; cc_Key := pr_SK q1 |} (Some (id_blsSk i1)) h v c0 w' blk)
    as (hd&Hhd&Hst&Hmem&Hch&Hk&Hh); [simpl; by rewrite Hc|done|by apply HasGenesisApplied_not|done|done|].
  simpl in Hch. rewrite Hc in Hch.
  exists g, (id_blsSk i1), (id_blsSk i2), hd. split_and!; [done..|congruence|done|].
  intros msg d Hmch Hfrom Hd Hsig.
  assert (wp (authenticate id keep_world msg) (fun ok _ => ok = true) (dh_consensus hd)) as Hwp.
  { eapply (authenticate_registered id keep_world msg (id_blsSk i2) (id_blsPKMB i2) (gen_node i2) d);
      [exact Hkt|by rewrite Hmch, Hch|exact Hd|exact Hsig| |reflexivity].
    unfold wp, store, mbind, GoM_bind, ggets, gsome. rewrite Hst. unfold mret, GoM_ret, gzoom.
    rewrite Hfrom, Hpid.
    change (Node_ h (id_pID i2) (id (c_mem (dh_consensus hd)))) with (ipfs_Node h (id_pID i2) (c_mem (dh_consensus hd))).
    rewrite Hmem, Hnode. reflexivity. }
  unfold wp in Hwp. destruct (authenticate _ _ msg _) as [[ok|] b']; [|done]. by subst.
Qed.
End GenProps.
End GenProps.
