(* ===== verification/GenDemo.v ===== *)
(** * The genesis generator on a concrete environment

    Files are a map, kubo and pebble always open an empty store, keys are drawn
    from a counter; the laws hold together, and the generator's theorems are
    applied to a run with one identity. *)

From S2P Require Import Prelude Externals Text Cryptography W3cDid Tx Chain ChainFacts Toy Identity IdentityDemo Os.
From S2P Require Import Ipfs IpfsFacts IpfsDemo IpfsBlocks IpfsGenesis GenesisRun IpfsOpen Config GenGen.
From S2P Require Import Validator ConsensusState Consensus ConsensusDemo DidHandler GenProps.

Module GenDemo.
Import Text Cryptography W3cDid Tx Chain Toy IdentityDemo Ipfs IpfsFacts IpfsDemo GenesisRun IpfsOpen Config GenGen.
Import Validator ConsensusState Consensus ConsensusDemo DidHandler GenProps.
#[local] Existing Instance range_asc.
#[local] Existing Instance ToyPebble.
#[local] Existing Instance ToyPebbleLaws.
#[local] Existing Instance ToyIpfs.
#[local] Existing Instance ToyIpfsLaws.

(** ** Laws *)

#[export] Instance ToyKeyLaws : KeyLaws.
Proof.
  split; [by intros k b [= <-]|]. intros e b s. simpl. unfold toy_multibase_Encode.
  repeat case_decide; by intros [= <-].
Qed.

#[export] Instance ToyAddress : IpfsAddress.
Proof. refine {| ipfs_addr d := Some d |}. intros d n c n'. simpl. by intros [= <- _]. Defined.

#[export] Instance ToyNoFaults : NoFaults.
Proof. by split. Qed.

Definition toy_as_map (t : Tx) : Tx := tx_set_Data (DataMap (encode (tx_Data t))) t.

#[export] Instance ToyGenesisCodec : GenesisCodec := {|
  msgpack_Marshal_Genesis g := Ok (encode (gen_ChainID g, (gen_Block g, gen_Txs g)));
  msgpack_Unmarshal_Genesis b _ :=
    match decode b with
    | Ok (c, (blk, txs)) => Ok {| gen_ChainID := c; gen_Block := blk; gen_Txs := map toy_as_map txs |}
    | Err e => Err e
    end
|}.

Lemma toy_decodes t : decodes_to (x54 :: encode t) t.
Proof.
  split.
  - intros t0 Hk. simpl. rewrite decode_encode. simpl. by rewrite Hk.
  - intros t0 r0 Hr Hn. simpl. rewrite decode_encode, Hr. simpl.
    destruct (tx_Data t) as [| | |r|] eqn:Hd; [done|by eexists| by eexists| |by eexists].
    exists r. rewrite <- Hd. by rewrite tx_set_Data_same.
Qed.

#[export] Instance ToyGenesisCodecLaws : GenesisCodecLaws.
Proof.
  split. intros g b g0 _ [= <-]. simpl. rewrite decode_encode. eexists. split_and!; [done..|]. simpl.
  induction (gen_Txs g) as [|t l IH]; constructor; [|done]. eexists. split; [done|].
  intros b [= <-]. replace (toy_payload _) with t; [apply toy_decodes|].
  unfold toy_payload. simpl. rewrite decode_encode. by destruct t.
Qed.

(** ** The environment *)

Record Env := { te_files : gmap string bytes; te_n : nat }.

Definition tick (e : Env) : Env := {| te_files := te_files e; te_n := S (te_n e) |}.

#[export] Instance EnvOs : OsFiles Env := {|
  os_Stat p e := (match te_files e !! p with Some _ => None | None => Some os_ErrNotExist end, e);
  os_MkdirAll _ _ e := (None, e);
  os_ReadFile p e := (match te_files e !! p with Some d => Ok d | None => Err os_ErrNotExist end, e);
  os_WriteFile p d _ e := (None, {| te_files := <[p := d]> (te_files e); te_n := te_n e |})
|}.

#[export] Instance ToyMultiaddrs : Multiaddrs := {|
  Multiaddr := string;
  multiaddr_NewMultiaddr s := if bool_decide (s = ""%string) then Err (errorsNew "empty multiaddr") else Ok s;
  addr_info m := Ok (m : PeerID, [m])
|}.

#[export] Instance ToyKubo : Kubo Env := {|
  Plugins := unit; KuboConfig := unit; Repo := string; CoreNode := string;
  loader_NewPluginLoader _ e := (Ok tt, e);
  plugins_Initialize _ e := (None, e);
  plugins_Inject _ e := (None, e);
  kubo_InitWithIdentity _ e := (Ok tt, e);
  kubo_EnableAutoNAT c := c;
  fsrepo_Init _ _ e := (None, e);
  fsrepo_Open p e := (Ok p, e);
  ipfsCore_NewNode c e := (Ok (bc_Repo _ c), e);
  ipfs_NewCoreAPI _ e := (Ok (∅ : IPFS), e);
  pebble_Open _ _ e := (Ok (∅ : DB), e);
  swarm_Connect _ e := (None, e)
|}.

#[export] Instance ToyGenEnv : GenEnv Env := {|
  ioutil_TempDir e := (Ok "/tmp/a"%string, e);
  kubo_CreateIdentity e := (Ok {| ki_PeerID := ""; ki_PrivKey := "" |}, e);
  random_Scalar e := (repeat x61 (S (te_n e)), tick e);
  unix_Now e := (Z.of_nat (te_n e), tick e);
  random_Nonce e := (Ok [x01], e);
  coin_flips _ n := Z.of_nat (n mod 2)
|}.

(** ** A run *)

Definition proc0 : Proc (F := Env) := {| pr_setup := false; pr_env := {| te_files := ∅; te_n := 0 |}; pr_spawned := [] |}.

Definition out0 : GenOut :=
  match (main "a" proc0).1 with
  | Ret o => o
  | Panic => {| out_config := ""; out_hex := ""; out_identities := [] |}
  end.

Lemma main_ends : match (main "a" proc0).1 with Ret _ => true | Panic => false end = true.
Proof. by_vm. Qed.

Lemma main_run : main "a" proc0 = (Ret out0, (main "a" proc0).2).
Proof. apply run_fst. unfold out0. pose proof main_ends as He. by destruct (main "a" proc0) as [[]]. Qed.

Lemma idents0 : NoDup (strings_Split "a" ",").
Proof. apply (bool_decide_eq_true_1 _). by_vm. Qed.

Lemma gengen_boots_witness :
  exists g w', genesis_of_text (out_config out0) = Ok g /\ gen_ChainID g = "testnet"%string /\
    ipfs_ApplyGenesis 0 g world0 = (Ret None, w') /\
    pr_ID <$> out_identities out0 = strings_Split "a" "," /\
    forall q, q ∈ out_identities out0 -> exists key mb doc,
      decode_key (pr_SK q) = Some (Some key) /\
      EncodeMultibase (PkBls12381 (bls_Point (bls_Public key))) = Ok mb /\
      ipfs_Node 0 (pr_ID q) w' = (Ret (Ok (Some {| node_Id := pr_ID q;
        node_Did := "did:didem:" ++ pr_ID q; node_Key := bytes_of_string mb |})), w') /\
      ipfs_LookupDID 0 ("did:didem:" ++ pr_ID q) w' = (Ret (Ok (Some doc)), w') /\
      exists vm, doc_Authentication doc = [vm] /\ forall msg sig, bls_Sign key msg = Ok sig ->
        ValidateBls12381 vm sig msg w' = (Ret (Ok true), w').
Proof. exact (gengen_boots "a" proc0 out0 _ 0 world0 main_run idents0 world0_persistent). Defined.

Definition printed0 : Printed := default {| pr_SK := ""; pr_ID := ""; pr_Peer := "" |} (head (out_identities out0)).

Lemma printed0_in : match head (out_identities out0) with Some _ => true | None => false end = true.
Proof. by_vm. Qed.

Definition engine0 : Consensus nat Ipfs.World := new_node ("a"%string : PeerID) world0 5 (Ok [x09]).

Lemma fresh0 : db_view (w_db (c_mem engine0)) !! typedKey genesisTPrefix [] = None.
Proof. by_vm. Qed.

Lemma generated_node_heard_witness :
  exists g key1 key2 hd, genesis_of_text (out_config out0) = Ok g /\
    NewHandler (W := Ipfs.World) id (fun w _ => w) {| cc_Genesis := g; cc_Key := pr_SK printed0 |} 0
      (MockValidator Ipfs.World) engine0 tt = Ret (SetupOk hd) /\
    decode_key (pr_SK printed0) = Some (Some key1) /\ decode_key (pr_SK printed0) = Some (Some key2) /\
    c_signingKey (dh_consensus hd) = Some key1 /\ s_Height (c_state (dh_consensus hd)) = 0%Z /\
    c_chain (dh_consensus hd) = bytes_of_string "testnet" /\
    forall msg d, msg_Chain msg = bytes_of_string "testnet" -> peer_String (msg_From msg) = pr_ID printed0 ->
      signed_bytes msg = Ok d -> bls_Sign key2 d = Ok (msg_Signature msg) ->
      (authenticate (W := Ipfs.World) id (fun w _ => w) msg (dh_consensus hd)).1 = Ret true.
Proof.
  assert (printed0 ∈ out_identities out0) as Hin.
  { pose proof printed0_in as Hin. unfold printed0. destruct (out_identities out0) as [|q l]; [discriminate Hin|left]. }
  exact (generated_node_heard tt "a" proc0 out0 _ 0 (MockValidator Ipfs.World) engine0 printed0 printed0
    main_run idents0 world0_persistent fresh0 Hin Hin).
Defined.
End GenDemo.
