(* ===== verification/Beacon.v ===== *)
(** * The random source: [RandomSource] of internal/node/drand.go

    Every tenth round of the drand network is offered to the consensus engine on
    an unbuffered channel; an offer that nobody waits for is dropped.  The two
    goroutines are a pipe, so a run is a sequence of events: a round that
    [Watch] yields, or the consumer starting to wait on the channel. *)

From S2P Require Import Prelude Text.

Module Beacon.
Import Text.

Definition nthTick : Z := 10.

(** [client.Result]: a round, which is a uint64, and its randomness *)
Record Result := { res_Round : Z; res_Randomness : bytes }.

Inductive bevent :=
| Round (b : Result)
| Waiting.

(** Whether the consumer waits on [dstCh], and what it got, in order. *)
Record Source := { src_waiting : bool; src_got : list Z }.

(** [select { case dstCh <- v: default: }] *)
Definition offer (v : Z) : GoM Source unit :=
  gmodify (fun s => if src_waiting s then {| src_waiting := false; src_got := src_got s ++ [v] |} else s).

(** the body of the second goroutine *)
Definition on_tick (tick : Result) : GoM Source unit :=
  if negb (bool_decide (res_Round tick mod nthTick = 0)%Z) then mret tt
  else v ← gsome (BigEndian_Uint64 (res_Randomness tick)); offer v.

(** [drand]: whether [n.drand] is not [nil]; without it nothing is watched. *)
Definition source_step (drand : bool) (e : bevent) : GoM Source unit :=
  match e with
  | Round b => if drand then on_tick b else mret tt
  | Waiting => gmodify (fun s => {| src_waiting := true; src_got := src_got s |})
  end.

Fixpoint RandomSource (drand : bool) (es : list bevent) : GoM Source unit :=
  match es with
  | [] => mret tt
  | e :: es => source_step drand e;; RandomSource drand es
  end.

Definition source0 : Source := {| src_waiting := false; src_got := [] |}.


Definition value (b : Result) : option Z := BigEndian_Uint64 (res_Randomness b).





(** ** Theorems *)









(** A consumer that waits again before every round gets every tenth round. *)
Lemma beacon_delivered bs :
  Forall (fun b => 8 <= length (res_Randomness b)) bs ->
  exists s', RandomSource true (concat (map (fun b => [Waiting; Round b]) bs)) source0 = (Ret tt, s') /\
    Some <$> src_got s' = value <$> filter (fun b => res_Round b mod nthTick = 0)%Z bs.
Proof.
  assert (forall s, Forall (fun b => 8 <= length (res_Randomness b)) bs ->
    exists s', RandomSource true (concat (map (fun b => [Waiting; Round b]) bs)) s = (Ret tt, s') /\
      Some <$> src_got s' = (Some <$> src_got s) ++ (value <$> filter (fun b => res_Round b mod nthTick = 0)%Z bs)) as Hg.
  { induction bs as [|b bs IH]; intros s HF.
    { exists s. simpl. by rewrite app_nil_r. }
    apply Forall_cons_1 in HF as [Hb HF]. simpl. unfold mbind, GoM_bind, gmodify, on_tick. case_bool_decide as Hm; simpl.
    - rewrite filter_cons_True by done. destruct (BigEndian_Uint64 (res_Randomness b)) as [v|] eqn:Hv.
      2:{ unfold BigEndian_Uint64 in Hv. by rewrite decide_False in Hv by lia. }
      simpl. destruct (IH {| src_waiting := false; src_got := src_got s ++ [v] |} HF) as (s'&Hr&Hgot).
      exists s'. split; [exact Hr|]. rewrite Hgot. simpl. rewrite fmap_app, <- app_assoc. unfold value at 2. by rewrite Hv.
    - rewrite filter_cons_False by done. apply (IH {| src_waiting := true; src_got := src_got s |} HF). }
  intros HF. exact (Hg source0 HF).
Qed.

(** A round of ten whose randomness has fewer than eight bytes ends the process. *)
Lemma short_randomness_panics b es s :
  (res_Round b mod nthTick = 0)%Z -> length (res_Randomness b) < 8 ->
  (RandomSource true (Round b :: es) s).1 = Panic.
Proof.
  intros Hm Hl. simpl. unfold mbind, GoM_bind, on_tick. rewrite bool_decide_true by done. simpl.
  unfold BigEndian_Uint64. by rewrite decide_True.
Qed.


End Beacon.
