(* ===== verification/Node.v ===== *)
(** * internal/node: a node and how it is put together

    node.go, options.go, identity.go, p2p.go, streams.go and newDrandClient of
    drand.go.  A node reads its configuration and identity files, opens its
    storage, makes a libp2p host, attaches the stream handlers of [DidHandler]
    and [CommClient] and advertises its identities.  The libraries are classes
    over the world [W]; goroutines are the tasks a node leaves behind, which
    [run_task] runs. *)

From S2P Require Import Prelude Externals Text Cryptography Stream W3cDid Tx Chain Identity Comm CommClient.
From S2P Require Import Os Ipfs IpfsOpen Config Validator MemPool ConsensusState Consensus DidHandler.

(** go-libp2p-core/crypto and peer: the key of the host *)
Class HostKeys (W : Type) `{Lib} := {
  HostKey : Type;
  crypto_GenerateKeyPair : W -> result HostKey * W;
  crypto_MarshalPrivateKey : HostKey -> result bytes;
  crypto_UnmarshalPrivateKey : bytes -> result HostKey;
  (** [peer.IDFromPublicKey(sk.GetPublic())] *)
  peer_IDOf : HostKey -> result PeerID;
  (** [multihash.FromB58String] *)
  multihash_FromB58 : string -> result bytes
}.

(** What the host is made with, beside the constant options. *)
Record HostOpts (K A C : Type) := { ho_key : K; ho_listen : list A; ho_connMgr : C; ho_relay : bool }.
Arguments Build_HostOpts {_ _ _}.

(** [client.New] of drand: whether the source is HTTP ([client.From]) *)
Record DrandOpts := { do_urls : option (list string) }.

Class Libp2p (W : Type) `{Lib} `{!Multiaddrs} `{!HostKeys W} := {
  ConnMgr : Type;
  Host : Type;
  Drand : Type;
  connmgr_NewConnManager : Z -> Z -> W -> result ConnMgr * W;
  pstoremem_NewPeerstore : W -> option error * W;
  libp2p_New : HostOpts HostKey Multiaddr ConnMgr -> W -> result Host * W;
  dht_New : Host -> W -> option error * W;
  dht_Bootstrap : W -> option error * W;
  dht_RefreshRoutingTable : W -> W;
  dht_Provide : Cid -> W -> option error * W;
  (** maximum message size *)
  pubsub_NewGossipSub : Host -> Z -> W -> option error * W;
  pubsub_DefaultMaxMessageSize : Z;
  host_SetStreamHandler : string -> W -> W;
  host_Connect : PeerAddr -> W -> option error * W;
  connmgr_TagPeer : PeerID -> string -> W -> W;
  dnsaddr_Resolve : string -> W -> result (list Multiaddr) * W;
  (** [chain.InfoFromJSON] on the constant of the program, and [client.New] *)
  drand_ChainInfo : option error;
  drand_New : DrandOpts -> W -> result Drand * W
}.

Module Node.
Import Text Cryptography Tx Chain Identity Comm CommClient Ipfs IpfsOpen Config Validator ConsensusState DidHandler.

Definition urls : list string := [
  "https://api.drand.sh"; "https://api2.drand.sh"; "https://api3.drand.sh"; "https://drand.cloudflare.com"
]%string.
Definition drandGSBootstrapPeers : list string := [
  "/dnsaddr/api.drand.sh"; "/dnsaddr/api2.drand.sh"; "/dnsaddr/api3.drand.sh"
]%string.

(** The goroutines that are started while a node is made. *)
Inductive Task :=
| TWatchEvents  (** [n.watchEvents()], which only logs *)
| TBootstrapDHT
| TWatchAdvertise  (** [doAdvertise] every minute *)
| TAdvertise  (** [doAdvertise] after three seconds *)
| TDrandPeer (p : string)
| TDidStart.  (** [did.Start()] until it returns no error *)

#[export] Instance Task_eq_dec : EqDecision Task.
Proof. solve_decision. Defined.

(** The events of the host that [watchEvents] logs: the addresses it is reached at,
    each with what happened to it *)
Inductive AddrAction := ActUnknown | ActAdded | ActMaintained | ActRemoved.

#[export] Instance AddrAction_eq_dec : EqDecision AddrAction.
Proof. solve_decision. Defined.

Inductive BusEvent := EvtLocalAddressesUpdated (current : list (string * AddrAction)) | EvtOther.

(** what is logged of an event, an address and an action each *)
Definition logged_of (e : BusEvent) : list (string * string) :=
  match e with
  | EvtLocalAddressesUpdated current =>
      omap (fun '(addr, action) =>
        if bool_decide (action = ActMaintained) then None
        else Some (addr, if bool_decide (action = ActRemoved) then "removed" else "added")%string) current
  | EvtOther => []
  end.

(** the loop over the subscription; without one nothing is logged *)
Definition watchEvents (sub : result (list BusEvent)) : list (string * string) :=
  match sub with Ok es => mbind logged_of es | Err _ => [] end.

Section Node.
Context {X Ws H VS N W V : Type}.
Context `{L : Lib} `{IL : IdLib} `{!TxCodec} `{!GenesisCodec} `{!RangeOrder} `{!Pebble} `{!Ipfs} `{!Multiaddrs}.
Context `{!FileSystem W} `{!OsFiles W} `{!Kubo W} `{!Viper V} `{!HostKeys W} `{!Libp2p W}.
Context (currentHome : option string).

(** The stores that can be given to a node; and, for [did.NewHandler], the memory
    of stores and engines, the engine as it is allocated and the network. *)
Context `{!Store Ws H} `{!MsgCodec} `{!PubSub}.
Context (get_world : VS -> Ws) (put_world : Ws -> VS -> VS) (engine0 : Consensus H VS) (net0 : N).

(** The dynamic values of [storage.Store], [did.IdentityStore] and of the
    instances in [handlers]. *)
Inductive StoreVal := StIpfs (o : Opened) | StGiven (x : X).
Inductive IdStoreVal := IsFile (f : FileStore) | IsGiven (s : IdentityStore (W := W)).

Record p2pHost := { ph_host : Host; ph_connMgr : ConnMgr }.

Notation DidH := (DidHandler.Handler (H := H) (VS := VS) (N := N)).

Inductive HandlerInst :=
| InstDid (h : DidH)
| InstComm.  (** [comm.Handler] keeps only the node *)

(** [type Node struct] *)
Record Node := {
  n_cfg : Config_;
  n_p2p : option p2pHost;
  n_storage : option StoreVal;
  n_identityResolver : option (Resolver (W := W) (IL := IL));
  n_idStore : option IdStoreVal;
  n_handlers : gmap string HandlerInst;
  n_drand : option Drand
}.

Definition n_set_p2p (x : p2pHost) (n : Node) : Node := {|
  n_cfg := n_cfg n; n_p2p := Some x; n_storage := n_storage n; n_identityResolver := n_identityResolver n;
  n_idStore := n_idStore n; n_handlers := n_handlers n; n_drand := n_drand n |}.
Definition n_set_storage (x : StoreVal) (n : Node) : Node := {|
  n_cfg := n_cfg n; n_p2p := n_p2p n; n_storage := Some x; n_identityResolver := n_identityResolver n;
  n_idStore := n_idStore n; n_handlers := n_handlers n; n_drand := n_drand n |}.
Definition n_set_idStore (x : IdStoreVal) (n : Node) : Node := {|
  n_cfg := n_cfg n; n_p2p := n_p2p n; n_storage := n_storage n; n_identityResolver := n_identityResolver n;
  n_idStore := Some x; n_handlers := n_handlers n; n_drand := n_drand n |}.
Definition n_set_handlers (x : gmap string HandlerInst) (n : Node) : Node := {|
  n_cfg := n_cfg n; n_p2p := n_p2p n; n_storage := n_storage n; n_identityResolver := n_identityResolver n;
  n_idStore := n_idStore n; n_handlers := x; n_drand := n_drand n |}.
Definition n_set_drand (x : Drand) (n : Node) : Node := {|
  n_cfg := n_cfg n; n_p2p := n_p2p n; n_storage := n_storage n; n_identityResolver := n_identityResolver n;
  n_idStore := n_idStore n; n_handlers := n_handlers n; n_drand := Some x |}.

(** The process with the state of viper, and the goroutines started. *)
Record Sys := { sy_proc : Proc (F := W); sy_cfg : CfgState (V := V); sy_tasks : list Task }.
Notation M := (GoM Sys).

Definition on_proc {A} (m : GoM (Proc (F := W)) A) : M A :=
  gzoom sy_proc (fun p s => {| sy_proc := p; sy_cfg := sy_cfg s; sy_tasks := sy_tasks s |}) m.
Definition on_cfg {A} (m : GoM (CfgState (V := V)) A) : M A :=
  gzoom sy_cfg (fun c s => {| sy_proc := sy_proc s; sy_cfg := c; sy_tasks := sy_tasks s |}) m.
Definition world {A} (f : W -> A * W) : M A := on_proc (env f).
Definition world_ (f : W -> W) : M unit := world (fun w => (tt, f w)).
Definition spawn (t : Task) : M unit :=
  gmodify (fun s => {| sy_proc := sy_proc s; sy_cfg := sy_cfg s; sy_tasks := sy_tasks s ++ [t] |}).

(** ** identity.go *)

Definition mode0600 : Z := 384.

Definition generateIdentity (cfg : Config_) : M (option error) :=
  gtry_e (gwrap "generating priv key" (world crypto_GenerateKeyPair)) (fun priv =>
  gtry_e (mret (wrap "marshaling new private key" (crypto_MarshalPrivateKey priv))) (fun b =>
  let file := IdentityFile (cfg_p2p cfg) in
  gcheck_e (gwrap_e "making identity config path"
    (world (os_MkdirAll (string_of_bytes (path_Dir (bytes_of_string file))) mode0600))) (
  world (os_WriteFile file b mode0600)))).

Definition getIdentity (cfg : Config_) : M (result HostKey) :=
  let id := IdentityFile (cfg_p2p cfg) in
  err ← world (os_Stat id);
  gcheck (match err with
          | None => mret None
          | Some e =>
              if errors_Is e os_ErrNotExist then gwrap_e "creating new identity" (generateIdentity cfg)
              else mret (Some (errorsWrap e "checking identity file"))
          end) (
  gtry (gwrap "reading identity file" (world (os_ReadFile id))) (fun idB =>
  mret (wrap "unmarshaling private key" (crypto_UnmarshalPrivateKey idB)))).

Definition identityToIPFSConfigIdentity (fp : string) : M (result KuboIdentity) :=
  gtry (gwrap "reading identity file" (world (os_ReadFile fp))) (fun idB =>
  gtry (mret (wrap "unmarshaling private key" (crypto_UnmarshalPrivateKey idB))) (fun sk =>
  gtry (mret (crypto_MarshalPrivateKey sk)) (fun skbytes =>
  gtry (mret (peer_IDOf sk)) (fun id =>
  mret (Ok {| ki_PeerID := peer_String id; ki_PrivKey := base64_EncodeToString skbytes |}))))).

(** [n.idStore.List()]: a call on a [nil] interface panics; the list of a store
    that was given to the node is an input. *)
Context (given_List : IdentityStore (W := W) -> W -> result (list PrivateIdentity) * W).

Definition advertisableIdentities (n : Node) : M (result (list PrivateIdentity)) :=
  ids ← gsome (n_idStore n);
  gwrap "getting id list" (
    match ids with
    | IsFile f => mret (List_ f)
    | IsGiven s => world (given_List s)
    end).

(** ** options.go *)

Definition NodeOption : Type := Node -> M (result Node).

Definition WithStorage (s : X) : NodeOption := fun n => mret (Ok (n_set_storage (StGiven s) n)).

Definition WithDefaultOptions : NodeOption := fun n =>
  let idFile := IdentityFile (cfg_p2p (n_cfg n)) in
  let repo := IpfsRepo (cfg_p2p (n_cfg n)) in
  gtry (gwrap "converting ident from config" (identityToIPFSConfigIdentity idFile)) (fun ident =>
  gtry (gwrap "initing storage" (on_proc (NewIPFSStorage ident repo))) (fun ipfs =>
  mret (Ok (n_set_storage (StIpfs ipfs) n)))).

Definition WithIdentityStore (store : IdentityStore (W := W)) : NodeOption := fun n =>
  mret (Ok (n_set_idStore (IsGiven store) n)).

(** ** p2p.go *)

Fixpoint parse_addrs (addrs : list string) : result (list Multiaddr) :=
  match addrs with
  | [] => Ok []
  | a :: addrs => m ← multiaddr_NewMultiaddr a; l ← parse_addrs addrs; Ok (m :: l)
  end.
Definition buildListeningAddrs (cfg : Config_) : result (list Multiaddr) := parse_addrs (ListenAddrs (cfg_p2p cfg)).

Definition newGossipSub (h : Host) : M (option error) :=
  gwrap_e "creating gossipsub router" (world (pubsub_NewGossipSub h (pubsub_DefaultMaxMessageSize * 2))).

Definition newP2PHost (cfg : Config_) : M (result p2pHost) :=
  gtry (getIdentity cfg) (fun id =>
  gtry (mret (buildListeningAddrs cfg)) (fun listeningAddrs =>
  gtry (world (connmgr_NewConnManager (PeersCountLow (cfg_p2p cfg)) (PeersCountHigh (cfg_p2p cfg)))) (fun connMgr =>
  gcheck (world pstoremem_NewPeerstore) (
  gtry (gwrap "creating libp2p host" (world (libp2p_New {| ho_key := id; ho_listen := listeningAddrs;
    ho_connMgr := connMgr; ho_relay := Relay (cfg_p2p cfg) |}))) (fun host =>
  gcheck (gwrap_e "initing DHT" (world (dht_New host))) (
  spawn TBootstrapDHT;;
  gcheck (newGossipSub host) (
  spawn TWatchAdvertise;;
  spawn TAdvertise;;
  mret (Ok {| ph_host := host; ph_connMgr := connMgr |})))))))).

(** [p.dht.Provide(ctx, cid.NewCidV1(cid.Raw, mh), true)] *)
Definition provideIdentity (id : PrivateIdentity) : M (option error) :=
  gtry_e (PublicIdentity_ 0 id) (fun pid =>
  gtry_e (mret (multihash_FromB58 (pi_ID pid))) (fun mh =>
  world (dht_Provide (cid_NewCidV1 cid_Raw mh)))).

(** The goroutines of the identities, in the order they run; an error is logged,
    a panic ends the process. *)
Fixpoint provide_all (ids : list PrivateIdentity) : M unit :=
  match ids with
  | [] => mret tt
  | id :: ids => _ ← provideIdentity id; provide_all ids
  end.

Definition doAdvertise (n : Node) : M unit :=
  r ← advertisableIdentities n;
  match r with
  | Err _ => mret tt
  | Ok ids => provide_all (range_order ids)
  end.

(** ** drand.go *)

Definition newDrandClient (raw : bool) : M (result Drand) :=
  gcheck (mret (Wrap drand_ChainInfo "reading chain info")) (
  (if raw then mret tt
   else foldr (fun p k => spawn (TDrandPeer p);; k) (mret tt) drandGSBootstrapPeers);;
  gwrap "constructing drand client" (world (drand_New {| do_urls := if raw then Some urls else None |}))).

(** the goroutine of one drand address: the first error ends it *)
Fixpoint drand_connect (mas : list Multiaddr) : M unit :=
  match mas with
  | [] => mret tt
  | ma :: mas =>
      match addr_info ma with
      | Err _ => mret tt
      | Ok (i, addrs) =>
          world_ (connmgr_TagPeer i "drand");;
          err ← world (host_Connect {| pa_ID := i; pa_Addrs := addrs |});
          match err with Some _ => mret tt | None => drand_connect mas end
      end
  end.

(** ** streams.go *)

(** the pointer of a store, and [storage.NewTxValidator] on it *)
Context (handle_of : StoreVal -> H) (validator_of : H -> Validator VS).

(** [did.NewHandler(n)]; a node without storage panics where the handler calls
    the store, unless the handler is [nil] or the process ends before *)
Definition new_did (n : Node) : exit setup :=
  let cfg := cfg_chain (n_cfg n) in
  match n_storage n with
  | Some s => DidHandler.NewHandler get_world put_world cfg (handle_of s) (validator_of (handle_of s)) engine0 net0
  | None =>
      if bool_decide (gen_ChainID (cc_Genesis cfg) = ""%string) then Ret SetupNone
      else match decode_key (cc_Key cfg) with None => Ret SetupFatal | Some _ => Panic end
  end.

(** A fatal error ends the process, as a panic that nobody recovers does. *)
Definition newDidStreamHandler (n : Node) : M (option HandlerInst) :=
  did ← (fun s => (new_did n, s));
  match did with
  | SetupNone => mret None
  | SetupFatal => gpanic
  | SetupOk h => spawn TDidStart;; mret (Some (InstDid h))
  end.

Definition newCommStreamHandler (n : Node) : M (option HandlerInst) := mret (Some InstComm).

Definition streamHandlers : list (string * (Node -> M (option HandlerInst))) := [
  (DidProtocolID, newDidStreamHandler);
  (ProtocolID, newCommStreamHandler)
].

Fixpoint attach (l : list (string * (Node -> M (option HandlerInst)))) (n : Node) : M Node :=
  match l with
  | [] => mret n
  | (id, handler) :: l =>
      inst ← handler n;
      match inst with
      | None => attach l n
      | Some inst =>
          world_ (host_SetStreamHandler id);;
          attach l (n_set_handlers (<[id := inst]> (n_handlers n)) n)
      end
  end.

(** a range over a map; [n.p2p.host] is read first *)
Definition setupStreamHandlers (n : Node) : M (result Node) :=
  _ ← gsome (n_p2p n);
  n ← attach (range_order streamHandlers) n;
  mret (Ok n).

(** ** node.go *)

(** The loop of [bootstrap]: an address that does not parse ends it, after
    goroutines for the addresses before it were started. *)
Fixpoint bootstrap_peers (peers : list string) : M (option error) :=
  match peers with
  | [] => mret None
  | peerAddr :: peers =>
      gtry_e (mret (wrap "parsing bootstrap multiaddr" (multiaddr_NewMultiaddr peerAddr))) (fun ma =>
      gtry_e (mret (wrap "constructing bootstrap peer addr info" (addr_info ma))) (fun info =>
      _ ← world (host_Connect {| pa_ID := info.1; pa_Addrs := info.2 |});
      bootstrap_peers peers))
  end.

Definition bootstrap (cfg : Config_) : M (option error) :=
  gcheck_e (bootstrap_peers (BootstrapPeers (cfg_p2p cfg))) (
  world_ dht_RefreshRoutingTable;;
  mret None).

(** [did.NewFileStore(cfg.IdentityStore)] in the world of the process *)
Definition open_idStore (path : string) : M (result FileStore) := fun s =>
  let (r, w) := NewFileStore path (pr_env (sy_proc s)) in
  (r, {| sy_proc := pr_set_env w (sy_proc s); sy_cfg := sy_cfg s; sy_tasks := sy_tasks s |}).

Fixpoint apply_options (opts : list NodeOption) (n : Node) : M (result Node) :=
  match opts with
  | [] => mret (Ok n)
  | opt :: opts => gtry (opt n) (apply_options opts)
  end.

Definition NewNode (opts : list NodeOption) : M (result Node) :=
  gtry (on_cfg (GetConfig currentHome)) (fun cfg =>
  let n := {| n_cfg := cfg; n_p2p := None; n_storage := None; n_identityResolver := None;
              n_idStore := None; n_handlers := ∅; n_drand := None |} in
  gtry (if bool_decide (cfg_IdentityStore cfg = ""%string) then mret (Ok n)
        else gtry (gwrap "loading identity store" (open_idStore (cfg_IdentityStore cfg))) (fun f =>
             mret (Ok (n_set_idStore (IsFile f) n)))) (fun n =>
  gtry (apply_options opts n) (fun n =>
  gtry (newP2PHost cfg) (fun h =>
  let n := n_set_p2p h n in
  spawn TWatchEvents;;
  gtry (gwrap "constructing randomness source" (newDrandClient (cfg_RawRandomSource cfg))) (fun drs =>
  gtry (gwrap "attaching stream handlers" (setupStreamHandlers (n_set_drand drs n))) (fun n =>
  gcheck (gwrap_e "bootstrapping p2p" (bootstrap cfg)) (
  mret (Ok n)))))))).

(** [n.handlers[did.ProtocolID].( *did.Handler)] and the same for comm; the
    assertion panics when there is none *)
Definition Did (n : Node) : option DidH :=
  match n_handlers n !! DidProtocolID with Some (InstDid h) => Some h | _ => None end.
Definition HasComm (n : Node) : bool :=
  match n_handlers n !! ProtocolID with Some InstComm => true | _ => false end.

(** [n.idStore] as the interface the mail protocol uses: a [FileStore] reads its
    index. *)
Definition as_IdentityStore (s : IdStoreVal) : IdentityStore (W := W) :=
  match s with
  | IsFile f => {| is_Find id w := (match Find id f with Ok i => Ok (Some i) | Err e => Err e end, w) |}
  | IsGiven s => s
  end.

(** [n.Comm()]: the mail handler with what it reads of its node *)
Definition Comm {I} (n : Node) : option (CommClient.Handler (W := W) (I := I)) :=
  if HasComm n then Some (CommClient.NewHandler (as_IdentityStore <$> n_idStore n) (n_identityResolver n))
  else None.

(** [Stop]: the store is stopped if there is one; an error is logged *)
Definition Stop_ (stop : StoreVal -> M (option error)) (n : Node) : M (option error) :=
  match n_storage n with
  | None => mret None
  | Some s => _ ← stop s; mret None
  end.

(** ** The goroutines *)

Definition run_task (did_start : Node -> M unit) (n : Node) (t : Task) : M unit :=
  match t with
  | TWatchEvents => mret tt
  | TBootstrapDHT => _ ← world dht_Bootstrap; mret tt
  | TWatchAdvertise | TAdvertise => doAdvertise n
  | TDrandPeer p =>
      r ← world (dnsaddr_Resolve p);
      match r with Err _ => mret tt | Ok mas => drand_connect mas end
  | TDidStart => did_start n
  end.
End Node.

(** ** The host as the peers of the mail protocol

    [Connect], [Open] and [FindProvider] of p2p.go: what [CommClient] is given of
    a node. *)
Section HostPeers.
Context {W HS : Type} `{L : Lib} `{!Multiaddrs} `{!HostKeys W} `{!Libp2p W}.
Context (host_NewStream : PeerID -> string -> W -> result HS * W).
Context (dht_FindProviders : Cid -> W -> result (list PeerAddr) * W).

Definition Connect (info : PeerAddr) : W -> option error * W := host_Connect info.
Definition Open (peer : PeerID) (protocol : string) : W -> result HS * W := host_NewStream peer protocol.
Definition FindProvider (c : Cid) : W -> result (list PeerAddr) * W := dht_FindProviders c.

Definition HostPeers : Peers W HS := {|
  AddrInfo := PeerAddr; ai_ID := pa_ID;
  p2p_FindProvider := FindProvider; p2p_Connect := Connect; p2p_Open := Open
|}.
End HostPeers.
End Node.
