(* ===== verification/NodeProps.v ===== *)
(** * Theorems on making a node, its identity and its advertisements *)

From S2P Require Import Prelude Externals Text Cryptography Stream W3cDid Tx Chain Identity Comm CommClient.
From S2P Require Import Os Ipfs IpfsOpen Config Validator MemPool ConsensusState Consensus DidHandler Node.

(** Multihashes of SHA3-384: two bytes of header and 48 of digest, whose base-58
    text is no shorter; the text of such a hash is read back; and identifiers of
    one codec are equal only for equal hashes. *)
Class MultihashLaws (W : Type) `{L : Lib} `{IL : IdLib} `{!CommLib W} `{!HostKeys W} : Prop := {
  multihash_Sum_384 : forall d, exists m, multihash_Sum d SHA3_384 = Ok m /\ length m = 50;
  multihash_Encode_384 : forall d, multihash_Encode (sha3_Sum384 d) SHA3_384 = multihash_Sum d SHA3_384;
  mh_B58_len : forall m, length m <= length (bytes_of_string (mh_B58String m));
  mh_FromB58_B58 : forall d m, multihash_Sum d SHA3_384 = Ok m -> multihash_FromB58 (mh_B58String m) = Ok m;
  cid_NewCidV1_inj : forall codec m1 m2, cid_NewCidV1 codec m1 = cid_NewCidV1 codec m2 -> m1 = m2
}.

Module NodeProps.
Import Text Cryptography Tx Chain Identity Comm CommClient Ipfs IpfsOpen Config Validator ConsensusState DidHandler Node.

Section NodeProps.
Context {X Ws H VS N W V : Type}.
Context `{L : Lib} `{IL : IdLib} `{!TxCodec} `{!GenesisCodec} `{!RangeOrder} `{!Pebble} `{!Ipfs} `{!Multiaddrs}.
Context `{!FileSystem W} `{!OsFiles W} `{!Kubo W} `{!Viper V} `{!HostKeys W} `{!Libp2p W}.
Context (currentHome : option string).
Context `{!Store Ws H} `{!MsgCodec} `{!PubSub}.
Context (get_world : VS -> Ws) (put_world : Ws -> VS -> VS) (engine0 : Consensus H VS) (net0 : N).
Context (handle_of : StoreVal (X := X) -> H) (validator_of : H -> Validator VS).

Notation Node := (Node.Node (X := X) (H := H) (VS := VS) (N := N) (W := W)).
Notation Sys := (Sys (W := W) (V := V)).
Notation NewNode := (NewNode (X := X) (W := W) (V := V) currentHome get_world put_world engine0 net0 handle_of validator_of).

Definition w_of (s : Sys) : W := pr_env (sy_proc s).

Lemma world_run {A} (f : W -> A * W) (s : Sys) :
  exists s', world f s = (Ret (f (w_of s)).1, s') /\ w_of s' = (f (w_of s)).2.
Proof. unfold world, on_proc, gzoom, env, w_of. destruct (f (pr_env (sy_proc s))). by eexists. Qed.

Lemma world_inv {A} (f : W -> A * W) (s s' : Sys) a :
  world f s = (Ret a, s') -> f (w_of s) = (a, w_of s').
Proof.
  destruct (world_run f s) as (s1&->&Hw). intros [= <- <-]. rewrite Hw. by destruct (f (w_of s)).
Qed.

(** ** The identity of the host *)

(** The identity of a node's host is stable: what [getIdentity] gave on one
    start, be it read or newly generated, it gives on the next, and the two read
    the same file. *)
Lemma getIdentity_stable `{!OsLaws W} cfg (s s' s'' : Sys) k k' :
  getIdentity cfg s = (Ret (Ok k), s') -> getIdentity cfg s' = (Ret (Ok k'), s'') ->
  k' = k /\ exists d, fs_content (w_of s') (IdentityFile (cfg_p2p cfg)) = Some d /\
    fs_content (w_of s'') (IdentityFile (cfg_p2p cfg)) = Some d /\ crypto_UnmarshalPrivateKey d = Ok k.
Proof.
  assert (forall (s s' : Sys) k, getIdentity cfg s = (Ret (Ok k), s') ->
    exists d, fs_content (w_of s') (IdentityFile (cfg_p2p cfg)) = Some d /\ crypto_UnmarshalPrivateKey d = Ok k /\
      (is_Some (fs_content (w_of s) (IdentityFile (cfg_p2p cfg))) -> w_of s' = w_of s)) as Hone.
  { clear -OsLaws0. intros s s' k (err&s1&Hstat%world_inv&Hr)%bind_inv.
    apply check_inv in Hr as (s2&Hgen&Hr). apply try_inv in Hr as (d&s3&Hread%wrap_inv%world_inv&Hr).
    injection Hr as Hk <-. assert (crypto_UnmarshalPrivateKey d = Ok k) as Hk'.
    { by destruct (crypto_UnmarshalPrivateKey d); simplify_eq/=. }
    pose proof (os_ReadFile_world (IdentityFile (cfg_p2p cfg)) (w_of s2)) as Hw. rewrite Hread in Hw. simpl in Hw.
    assert (fs_content (w_of s2) (IdentityFile (cfg_p2p cfg)) = Some d) as Hd.
    { apply os_ReadFile_content. by rewrite Hread. }
    exists d. split_and!; [by rewrite Hw|done|]. intros [d0 Hd0]. rewrite Hw.
    pose proof (os_Stat_world (IdentityFile (cfg_p2p cfg)) (w_of s)) as Hw1. rewrite Hstat in Hw1. simpl in Hw1.
    destruct err as [e|]; [|by injection Hgen as <-]. destruct (errors_Is e os_ErrNotExist) eqn:He; [|done].
    assert (fs_content (w_of s) (IdentityFile (cfg_p2p cfg)) = None) as Hn; [|congruence].
    apply os_Stat_missing. exists e. by rewrite Hstat. }
  intros Hg1 Hg2. destruct (Hone _ _ _ Hg1) as (d&Hd&Hk&_). destruct (Hone _ _ _ Hg2) as (d'&Hd'&Hk'&Hsame).
  rewrite (Hsame ltac:(by eexists)), Hd in Hd'. injection Hd' as <-. split; [congruence|].
  exists d. by rewrite (Hsame ltac:(by eexists)).
Qed.

(** Reading an identity store leaves every other file. *)
Lemma read_other `{!FileFrame W} p q c :
  p <> q -> preserves (fun x => fs_path (d_store x) = p /\ fs_content (d_world x) q = c) read.
Proof.
  intros Hpq. unfold read.
  apply preserves_check_e; [apply preserves_wrap_e|apply preserves_try_e; [apply preserves_wrap|intros d]].
  - intros x [Hp Hc]. unfold sys. pose proof (os_OpenFile_other (fs_path (d_store x)) q (d_world x)) as Ho.
    destruct (os_OpenFile _ _) as [a w]. simpl in *. split; [done|]. rewrite <- Hc. apply Ho. congruence.
  - intros x [Hp Hc]. unfold sys. pose proof (io_ReadAll_other (fs_path (d_store x)) q (d_world x)) as Ho.
    destruct (io_ReadAll _ _) as [a w]. simpl in *. split; [done|]. by rewrite <- Hc.
  - apply preserves_bind; [apply preserves_gets|intros l].
    apply preserves_try_e; [apply preserves_ret|intros l'].
    apply preserves_bind; [by apply preserves_modify|intros _].
    unfold buildIdx, index_id.
    apply preserves_bind; [by apply preserves_modify|intros _].
    apply preserves_bind; [apply preserves_gets|intros ids]. apply preserves_for_e. intros fid.
    apply preserves_try_e; [apply preserves_ret|intros i].
    apply preserves_try_e.
    { apply preserves_wrap. destruct i; simpl; [|apply preserves_ret].
      apply preserves_bind; [|intros; apply preserves_ret]. unfold ed25519_Public. case_match; [apply preserves_panic|apply preserves_ret]. }
    intros pid. apply preserves_bind; [apply preserves_gets|intros idx].
    apply preserves_bind; [apply preserves_some|intros idx'].
    apply preserves_bind; [by apply preserves_modify|intros _]. apply preserves_ret.
Qed.

Lemma open_idStore_other `{!FileFrame W} p q c :
  p <> q -> preserves (fun s : Sys => fs_content (w_of s) q = c) (open_idStore p).
Proof.
  intros Hpq s Hs. unfold open_idStore, NewFileStore.
  pose proof (read_other p q c Hpq {| d_store := {| fs_path := p; fs_ids := []; fs_idx := None |};
    d_world := pr_env (sy_proc s) |} (conj eq_refl Hs)) as Hr.
  by destruct (read _) as [[[]|] x]; simpl in *; destruct Hr.
Qed.

(** A body that never gives a value, from states of [I], which it keeps. *)
Definition no_ok {A} (I : Sys -> Prop) (m : GoM Sys (result A)) : Prop :=
  forall s, I s -> exists r s', m s = (r, s') /\ I s' /\ (forall a, r <> Ret (Ok a)).

Lemma no_ok_try {A B} (I : Sys -> Prop) (m : GoM Sys (result A)) (k : A -> GoM Sys (result B)) :
  no_ok I m -> no_ok I (gtry m k).
Proof.
  intros Hm s Hs. destruct (Hm s Hs) as (r&s'&Hr&Hi&Hno). unfold gtry, mbind, GoM_bind. rewrite Hr.
  destruct r as [[a|e]|]; [by destruct (Hno a)|..]; by do 2 eexists.
Qed.

Lemma no_ok_after {A B} (I : Sys -> Prop) (P : A -> Prop) (m : GoM Sys (result A)) (k : A -> GoM Sys (result B)) :
  preserves I m -> (forall s s' a, m s = (Ret (Ok a), s') -> P a) -> (forall a, P a -> no_ok I (k a)) ->
  no_ok I (gtry m k).
Proof.
  intros Hm HP Hk s Hs. specialize (Hm s Hs). specialize (HP s). unfold gtry, mbind, GoM_bind.
  destruct (m s) as [[[a|e]|] s']; [by apply Hk; [by eapply HP|]|..]; by do 2 eexists.
Qed.

Lemma no_ok_wrap {A} (I : Sys -> Prop) msg (m : GoM Sys (result A)) : no_ok I m -> no_ok I (gwrap msg m).
Proof.
  intros Hm s Hs. destruct (Hm s Hs) as (r&s'&Hr&Hi&Hno). unfold gwrap, mbind, GoM_bind. rewrite Hr.
  destruct r as [[a|e]|]; [by destruct (Hno a)|..]; by do 2 eexists.
Qed.

(** The default options fail on a node whose identity file is missing. *)
Lemma default_options_miss `{!OsLaws W} (n : Node) :
  no_ok (fun s => fs_content (w_of s) (IdentityFile (cfg_p2p (n_cfg n))) = None) (WithDefaultOptions n).
Proof.
  apply no_ok_try, no_ok_wrap, no_ok_try, no_ok_wrap. intros s Hs.
  destruct (world_run (os_ReadFile (IdentityFile (cfg_p2p (n_cfg n)))) s) as (s'&Hr&Hw).
  destruct (os_ReadFile_missing _ _ Hs) as (e&He&_). rewrite He in Hr, Hw. rewrite Hr.
  do 2 eexists. split; [done|]. by rewrite Hw.
Qed.

(** With the default options a node reads the identity file of its host before the
    code that makes the file runs: there is no node, and still no file. *)
Lemma first_run_fails `{!OsLaws W} `{!FileFrame W} cfg opts (s s1 : Sys) :
  on_cfg (GetConfig currentHome) s = (Ret (Ok cfg), s1) ->
  fs_content (w_of s) (IdentityFile (cfg_p2p cfg)) = None ->
  cfg_IdentityStore cfg <> IdentityFile (cfg_p2p cfg) ->
  exists r s', NewNode (WithDefaultOptions :: opts) s = (r, s') /\
    fs_content (w_of s') (IdentityFile (cfg_p2p cfg)) = None /\ (forall n, r <> Ret (Ok n)).
Proof.
  intros Hcfg Hmiss Hne. unfold NewNode, Node.NewNode, gtry at 1. unfold mbind at 1, GoM_bind at 1. rewrite Hcfg.
  assert (fs_content (w_of s1) (IdentityFile (cfg_p2p cfg)) = None) as Hm1.
  { revert Hcfg. unfold on_cfg, gzoom. destruct (GetConfig _ _). by intros [= _ <-]. }
  eapply no_ok_after with (P := fun n => n_cfg n = cfg); [..|exact Hm1].
  - case_bool_decide; [apply preserves_ret|].
    apply preserves_try; [by apply preserves_wrap, open_idStore_other|intros; apply preserves_ret].
  - intros s0 s0' n. case_bool_decide; [by intros [= <- _]|].
    intros (f&?&_&Hr)%try_inv. by injection Hr as <- _.
  - intros n <-. apply no_ok_try, no_ok_try, default_options_miss.
Qed.

(** ** What a node is made of *)

(** The options package node offers. *)
Inductive known_option : NodeOption (X := X) (H := H) (VS := VS) (N := N) (W := W) (V := V) -> Prop :=
| known_storage x : known_option (WithStorage x)
| known_default : known_option WithDefaultOptions
| known_ids store : known_option (WithIdentityStore store).

(** An option sets the storage or the identities, nothing else. *)
Lemma known_option_keeps opt (n n' : Node) (s s' : Sys) :
  known_option opt -> opt n s = (Ret (Ok n'), s') ->
  n_cfg n' = n_cfg n /\ n_identityResolver n' = n_identityResolver n /\ n_handlers n' = n_handlers n /\
  (is_Some (n_storage n) -> is_Some (n_storage n')).
Proof.
  intros []; [by intros [= <- _]|..|by intros [= <- _]].
  intros (ident&s1&_&Hr)%try_inv. apply try_inv in Hr as (ipfs&s2&_&Hr). by injection Hr as <- _.
Qed.

Lemma apply_options_keeps opts (n n' : Node) (s s' : Sys) :
  Forall known_option opts -> Node.apply_options opts n s = (Ret (Ok n'), s') ->
  n_cfg n' = n_cfg n /\ n_identityResolver n' = n_identityResolver n /\ n_handlers n' = n_handlers n.
Proof.
  intros Ho. revert n s. induction Ho as [|opt opts Hopt _ IH]; intros n s; simpl; [by intros [= <- _]|].
  intros (n1&s1&Hopt1&Hrest)%try_inv. apply known_option_keeps in Hopt1 as (?&?&?&_); [|done].
  destruct (IH _ _ Hrest) as (?&?&?). split_and!; congruence.
Qed.

Notation newDid := (newDidStreamHandler (V := V) get_world put_world engine0 net0 handle_of validator_of).
Notation new_did := (Node.new_did get_world put_world engine0 net0 handle_of validator_of).

Definition joined (n : Node) : Prop := gen_ChainID (cc_Genesis (cfg_chain (n_cfg n))) <> ""%string.

(** The DID handler exists when a chain is configured, and then there is a store. *)
Lemma new_did_some (n : Node) (s s' : Sys) inst :
  newDid n s = (Ret inst, s') ->
  (inst = None /\ ~ joined n) \/
  exists h, inst = Some (InstDid h) /\ joined n /\ is_Some (n_storage n).
Proof.
  unfold newDidStreamHandler, joined, mbind, GoM_bind, Node.new_did, NewHandler.
  destruct (n_storage n), (bool_decide_reflect (gen_ChainID (cc_Genesis (cfg_chain (n_cfg n))) = ""%string)).
  - intros [= <- _]. left. by split; [|intros []].
  - repeat (case_match; try done). intros [= <- _]. right. by eexists.
  - intros [= <- _]. left. by split; [|intros []].
  - by repeat (case_match; try done).
Qed.

Definition with_inst (id : string) (inst : option (HandlerInst (H := H) (VS := VS) (N := N))) (n : Node) : Node :=
  match inst with None => n | Some i => n_set_handlers (<[id := i]> (n_handlers n)) n end.

Lemma attach_inv id handler l (n n' : Node) (s s' : Sys) :
  attach ((id, handler) :: l) n s = (Ret n', s') ->
  exists inst s1 s2, handler n s = (Ret inst, s1) /\ attach l (with_inst id inst n) s2 = (Ret n', s').
Proof.
  simpl. intros (inst&s1&Hi&Hr)%bind_inv. destruct inst as [i|]; [|by do 3 eexists].
  apply bind_inv in Hr as (?&s2&_&Hr). by do 3 eexists.
Qed.

(** Whichever handler is attached first, both are there. *)
Lemma setupStreamHandlers_inst (n n' : Node) (s s' : Sys) :
  setupStreamHandlers get_world put_world engine0 net0 handle_of validator_of n s = (Ret (Ok n'), s') ->
  exists inst : option (HandlerInst (H := H) (VS := VS) (N := N)),
    ((inst = None /\ ~ joined n) \/ exists h, inst = Some (InstDid h) /\ joined n /\ is_Some (n_storage n)) /\
    (n' = with_inst ProtocolID (Some InstComm) (with_inst DidProtocolID inst n) \/
     n' = with_inst DidProtocolID inst (with_inst ProtocolID (Some InstComm) n)).
Proof.
  intros (p&s1&_&Hr)%bind_inv. apply bind_inv in Hr as (n1&s2&Ha&Hr). injection Hr as <- _.
  assert (forall (m : Node) (s0 s0' : Sys) o, newCommStreamHandler m s0 = (Ret o, s0') -> o = Some InstComm) as Hc
    by (by intros ???? [= <- _]).
  pose proof (range_order_perm (streamHandlers (V := V) get_world put_world engine0 net0 handle_of validator_of)
    : _ ≡ₚ [(DidProtocolID, newDid); (ProtocolID, newCommStreamHandler (V := V))]) as Hp.
  symmetry in Hp. destruct (Permutation_length_2_inv Hp) as [Ho|Ho]; rewrite Ho in Ha;
    apply attach_inv in Ha as (i1&s3&s4&Hi1&Ha); apply attach_inv in Ha as (i2&s5&s6&Hi2&Ha); injection Ha as <- _.
  - apply Hc in Hi2 as ->. exists i1. split; [by apply new_did_some in Hi1|by left].
  - apply Hc in Hi1 as ->. exists i2. split; [|by right]. by apply new_did_some in Hi2.
Qed.

(** A node that was made is a node the options left, with a host, a source of
    randomness and handlers. *)
Lemma NewNode_made opts (s s' : Sys) (n : Node) :
  Forall known_option opts -> NewNode opts s = (Ret (Ok n), s') ->
  exists n2 h drs (s6 s7 : Sys),
    n_identityResolver n2 = None /\ n_handlers n2 = ∅ /\
    setupStreamHandlers get_world put_world engine0 net0 handle_of validator_of
      (n_set_drand drs (n_set_p2p h n2)) s6 = (Ret (Ok n), s7).
Proof.
  intros Ho (cfg&s1&_&Hr)%try_inv. apply try_inv in Hr as (n1&s2&Hids&Hr).
  assert (n_identityResolver n1 = None /\ n_handlers n1 = ∅) as [Hres Hnone].
  { revert Hids. case_bool_decide; [by intros [= <- _]|]. intros (f&?&_&Hx)%try_inv. by injection Hx as <- _. }
  apply try_inv in Hr as (n2&s3&Hopts&Hr). apply apply_options_keeps in Hopts as (_&Hres2&Hh2); [|done].
  apply try_inv in Hr as (h&s4&_&Hr). apply bind_inv in Hr as (?&s5&_&Hr).
  apply try_inv in Hr as (drs&s6&_&Hr). apply try_inv in Hr as (n3&s7&Hset%wrap_inv&Hr).
  apply check_inv in Hr as (s8&_&Hr). injection Hr as <- _.
  exists n2, h, drs, s6, s7. split_and!; congruence.
Qed.

(** The resolver is never set. *)
Lemma NewNode_resolver opts (s s' : Sys) (n : Node) :
  Forall known_option opts -> NewNode opts s = (Ret (Ok n), s') -> n_identityResolver n = None.
Proof.
  intros Ho (n2&h&drs&s6&s7&Hres&_&Hset)%NewNode_made; [|done].
  apply setupStreamHandlers_inst in Hset as (inst&_&[->| ->]); by destruct inst.
Qed.

(** C27. What [NewNode] returns, with the options the package offers: a host, a
    randomness source, the mail handler, and the DID handler exactly when a chain
    is configured, in which case there is a store.  The resolver of identities is
    never set: [Resolver()] of every node is [nil]. *)
Theorem NewNode_shape opts (s s' : Sys) (n : Node) :
  Forall known_option opts -> NewNode opts s = (Ret (Ok n), s') ->
  is_Some (n_p2p n) /\ is_Some (n_drand n) /\ HasComm n = true /\
  (is_Some (Did n) <-> joined n) /\ (is_Some (Did n) -> is_Some (n_storage n)) /\
  n_identityResolver n = None.
Proof.
  intros Ho Hn. pose proof (NewNode_resolver _ _ _ _ Ho Hn) as Hres.
  apply NewNode_made in Hn as (n2&h&drs&s6&s7&_&Hnone&Hset); [|done].
  apply setupStreamHandlers_inst in Hset as (inst&Hinst&Hn3).
  assert (n_handlers n = match inst with Some i => {[ProtocolID := InstComm; DidProtocolID := i]}
                          | None => {[ProtocolID := InstComm]} end) as Hh3.
  { destruct Hn3 as [->| ->]; simpl; destruct inst; simpl; rewrite Hnone; done. }
  assert (is_Some (n_p2p n) /\ is_Some (n_drand n) /\ n_cfg n = n_cfg n2 /\ n_storage n = n_storage n2) as (?&?&Hc3&Hs3).
  { destruct Hn3 as [->| ->]; destruct inst; simpl; split_and!; eauto. }
  unfold HasComm, Did, joined in *. simpl in Hinst. rewrite Hh3, Hc3, Hs3.
  destruct Hinst as [[-> Hj]|(h'&->&Hj&Hst)]; simplify_map_eq; split_and!; try done; eauto.
Qed.

(** ** Advertising and looking up *)

(** Without an identity store the advertising goroutine panics, which nothing
    recovers. *)
Lemma doAdvertise_nil_store given (n : Node) (s : Sys) :
  n_idStore n = None -> doAdvertise given n s = (Panic, s).
Proof. intros Hn. unfold doAdvertise, advertisableIdentities. by rewrite Hn. Qed.

Section Lookup.
Context `{!CommLib W} `{!Peers W HS} `{!MultihashLaws W}.

(** C37. A sender does not look for what a node announces: a node announces an
    identity in the DHT under the content identifier made of the hash of its public
    key, and a sender looks for the one made of the hash of the text of that
    identifier, which is other data than the key.  So the two agree exactly when
    SHA3-384 collides on the key and that text. *)
Theorem mail_lookup_misses sk pid (s : Sys) r (x : CliH (W := W)) :
  PublicIdentity_ 0 (Ed25519Identity sk) s = (Ret (Ok pid), s) ->
  ch_recipient (cx_ch x) = Some r -> pi_ID r = pi_ID pid ->
  exists pk announced sought,
    ed25519_Public sk s = (Ret pk, s) /\ multihash_Sum pk SHA3_384 = Ok announced /\
    multihash_Sum (bytes_of_string (pi_ID pid)) SHA3_384 = Ok sought /\
    pk <> bytes_of_string (pi_ID pid) /\
    provideIdentity (Ed25519Identity sk) s = world (dht_Provide (cid_NewCidV1 cid_Raw announced)) s /\
    ch_findProviders x =
      gwrap "finding recipient provider" (clh_w (p2p_FindProvider (cid_NewCidV1 cid_Raw sought))) x /\
    (cid_NewCidV1 cid_Raw announced = cid_NewCidV1 cid_Raw sought <->
       multihash_Sum pk SHA3_384 = multihash_Sum (bytes_of_string (pi_ID pid)) SHA3_384).
Proof.
  intros Hp Hx Hr.
  assert (exists pk mh, ed25519_Public sk s = (Ret pk, s) /\ length pk = 32 /\ multihash_Sum pk SHA3_384 = Ok mh /\ pi_ID pid = mh_B58String mh)
    as (pk&mh&Hpk&Hlen&Hmh&Hid).
  { revert Hp. simpl. intros (pk&s1&Hpk&Hq)%bind_inv. exists pk. destruct (multihash_Sum_384 pk) as (mh&Hmh&_).
    exists mh. rewrite Hmh in Hq. injection Hq as <- ->. split_and!; try done. revert Hpk.
    unfold ed25519_Public. case_match; [done|]. intros [= <-].
    rewrite length_app, length_replicate, length_take. lia. }
  destruct (multihash_Sum_384 (bytes_of_string (mh_B58String mh))) as (mh2&Hmh2&_).
  exists pk, mh, mh2. rewrite Hid. split_and!; [done..| | | |].
  - intros ->. destruct (multihash_Sum_384 (bytes_of_string (mh_B58String mh))) as (m&Hm&H50).
    pose proof (mh_B58_len mh). rewrite Hm in Hmh. injection Hmh as ->. lia.
  - unfold provideIdentity, gtry_e. unfold mbind at 1, GoM_bind at 1.
    rewrite Hp, Hid, (mh_FromB58_B58 _ _ Hmh). done.
  - unfold ch_findProviders, clh, ggets, gtry, mbind, GoM_bind. rewrite Hx. simpl.
    by rewrite Hr, Hid, multihash_Encode_384, Hmh2.
  - rewrite Hmh, Hmh2. split; [by intros ->%cid_NewCidV1_inj|by intros [= ->]].
Qed.
End Lookup.
End NodeProps.
End NodeProps.
