(* ===== verification/NodeDemo.v ===== *)
(** * A node in a concrete environment

    Files are a map, the libraries of the host always succeed, and viper is a map
    of settings.  The theorems of [NodeProps] are applied to runs of it. *)

From S2P Require Import Prelude Externals Text Cryptography W3cDid Tx Chain Toy Identity IdentityDemo Os Comm CommClient.
From S2P Require Import Ipfs IpfsDemo IpfsOpen Config Validator ConsensusState ConsensusDemo DidHandler GenGen GenDemo.
From S2P Require Import Node NodeProps.

Module NodeDemo.
Import Text Cryptography Toy Identity IdentityDemo Comm CommClient Ipfs IpfsDemo IpfsOpen Config Validator ConsensusState.
Import ConsensusDemo DidHandler GenGen GenDemo Node NodeProps.
#[local] Existing Instance range_asc.
#[local] Existing Instance ToyPebble.
#[local] Existing Instance ToyIpfs.

#[export] Instance EnvFiles : FileSystem Env := {|
  os_OpenFile p e := (None, {| te_files := <[p := default [] (te_files e !! p)]> (te_files e); te_n := te_n e |});
  io_ReadAll p e := (match te_files e !! p with Some d => Ok d | None => Err (errorsNew "read") end, e);
  file_Truncate0 p e := (None, {| te_files := <[p := []]> (te_files e); te_n := te_n e |});
  file_Write p d e := (None, {| te_files := <[p := d]> (te_files e); te_n := te_n e |});
  fs_content e p := te_files e !! p
|}.

#[export] Instance EnvOsLaws : OsLaws Env.
Proof.
  split; simpl; [done|..].
  - intros p w. destruct (te_files w !! p); [by split; [|intros (?&?&?)]|]. split; [by eexists|done].
  - done.
  - intros p w ->. by eexists.
  - intros p w d. by destruct (te_files w !! p); intros [= <-].
  - intros p d m w w' [= <-]. simpl. by rewrite lookup_insert_eq.
Qed.

#[export] Instance EnvFrame : FileFrame Env.
Proof. split; simpl; [|done]. intros p q w Hpq. by rewrite lookup_insert_ne. Qed.

#[export] Instance EnvHostKeys : HostKeys Env := {|
  HostKey := nat;
  crypto_GenerateKeyPair e := (Ok (te_n e), tick e);
  crypto_MarshalPrivateKey k := Ok (repeat x61 k);
  crypto_UnmarshalPrivateKey b := Ok (length b);
  peer_IDOf k := Ok ("peer"%string : PeerID);
  multihash_FromB58 s := Ok (bytes_of_string s)
|}.

#[export] Instance EnvLibp2p : Libp2p Env := {|
  ConnMgr := unit; Host := nat; Drand := unit;
  connmgr_NewConnManager _ _ e := (Ok tt, e);
  pstoremem_NewPeerstore e := (None, e);
  libp2p_New o e := (Ok (ho_key _ _ _ o), e);
  dht_New _ e := (None, e);
  dht_Bootstrap e := (None, e);
  dht_RefreshRoutingTable e := e;
  dht_Provide _ e := (None, e);
  pubsub_NewGossipSub _ _ e := (None, e);
  pubsub_DefaultMaxMessageSize := 1048576;
  host_SetStreamHandler _ e := e;
  host_Connect _ e := (None, e);
  connmgr_TagPeer _ _ e := e;
  dnsaddr_Resolve _ e := (Ok [], e);
  drand_ChainInfo := None;
  drand_New _ e := (Ok tt, e)
|}.

(** Settings as viper keeps them: what is not set reads as the zero value. *)
#[export] Instance MapViper : Viper (gmap string CfgValue) := {|
  viper_SetDefault k v m := <[k := v]> m;
  viper_SetConfigType _ m := m; viper_SetConfigName _ m := m; viper_AddConfigPath _ m := m;
  viper_SetEnvPrefix _ m := m; viper_AutomaticEnv m := m;
  viper_ReadInConfig m := (Some ConfigFileNotFoundError, m);
  viper_GetString m k := match m !! k with Some (VString s) => s | _ => ""%string end;
  viper_GetInt m k := match m !! k with Some (VInt z) => z | _ => 0%Z end;
  viper_GetBool m k := match m !! k with Some (VBool b) => b | _ => false end;
  viper_GetStringSlice m k := match m !! k with Some (VStrings l) => l | _ => [] end
|}.

(** ** A process with the default settings *)

Definition home : option string := Some "/home/u"%string.

Definition sys_of (files : gmap string bytes) : Sys (W := Env) (V := gmap string CfgValue) := {|
  sy_proc := {| pr_setup := false; pr_env := {| te_files := files; te_n := 3 |}; pr_spawned := [] |};
  sy_cfg := (config_init {| cs_viper := ∅; cs_debug := false |}).2;
  sy_tasks := []
|}.

Definition fresh_sys := sys_of ∅.
Definition id_file : string := "/home/u/.didem/p2p_identity".

Definition cfg0 : Config_ :=
  match (on_cfg (GetConfig home) fresh_sys).1 with
  | Ret (Ok c) => c
  | _ => {| cfg_p2p := {| PeersCountHigh := 0; PeersCountLow := 0; BootstrapPeers := []; ListenAddrs := [];
            Relay := false; IdentityFile := ""; IpfsRepo := ""; AdvertiseAddrs := [] |};
            cfg_chain := {| cc_Genesis := empty_Genesis; cc_Key := "" |}; cfg_IdentityStore := ""; cfg_RawRandomSource := false |}
  end.

Lemma cfg_read : forall fs, on_cfg (GetConfig home) (sys_of fs) = (Ret (Ok cfg0), sys_of fs).
Proof. intros fs. reflexivity. Qed.

(** ** The theorems on it *)

Definition booted := (getIdentity cfg0 fresh_sys).2.

Lemma getIdentity_stable_witness :
  3 = 3 /\ exists d, fs_content (w_of booted) (IdentityFile (cfg_p2p cfg0)) = Some d /\
    fs_content (w_of booted) (IdentityFile (cfg_p2p cfg0)) = Some d /\ crypto_UnmarshalPrivateKey d = Ok 3.
Proof.
  exact (getIdentity_stable cfg0 fresh_sys booted booted 3 3 eq_refl eq_refl).
Defined.

Notation NewNode0 := (Node.NewNode (X := unit) (Ws := Ipfs.World) (H := nat) (VS := Ipfs.World) (N := unit)
  home id (fun w _ => w) engine0 tt (fun _ => 0) (fun _ => MockValidator Ipfs.World)).

Lemma id_file_missing : fs_content (w_of fresh_sys) (IdentityFile (cfg_p2p cfg0)) = None.
Proof. by_vm. Qed.

Lemma stores_apart : cfg_IdentityStore cfg0 <> IdentityFile (cfg_p2p cfg0).
Proof. apply (bool_decide_eq_true_1 _). by_vm. Qed.

(** A file with one identity. *)
Definition ids_file : string := "/home/u/.didem/identities.yaml".
Definition ids_yaml : bytes :=
  match multibase_Encode Base64 IdentityDemo.demo_sk with
  | Ok d => encode [{| fid_Type := "ed25519"; fid_Data := d |}]
  | Err _ => []
  end.

(** A process whose host has its identity and whose chain is the generated one. *)
Definition chain_sys : Sys (W := Env) (V := gmap string CfgValue) := {|
  sy_proc := sy_proc (sys_of {[ id_file := repeat x61 3; ids_file := ids_yaml ]});
  sy_cfg := {| cs_viper := <[Cfg_chain_genesisInfo := VString (out_config out0)]>
                 (<[Cfg_chain_key := VString (pr_SK printed0)]> (cs_viper (sy_cfg fresh_sys)));
               cs_debug := false |};
  sy_tasks := []
|}.

Definition started := NewNode0 [WithDefaultOptions] chain_sys.

Definition node0 : Node :=
  match started.1 with
  | Ret (Ok n) => n
  | _ => {| n_cfg := cfg0; n_p2p := None; n_storage := None; n_identityResolver := None;
            n_idStore := None; n_handlers := ∅; n_drand := None |}
  end.

Lemma starts : match started.1 with Ret (Ok n) => match Did n with Some _ => true | None => false end | _ => false end = true.
Proof. by_vm. Qed.

Lemma started_run : started = (Ret (Ok node0), started.2).
Proof. unfold node0. pose proof starts as He. by destruct started as [[[]|]]. Qed.

Lemma NewNode_shape_witness :
  is_Some (n_p2p node0) /\ is_Some (n_drand node0) /\ HasComm node0 = true /\
  (is_Some (Did node0) <-> joined node0) /\ (is_Some (Did node0) -> is_Some (n_storage node0)) /\
  n_identityResolver node0 = None.
Proof.
  apply (NewNode_shape home id (fun w _ => w) engine0 tt (fun _ => 0) (fun _ => MockValidator Ipfs.World)
    [WithDefaultOptions] chain_sys started.2 node0);
    [constructor; [apply known_default|constructor]|apply started_run].
Defined.

(** ** Hashes of a fixed length *)

(** The libraries of [Toy] with a digest of 48 bytes behind a header of two. *)
Definition sum50 (d : bytes) : bytes := [x15; x30] ++ take 48 (d ++ replicate 48 x00).

Definition FixedLib : Lib.
Proof.
  let t := eval unfold ToyLib in ToyLib in
  match t with
  | context C [fun (d : bytes) (_ : Z) => Ok d] =>
      let u := context C [fun (d : bytes) (_ : Z) => Ok (sum50 d)] in exact u
  end.
Defined.

Section Fixed.
#[local] Existing Instance FixedLib.

Definition FixedHostKeys : HostKeys unit := {|
  HostKey := nat;
  crypto_GenerateKeyPair e := (Ok 1, e);
  crypto_MarshalPrivateKey k := Ok (repeat x61 k);
  crypto_UnmarshalPrivateKey b := Ok (length b);
  peer_IDOf k := Err (errorsNew "no peer");
  multihash_FromB58 s := Ok (bytes_of_string s)
|}.
#[local] Existing Instance FixedHostKeys.

Definition FixedMultiaddrs : Multiaddrs := {|
  Multiaddr := string;
  multiaddr_NewMultiaddr s := Ok s;
  addr_info m := Err (errorsNew "no peer")
|}.
#[local] Existing Instance FixedMultiaddrs.

Definition FixedLibp2p : Libp2p unit := {|
  ConnMgr := unit; Host := nat; Drand := unit;
  connmgr_NewConnManager _ _ e := (Ok tt, e); pstoremem_NewPeerstore e := (None, e);
  libp2p_New o e := (Ok (ho_key _ _ _ o), e); dht_New _ e := (None, e); dht_Bootstrap e := (None, e);
  dht_RefreshRoutingTable e := e; dht_Provide _ e := (None, e); pubsub_NewGossipSub _ _ e := (None, e);
  pubsub_DefaultMaxMessageSize := 1048576; host_SetStreamHandler _ e := e; host_Connect _ e := (None, e);
  connmgr_TagPeer _ _ e := e; dnsaddr_Resolve _ e := (Ok [], e); drand_ChainInfo := None;
  drand_New _ e := (Ok tt, e)
|}.
#[local] Existing Instance FixedLibp2p.

Definition FixedCommLib : CommLib unit := {|
  mail_Marshal m := Ok []; mail_Unmarshal b := Ok CommMsg.empty_Message;
  sha3_Sum512 b := b; sha3_Sum384 b := take 48 (b ++ replicate 48 x00);
  multihash_Encode b _ := Ok ([x15; x30] ++ b);
  ed25519_sign_raw sk msg := msg;
  ecdsa_SignASN1 k h w := (Err (errorsNew "ecdsa"), w); ecdsa_VerifyASN1 k h sig := false;
  rsa_SignPKCS1v15 k h w := (Err (errorsNew "rsa"), w); rsa_VerifyPKCS1v15 k h sig := Some (errorsNew "rsa");
  rand_Read n w := (Ok (replicate n x05), w); time_Now w := (0%Z, w)
|}.
#[local] Existing Instance FixedCommLib.

Definition FixedPeers : Peers unit unit := {|
  AddrInfo := string; ai_ID a := a;
  p2p_FindProvider _ w := (Ok [], w); p2p_Connect _ w := (None, w); p2p_Open p _ w := (Ok tt, w)
|}.
#[local] Existing Instance FixedPeers.

Lemma FixedLaws : MultihashLaws unit.
Proof.
  split.
  - intros d. exists (sum50 d). split; [done|]. unfold sum50.
    rewrite length_app, length_take, length_app, length_replicate. cbn [length]. lia.
  - done.
  - intros m. simpl. by rewrite bytes_of_string_of_bytes.
  - intros d m _. simpl. by rewrite bytes_of_string_of_bytes.
  - by intros codec m1 m2 [= ->].
Qed.
#[local] Existing Instance FixedLaws.

Definition found_id : PublicIdentity := {|
  pi_ID := string_of_bytes (sum50 (replicate 32 x41));
  pi_PublicKeys := [{| pk_Key := KEd25519 (replicate 32 x41) |}] |}.

Definition quiet : Sys (W := unit) (V := unit) := {|
  sy_proc := {| pr_setup := true; pr_env := tt; pr_spawned := [] |};
  sy_cfg := {| cs_viper := tt; cs_debug := false |}; sy_tasks := [] |}.

Definition seeking : CliH (W := unit) := {|
  cx_ch := {| ch_email := None; ch_identity := None; ch_recipient := Some found_id; ch_resolver := None |};
  cx_w := tt |}.

Lemma mail_lookup_misses_witness :
  exists pk announced sought,
    ed25519_Public IdentityDemo.demo_sk quiet = (Ret pk, quiet) /\ multihash_Sum pk SHA3_384 = Ok announced /\
    multihash_Sum (bytes_of_string (pi_ID found_id)) SHA3_384 = Ok sought /\
    pk <> bytes_of_string (pi_ID found_id) /\
    provideIdentity (Ed25519Identity IdentityDemo.demo_sk) quiet =
      world (dht_Provide (cid_NewCidV1 cid_Raw announced)) quiet /\
    ch_findProviders seeking =
      gwrap "finding recipient provider" (clh_w (p2p_FindProvider (cid_NewCidV1 cid_Raw sought))) seeking /\
    (cid_NewCidV1 cid_Raw announced = cid_NewCidV1 cid_Raw sought <->
       multihash_Sum pk SHA3_384 = multihash_Sum (bytes_of_string (pi_ID found_id)) SHA3_384).
Proof. exact (mail_lookup_misses IdentityDemo.demo_sk found_id quiet found_id seeking eq_refl eq_refl eq_refl). Defined.
End Fixed.

(** An address that is kept is not logged; one of unknown fate counts as added. *)
Example watched :
  watchEvents (Ok [EvtLocalAddressesUpdated [("/a", ActAdded); ("/b", ActMaintained); ("/c", ActRemoved)]; EvtOther;
                   EvtLocalAddressesUpdated [("/d", ActUnknown)]]%string)
  = [("/a", "added"); ("/c", "removed"); ("/d", "added")]%string.
Proof. reflexivity. Qed.
End NodeDemo.
