(* ===== verification/Api.v ===== *)
(** * internal/api: the service behind the command line

    comm.go, p2p.go.  [Send] of the mail service starts a goroutine per recipient
    and waits for them; the goroutines share the list of errors, a mutex and a
    wait group.  A goroutine runs in small steps ([go_step]), a call of [Send] is
    a step relation over all of them ([send_step]), and every interleaving is a
    run.  An append is a read and a write of the shared slice, because one of the
    two appends does not take the mutex. *)

From S2P Require Import Prelude Externals Cryptography Stream Identity Comm CommClient.

(** [err.Error()] of package errors *)
Fixpoint Error (e : error) : string :=
  match e with
  | Sentinel msg | errorsNew msg => msg
  | errorsWrap c msg => msg ++ ": " ++ Error c
  end.

Module Api.
Import Identity CommMsg Comm CommClient.

Section Api.
Context {W H I : Type} `{L : Lib} `{IL : IdLib} `{!CommLib W} `{!NetStream W H} `{!Peers W H}.
Context `{!RangeOrder} `{!Select}.

(** The messages of api/em.proto *)
Record EmSendPart := { part_Mime : string; part_Data : bytes }.
Record EmSendRequest := {
  req_From : string;
  req_To : list string;
  req_Headers : gomap string string;
  req_Parts : list EmSendPart
}.
Record EmSendResponse := { resp_Errors : list string }.

(** What the service reads of its node: [ID()], [Resolver()], [Comm()] and
    [P2P().Peers()]; [None] is [nil]. *)
Record ApiNode := {
  an_ID : option (IdentityStore (W := W));
  an_Resolver : option (Resolver (W := W));
  an_Comm : option (CommClient.Handler (W := W) (I := I));
  an_Peers : option (W -> list PeerID * W)
}.

Definition world_act {A} (f : W -> A * W) : GoM W A := act id (fun w _ => w) f.

(** ** The message of a request *)

Definition attachment_of (p : EmSendPart) : MessageAttachment :=
  {| at_Id := ""; at_MediaType := part_Mime p; at_Data := part_Data p |}.

(** [Send] up to its loop: the sender, and the template of the messages *)
Definition template (n : ApiNode) (req : EmSendRequest) : GoM W (result Message) :=
  ids ← gsome (an_ID n);
  gtry (gwrap "finding identity for sender" (world_act (is_Find ids (req_From req)))) (fun fromsk =>
  fromsk ← gsome fromsk;
  gtry (gwrap "building public from sender identity" (PublicIdentity_ 0 fromsk)) (fun from =>
  now ← world_act time_Now;
  mret (Ok {|
    m_Type := ""; m_Id := ""; m_ThreadId := ""; m_CreatedTime := unix_of now; m_ExpiresTime := 0;
    m_From := Some from; m_To := None; m_Nonce := replicate 32 x00; m_Signature := None;
    m_Body := req_Headers req; m_Attachments := attachment_of <$> req_Parts req |}))).

Definition msg_set_To (to : list (option PublicIdentity)) (m : Message) : Message := {|
  m_Type := m_Type m; m_Id := m_Id m; m_ThreadId := m_ThreadId m; m_CreatedTime := m_CreatedTime m;
  m_ExpiresTime := m_ExpiresTime m; m_From := m_From m; m_To := Some to; m_Nonce := m_Nonce m;
  m_Signature := m_Signature m; m_Body := m_Body m; m_Attachments := m_Attachments m |}.

(** [ema.a.n.Comm().Send(ctx, em)]: no options are passed on *)
Definition sendSingle (n : ApiNode) (em : Message) : GoM W (option error) :=
  h ← gsome (an_Comm n);
  hd_Send h (Some em) [].

(** ** The goroutine of a recipient *)

(** Where it is.  The deferred calls run in reverse: the mutex is unlocked, the
    wait group is told, and last a panic is recovered. *)
Inductive Pc :=
| PStart
| PSend (em : Message)  (** resolved *)
| PErr (e : error)  (** about to lock the mutex *)
| PLocked (e : error) (seen : list error)  (** holds the mutex and has read [errs] *)
| PDone (o : option error)  (** about to call [wg.Done()], with what was reported *)
| PPanic  (** the same, in a panic *)
| PRecover  (** in the deferred function that recovers *)
| PRecWrite (seen : list error)  (** that has read [errs] *)
| PEnd (o : option error).

(** What the goroutines share. *)
Record Shared := { sh_w : W; sh_wg : nat; sh_locked : bool; sh_errs : list error }.

Definition sh_set_w (w : W) (s : Shared) : Shared :=
  {| sh_w := w; sh_wg := sh_wg s; sh_locked := sh_locked s; sh_errs := sh_errs s |}.
Definition sh_done (s : Shared) : Shared :=
  {| sh_w := sh_w s; sh_wg := pred (sh_wg s); sh_locked := sh_locked s; sh_errs := sh_errs s |}.

Definition internal_error (to : string) : error := errorsNew ("internal error sending to " ++ to).

(** One step; [None]: it waits for the mutex or has ended. *)
Definition go_step (n : ApiNode) (tmpl : Message) (to : string) (pc : Pc) (s : Shared) : option (Pc * Shared) :=
  match pc with
  | PStart =>
      let em := Copy tmpl in
      match an_Resolver n with
      | None => Some (PPanic, s)
      | Some r =>
          let (id, w) := ResolvePI r to (sh_w s) in
          Some (match id with
                | Err e => PErr (errorsWrap e "resolving recipient")
                | Ok id => PSend (msg_set_To [id] em)
                end, sh_set_w w s)
      end
  | PSend em =>
      let (r, w) := sendSingle n em (sh_w s) in
      Some (match r with
            | Ret None => PDone None
            | Ret (Some e) => PErr (errorsWrap e ("sending to " ++ to))
            | Panic => PPanic
            end, sh_set_w w s)
  | PErr e =>
      if sh_locked s then None
      else Some (PLocked e (sh_errs s),
                 {| sh_w := sh_w s; sh_wg := sh_wg s; sh_locked := true; sh_errs := sh_errs s |})
  | PLocked e seen =>
      Some (PDone (Some e),
            {| sh_w := sh_w s; sh_wg := sh_wg s; sh_locked := false; sh_errs := seen ++ [e] |})
  | PDone o => Some (PEnd o, sh_done s)
  | PPanic => Some (PRecover, sh_done s)
  | PRecover => Some (PRecWrite (sh_errs s), s)
  | PRecWrite seen =>
      Some (PEnd (Some (internal_error to)),
            {| sh_w := sh_w s; sh_wg := sh_wg s; sh_locked := sh_locked s;
               sh_errs := seen ++ [internal_error to] |})
  | PEnd _ => None
  end.

(** ** A call of [Send] *)

(** The recipients the loop has left, the goroutines it started, what they share
    and the response once [wg.Wait()] has returned. *)
Record Sending := {
  sd_todo : list string;
  sd_gos : list (string * Pc);
  sd_sh : Shared;
  sd_resp : option EmSendResponse
}.

Inductive send_step (n : ApiNode) (tmpl : Message) : Sending -> Sending -> Prop :=
| step_spawn to todo gos s :
    send_step n tmpl {| sd_todo := to :: todo; sd_gos := gos; sd_sh := s; sd_resp := None |}
      {| sd_todo := todo; sd_gos := gos ++ [(to, PStart)];
         sd_sh := {| sh_w := sh_w s; sh_wg := S (sh_wg s); sh_locked := sh_locked s; sh_errs := sh_errs s |};
         sd_resp := None |}
| step_go todo l1 to pc pc' l2 s s' resp :
    go_step n tmpl to pc s = Some (pc', s') ->
    send_step n tmpl {| sd_todo := todo; sd_gos := l1 ++ (to, pc) :: l2; sd_sh := s; sd_resp := resp |}
      {| sd_todo := todo; sd_gos := l1 ++ (to, pc') :: l2; sd_sh := s'; sd_resp := resp |}
| step_wait gos s :
    sh_wg s = 0 ->
    send_step n tmpl {| sd_todo := []; sd_gos := gos; sd_sh := s; sd_resp := None |}
      {| sd_todo := []; sd_gos := gos; sd_sh := s;
         sd_resp := Some {| resp_Errors := Error <$> sh_errs s |} |}.

Definition send_init (req : EmSendRequest) (w : W) : Sending := {|
  sd_todo := req_To req; sd_gos := [];
  sd_sh := {| sh_w := w; sh_wg := 0; sh_locked := false; sh_errs := [] |}; sd_resp := None |}.

(** [Send]: an error before the loop, or a response that a run of the loop and its
    goroutines gives. *)
Inductive Send (n : ApiNode) (req : EmSendRequest) (w : W) : result EmSendResponse -> Prop :=
| Send_err e w' :
    template n req w = (Ret (Err e), w') -> Send n req w (Err e)
| Send_resp tmpl w' st r :
    template n req w = (Ret (Ok tmpl), w') ->
    rtc (send_step n tmpl) (send_init req w') st -> sd_resp st = Some r ->
    Send n req w (Ok r).

(** ** p2p.go *)

Definition Peers_ (n : ApiNode) : GoM W (list string) :=
  peers ← gsome (an_Peers n);
  peers ← world_act peers;
  mret (peer_String <$> peers).
End Api.
End Api.
