(* ===== verification/ApiProps.v ===== *)
(** * Theorems on the mail service: every interleaving of [Send] *)

From S2P Require Import Prelude Externals Cryptography Stream Identity Comm CommClient Api.

Module ApiProps.
Import Identity CommMsg Comm CommClient Api.

Section ApiProps.
Context {W H I : Type} `{L : Lib} `{IL : IdLib} `{!CommLib W} `{!NetStream W H} `{!Peers W H}.
Context `{!RangeOrder} `{!Select}.

Notation ApiNode := (ApiNode (W := W) (I := I)).
Notation Shared := (Shared (W := W)).
Notation Sending := (Sending (W := W)).

(** ** What the counters count *)

(** goroutines that still owe a [wg.Done()], and those that hold the mutex *)
Definition owes (pc : Pc) : nat :=
  match pc with PRecover | PRecWrite _ | PEnd _ => 0 | _ => 1 end.
Definition holds (pc : Pc) : nat := match pc with PLocked _ _ => 1 | _ => 0 end.
Definition count (f : Pc -> nat) (gos : list (string * Pc)) : nat := sum_list_with (fun g => f g.2) gos.

Lemma count_app f l1 l2 : count f (l1 ++ l2) = count f l1 + count f l2.
Proof. apply sum_list_with_app. Qed.

Lemma count_cons f to pc l : count f ((to, pc) :: l) = f pc + count f l.
Proof. done. Qed.

Definition counted (st : Sending) : Prop :=
  sh_wg (sd_sh st) = count owes (sd_gos st) /\
  (if sh_locked (sd_sh st) then 1 else 0) = count holds (sd_gos st).

(** A step of a goroutine changes the counters by what it owes and holds. *)
Lemma go_step_counts (n : ApiNode) tmpl to pc (s s' : Shared) pc' :
  go_step n tmpl to pc s = Some (pc', s') -> owes pc <= sh_wg s ->
  (if sh_locked s then 1 else 0) >= holds pc ->
  sh_wg s' + owes pc = sh_wg s + owes pc' /\
  (if sh_locked s' then 1 else 0) + holds pc = (if sh_locked s then 1 else 0) + holds pc'.
Proof.
  intros Hs Ho Hh. destruct pc; simpl in *; repeat (case_match; simplify_eq/=); try (split; lia).
Qed.

Lemma send_step_counted (n : ApiNode) tmpl (st st' : Sending) :
  send_step n tmpl st st' -> counted st -> counted st'.
Proof.
  intros [to todo gos s|todo l1 to pc pc' l2 s s' resp Hg|]; unfold counted; simpl; [|..|done].
  - rewrite !count_app, !count_cons. simpl. intros [-> ->]. unfold count; simpl. lia.
  - rewrite !count_app, !count_cons. intros [Hw Hl].
    pose proof (go_step_counts n tmpl to pc s s' pc' Hg ltac:(lia) ltac:(lia)). lia.
Qed.

Lemma send_counted (n : ApiNode) tmpl req w st :
  rtc (send_step n tmpl) (send_init req w) st -> counted st.
Proof.
  intros Hr. assert (counted (send_init req w)) as Hi by done. revert Hi.
  induction Hr as [|x y z Hs _ IH]; [done|]. intros Hi. by eapply IH, send_step_counted.
Qed.

(** ** It ends *)

Definition weight (pc : Pc) : nat :=
  match pc with
  | PStart => 5 | PSend _ => 4 | PErr _ => 3 | PLocked _ _ => 2 | PDone _ => 1
  | PPanic => 3 | PRecover => 2 | PRecWrite _ => 1 | PEnd _ => 0
  end.
Definition measure (st : Sending) : nat :=
  6 * length (sd_todo st) + count weight (sd_gos st) + match sd_resp st with None => 1 | Some _ => 0 end.

Lemma go_step_weight (n : ApiNode) tmpl to pc (s s' : Shared) pc' :
  go_step n tmpl to pc s = Some (pc', s') -> weight pc' < weight pc.
Proof. destruct pc; simpl; repeat (case_match; simplify_eq/=); intros; simplify_eq/=; try lia. Qed.

Lemma send_step_measure (n : ApiNode) tmpl (st st' : Sending) :
  send_step n tmpl st st' -> measure st' < measure st.
Proof.
  intros [| todo l1 to pc pc' l2 s s' resp Hg|]; unfold measure; simpl.
  - rewrite count_app, count_cons. unfold count; simpl. lia.
  - rewrite !count_app, !count_cons.
    pose proof (go_step_weight n tmpl to pc s s' pc' Hg). lia.
  - lia.
Qed.

(** A goroutine that owes a [Done] can step, unless another holds the mutex. *)
Lemma go_step_enabled (n : ApiNode) tmpl to pc (s : Shared) :
  owes pc = 1 -> (sh_locked s = false \/ holds pc = 1) -> is_Some (go_step n tmpl to pc s).
Proof.
  intros Ho Hl. destruct pc; simpl in *; try done; repeat case_match; try done; by destruct Hl.
Qed.

Lemma count_pos f gos : (forall pc, f pc <= 1) -> 0 < count f gos ->
  exists l1 to pc l2, gos = l1 ++ (to, pc) :: l2 /\ f pc = 1.
Proof.
  intros Hf. induction gos as [|[to pc] gos IH]; simpl; [lia|]. intros Hc.
  destruct (decide (f pc = 1)) as [Hp|Hp]; [by exists [], to, pc, gos|]. specialize (Hf pc).
  assert (0 < count f gos) as Hc2 by (unfold count in *; simpl in Hc; lia).
  destruct (IH Hc2) as (l1&to'&pc'&l2&->&?). by exists ((to, pc) :: l1), to', pc', l2.
Qed.

Lemma holds_owes pc : holds pc = 1 -> owes pc = 1.
Proof. by destruct pc. Qed.

Lemma send_progress (n : ApiNode) tmpl (st : Sending) :
  counted st -> sd_resp st = None -> exists st', send_step n tmpl st st'.
Proof.
  destruct st as [[|to todo] gos s resp]; intros [Hw Hl] Hr; simpl in *; subst; [|eexists; constructor].
  destruct (decide (sh_wg s = 0)) as [Hz|Hz]; [by eexists; constructor|].
  destruct (sh_locked s) eqn:Hlk.
  - destruct (count_pos holds gos) as (l1&to&pc&l2&->&Hp); [by intros []; simpl; lia|lia|].
    destruct (go_step_enabled n tmpl to pc s (holds_owes pc Hp) (or_intror Hp)) as [[pc' s'] Hg].
    eexists. by constructor.
  - destruct (count_pos owes gos) as (l1&to&pc&l2&->&Hp); [by intros []; simpl; lia|lia|].
    destruct (go_step_enabled n tmpl to pc s Hp (or_introl Hlk)) as [[pc' s'] Hg].
    eexists. by constructor.
Qed.

(** C29. A call of [Send] responds, whatever the order its goroutines run in and
    also if they fail or panic: no run is longer than six steps for each
    recipient and one, and a run that has not responded goes on. *)
Theorem send_responds (n : ApiNode) tmpl req w k st :
  nsteps (send_step n tmpl) k (send_init req w) st ->
  k <= 6 * length (req_To req) + 1 /\
  (is_Some (sd_resp st) \/ exists st', send_step n tmpl st st').
Proof.
  intros Hk. split.
  - assert (forall a b, nsteps (send_step n tmpl) k a b -> k + measure b <= measure a) as Hm.
    { clear. induction k as [|k IH]; intros a b Hk; inversion Hk as [|? ? y ? Hs Hr]; subst; [lia|].
      apply IH in Hr. apply send_step_measure in Hs. lia. }
    specialize (Hm _ _ Hk). unfold measure at 2 in Hm. simpl in Hm. lia.
  - destruct (sd_resp st) eqn:Hr; [by left; eexists|right]. apply send_progress; [|done].
    apply (send_counted n tmpl req w). by apply rtc_nsteps; eexists.
Qed.

(** ** What it reports *)

Section Reports.
Context (n : ApiNode) (tmpl : Message) (r : Resolver (W := W)) (h : CommClient.Handler (W := W) (I := I)).
Context (Hresolver : an_Resolver n = Some r) (Hcomm : an_Comm n = Some h).

(** the error a goroutine reports for its recipient *)
Definition send_error (to : string) (e : error) : Prop :=
  (exists e0, e = errorsWrap e0 "resolving recipient") \/
  e = errorsWrap (errorsNew "sender identity missing") ("sending to " ++ to).

Definition reported (g : string * Pc) : list error :=
  match g.2 with PDone (Some e) | PEnd (Some e) => [e] | _ => [] end.

Definition go_wf (errs : list error) (g : string * Pc) : Prop :=
  match g.2 with
  | PStart | PSend _ => True
  | PErr e | PDone (Some e) | PEnd (Some e) => send_error g.1 e
  | PLocked e seen => send_error g.1 e /\ seen = errs
  | _ => False
  end.

Definition reporting (tos : list string) (st : Sending) : Prop :=
  counted st /\ (sd_gos st).*1 ++ sd_todo st = tos /\
  Forall (go_wf (sh_errs (sd_sh st))) (sd_gos st) /\
  sh_errs (sd_sh st) ≡ₚ sd_gos st ≫= reported /\
  match sd_resp st with
  | None => True
  | Some resp => sd_todo st = [] /\ count owes (sd_gos st) = 0 /\ resp_Errors resp = Error <$> sh_errs (sd_sh st)
  end.

(** No options are passed on, so that sending always fails. *)
Lemma sendSingle_fails em w : sendSingle n em w = (Ret (Some (errorsNew "sender identity missing")), w).
Proof. unfold sendSingle. rewrite Hcomm. done. Qed.

(** A step keeps the goroutine well-formed; only the holder of the mutex changes
    the errors, by its own. *)
Lemma go_step_wf to pc pc' (s s' : Shared) :
  go_step n tmpl to pc s = Some (pc', s') -> go_wf (sh_errs s) (to, pc) ->
  go_wf (sh_errs s') (to, pc') /\
  ((holds pc = 0 /\ sh_errs s' = sh_errs s /\ reported (to, pc') = reported (to, pc)) \/
   (exists e, holds pc = 1 /\ sh_errs s' = sh_errs s ++ [e] /\ reported (to, pc) = [] /\ reported (to, pc') = [e])).
Proof.
  destruct pc as [|em|e|e seen|[e|]| | | |]; simpl; intros Hg Hwf; try done.
  - rewrite Hresolver in Hg. destruct (ResolvePI r to (sh_w s)) as [[i|e] w]; injection Hg as <- <-; simpl.
    + split; [done|by left].
    + split; [by left; eexists|by left].
  - rewrite sendSingle_fails in Hg. injection Hg as <- <-. split; [by right|by left].
  - destruct (sh_locked s); [done|]. injection Hg as <- <-. by split; [|left].
  - injection Hg as <- <-. destruct Hwf as [He ->]. split; [done|]. right. by exists e.
  - injection Hg as <- <-. by split; [|left].
Qed.

(** Goroutines that do not hold the mutex know nothing of the errors. *)
Lemma gos_wf_other errs errs' gos : count holds gos = 0 -> Forall (go_wf errs) gos -> Forall (go_wf errs') gos.
Proof.
  intros Hc Hw. induction Hw as [|[to pc] gos Hg _ IH]; [constructor|]. rewrite count_cons in Hc.
  constructor; [|apply IH; lia]. destruct pc; simpl in *; try done; lia.
Qed.

Lemma send_step_reporting tos (st st' : Sending) :
  send_step n tmpl st st' -> reporting tos st -> reporting tos st'.
Proof.
  intros Hs (Hc&Ht&Hwf&He&Hr). pose proof (send_step_counted n tmpl st st' Hs Hc) as Hc'.
  split; [exact Hc'|]. destruct Hs as [to todo gos s|todo l1 to pc pc' l2 s s' resp Hg|gos s Hz]; simpl in *.
  - split_and!; [|..|done].
    + by rewrite fmap_app, <- app_assoc.
    + apply Forall_app_2; [done|]. by constructor.
    + rewrite bind_app. simpl. by rewrite app_nil_r.
  - apply Forall_app in Hwf as [Hw1 [Hw Hw2]%Forall_cons_1].
    destruct (go_step_wf _ _ _ _ _ Hg Hw) as [Hw' Hcase].
    assert (resp = None) as ->.
    { destruct resp; [|done]. destruct Hr as (_&Hz&_). rewrite count_app, count_cons in Hz.
      destruct pc; simpl in *; try lia; done. }
    rewrite fmap_app in *. split; [done|]. destruct Hcase as [(Hh&Hee&Hrep)|(e&Hh&Hee&Hrep&Hrep')].
    + rewrite Hee in *. split_and!; [|..|done].
      * apply Forall_app_2; [done|]. by constructor.
      * rewrite He, !bind_app. simpl. by rewrite Hrep.
    + assert (count holds l1 = 0 /\ count holds l2 = 0) as [Hl1 Hl2].
      { destruct Hc as [_ Hl]. simpl in Hl. rewrite count_app, count_cons in Hl. destruct (sh_locked s); lia. }
      split_and!; [|..|done].
      * apply Forall_app_2; [by eapply gos_wf_other|]. constructor; [done|by eapply gos_wf_other].
      * rewrite Hee, He, !bind_app. simpl. rewrite Hrep, Hrep'. simpl. solve_Permutation.
  - split_and!; try done. destruct Hc as [Hw _]. simpl in Hw. congruence.
Qed.

Lemma send_reporting req w st :
  rtc (send_step n tmpl) (send_init req w) st -> reporting (req_To req) st.
Proof.
  intros Hr. assert (reporting (req_To req) (send_init req w)) as Hi by done. revert Hi.
  induction Hr as [|x y z Hs _ IH]; [done|]. intros Hi. by eapply IH, send_step_reporting.
Qed.

(** Goroutines that all ended reported one error each. *)
Lemma ended_reports errs gos :
  count owes gos = 0 -> Forall (go_wf errs) gos -> Forall2 send_error gos.*1 (gos ≫= reported).
Proof.
  intros Hc Hw. induction Hw as [|[to pc] gos Hg _ IH]; [constructor|]. rewrite count_cons in Hc.
  destruct pc as [| | | | | | | |[e|]]; simpl in *; try lia; try done. constructor; [done|]. apply IH. lia.
Qed.
End Reports.

(** C30. What [Send] answers when its node has a resolver: for every interleaving
    exactly one error for each recipient, none lost, either that the recipient was
    not resolved or that the sender's identity is missing.  No message is ever
    sent: the service does not hand the identity it looked up to the mail handler,
    which refuses. *)
Theorem send_reports_each (n : ApiNode) r h req w resp :
  an_Resolver n = Some r -> an_Comm n = Some h -> Send n req w (Ok resp) ->
  exists es, Forall2 send_error (req_To req) es /\ resp_Errors resp ≡ₚ Error <$> es.
Proof.
  intros Hr Hh Hs. inversion Hs as [|tmpl w' st r' _ Hrun Hresp]; subst.
  destruct (send_reporting n tmpl r h Hr Hh req w' st Hrun) as (_&Ht&Hwf&He&Hd).
  rewrite Hresp in Hd. destruct Hd as (Htodo&Hz&Herr).
  exists (sd_gos st ≫= reported). split; [|by rewrite Herr, He].
  rewrite <- Ht, Htodo, app_nil_r. by eapply ended_reports.
Qed.

(** ** Without a resolver *)

Section Nil.
Context (n : ApiNode) (tmpl : Message) (Hnil : an_Resolver n = None).

(** Every goroutine panics, tells the wait group, and is slow to recover. *)
Lemma panicked_run todo gos (s : Shared) :
  sh_wg s = 0 ->
  exists s', sh_wg s' = 0 /\ sh_errs s' = sh_errs s /\
    rtc (send_step n tmpl) {| sd_todo := todo; sd_gos := gos; sd_sh := s; sd_resp := None |}
      {| sd_todo := []; sd_gos := gos ++ ((fun to => (to, PRecover)) <$> todo); sd_sh := s'; sd_resp := None |}.
Proof.
  revert gos s. induction todo as [|to todo IH]; intros gos s Hz; [exists s; rewrite app_nil_r; by split_and!|].
  destruct (IH (gos ++ [(to, PRecover)]) s Hz) as (s'&Hz'&He&Hrun). exists s'. split_and!; [done..|].
  rewrite <- app_assoc in Hrun. simpl in Hrun |- *.
  eapply rtc_l; [apply step_spawn|].
  eapply rtc_l; [apply step_go; simpl; by rewrite Hnil|].
  eapply rtc_l; [by apply step_go|]. unfold sh_done. simpl. by destruct s.
Qed.
End Nil.

(** What [Send] can answer when its node has no resolver: no error at all.
    Each goroutine panics on the [nil] resolver, and its deferred calls tell the
    wait group before they record the failure, so that the response can be
    assembled before; nothing was sent. *)
Lemma send_loses_panics (n : ApiNode) req w w' tmpl :
  an_Resolver n = None -> template n req w = (Ret (Ok tmpl), w') ->
  Send n req w (Ok {| resp_Errors := [] |}).
Proof.
  intros Hnil Ht. destruct (panicked_run n tmpl Hnil (req_To req) [] (sd_sh (send_init req w')) eq_refl)
    as (s'&Hz&He&Hrun).
  eapply Send_resp with (st := {| sd_todo := []; sd_sh := s'; sd_resp := Some _ |}); [exact Ht| |].
  - eapply rtc_r; [exact Hrun|]. by apply step_wait.
  - simpl. by rewrite He.
Qed.
End ApiProps.
End ApiProps.
