(* ===== verification/ServedNode.v ===== *)
(** * The mail service on the nodes that [NewNode] makes, and on concrete ones *)

From S2P Require Import Prelude Externals Text Cryptography Stream W3cDid Tx Chain Identity Comm CommClient.
From S2P Require Import Os Ipfs IpfsOpen Config Validator MemPool ConsensusState Consensus DidHandler Node NodeProps.
From S2P Require Import Api ApiProps.

Module ServedNode.
Import Text Cryptography Tx Chain Identity CommMsg Comm CommClient Ipfs IpfsOpen Config Validator ConsensusState DidHandler.
Import Node NodeProps Api ApiProps.

Section ServedNode.
Context {X Ws H VS N W V I HS : Type}.
Context `{L : Lib} `{IL : IdLib} `{!TxCodec} `{!GenesisCodec} `{!RangeOrder} `{!Pebble} `{!Ipfs} `{!Multiaddrs}.
Context `{!FileSystem W} `{!OsFiles W} `{!Kubo W} `{!Viper V} `{!HostKeys W} `{!Libp2p W}.
Context `{!CommLib W} `{!NetStream W HS} `{!Peers W HS} `{!Select} `{!Store Ws H}.
Context (currentHome : option string).
Context (get_world : VS -> Ws) (put_world : Ws -> VS -> VS) (engine0 : Consensus H VS) (net0 : N).
Context (handle_of : StoreVal (X := X) -> H) (validator_of : H -> Validator VS).

(** [p.host.Network().Peers()] *)
Context (network_Peers : Host -> W -> list PeerID * W).

(** [&Api{n: n}]: what the service reads of a node *)
Definition api_of (n : Node.Node (X := X) (H := H) (VS := VS) (N := N) (W := W)) : ApiNode (W := W) (I := I) := {|
  an_ID := as_IdentityStore <$> n_idStore n;
  an_Resolver := n_identityResolver n;
  an_Comm := Node.Comm n;
  an_Peers := (fun p => network_Peers (ph_host p)) <$> n_p2p n
|}.

(** The mail service on any node that [NewNode] makes with the options of its
    package: for every request whose sender is found, [Send] has a run that
    answers without any error, although no message was sent to anyone.  The node
    has no resolver, every goroutine panics, and the wait group is told before the
    panic is recorded. *)
Lemma made_node_silent opts (s s' : Sys (W := W) (V := V)) n req w w' tmpl :
  Forall known_option opts ->
  Node.NewNode currentHome get_world put_world engine0 net0 handle_of validator_of opts s = (Ret (Ok n), s') ->
  template (api_of n) req w = (Ret (Ok tmpl), w') ->
  Send (api_of n) req w (Ok {| resp_Errors := [] |}).
Proof.
  intros Ho Hn. apply send_loses_panics. simpl.
  exact (NewNode_resolver currentHome get_world put_world engine0 net0 handle_of validator_of _ _ _ _ Ho Hn).
Qed.

(** ** api.go and the daemon *)

Context (grpc_RegisterService : string -> W -> W) (grpc_GracefulStop : W -> W).

Notation M := (GoM (Sys (W := W) (V := V))).
Notation Node := (Node.Node (X := X) (H := H) (VS := VS) (N := N) (W := W)).

(** the services, in the order of the [init] functions; [Setup] of [BaseHandler]
    keeps the [Api] and never fails *)
Definition reg : list string := ["em.EmService"; "p2p.P2PService"]%string.
Definition Setup : option error := None.

Fixpoint register (services : list string) : M (option error) :=
  match services with
  | [] => mret None
  | s :: services =>
      world_ (grpc_RegisterService s);;
      gcheck_e (mret (Wrap Setup "registering service")) (register services)
  end.

Definition NewAPI (n : Node) : M (result (ApiNode (W := W) (I := I))) :=
  gcheck (register reg) (mret (Ok (api_of n))).

(** What ends the daemon: an error of a server, or a signal. *)
Inductive Wakeup := WokeErr (e : error) | WokeSignal.

Definition runDaemon (stop : StoreVal (X := X) -> M (option error)) (woke : Wakeup) : M (option error) :=
  gtry_e (gwrap "initing node" (Node.NewNode currentHome get_world put_world engine0 net0 handle_of validator_of
    [WithDefaultOptions])) (fun n =>
  gtry_e (NewAPI n) (fun _ =>
  gdefer (match woke with
          | WokeErr e => mret (Some e)
          | WokeSignal => Stop_ stop n
          end) (world_ grpc_GracefulStop))).

(** C36. The daemon does not come up on a machine it has not run on: with the
    default options it reads the identity file of its host before the code that
    makes that file runs.  When the file is missing the command ends in an error,
    and the file is still missing, so that the next start meets
    the same state. *)
Theorem daemon_first_run `{!OsLaws W} `{!FileFrame W} stop woke cfg (s s1 : Sys (W := W) (V := V)) :
  on_cfg (GetConfig currentHome) s = (Ret (Ok cfg), s1) ->
  fs_content (w_of s) (IdentityFile (cfg_p2p cfg)) = None ->
  cfg_IdentityStore cfg <> IdentityFile (cfg_p2p cfg) ->
  exists r s', runDaemon stop woke s = (r, s') /\ r <> Ret None /\
    fs_content (w_of s') (IdentityFile (cfg_p2p cfg)) = None.
Proof.
  intros Hc Hm Hne.
  destruct (first_run_fails currentHome get_world put_world engine0 net0 handle_of validator_of cfg [] s s1 Hc Hm Hne)
    as (r&s'&Hr&Hf&Hno).
  unfold runDaemon, gtry_e, gwrap, mbind, GoM_bind. rewrite Hr.
  destruct r as [[n|e]|]; [by destruct (Hno n)|..]; by do 2 eexists.
Qed.
End ServedNode.
End ServedNode.
