(* ===== verification/ApiDemo.v ===== *)
(** * The mail service on concrete nodes *)

From S2P Require Import Prelude Externals Text Cryptography Stream W3cDid Tx Chain Toy Identity IdentityDemo Comm CommClient.
From S2P Require Import Os Ipfs IpfsDemo IpfsOpen Config Validator ConsensusState ConsensusDemo DidHandler GenDemo.
From S2P Require Import Node NodeProps NodeDemo Api ApiProps ServedNode.

Module ApiDemo.
Import Cryptography Toy Stream Identity IdentityDemo CommMsg Comm CommClient Ipfs IpfsDemo IpfsOpen Validator.
Import GenDemo Node NodeProps NodeDemo Api ApiProps ServedNode.
#[local] Existing Instance range_asc.
#[local] Existing Instance ToyPebble.
#[local] Existing Instance ToyIpfs.

#[export] Instance EnvCommLib : CommLib Env := {|
  mail_Marshal m := Ok []; mail_Unmarshal b := Ok empty_Message;
  sha3_Sum512 b := b; sha3_Sum384 b := b; multihash_Encode b _ := Ok b;
  ed25519_sign_raw sk msg := msg;
  ecdsa_SignASN1 k h w := (Err (errorsNew "ecdsa"), w); ecdsa_VerifyASN1 k h sig := false;
  rsa_SignPKCS1v15 k h w := (Err (errorsNew "rsa"), w); rsa_VerifyPKCS1v15 k h sig := Some (errorsNew "rsa");
  rand_Read n w := (Ok (replicate n x05), w);
  time_Now e := (Z.of_nat (te_n e), tick e)
|}.

(** A request to one recipient, in the world of [chain_sys]. *)
Definition mail_to (to : list string) : EmSendRequest :=
  {| req_From := demo_name; req_To := to; req_Headers := None; req_Parts := [] |}.

Definition mail_world : Env := pr_env (sy_proc chain_sys).
Definition mail_api : ApiNode (W := Env) (I := unit) := api_of (fun _ w => ([], w)) node0.

Definition tmpl0 : Message :=
  match (template mail_api (mail_to ["b"%string]) mail_world).1 with Ret (Ok m) => m | _ => empty_Message end.

Lemma template_ok :
  match (template mail_api (mail_to ["b"%string]) mail_world).1 with Ret (Ok _) => true | _ => false end = true.
Proof. by_vm. Qed.

#[export] Instance EnvStream : NetStream Env unit := {|
  net_Read _ _ e := (([], None), e); net_Write _ b e := ((length b, None), e); net_Close _ e := (None, e) |}.
#[export] Instance EnvPeers : Peers Env unit := {|
  AddrInfo := string; ai_ID a := a;
  p2p_FindProvider _ w := (Ok [], w); p2p_Connect _ w := (None, w); p2p_Open p _ w := (Ok tt, w) |}.
#[export] Program Instance EnvSelect : Select := {| select_errs es := head es |}.
Next Obligation. intros [|x es] e; [done|]. intros [= ->]. left. Qed.
Next Obligation. intros [|x es]; [simpl; lia|done]. Qed.

Lemma template_run : template mail_api (mail_to ["b"%string]) mail_world =
  (Ret (Ok tmpl0), (template mail_api (mail_to ["b"%string]) mail_world).2).
Proof. apply run_fst. unfold tmpl0. pose proof template_ok as He. by destruct (template _ _ _) as [[[]|]]. Qed.

Lemma default_known : Forall known_option [WithDefaultOptions (X := unit) (H := nat) (VS := Ipfs.World) (N := unit)
  (W := Env) (V := gmap string CfgValue)].
Proof. constructor; [apply known_default|constructor]. Qed.

Lemma made_node_silent_witness :
  Send mail_api (mail_to ["b"%string]) mail_world (Ok {| resp_Errors := [] |}).
Proof.
  exact (made_node_silent home id (fun w _ => w) engine0 tt (fun _ => 0) (fun _ => MockValidator Ipfs.World)
    (fun _ w => ([], w)) [WithDefaultOptions] chain_sys started.2 node0 (mail_to ["b"%string]) mail_world _ tmpl0 default_known
    started_run template_run).
Defined.

(** The same node with a resolver that knows nobody but "b". *)
Definition knows_b : Resolver (W := Env) :=
  {| ResolvePI to w := (if bool_decide (to = "b"%string) then Ok None else Err (errorsNew "unknown"), w) |}.

Definition resolving_api : ApiNode (W := Env) (I := unit) := {|
  an_ID := an_ID mail_api; an_Resolver := Some knows_b;
  an_Comm := Some (CommClient.NewHandler None None); an_Peers := None |}.

Definition req_ab : EmSendRequest := mail_to ["a"; "b"]%string.

Lemma resolving_template_ok :
  match (template resolving_api req_ab mail_world).1 with Ret (Ok _) => true | _ => false end = true.
Proof. by_vm. Qed.

Definition tmpl1 : Message :=
  match (template resolving_api req_ab mail_world).1 with Ret (Ok m) => m | _ => empty_Message end.

Lemma resolving_template : template resolving_api req_ab mail_world =
  (Ret (Ok tmpl1), (template resolving_api req_ab mail_world).2).
Proof. apply run_fst. unfold tmpl1. pose proof resolving_template_ok as He. by destruct (template _ _ _) as [[[]|]]. Qed.

Definition answer : EmSendResponse :=
  {| resp_Errors := ["sending to b: sender identity missing"; "resolving recipient: unknown"]%string |}.

(** The goroutine of "b" overtakes the one of "a". *)
Lemma resolving_run : Send resolving_api req_ab mail_world (Ok answer).
Proof.
  eapply Send_resp; [exact resolving_template| |].
  - eapply rtc_l; [apply step_spawn|].
    eapply rtc_l; [apply step_spawn|]. simpl app.
    do 2 (eapply rtc_l; [eapply (step_go _ _ _ [_]); reflexivity|]; simpl app).
    eapply rtc_l; [eapply (step_go _ _ _ []); reflexivity|]. simpl app.
    do 3 (eapply rtc_l; [eapply (step_go _ _ _ [_]); reflexivity|]; simpl app).
    do 3 (eapply rtc_l; [eapply (step_go _ _ _ []); reflexivity|]; simpl app).
    eapply rtc_l; [by apply step_wait|]. apply rtc_refl.
  - done.
Qed.

Lemma send_reports_each_witness :
  exists es, Forall2 send_error ["a"; "b"]%string es /\ resp_Errors answer ≡ₚ Error <$> es.
Proof.
  exact (send_reports_each resolving_api knows_b (CommClient.NewHandler None None) req_ab mail_world answer
    eq_refl eq_refl resolving_run).
Defined.

Lemma send_responds_witness :
  1 <= 6 * length (req_To req_ab) + 1 /\
  exists st, is_Some (sd_resp st) \/ exists st', send_step resolving_api tmpl1 st st'.
Proof.
  refine (let H := send_responds resolving_api tmpl1 req_ab mail_world 1 _ _ in conj (proj1 H) (ex_intro _ _ (proj2 H))).
  eapply nsteps_l; [apply step_spawn|apply nsteps_O].
Defined.

Lemma daemon_first_run_witness :
  exists r s', runDaemon (I := unit) home (Ws := Ipfs.World) id (fun w _ => w) engine0 tt (fun _ => 0)
      (fun _ => MockValidator Ipfs.World) (fun _ w => ([], w)) (fun _ e => e) (fun e => e)
      (fun _ : StoreVal (X := unit) => mret None) WokeSignal fresh_sys = (r, s') /\ r <> Ret None /\
    fs_content (w_of s') (Config.IdentityFile (Config.cfg_p2p cfg0)) = None.
Proof.
  exact (daemon_first_run home id (fun w _ => w) engine0 tt (fun _ => 0) (fun _ => MockValidator Ipfs.World)
    (fun _ w => ([], w)) (fun _ e => e) (fun e => e) (fun _ => mret None) WokeSignal
    cfg0 fresh_sys fresh_sys (cfg_read ∅) id_file_missing stores_apart).
Defined.
End ApiDemo.
