(* ===== verification/Cli.v ===== *)
(** * internal/cli: the commands [em send] and [p2p peers]

    em.go and p2p.go.  A command reads its flags and files, calls the service of
    [Api] through its client and logs.  Flags are a record, the calls of the
    operating system and of the client are a class over the world, and the
    requests that reached the client are recorded. *)

From S2P Require Import Prelude Externals Text Identity Comm CommClient Api.

Class CliEnv (W : Type) := {
  (** [api.NewClient()] *)
  api_NewClient : W -> option error * W;
  (** [api.Em().Send(ctx, req)]: the client returns no response with an error *)
  client_Send : Api.EmSendRequest -> W -> result Api.EmSendResponse * W;
  client_Peers : W -> result (list string) * W;
  stdin_ReadAll : W -> result bytes * W;
  (** [ioutil.ReadFile]: what was read, also with an error *)
  ioutil_ReadFile : string -> W -> (bytes * option error) * W;
  (** [http.DetectContentType] *)
  http_DetectContentType : bytes -> string;
  json_Marshal : list string -> bytes
}.

Module Cli.
Import Text Identity CommMsg Api.

Record Flags := {
  fl_subject : string;
  fl_from : string;
  fl_to : list string;
  fl_header : list string;
  fl_file : list string;
  fl_stdin_split : string;
  fl_verbose : bool
}.

Section Cli.
Context {W : Type} `{!CliEnv W}.

(** The world, what was logged and printed, and the requests made. *)
Record CliSt := { cs_w : W; cs_log : list string; cs_out : bytes; cs_sent : list EmSendRequest }.
Notation M := (GoM CliSt).

Definition cs_world {A} (f : W -> A * W) : M A := fun s =>
  let (a, w) := f (cs_w s) in
  (Ret a, {| cs_w := w; cs_log := cs_log s; cs_out := cs_out s; cs_sent := cs_sent s |}).
Definition log (msg : string) : M unit := gmodify (fun s =>
  {| cs_w := cs_w s; cs_log := cs_log s ++ [msg]; cs_out := cs_out s; cs_sent := cs_sent s |}).
Definition print (b : bytes) : M unit := gmodify (fun s =>
  {| cs_w := cs_w s; cs_log := cs_log s; cs_out := cs_out s ++ b; cs_sent := cs_sent s |}).
Definition request (req : EmSendRequest) : M unit := gmodify (fun s =>
  {| cs_w := cs_w s; cs_log := cs_log s; cs_out := cs_out s; cs_sent := cs_sent s ++ [req] |}).

(** [d[:n]] for [n] at most the length, which never panics *)
Definition firstNBytes (d : bytes) (n : nat) : bytes :=
  let n := if decide (length d < n) then length d else n in take n d.

Definition detectMIME (b : bytes) : string := http_DetectContentType b.
Definition readPartFromFile (f : string) : M (bytes * option error) := cs_world (ioutil_ReadFile f).

Definition readPartsFromStdin (delim : bytes) : M (result (list bytes)) :=
  gtry (gwrap "reading stdin" (cs_world stdin_ReadAll)) (fun data =>
  mret (Ok (if bool_decide (length delim = 0) then [data] else bytes_Split data delim))).

(** The loop over the headers; [None]: the command returns. *)
Fixpoint add_headers (hs : list string) (m : gmap string string) : option (gmap string string) :=
  match hs with
  | [] => Some m
  | h :: hs =>
      match strings_SplitN h "=" 1 with
      | [k; v] => add_headers hs (<[k := v]> m)
      | _ => None
      end
  end.

Definition parts_of (datas : list bytes) : list EmSendPart :=
  (fun data => {| part_Mime := detectMIME data; part_Data := data |}) <$> datas.

(** The loop over the parts, with [readStdIn]: an error is logged and what was read
    is used; [None]: the command returns. *)
Fixpoint collect_parts (delim : bytes) (readStdIn : bool) (parts : list string) : M (option (list EmSendPart)) :=
  match parts with
  | [] => mret (Some [])
  | p :: parts =>
      let k readStdIn datas :=
        rest ← collect_parts delim readStdIn parts;
        mret (app (parts_of datas) <$> rest) in
      if bool_decide (p = "-"%string) then
        if readStdIn then log "stdin specified mulitple times and already read in";; mret None
        else
          r ← readPartsFromStdin delim;
          match r with
          | Ok datas => k true datas
          | Err _ => log "failed to read part";; k true []
          end
      else
        r ← readPartFromFile p;
        gwhen (bool_decide (is_Some r.2)) (log "failed to read part");;
        k readStdIn [r.1]
  end.

(** What [--verbose] logs of a part. *)
Definition part_preview (p : EmSendPart) : string :=
  string_of_bytes (firstNBytes
    (if bool_decide (bytes_of_string "application/octect-stream" `prefix_of` bytes_of_string (part_Mime p))
     then bytes_of_string (base64_EncodeToString (part_Data p)) else part_Data p) 20).

Fixpoint log_all (l : list string) : M unit :=
  match l with [] => mret tt | x :: l => log x;; log_all l end.

Definition headers_of (subject : string) : gmap string string :=
  if bool_decide (subject = ""%string) then ∅ else {["subject"%string := subject]}.

(** [resp.Errors] is read whether or not there is a response. *)
Definition runEmSend (f : Flags) : M unit :=
  err ← cs_world api_NewClient;
  match err with
  | Some _ => log "constructing client"
  | None =>
      match add_headers (fl_header f) (headers_of (fl_subject f)) with
      | None => log "header should have 2 logical parts"
      | Some headers =>
          parts ← collect_parts (bytes_of_string (fl_stdin_split f)) false (fl_file f);
          match parts with
          | None => mret tt
          | Some parts =>
              let req := {| req_From := fl_from f; req_To := fl_to f; req_Headers := Some headers;
                            req_Parts := parts |} in
              gwhen (fl_verbose f) (log "Sending email";; log_all (part_preview <$> parts));;
              request req;;
              r ← cs_world (client_Send req);
              resp ← match r with Ok resp => mret (Some resp) | Err _ => log "failed to send";; mret None end;
              resp ← gsome resp;
              log_all (resp_Errors resp)
          end
      end
  end.

Definition runP2PPeers : M unit :=
  err ← cs_world api_NewClient;
  match err with
  | Some _ => log "constructing client"
  | None =>
      r ← cs_world client_Peers;
      match r with
      | Err _ => log "fetching peers"
      | Ok peers => print (json_Marshal peers)
      end
  end.
End Cli.
End Cli.
