(* ===== verification/CliProps.v ===== *)
(** * Theorems on the command line, and on a mail from the prompt to its message *)

From S2P Require Import Prelude Externals Text Cryptography Stream Identity Comm CommClient Api Cli.

Module CliProps.
Import Text Identity CommMsg Comm CommClient Api Cli.

Section CliProps.
Context {W : Type} `{!CliEnv W}.
Notation CliSt := (CliSt (W := W)).

(** ** Headers *)

(** A header is never split: no more than one part is asked for. *)
Lemma add_headers_none h hs m : add_headers (h :: hs) m = None.
Proof. simpl. unfold strings_SplitN. by rewrite bytes_SplitN_1. Qed.

(** A mail with a header is not sent: the header is cut into at most one part
    where two are expected, whatever it says, so that the command logs and
    returns, and no request reaches the service. *)
Lemma header_aborts f (s : CliSt) :
  fl_header f <> [] ->
  exists s' msg, runEmSend f s = (Ret tt, s') /\ cs_sent s' = cs_sent s /\ cs_log s' = cs_log s ++ [msg].
Proof.
  intros Hh. unfold runEmSend, mbind, GoM_bind, cs_world. destruct (api_NewClient (cs_w s)) as [[e|] w].
  - by do 2 eexists.
  - destruct (fl_header f) as [|h hs]; [done|]. rewrite add_headers_none. by do 2 eexists.
Qed.

(** ** Sending *)

Lemma log_all_run l (s : CliSt) :
  exists s', log_all l s = (Ret tt, s') /\ cs_w s' = cs_w s /\ cs_sent s' = cs_sent s.
Proof.
  revert s. induction l as [|x l IH]; intros s; [by eexists|]. simpl.
  destruct (IH ((log x s).2)) as (s'&Hr&Hw&Hs). exists s'. by split_and!.
Qed.

(** A request that fails crashes the command: the response of a failed call is
    [nil], and its errors are read. *)
Lemma failed_send_panics f headers parts (s s1 s2 : CliSt) w e :
  let req := {| req_From := fl_from f; req_To := fl_to f; req_Headers := Some headers; req_Parts := parts |} in
  fl_verbose f = false -> add_headers (fl_header f) (headers_of (fl_subject f)) = Some headers ->
  cs_world api_NewClient s = (Ret None, s1) ->
  collect_parts (bytes_of_string (fl_stdin_split f)) false (fl_file f) s1 = (Ret (Some parts), s2) ->
  client_Send req (cs_w s2) = (Err e, w) ->
  (runEmSend f s).1 = Panic.
Proof.
  intros req Hv Hh Hc Hp Hs. unfold runEmSend, mbind, GoM_bind. rewrite Hc, Hh, Hp, Hv. simpl.
  unfold cs_world. simpl. fold req. by rewrite Hs.
Qed.

(** What is sent, when the client and the parts are there. *)
Lemma runEmSend_sent f headers parts (s s1 s2 : CliSt) :
  add_headers (fl_header f) (headers_of (fl_subject f)) = Some headers ->
  cs_world api_NewClient s = (Ret None, s1) ->
  collect_parts (bytes_of_string (fl_stdin_split f)) false (fl_file f) s1 = (Ret (Some parts), s2) ->
  cs_sent (runEmSend f s).2 = cs_sent s2 ++
    [{| req_From := fl_from f; req_To := fl_to f; req_Headers := Some headers; req_Parts := parts |}].
Proof.
  intros Hh Hc Hp. unfold runEmSend, mbind, GoM_bind. rewrite Hc, Hh, Hp.
  set (req := {| req_From := _ |}).
  assert (exists s3, gwhen (fl_verbose f) (log "Sending email";; log_all (part_preview <$> parts)) s2 = (Ret tt, s3) /\
    cs_sent s3 = cs_sent s2) as (s3&Hv&Hs3).
  { destruct (fl_verbose f); [|by eexists]. simpl.
    destruct (log_all_run (part_preview <$> parts) (log "Sending email" s2).2) as (s3&Hr&_&Hs). by exists s3. }
  unfold mbind, GoM_bind in Hv. rewrite Hv. simpl. unfold cs_world. simpl.
  destruct (client_Send req (cs_w s3)) as [[resp|e] w]; simpl; [|by rewrite Hs3].
  destruct (log_all_run (resp_Errors resp)
    {| cs_w := w; cs_log := cs_log s3; cs_out := cs_out s3; cs_sent := cs_sent s3 ++ [req] |}) as (s4&->&_&Hs4).
  simpl in *. by rewrite Hs4, Hs3.
Qed.
End CliProps.

Section Mail.
Context {W WS H I : Type} `{L : Lib} `{IL : IdLib} `{!CliEnv W} `{!CommLib WS} `{!NetStream WS H} `{!Peers WS H}.
Context `{!RangeOrder} `{!Select}.

Lemma template_parts (n : ApiNode (W := WS) (I := I)) req w w' m :
  template n req w = (Ret (Ok m), w') ->
  m_Body m = req_Headers req /\ at_Data <$> m_Attachments m = part_Data <$> req_Parts req /\
  at_MediaType <$> m_Attachments m = part_Mime <$> req_Parts req.
Proof.
  intros (ids&w1&_&Hr)%bind_inv. apply try_inv in Hr as (o&w2&_&Hr). apply bind_inv in Hr as (sk&w3&_&Hr).
  apply try_inv in Hr as (from&w4&_&Hr). apply bind_inv in Hr as (now&w5&_&Hr). injection Hr as <- _. simpl.
  by rewrite <- !list_fmap_compose.
Qed.

(** C31. From the prompt to the message: what [em send] reads from standard input
    and cuts at the delimiter is what the service attaches to the message.  One
    request is made, for the recipients and the sender that were given; its parts,
    joined by the delimiter, are the input, and no part contains the delimiter;
    and every message the service makes of it has these parts, with their detected
    types, and a body of the subject alone. *)
Theorem stdin_to_message f data (s : CliSt (W := W)) w1 w2 :
  let delim := bytes_of_string (fl_stdin_split f) in
  fl_header f = [] -> fl_file f = ["-"%string] -> fl_stdin_split f <> ""%string ->
  api_NewClient (cs_w s) = (None, w1) -> stdin_ReadAll w1 = (Ok data, w2) ->
  exists req, cs_sent (runEmSend f s).2 = cs_sent s ++ [req] /\
    req_To req = fl_to f /\ req_From req = fl_from f /\
    forall (n : ApiNode (W := WS) (I := I)) w w' m, template n req w = (Ret (Ok m), w') ->
      m_Body m = Some (headers_of (fl_subject f)) /\
      bytes_Join (at_Data <$> m_Attachments m) delim = data /\
      Forall (fun d => ~ exists a b, d = a ++ delim ++ b) (at_Data <$> m_Attachments m) /\
      at_MediaType <$> m_Attachments m = http_DetectContentType <$> (at_Data <$> m_Attachments m).
Proof.
  intros delim Hh Hf Hne Hc Hin.
  assert (delim <> []) as Hd.
  { intros Hd. apply Hne. by apply bytes_of_string_inj. }
  set (parts := parts_of (bytes_Split data delim)).
  assert (part_Data <$> parts = bytes_Split data delim) as Hparts.
  { unfold parts, parts_of. rewrite <- list_fmap_compose. apply list_fmap_id. }
  eexists. split_and!.
  - rewrite (runEmSend_sent f (headers_of (fl_subject f)) parts s
      {| cs_w := w1; cs_log := cs_log s; cs_out := cs_out s; cs_sent := cs_sent s |}
      {| cs_w := w2; cs_log := cs_log s; cs_out := cs_out s; cs_sent := cs_sent s |}).
    + done.
    + by rewrite Hh.
    + unfold cs_world. by rewrite Hc.
    + rewrite Hf. simpl. unfold readPartsFromStdin, gtry, gwrap, mbind, GoM_bind, cs_world. simpl. rewrite Hin. simpl.
      fold delim. rewrite bool_decide_eq_false_2; [|by destruct delim]. simpl. by rewrite app_nil_r.
  - done.
  - done.
  - intros n w w' m (Hb&Ha&Hm)%template_parts. simpl in *. split; [done|]. rewrite Ha, Hm, Hparts. split_and!.
    + by apply bytes_Split_join.
    + by apply bytes_Split_clear.
    + unfold parts, parts_of. by rewrite <- list_fmap_compose.
Qed.
End Mail.
End CliProps.
