(* ===== verification/Serve.v ===== *)
(** * The gRPC server and client, and the program's entry

    grpc.go, api.go and client.go of internal/api, cli.go, cmds.go and daemon.go
    of internal/cli, and cmd/main.go.  The server runs every call under an
    interceptor that recovers from panics; the entry builds the tree of commands
    and hands it to cobra, which is a parameter. *)

From S2P Require Import Prelude Externals Cryptography Stream Identity Comm CommClient Api ApiProps Cli.

(** google.golang.org/grpc, grpc_recovery and net *)
Class Grpc (W : Type) := {
  net_Listen : string -> W -> option error * W;
  grpc_Serve : W -> option error * W;
  grpc_GracefulStop : W -> W;
  grpc_Dial : string -> W -> option error * W;
  cc_Close : W -> option error * W;
  (** what the recovery interceptor answers for a panic *)
  recovery_error : error
}.

Module Serve.
Import Identity CommMsg Comm CommClient Api ApiProps Cli.

Section Server.
Context {W H I : Type} `{L : Lib} `{IL : IdLib} `{!CommLib W} `{!NetStream W H} `{!Peers W H}.
Context `{!RangeOrder} `{!Select} `{!Grpc W}.
Notation ApiNode := (ApiNode (W := W) (I := I)).

(** [newGRPCServer]: the interceptors around a call *)
Definition newGRPCServer {A} (call : GoM W (result A)) : GoM W (result A) :=
  grecover call (Err recovery_error).

Definition call_Peers (n : ApiNode) : GoM W (result (list string)) :=
  newGRPCServer (l ← Peers_ n; mret (Ok l)).

(** [Send] panics only before its loop; the goroutines recover by themselves. *)
Inductive call_Send (n : ApiNode) (req : EmSendRequest) (w : W) : result EmSendResponse -> Prop :=
| call_returns r : Send n req w r -> call_Send n req w r
| call_panics w' : template n req w = (Panic, w') -> call_Send n req w (Err recovery_error).

Definition ListenAndServe (l : string) : GoM W (option error) :=
  gcheck_e (world_act (net_Listen l)) (world_act grpc_Serve).

Definition Shutdown : GoM W (option error) :=
  world_act (fun w => (tt, grpc_GracefulStop w));; mret None.

(** [viper.GetString("daemon_addr")] is [addr]. *)
Definition NewClient (addr : string) : GoM W (option error) :=
  gwrap_e "connecting to daemon" (world_act (grpc_Dial addr)).

Definition Close : GoM W (option error) := world_act cc_Close.

(** A call of [Send] that has begun comes to its response. *)
Lemma send_completes (n : ApiNode) tmpl (st : Sending) :
  counted st -> exists st' r, rtc (send_step n tmpl) st st' /\ sd_resp st' = Some r.
Proof.
  induction (well_founded_ltof _ measure st) as [st _ IH]. intros Hc.
  destruct (sd_resp st) as [r|] eqn:Hr; [by exists st, r|].
  destruct (send_progress n tmpl st Hc Hr) as [st1 Hs].
  destruct (IH st1) as (st2&r&Hrun&Hresp).
  - unfold ltof. pose proof (send_step_measure n tmpl _ _ Hs). lia.
  - by eapply send_step_counted.
  - exists st2, r. split; [by eapply rtc_l|done].
Qed.

(** The server answers every call, of any node and with any request: no call
    brings it down. *)
Lemma calls_answered (n : ApiNode) :
  (forall w, exists r w', call_Peers n w = (Ret r, w')) /\
  (forall req w, exists r, call_Send n req w r).
Proof.
  split.
  - intros w. unfold call_Peers, newGRPCServer, grecover.
    destruct ((l ← Peers_ n; mret (Ok l)) w) as [[r|] w']; eauto.
  - intros req w. destruct (template n req w) as [[[tmpl|e]|] w'] eqn:Ht.
    + destruct (send_completes n tmpl (send_init req w')) as (st&r&Hrun&Hr).
      { apply (send_counted n tmpl req w'). constructor. }
      exists (Ok r). constructor. by eapply Send_resp.
    + exists (Err e). constructor. by eapply Send_err.
    + exists (Err recovery_error). by eapply call_panics.
Qed.
End Server.

(** ** The tree of commands *)

(** [cobra.Command]: [Run] has no result, [RunE] an error. *)
Inductive Run (S : Type) := NoRun | RunFn (f : GoM S unit) | RunE (f : GoM S (option error)).
Arguments NoRun {_}.
Arguments RunFn {_}.
Arguments RunE {_}.
Inductive Command (S : Type) := Cmd (use : string) (run : Run S) (subs : list (Command S)).
Arguments Cmd {_}.

Section Entry.
Context {S : Type} (runDaemon : GoM S (option error)) (runPeers runSend : GoM S unit).

Definition cmd_use (c : Command S) : string := let 'Cmd use _ _ := c in use.
Definition cmd_subs (c : Command S) : list (Command S) := let 'Cmd _ _ subs := c in subs.
Definition cmd_run (c : Command S) : Run S := let 'Cmd _ run _ := c in run.

Definition daemonCmd : Command S := Cmd "daemon" (RunE runDaemon) [].
Definition p2p_peersCmd : Command S := Cmd "peers" (RunFn runPeers) [].
Definition em_sendCmd : Command S := Cmd "send" (RunFn runSend) [].

(** [rootCmd] with what [regCommands] adds to it, to [emCmd] and to [p2pCmd] *)
Definition regCommands : Command S :=
  Cmd "didem" NoRun [daemonCmd; Cmd "p2p" NoRun [p2p_peersCmd]; Cmd "em" NoRun [em_sendCmd]].

(** The command that a sequence of names leads to *)
Fixpoint command_at (names : list string) (c : Command S) : option (Command S) :=
  match names with
  | [] => Some c
  | n :: names => ic ← list_find (fun c => cmd_use c = n) (cmd_subs c); command_at names ic.2
  end.

Definition run_command (c : Command S) : GoM S (option error) :=
  match cmd_run c with
  | NoRun => mret None
  | RunFn f => f;; mret None
  | RunE f => f
  end.

(** github.com/spf13/cobra, and viper's binding of flags *)
Class Cobra := {
  cobra_Execute : Command S -> list string -> GoM S (option error);
  viper_BindPFlag : string -> string -> option error
}.

(** [Execute] runs the command its arguments name, and returns its error. *)
Class CobraLaws `{!Cobra} : Prop := {
  cobra_Execute_names : forall root names c,
    command_at names root = Some c -> cmd_subs c = [] -> cobra_Execute root names = run_command c
}.

Context `{!Cobra}.

(** [args] are the arguments of the process. *)
Definition Execute (args : list string) : GoM S (option error) :=
  gcheck_e (mret (Wrap (viper_BindPFlag "verbose" "verbose") "binding pflag")) (
  gcheck_e (mret (Wrap (viper_BindPFlag "daemon_addr" "addr") "binding pflag")) (
  cobra_Execute regCommands args)).

(** The status of the process *)
Definition main (args : list string) : GoM S Z :=
  err ← Execute args; mret (match err with None => 0%Z | Some _ => 1%Z end).
End Entry.

Section Status.
Context {W : Type} `{!CliEnv W} (runDaemon : GoM (CliSt (W := W)) (option error)) (f : Flags).
Notation run_main := (main runDaemon runP2PPeers (runEmSend f)).
Context `{!Cobra (S := CliSt (W := W))} `{!CobraLaws (S := CliSt (W := W))}.
Context (bound : forall key flag, viper_BindPFlag key flag = None).

(** A command that failed exits with success: [p2p peers] and [em send] have no
    error to return, so the status is 0 also when the service cannot be reached
    or answers with an error; only that of [daemon] says whether it failed. *)
Lemma command_status (s : CliSt (W := W)) :
  (exists s', run_main ["p2p"; "peers"]%string s = (Ret 0%Z, s')) /\
  (forall s', runEmSend f s = (Ret tt, s') -> run_main ["em"; "send"]%string s = (Ret 0%Z, s')) /\
  (forall r s', runDaemon s = (Ret r, s') ->
    run_main ["daemon"%string] s = (Ret (match r with None => 0%Z | Some _ => 1%Z end), s')).
Proof.
  unfold main, Execute. rewrite !bound. cbn [Wrap]. go_unfold.
  split_and!.
  - rewrite (cobra_Execute_names _ _ (p2p_peersCmd runP2PPeers)) by done. unfold run_command, runP2PPeers. simpl.
    go_unfold. unfold cs_world. destruct (api_NewClient (cs_w s)) as [[e|] w]; [by eexists|]. simpl.
    destruct (client_Peers w) as [[l|e] w']; by eexists.
  - intros s' Hs. rewrite (cobra_Execute_names _ _ (em_sendCmd (runEmSend f))) by done. unfold run_command. simpl.
    go_unfold. by rewrite Hs.
  - intros r s' Hs. rewrite (cobra_Execute_names _ _ (daemonCmd runDaemon)) by done. unfold run_command. simpl.
    by rewrite Hs.
Qed.
End Status.
End Serve.
