(* ===== verification/CliDemo.v ===== *)
(** * The commands on a concrete prompt: standard input is fixed, files are missing
      and the service is down *)

From S2P Require Import Prelude Externals Text Cryptography Stream W3cDid Tx Chain Toy Identity IdentityDemo Comm CommClient.
From S2P Require Import Os Ipfs IpfsDemo IpfsOpen GenDemo Api ApiDemo Cli CliProps Serve.

Module CliDemo.
Import Text Toy Identity CommMsg Comm CommClient GenDemo Api ApiDemo Cli CliProps Serve.
#[local] Existing Instance range_asc.

Definition typed : bytes := bytes_of_string "one--two--three".

#[export] Instance Prompt : CliEnv unit := {|
  api_NewClient w := (None, w);
  client_Send _ w := (Err (errorsNew "unavailable"), w);
  client_Peers w := (Ok ["a"; "b"]%string, w);
  stdin_ReadAll w := (Ok typed, w);
  ioutil_ReadFile _ w := (([], Some (errorsNew "missing")), w);
  http_DetectContentType b := if bool_decide (b = []) then "application/octet-stream" else "text/plain; charset=utf-8";
  json_Marshal l := []
|}.

Definition prompt0 : CliSt (W := unit) := {| cs_w := tt; cs_log := []; cs_out := []; cs_sent := [] |}.

Definition flags (headers files : list string) : Flags := {|
  fl_subject := "hi"; fl_from := "me"; fl_to := ["you"%string]; fl_header := headers; fl_file := files;
  fl_stdin_split := "--"; fl_verbose := true |}.

Lemma header_aborts_witness :
  exists s' msg, runEmSend (flags ["cc=them"%string] []) prompt0 = (Ret tt, s') /\
    cs_sent s' = [] /\ cs_log s' = [msg].
Proof. by apply (header_aborts (flags ["cc=them"%string] []) prompt0). Defined.

Lemma stdin_to_message_witness :
  exists req, cs_sent (runEmSend (flags [] ["-"%string]) prompt0).2 = [req] /\
    req_To req = ["you"%string] /\ req_From req = "me"%string /\
    forall (n : ApiNode (W := Env) (I := unit)) w w' m, template n req w = (Ret (Ok m), w') ->
      m_Body m = Some (headers_of "hi") /\
      bytes_Join (at_Data <$> m_Attachments m) (bytes_of_string "--") = typed /\
      Forall (fun d => ~ exists a b, d = a ++ bytes_of_string "--" ++ b) (at_Data <$> m_Attachments m) /\
      at_MediaType <$> m_Attachments m = http_DetectContentType <$> (at_Data <$> m_Attachments m).
Proof. by apply (stdin_to_message (flags [] ["-"%string]) typed prompt0 tt tt). Defined.

(** The parts of the request, and the crash that follows the failed call. *)
Example typed_parts :
  (map part_Data ∘ req_Parts <$> cs_sent (runEmSend (flags [] ["-"%string]) prompt0).2,
   match (runEmSend (flags [] ["-"%string]) prompt0).1 with Ret _ => true | Panic => false end)
  = ([[bytes_of_string "one"; bytes_of_string "two"; bytes_of_string "three"]], false).
Proof. by_vm. Qed.

(** A second "-" ends the command before anything is sent. *)
Example stdin_twice : cs_sent (runEmSend (flags [] ["-"; "-"]%string) prompt0).2 = [].
Proof. by_vm. Qed.

(** The entry, with a cobra that knows names only *)
#[local] Instance NamesCobra : Cobra (S := CliSt (W := unit)) := {|
  cobra_Execute root names :=
    match command_at names root with
    | Some c => run_command c
    | None => mret (Some (errorsNew "unknown command"))
    end;
  viper_BindPFlag _ _ := None
|}.

#[local] Instance NamesCobraLaws : CobraLaws (S := CliSt (W := unit)).
Proof. split. intros root names c Hc _. simpl. by rewrite Hc. Qed.

Lemma command_status_witness :
  main (mret (Some (errorsNew "down"))) runP2PPeers (runEmSend (flags ["cc=them"%string] [])) ["daemon"%string] prompt0
    = (Ret 1%Z, prompt0).
Proof.
  exact (proj2 (proj2 (command_status (mret (Some (errorsNew "down"))) (flags ["cc=them"%string] [])
    (fun _ _ => eq_refl) prompt0)) (Some (errorsNew "down")) prompt0 eq_refl).
Defined.
End CliDemo.
